(* ===== verification/_CoqProject ===== *)
-Q . S2P
Prelude.v
Value.v
Control.v
Evaluation.v
EvalResult.v
Application.v
Pipeline.v
Json.v
Codec.v
Protocol.v
Policy.v
Schema.v
Store.v
Lease.v
StoreLemmas.v
StoreInv.v
Migration.v
StoreSteps.v
StoreWrites.v
StoreSystem.v
StoreRuns.v
StoreDisturbed.v
StoreRecover.v
StoreRequeue.v
ProtocolLaws.v
StoreProgress.v
Fixtures.v
PropStore.v
PropDomain.v
Text.v
Guest.v
GuestLaws.v
Evaluator.v
Effects.v
Firecracker.v
HttpApi.v
Host.v
Machine.v
MachineLaws.v
Executor.v
ExecutorLaws.v
Agent.v
AgentLaws.v
Session.v
StorePort.v
ControlPlane.v
Startup.v
Worker.v
JudgeNode.v
Cli.v
Messages.v
PlaneLaws.v
StartupLaws.v
PlaneSystem.v
PlaneProgress.v
PlaneQueue.v
PlaneRecovery.v
PlaneFixtures.v
PropPlane.v
PropSystem.v
PropProcess.v
