(* ===== verification/Prelude.v ===== *)
(** * OpenOJ: a verification library for the judging system

    OpenOJ evaluates submissions of an online judge. The control plane keeps
    every Evaluation and its Attempts in PostgreSQL and leases attempts to judge
    nodes; a judge node claims an attempt over a Unix socket, boots a microVM for
    it, drives the agent inside the guest through the stages of the evaluation
    plan and submits a canonical result under its lease. This library models the
    Rust code of every part under [src/crates] and [src/apps] as executable
    definitions and proves what makes the parts, and their composition, correct.

    ** Reading order

    Foundations.
    - [Prelude] (this file): Rust's [Result] and [?], integers with their widths,
      strings as bytes, the class [Valid] of type invariants, the tactics
      [inv_ok], [split_bools] and the hints the other files use.
    - [Text]: the [str] and [Path] methods of the standard library the adapters
      call. [Json]: [serde_json::Value]. [Codec]: the codec interface between the
      protocol and its clients. [Effects]: fallible computations over a state.

    The domain and the pipeline ([crates/openoj-domain],
    [crates/openoj-application]).
    - [Value], [Control], [Evaluation], [EvalResult]: identifiers, digests,
      capabilities, artifacts ([value.rs], [artifact.rs], [error.rs]), time and
      lifecycles ([control.rs]), requests, policies, usage, reports and results
      ([evaluation.rs]).
    - [Application]: [evaluate] and [EvaluationRun] over the class
      [StageExecutor]; [Pipeline]: the abstract execution it refines.
    - [Policy]: [application/src/control.rs], the commands, policies and errors
      of the control plane.

    The wire protocol ([crates/openoj-protocol]): [Protocol] and [ProtocolLaws],
    which discharge the laws of [Codec].

    The store ([crates/openoj-storage]).
    - [Schema]: the two migrations as tables, constraints and statements;
      [Store]: [create.rs], [read.rs], [model.rs]; [Lease]: [lease.rs],
      [terminal.rs]; [Migration]: [migration.rs] and what its scripts do to rows.
    - [StoreInv], [StoreLemmas], [StoreSteps], [StoreWrites]: the invariant of the
      tables and what each transaction does to them; [StoreSystem]: concurrent
      callers; [StoreDisturbed]: one operation among them, and what it wrote;
      [StoreRuns], [StoreRecover], [StoreProgress]: what the operations answer; [StoreRequeue]: what a whole recovery makes of every evaluation;
      [StorePort]: the trait [EvaluationStore] with its laws, its client
      [ControlPlane] and the implementation of [lib.rs].

    The guest ([crates/openoj-guest-protocol], [openoj-evaluator],
    [openoj-guest-agent]): [Guest] and [GuestLaws] (frames and messages),
    [Evaluator] (reports as domain outcomes), [Agent] and [AgentLaws].

    The microVM ([crates/openoj-firecracker]): [Firecracker] ([config.rs],
    [lifecycle.rs]), [HttpApi] ([api.rs]), [Host] (the operating system as an
    interface), [Machine] ([vsock.rs], [machine.rs]) and [MachineLaws].

    The node and the service ([crates/openoj-judge-core],
    [openoj-judge-protocol], [apps/openoj-judge-node],
    [apps/openoj-control-plane], [apps/openoj-cli]): [Executor] and [ExecutorLaws]
    ([firecracker_executor.rs]), [Worker], [ControlPlane], [Startup] ([main.rs] of
    the control plane) and [StartupLaws], [JudgeNode], [Cli]; [Messages]: the texts
    of the error types and what they disclose; [PlaneLaws], [PlaneSystem] and
    [PlaneProgress] compose client, service, store and worker; [PlaneQueue] follows
    the worker's loop over a whole queue, [PlaneRecovery] over what a sweep put back
    in it; [Session] composes the executor with the agent in its machine.

    [Fixtures] and [PlaneFixtures] are the closed worlds in which the witnesses
    evaluate; [PropStore], [PropDomain], [PropPlane], [PropSystem] and
    [PropProcess] state the properties.

    ** How the parts interact in the model

    A store operation ([Store.Op]) is a sequence of transactions on the tables
    [Schema.Db] with entropy draws between them. [StoreSystem] interleaves the
    operations of any number of callers at those transactions. A handler of the
    service ([ControlPlane.Rpc]) is an operation that answers a message or a gRPC
    status; a client call ([JudgeNode.client_claim] and the others) is the handler
    under a [Delivery], which may lose the request or the reply. [PlaneSystem]
    runs the worker's calls with arbitrary lawful steps of others between them.
    The worker's executor is any [JudgeExecutor]; [JudgeNode.firecracker_judge] is
    the one the program runs, [Application.evaluate] over the instance
    [Executor.firecracker_stages] of [StageExecutor]. The executor's state is the
    executor and the world of [HostOs]; the agent runs over a world of [GuestOs].
    The two meet in the messages of [Guest]: what the agent reports
    ([Agent.stage_output]) is what the executor turns into an outcome
    ([Evaluator.execution_for_stage_output]). [Session] puts both into one world:
    [Joint] is a host whose guest channel leads to an agent. The agent listens
    from the start of a machine, takes one connection, serves a frame of it
    whenever the host waits for one, for at most the channel's read timeout, and
    ends with the connection or with its first error; an agent that hangs in a
    read leaves the host to its timeout.

    A command line ([Cli.cli_run]) is an operation of the store too, or a migration
    of the database ([Migration.Deployed]) it is given.

    ** What is proved

    - The program as a whole ([PropSystem]): an attempt comes to the verdict that
      the exit codes of its guest's commands earn ([attempt_judges_commands]), a
      build that outlasts the channel's timeout is a system error
      ([slow_build_fails]), a submission to an idle deployment ends with the
      executor's result stored and shown ([submission_judged],
      [guest_verdict_stored]), and one whose node crashed is judged by the next
      ([crashed_attempt_rejudged]). The loop of a node drains its queue, oldest
      first, each task once ([queue_drained]), and with a tick of the sweeper before
      it answers also every evaluation that any number of crashed nodes gave up
      ([crashes_lose_nothing]); these two assume timely calls without others between
      them, [worker_submission_stored] what holds when calls are lost or
      interleaved.
    - The store, in every reachable state of concurrent callers: the invariant of
      the tables, first terminal wins, forward-only lifecycles, exclusive leases
      ([store_invariant], [terminal_is_final], [rows_follow_lifecycles],
      [leased_exclusively]); the exact effect and answer of each operation on each
      branch ([create_fresh], [create_replay], [claim_oldest_compatible],
      [claim_replay], [submit_under_lease], [submit_fenced],
      [cancel_terminal], [renew_leased], [retry_fenced], [status_exact]); the
      termination of the recovery loop ([recovery_complete]).
    - The pipeline refines its abstract execution, and the constructors, parsers
      and documents accept exactly their contracts ([PropDomain]).
    - The execution plane ([PropPlane]): attempts are isolated and their verdicts
      characterised; a terminated machine leaves no process, and a handle that is
      merely dropped leaves at most one that was sent a kill ([vm_reclaimed]); the
      guest channel opens for a guest that comes up; frames round-trip; the agent's
      reports are what the host accepts; what becomes of each message of the host,
      and when one has no answer ([agent_commands_end]); uploads stay in their
      directory, up to the name that stands for it ([uploads_confined]); negotiation agrees on the deployment's policy; client calls
      refine the store's operations; a reported submission is stored.
    - The processes ([PropProcess]): the control plane starts fail-closed and in
      order ([startup_fails_closed]), a listed node joins it and the two then form
      a deployment in the sense of the theorems above ([node_joins_deployment]),
      the sweeper leaves no expired lease ([sweeper_recovers]); and what a command
      of the command line leaves behind, on its own, among other callers and when
      its connection is lost ([cli_line_stands]), a migration losing no row
      ([Migration.store_migrate_outcome], [Migration.upgrade_restores]). The parsers
      of external text never repeat it in an error ([Messages.parsers_silent]).

    Several theorems show that the code does not do what it means to: an answer
    after recovery is decoded from a NULL node ([stale_owner_after_recovery]), a
    request without capabilities can never be created
    ([create_without_capabilities]), a line of stderr between the domain's and the
    guest protocol's bound fails the stage ([agent_report_admitted]), a build may
    take longer than the host waits for its report ([slow_build_fails]), a
    recovery interval of zero is accepted and stops the sweeper
    ([sweeper_recovers]), a lease that ran out is renewed where the design asks for
    a refusal ([renew_leased]), an upload named by a dot passes both checks of
    names and ends the session ([uploads_confined]), a process that a command left
    behind with its pipes open hangs the agent outside every budget
    ([agent_commands_end]), and a submission that answers an error may have been
    recorded ([submission_error_recorded]).

    ** Bounds and fuel

    Integers are [Z] with the range of their Rust type in [Valid] or written at
    the conversion ([u64_max], [u32_max], [i32]); [usize] has 64 bits. Checked,
    saturating and wrapping operations are written out.
    - [recover_expired] takes fuel; one more than the number of expired leases is
      enough ([StoreRecover]), and for every tick of the sweeper one more than the
      number of evaluations.
    - [retry_loop] and [wait_loop] take [retry_fuel wait poll], one round per poll
      interval and two more: time advances by at least a poll interval per round
      until the deadline ([retry_loop_terminates], [wait_loop_ends]).
    - [read_line] takes the backlog of the stream and one more; that a peer has a
      finite backlog between two timeouts is a law of [HostOs].
    - [wait_rounds] takes [retry_fuel budget WAIT_POLL], and more changes nothing
      ([wait_with_timeout_spec]); [read_pipe_loop] one round per byte of its limit
      and two more, since every round but the last two keeps a byte. A read of a
      pipe that does not return is an outcome of its own ([AgentHalt.Blocked]).
    - [Agent.serve] and [Worker.run_loop] do not end by themselves; they are
      modelled for a given number of frames or of operations.

    ** Assumptions

    Code outside [src/] is a parameter, with what is relied on as a class of
    laws: [SerdeJson] (the JSON text form round-trips on values without floats),
    [CanonicalSchema] (the compiled JSON schema and the generated wire types),
    [Collation] (PostgreSQL's order of text), [UnicodeText] (Unicode tables),
    [Sha256] (digests of 32 bytes), [HostOs], [GuestOs] and [SocketFs] (processes,
    files, clocks and sockets), [TokioRuntime] (where a blocking call runs). The
    operating system's laws say that time does not go back, that sleeping takes
    its time, that only [spawn] starts processes, that a process is gone once it
    was killed and waited for, and that one that was only signalled counts as such
    until it is gone; the signal is refused for reaped children alone. The guest's
    reads of a pipe may block for ever; its other calls return.
    [SchemaStoreLaws] says what [sqlx]'s migrator documents: migrations are applied
    in order, each in a transaction of its own, up to the first error. In [Session] the vsock proxy keeps the first line of a connection and
    its own reply to it and passes the bytes after them on unchanged, and a guest
    that sends nothing lets the host's read time out. The fixtures give each a concrete instance.

    PostgreSQL transactions are taken as atomic and serialised at their commit:
    the code locks the rows it reads before writing, and rows locked by others
    are what [FOR UPDATE SKIP LOCKED] leaves out. A lost connection answers
    [Unavailable] before or after the commit. Reading a row fails as the decoder
    of its column type does.

    ** Not modelled

    - The tonic server and channel: the encoding of messages, message size
      limits, concurrency limits and shutdown. A transport error is a status of a
      [Delivery].
    - [sqlx] pooling; the table in which the migrator records what it applied is
      the list [dp_applied]. The PL/pgSQL function that reads the capabilities of a
      stored request for the second migration is evaluated by the database
      ([CapabilityExtraction]).
    - What the main functions print and the exit codes they end with; their [run]
      is modelled ([control_plane_run], [node_run], [cli_run]). The spawned sweeper
      is modelled beside the server by the readings its ticks take ([sweeper]), and
      the server of a start as a step that ends ([server_ends]).
    - The text of operating-system errors, which is a parameter, and the exact
      text of messages that quote non-ASCII bytes of a peer.
    - Memory exhaustion and panics of the allocator. *)

From stdpp Require Export base tactics option list gmap strings.
From Stdlib Require Export Ascii ZArith Lia.


(** ** Results and the [?] operator *)

Inductive result (E A : Type) : Type :=
  | Ok (a : A)
  | Err (e : E).

Arguments Ok {E A} a.
Arguments Err {E A} e.

#[export] Instance result_eq_dec {E A} `{EqDecision E} `{EqDecision A} :
  EqDecision (result E A).
Proof. solve_decision. Defined.

#[global] Open Scope string_scope.
#[global] Open Scope list_scope.

Declare Scope result_scope.
Delimit Scope result_scope with result.
#[global] Open Scope result_scope.

(** Rust's [expr?]: continue with the value, or return the error. *)
Definition rbind {E A B : Type} (m : result E A) (k : A -> result E B) : result E B :=
  match m with
  | Ok a => k a
  | Err e => Err e
  end.

Definition rmap {E A B : Type} (f : A -> B) (m : result E A) : result E B :=
  match m with
  | Ok a => Ok (f a)
  | Err e => Err e
  end.

Definition map_err {E F A : Type} (f : E -> F) (m : result E A) : result F A :=
  match m with
  | Ok a => Ok a
  | Err e => Err (f e)
  end.

Definition ok_or {E A : Type} (e : E) (o : option A) : result E A :=
  match o with
  | Some a => Ok a
  | None => Err e
  end.

(** [Result::ok]. *)
Definition to_option {E A : Type} (m : result E A) : option A :=
  match m with
  | Ok a => Some a
  | Err _ => None
  end.

Definition is_ok {E A : Type} (m : result E A) : bool :=
  match m with
  | Ok _ => true
  | Err _ => false
  end.

Notation "'let*' x ':=' m 'in' k" := (rbind m (fun x => k))
  (at level 10, x pattern, m at level 100, k at level 200)
  : result_scope.
Notation "'try*' m 'in' k" := (rbind m (fun _ : unit => k))
  (at level 10, m at level 100, k at level 200)
  : result_scope.

(** [iter().map(f).collect::<Result<Vec<_>, _>>()]: left to right, first error
    wins. *)
Fixpoint traverse {E A B : Type} (f : A -> result E B) (l : list A) : result E (list B) :=
  match l with
  | [] => Ok []
  | a :: l' =>
      let* b := f a in
      let* bs := traverse f l' in
      Ok (b :: bs)
  end.


Lemma rbind_Ok_inv {E A B : Type} (m : result E A) (k : A -> result E B) (b : B) :
  rbind m k = Ok b -> exists a, m = Ok a /\ k a = Ok b.
Proof. destruct m; simpl; [eauto | discriminate]. Qed.

Lemma map_err_Ok_inv {E F A : Type} (f : E -> F) (m : result E A) (a : A) :
  map_err f m = Ok a -> m = Ok a.
Proof. by destruct m; simpl; intros; simplify_eq. Qed.

Lemma rmap_Ok_inv {E A B : Type} (f : A -> B) (m : result E A) (b : B) :
  rmap f m = Ok b -> exists a, m = Ok a /\ b = f a.
Proof. destruct m; simpl; intros; simplify_eq; eauto. Qed.

Lemma ok_or_Ok_inv {E A : Type} (e : E) (o : option A) (a : A) :
  ok_or e o = Ok a -> o = Some a.
Proof. by destruct o; simpl; intros; simplify_eq. Qed.

Lemma traverse_Ok {E A B : Type} (f : A -> result E B) (l : list A) (bs : list B) :
  traverse f l = Ok bs <-> Forall2 (fun a b => f a = Ok b) l bs.
Proof.
  revert bs; induction l as [|a l IH]; intros bs; simpl.
  - split; [intros [= <-]; constructor | by inversion 1].
  - split.
    + intros (b & Hb & H)%rbind_Ok_inv.
      apply rbind_Ok_inv in H as (bs' & Hbs & [= <-]).
      constructor; [done | by apply IH].
    + inversion 1 as [|? b ? bs' Hb Hbs]; subst; rewrite Hb; simpl.
      by rewrite (proj2 (IH _) Hbs).
Qed.

Lemma traverse_length {E A B : Type} (f : A -> result E B) (l : list A) (bs : list B) :
  traverse f l = Ok bs -> length bs = length l.
Proof. intros H%traverse_Ok. by apply Forall2_length in H. Qed.

Lemma traverse_Err {E A B : Type} (f : A -> result E B) (l : list A) (e : E) :
  traverse f l = Err e -> exists a, a ∈ l /\ f a = Err e.
Proof.
  induction l as [|a l IH]; simpl; [discriminate|].
  destruct (f a) as [b|e'] eqn:Hfa; simpl.
  - destruct (traverse f l) as [bs|e'']; simpl; [discriminate|].
    intros [= ->]. destruct IH as (x & Hx & Hfx); [done|].
    exists x. split; [by right | done].
  - intros [= ->]. exists a. split; [left | done].
Qed.

(** Inverting a definition that returned a value: [inv_ok] splits every
    [let*], [map_err], [ok_or] and guard of a hypothesis [_ = Ok _]. *)
Ltac inv_ok_step :=
  match goal with
  | H : rbind _ _ = Ok _ |- _ =>
      apply rbind_Ok_inv in H; destruct H as (? & ? & H)
  | H : map_err _ _ = Ok _ |- _ => apply map_err_Ok_inv in H
  | H : rmap _ _ = Ok _ |- _ =>
      apply rmap_Ok_inv in H; destruct H as (? & H & ?)
  | H : ok_or _ _ = Ok _ |- _ => apply ok_or_Ok_inv in H
  | H : Ok _ = Ok _ |- _ => injection H as H; subst
  | H : Err _ = Ok _ |- _ => discriminate H
  | H : (if ?c then Err _ else _) = Ok _ |- _ =>
      let Hc := fresh "Hguard" in
      destruct c eqn:Hc; [discriminate H|]
  | H : (if ?c then _ else Err _) = Ok _ |- _ =>
      let Hc := fresh "Hguard" in
      destruct c eqn:Hc; [|discriminate H]
  end.

Ltac inv_ok := repeat inv_ok_step.

(** Splitting conjunctions of boolean guards. *)
Ltac split_bools :=
  repeat match goal with
  | H : (_ && _)%bool = true |- _ => apply andb_true_iff in H; destruct H
  | H : (_ || _)%bool = false |- _ => apply orb_false_iff in H; destruct H
  | H : negb _ = true |- _ => apply negb_true_iff in H
  | H : negb _ = false |- _ => apply negb_false_iff in H
  | H : bool_decide _ = true |- _ => apply bool_decide_eq_true in H
  | H : bool_decide _ = false |- _ => apply bool_decide_eq_false in H
  | H : (_ <? _)%Z = true |- _ => apply Z.ltb_lt in H
  | H : (_ <? _)%Z = false |- _ => apply Z.ltb_ge in H
  | H : (_ <=? _)%Z = true |- _ => apply Z.leb_le in H
  | H : (_ <=? _)%Z = false |- _ => apply Z.leb_gt in H
  | H : (_ =? _)%Z = true |- _ => apply Z.eqb_eq in H
  | H : (_ =? _)%Z = false |- _ => apply Z.eqb_neq in H
  end.

(** ** Machine integers

    Unsigned and signed machine integers are values of [Z]; the range a Rust
    type imposes is an explicit predicate, and arithmetic that could leave the
    range is written with its overflow behaviour. *)

Definition u8_max : Z := 255.
Definition u32_max : Z := 4294967295.
Definition u64_max : Z := 18446744073709551615.
Definition i64_max : Z := 9223372036854775807.
Definition i32_min : Z := -2147483648.
Definition i32_max : Z := 2147483647.

Definition is_u8 (z : Z) : Prop := (0 <= z <= u8_max)%Z.
Definition is_u32 (z : Z) : Prop := (0 <= z <= u32_max)%Z.
Definition is_u64 (z : Z) : Prop := (0 <= z <= u64_max)%Z.
Definition is_i32 (z : Z) : Prop := (i32_min <= z <= i32_max)%Z.

(** [u64::checked_add] and [u32::checked_add]. *)
Definition u64_checked_add (a b : Z) : option Z :=
  if (a + b <=? u64_max)%Z then Some (a + b)%Z else None.
Definition u32_checked_add (a b : Z) : option Z :=
  if (a + b <=? u32_max)%Z then Some (a + b)%Z else None.

(** [u64 +] as compiled without overflow checks. *)
Definition u64_wrapping_add (a b : Z) : Z := ((a + b) mod (u64_max + 1))%Z.

(** [i64::try_from(u64)] and [u32::try_from(u64)] ([u32::try_from(i64)]). *)
Definition i64_try_from {E : Type} (e : E) (v : Z) : result E Z :=
  if (v <=? i64_max)%Z then Ok v else Err e.
Definition u32_try_from {E : Type} (e : E) (v : Z) : result E Z :=
  if ((0 <=? v) && (v <=? u32_max))%Z then Ok v else Err e.

(** [(lo..=hi).contains(&v)]. *)
Definition in_range (lo hi v : Z) : bool := ((lo <=? v) && (v <=? hi))%Z.

Lemma in_range_true (lo hi v : Z) : in_range lo hi v = true <-> (lo <= v <= hi)%Z.
Proof. unfold in_range. rewrite andb_true_iff, !Z.leb_le. done. Qed.

Lemma in_range_false (lo hi v : Z) :
  in_range lo hi v = false <-> (v < lo \/ hi < v)%Z.
Proof. unfold in_range. rewrite andb_false_iff, !Z.leb_gt. done. Qed.

(** ** Type invariants

    The fields of the domain types are private to their module in Rust, so
    every value of such a type satisfies what its constructors establish. The
    models are plain records; [Valid] is the class of those invariants. *)

Class Valid (A : Type) := valid : A -> Prop.
#[export] Hint Mode Valid ! : typeclass_instances.

#[export] Instance valid_list {A} `{Valid A} : Valid (list A) := Forall valid.
#[export] Instance valid_option {A} `{Valid A} : Valid (option A) :=
  fun o => match o with Some a => valid a | None => True end.

(** ** Lists *)

(** [iter().position(p)]. *)
Fixpoint position {A : Type} (p : A -> bool) (l : list A) : option nat :=
  match l with
  | [] => None
  | a :: l' => if p a then Some 0 else option_map S (position p l')
  end.

Lemma position_Some {A : Type} (p : A -> bool) (l : list A) (i : nat) :
  position p l = Some i <->
  exists pre x post, l = pre ++ x :: post /\ length pre = i /\ p x = true /\
                     Forall (fun y => p y = false) pre.
Proof.
  revert i; induction l as [|a l IH]; intros i; simpl.
  { split; [done|]. by intros ([]&?&?&?&?). }
  destruct (p a) eqn:Ha.
  - split.
    + intros [= <-]. by exists [], a, l.
    + intros (pre & x & post & Hl & <- & Hx & Hpre).
      destruct pre; simplify_eq/=; [done|]. inversion Hpre; congruence.
  - split.
    + destruct (position p l) as [j|]; [|done]. intros [= <-].
      destruct (proj1 (IH j) eq_refl) as (pre & x & post & -> & <- & Hx & Hpre).
      exists (a :: pre), x, post. repeat split; auto.
    + intros (pre & x & post & Hl & <- & Hx & Hpre).
      destruct pre as [|b pre]; simplify_eq/=; [congruence|].
      inversion Hpre; subst.
      rewrite (proj2 (IH (length pre))); [done|]. by exists pre, x, post.
Qed.

Lemma position_None {A : Type} (p : A -> bool) (l : list A) :
  position p l = None <-> Forall (fun y => p y = false) l.
Proof.
  induction l as [|a l IH]; simpl; [done|]. destruct (p a) eqn:Ha.
  - split; [done|]. inversion 1; congruence.
  - destruct (position p l); simpl; split; try done.
    + inversion 1; subst. by discriminate (proj2 IH).
    + intros _. constructor; [done|]. by apply IH.
Qed.

Lemma existsb_false {A : Type} (p : A -> bool) (l : list A) :
  existsb p l = false <-> Forall (fun y => p y = false) l.
Proof.
  induction l as [|a l IH]; simpl; [done|].
  rewrite orb_false_iff, IH. split; [by intros []; constructor | by inversion 1].
Qed.

Lemma drop_S_middle {A : Type} (pre post : list A) (x : A) :
  drop (S (length pre)) (pre ++ x :: post) = post.
Proof. induction pre; simpl; [by rewrite drop_0 | done]. Qed.

Lemma drop_cons_next {A : Type} (l : list A) (i : nat) (x : A) (r : list A) :
  drop i l = x :: r -> drop (i + 1) l = r.
Proof. intros H. by rewrite <- drop_drop, H. Qed.

Lemma take_middle {A : Type} (pre post : list A) : take (length pre) (pre ++ post) = pre.
Proof. by rewrite take_app_length. Qed.

(** ** Byte strings

    A Rust [String] is its sequence of UTF-8 bytes, a Rocq [string]. *)

(** The code of a byte. *)
Definition byte_code (c : Ascii.ascii) : Z := Z.of_N (Ascii.N_of_ascii c).

Definition str_len (s : string) : Z := Z.of_nat (String.length s).

Fixpoint str_all (p : Ascii.ascii -> bool) (s : string) : bool :=
  match s with
  | EmptyString => true
  | String c s' => p c && str_all p s'
  end.

Definition is_empty (s : string) : bool :=
  match s with
  | EmptyString => true
  | String _ _ => false
  end.

Lemma is_empty_true (s : string) : is_empty s = true <-> s = EmptyString.
Proof. by destruct s. Qed.

(** [char] and [u8] classification from Rust's [is_ascii_*]. *)
Definition is_ascii_digit (c : Ascii.ascii) : bool := in_range 48 57 (byte_code c).
Definition is_ascii_uppercase (c : Ascii.ascii) : bool := in_range 65 90 (byte_code c).
Definition is_ascii_lowercase (c : Ascii.ascii) : bool := in_range 97 122 (byte_code c).
Definition is_ascii_alphanumeric (c : Ascii.ascii) : bool :=
  is_ascii_digit c || is_ascii_uppercase c || is_ascii_lowercase c.

(** [matches!(byte, b'..' | ...)]: membership in a set of bytes. *)
Definition one_of (set : string) (c : Ascii.ascii) : bool :=
  existsb (Ascii.eqb c) (String.list_ascii_of_string set).

Lemma str_all_app (p : Ascii.ascii -> bool) (s t : string) :
  str_all p (s +:+ t) = str_all p s && str_all p t.
Proof.
  induction s as [|c s IH]; simpl; [done|].
  change (String.append s t) with (s +:+ t). rewrite IH. by rewrite andb_assoc.
Qed.

Lemma str_all_impl (p q : Ascii.ascii -> bool) (s : string) :
  (forall c, p c = true -> q c = true) -> str_all p s = true -> str_all q s = true.
Proof.
  intros Hpq. induction s as [|c s IH]; simpl; [done|].
  intros [Hc Hs]%andb_true_iff. by rewrite (Hpq c Hc), (IH Hs).
Qed.

Lemma str_len_app (s t : string) : str_len (s +:+ t) = (str_len s + str_len t)%Z.
Proof.
  unfold str_len. induction s as [|c s IH]; simpl; [done|].
  change (String.append s t) with (s +:+ t). lia.
Qed.

Lemma app_inj_l (p s t : string) : p +:+ s = p +:+ t -> s = t.
Proof. induction p as [|c p IH]; [done|]. intros [= Heq]. by apply IH. Qed.

Lemma str_len_nonneg (s : string) : (0 <= str_len s)%Z.
Proof. unfold str_len; lia. Qed.

(** ** Hint databases

    [openoj] holds the introduction lemmas of the type invariants, [openoj_rw]
    the equations of the components. *)
Create HintDb openoj.
Create Rewrite HintDb openoj_rw.
#[export] Hint Rewrite @str_all_app @str_len_app : openoj_rw.

Ltac solve_valid := eauto 12 with openoj.
