(* ===== verification/Value.v ===== *)
(** * Validated domain values

    Models [crates/openoj-domain/src/error.rs], [value.rs] and [artifact.rs]:
    the domain error, the bounded opaque identifiers, keys, digests, tokens and
    codes, media types and artifact references. Every wrapper is a record over
    the byte string it holds; its [Valid] instance is the invariant its private
    field has in Rust, and [*_parse_iff] says that parsing accepts exactly the
    valid values and returns the string unchanged. *)

From S2P Require Import Prelude.

(** ** [DomainError] *)

Inductive DomainError : Type :=
  | Empty (field : string)
  | TooLong (field : string) (maximum actual : Z)
  | InvalidFormat (field reason : string)
  | OutOfRange (field : string) (minimum maximum actual : Z)
  | TooManyItems (field : string) (maximum actual : Z)
  | DuplicateItem (field : string)
  | InvalidPlan
  | InvalidScore
  | InvalidResult (reason : string)
  | InvalidProvenance (reason : string)
  | InvalidTransition (entity from to : string).

#[export] Instance DomainError_eq_dec : EqDecision DomainError.
Proof. solve_decision. Defined.

(** ** Opaque identifiers *)

Definition MAX_OPAQUE_ID_LENGTH : Z := 64.
Definition MAX_IDEMPOTENCY_KEY_LENGTH : Z := 128.
Definition MAX_CAPABILITY_LENGTH : Z := 64.
Definition MAX_DIAGNOSTIC_CODE_LENGTH : Z := 64.
Definition MAX_EVIDENCE_KIND_LENGTH : Z := 64.

Definition opaque_byte (c : Ascii.ascii) : bool :=
  is_ascii_alphanumeric c || one_of "._:-" c.

Definition validate_opaque (value field : string) (maximum : Z) : result DomainError unit :=
  if is_empty value then Err (Empty field)
  else if (maximum <? str_len value)%Z then Err (TooLong field maximum (str_len value))
  else
    match value with
    | EmptyString => Err (Empty field)
    | String first bytes =>
        if negb (is_ascii_alphanumeric first) || negb (str_all opaque_byte bytes)
        then Err (InvalidFormat field
                    "use ASCII letters, digits, dot, underscore, colon, or hyphen")
        else Ok tt
    end.

(** The format an accepted opaque string has:
    [^[A-Za-z0-9][A-Za-z0-9._:-]*$], at most [maximum] bytes. *)
Definition opaque_format (value : string) : bool :=
  match value with
  | EmptyString => false
  | String first bytes => is_ascii_alphanumeric first && str_all opaque_byte bytes
  end.

Definition opaque_ok (maximum : Z) (value : string) : bool :=
  opaque_format value && (str_len value <=? maximum)%Z.

Lemma validate_opaque_iff (value field : string) (maximum : Z) :
  validate_opaque value field maximum = Ok tt <-> opaque_ok maximum value = true.
Proof.
  unfold validate_opaque, opaque_ok. destruct value as [|c s]; simpl; [done|].
  destruct (maximum <? str_len (String c s))%Z eqn:Hlen; split_bools.
  - split; [done|]. intros [_ H%Z.leb_le]%andb_true_iff. lia.
  - apply Z.leb_le in Hlen as ->. rewrite andb_true_r.
    by destruct (is_ascii_alphanumeric c), (str_all opaque_byte s).
Qed.

(** The thirteen identifier types the [opaque_id!] macro declares; the index
    keeps them distinct, as the macro's separate structs do. *)
Inductive IdKind : Type :=
  | KRequest | KProblem | KProblemVersion | KSubmission | KEvaluation | KAttempt
  | KRuntime | KArtifact | KEvidence | KNode | KLeaseToken | KClaimOperation
  | KResultOperation.

Definition id_field (k : IdKind) : string :=
  match k with
  | KRequest => "request_id"
  | KProblem => "problem_id"
  | KProblemVersion => "problem_version_id"
  | KSubmission => "submission_id"
  | KEvaluation => "evaluation_id"
  | KAttempt => "attempt_id"
  | KRuntime => "runtime_id"
  | KArtifact => "artifact_id"
  | KEvidence => "evidence_id"
  | KNode => "node_id"
  | KLeaseToken => "lease_token"
  | KClaimOperation => "claim_operation_id"
  | KResultOperation => "result_operation_id"
  end.

Record OpaqueId (k : IdKind) : Type := MkId { id_str : string }.
Arguments MkId {k} id_str.
Arguments id_str {k} o.

Abbreviation RequestId := (OpaqueId KRequest).
Abbreviation ProblemId := (OpaqueId KProblem).
Abbreviation ProblemVersionId := (OpaqueId KProblemVersion).
Abbreviation SubmissionId := (OpaqueId KSubmission).
Abbreviation EvaluationId := (OpaqueId KEvaluation).
Abbreviation AttemptId := (OpaqueId KAttempt).
Abbreviation RuntimeId := (OpaqueId KRuntime).
Abbreviation ArtifactId := (OpaqueId KArtifact).
Abbreviation EvidenceId := (OpaqueId KEvidence).
Abbreviation NodeId := (OpaqueId KNode).
Abbreviation LeaseToken := (OpaqueId KLeaseToken).
Abbreviation ClaimOperationId := (OpaqueId KClaimOperation).
Abbreviation ResultOperationId := (OpaqueId KResultOperation).

#[export] Instance OpaqueId_eq_dec k : EqDecision (OpaqueId k).
Proof. solve_decision. Defined.
#[export] Instance OpaqueId_countable k : Countable (OpaqueId k).
Proof. by apply (inj_countable' id_str MkId); intros []. Defined.

Definition id_parse {k : IdKind} (value : string) : result DomainError (OpaqueId k) :=
  try* validate_opaque value (id_field k) MAX_OPAQUE_ID_LENGTH in
  Ok (MkId value).

#[export] Instance valid_id {k} : Valid (OpaqueId k) :=
  fun i => opaque_ok MAX_OPAQUE_ID_LENGTH (id_str i) = true.

Lemma id_parse_iff {k} (value : string) (i : OpaqueId k) :
  id_parse value = Ok i <-> i = MkId value /\ valid i.
Proof.
  unfold id_parse, valid, valid_id. split.
  - intros H. inv_ok. split; [done|]. destruct x. by eapply validate_opaque_iff.
  - intros [-> Hv]. simpl in Hv.
    by rewrite (proj2 (validate_opaque_iff _ _ _) Hv).
Qed.

Lemma id_str_inj {k} (i j : OpaqueId k) : id_str i = id_str j -> i = j.
Proof. destruct i, j; simpl; congruence. Qed.

(** ** [IdempotencyKey] *)

Record IdempotencyKey : Type := MkKey { key_str : string }.

#[export] Instance IdempotencyKey_eq_dec : EqDecision IdempotencyKey.
Proof. solve_decision. Defined.

Definition IdempotencyKey_parse (value : string) : result DomainError IdempotencyKey :=
  try* validate_opaque value "idempotency_key" MAX_IDEMPOTENCY_KEY_LENGTH in
  Ok (MkKey value).

#[export] Instance valid_key : Valid IdempotencyKey :=
  fun k => opaque_ok MAX_IDEMPOTENCY_KEY_LENGTH (key_str k) = true.

Lemma IdempotencyKey_parse_iff (value : string) (k : IdempotencyKey) :
  IdempotencyKey_parse value = Ok k <-> k = MkKey value /\ valid k.
Proof.
  unfold IdempotencyKey_parse, valid, valid_key. split.
  - intros H. inv_ok. split; [done|]. destruct x. by eapply validate_opaque_iff.
  - intros [-> Hv]. simpl in Hv.
    by rewrite (proj2 (validate_opaque_iff _ _ _) Hv).
Qed.

(** Every operation identifier is an acceptable idempotency key: the two
    alphabets agree and the key bound is the larger one. *)
Lemma opaque_ok_weaken (m n : Z) (s : string) :
  (m <= n)%Z -> opaque_ok m s = true -> opaque_ok n s = true.
Proof.
  unfold opaque_ok. intros Hmn [-> H%Z.leb_le]%andb_true_iff. simpl.
  apply Z.leb_le. lia.
Qed.

(** ** [ContentDigest] *)

(** [str::strip_prefix]. *)
Fixpoint strip_prefix (p s : string) : option string :=
  match p, s with
  | EmptyString, _ => Some s
  | String c p', String d s' => if Ascii.eqb c d then strip_prefix p' s' else None
  | String _ _, EmptyString => None
  end.

Lemma strip_prefix_Some (p s t : string) : strip_prefix p s = Some t <-> s = p +:+ t.
Proof.
  revert s; induction p as [|c p IH]; intros s; simpl.
  { split; [by intros [= ->] | by intros ->]. }
  destruct s as [|d s]; [done|]. destruct (Ascii.eqb_spec c d) as [->|Hne].
  - rewrite IH. split; [by intros -> | by intros [= ->]].
  - split; [done | by intros [= -> _]].
Qed.

Definition lower_hex_byte (c : Ascii.ascii) : bool :=
  is_ascii_digit c || in_range 97 102 (byte_code c).

Definition digest_hex_ok (hex : string) : bool :=
  (str_len hex =? 64)%Z && str_all lower_hex_byte hex.

Record ContentDigest : Type := MkDigest { digest_str : string }.

#[export] Instance ContentDigest_eq_dec : EqDecision ContentDigest.
Proof. solve_decision. Defined.

Definition ContentDigest_parse (value : string) : result DomainError ContentDigest :=
  match strip_prefix "sha256:" value with
  | None => Err (InvalidFormat "content_digest"
                   "only lowercase sha256 digests are accepted")
  | Some hex =>
      if negb (str_len hex =? 64)%Z || negb (str_all lower_hex_byte hex)
      then Err (InvalidFormat "content_digest"
                  "expected sha256 followed by 64 lowercase hexadecimal characters")
      else Ok (MkDigest value)
  end.

#[export] Instance valid_digest : Valid ContentDigest :=
  fun d => exists hex, digest_str d = "sha256:" +:+ hex /\ digest_hex_ok hex = true.

Lemma ContentDigest_parse_iff (value : string) (d : ContentDigest) :
  ContentDigest_parse value = Ok d <-> d = MkDigest value /\ valid d.
Proof.
  unfold ContentDigest_parse, valid, valid_digest, digest_hex_ok.
  destruct (strip_prefix "sha256:" value) as [hex|] eqn:Hs.
  - pose proof Hs as Hv. apply strip_prefix_Some in Hv.
    destruct (str_len hex =? 64)%Z eqn:Hl, (str_all lower_hex_byte hex) eqn:Hh; simpl;
      (split; [intros H; simplify_eq|]).
    all: try (split; [done|]; exists hex; rewrite Hl, Hh; done).
    all: intros [-> (h & Hd & Hok)]; simpl in Hd; try done.
    all: apply strip_prefix_Some in Hd; rewrite Hs in Hd; simplify_eq;
      rewrite Hl, Hh in Hok; done.
  - split; [done|]. intros [-> (h & Hd & _)]. simpl in Hd.
    apply strip_prefix_Some in Hd. congruence.
Qed.

(** ** Lower-case tokens: [Capability] and [EvidenceKind] *)

Definition separator_byte (c : Ascii.ascii) : bool := one_of "._:-" c.
Definition lower_or_digit (c : Ascii.ascii) : bool := is_ascii_lowercase c || is_ascii_digit c.

(** The byte loop of [validate_lower_token]; [first] is the first byte of the
    whole value, [segment_start] the loop variable. The returned flag is the
    loop variable after the last byte. *)
Fixpoint lower_token_loop (field : string) (first : option Ascii.ascii)
    (segment_start : bool) (bytes : string) : result DomainError bool :=
  match bytes with
  | EmptyString => Ok segment_start
  | String byte rest =>
      if separator_byte byte then
        if segment_start
        then Err (InvalidFormat field
                    "separators must occur between lowercase alphanumeric segments")
        else lower_token_loop field first true rest
      else if lower_or_digit byte then
        if segment_start && is_ascii_digit byte && bool_decide (first = Some byte)
        then Err (InvalidFormat field
                    "the first segment must start with a lowercase letter")
        else lower_token_loop field first false rest
      else Err (InvalidFormat field
                  "use lowercase ASCII letters, digits, and bounded separators")
  end.

Definition first_byte (s : string) : option Ascii.ascii :=
  match s with
  | EmptyString => None
  | String c _ => Some c
  end.

Definition validate_lower_token (value field : string) (maximum : Z) : result DomainError unit :=
  if is_empty value then Err (Empty field)
  else if (maximum <? str_len value)%Z then Err (TooLong field maximum (str_len value))
  else
    let* segment_start := lower_token_loop field (first_byte value) true value in
    if segment_start
    then Err (InvalidFormat field "the value must not end with a separator")
    else Ok tt.

(** The specification: the grammar [[a-z][a-z0-9]*([._:-][a-z0-9]+)*] that the
    canonical schema gives for a capability. *)
Inductive token_tail : string -> Prop :=
  | tail_done : token_tail EmptyString
  | tail_more (c : Ascii.ascii) (s : string) :
      lower_or_digit c = true -> token_tail s -> token_tail (String c s)
  | tail_sep (c d : Ascii.ascii) (s : string) :
      separator_byte c = true -> lower_or_digit d = true ->
      token_tail s -> token_tail (String c (String d s)).

Inductive lower_token : string -> Prop :=
  | lower_token_intro (c : Ascii.ascii) (s : string) :
      is_ascii_lowercase c = true -> token_tail s -> lower_token (String c s).

#[export] Hint Constructors token_tail lower_token : openoj.

Lemma lower_not_separator (c : Ascii.ascii) :
  lower_or_digit c = true -> separator_byte c = false.
Proof. destruct c as [[] [] [] [] [] [] [] []]; vm_compute; congruence. Qed.

Lemma lower_not_digit (c : Ascii.ascii) :
  is_ascii_lowercase c = true -> is_ascii_digit c = false.
Proof. destruct c as [[] [] [] [] [] [] [] []]; vm_compute; congruence. Qed.

(** In the middle of a value whose first byte is a letter the loop accepts the
    tails of the grammar, from either value of the loop variable. *)
Lemma lower_token_loop_tail (field : string) (f : Ascii.ascii) (s : string) :
  is_ascii_digit f = false ->
  (lower_token_loop field (Some f) false s = Ok false <-> token_tail s) /\
  (lower_token_loop field (Some f) true s = Ok false <->
   exists d s', s = String d s' /\ lower_or_digit d = true /\ token_tail s').
Proof.
  intros Hf. induction s as [|c s [IHf IHt]]; simpl.
  { split; split; [intros; constructor | done | done | by intros (?&?&?&?)]. }
  assert (Hg : is_ascii_digit c && bool_decide (Some f = Some c) = false).
  { destruct (decide (f = c)) as [->|Hne]; [by rewrite Hf|].
    rewrite (bool_decide_false (Some f = Some c)) by congruence. by rewrite andb_false_r. }
  destruct (separator_byte c) eqn:Hsep; [|destruct (lower_or_digit c) eqn:Hlow].
  - split; split; [rewrite IHt| |done|].
    + intros (d & s' & -> & Hd & Hs'). by constructor.
    + inversion 1 as [|? ? Hc|? d s' ? Hd Hs']; subst.
      * apply lower_not_separator in Hc. congruence.
      * apply IHt. eauto.
    + intros (d & s' & [= -> ->] & Hd & _). apply lower_not_separator in Hd. congruence.
  - rewrite Hg. split; split; [rewrite IHf| |rewrite IHf|].
    + by intros; constructor.
    + inversion 1; subst; [by apply IHf | congruence].
    + eauto.
    + intros (d & s' & [= -> ->] & _ & Hs'). by apply IHf.
  - split; split; [done| |done|].
    + inversion 1; subst; congruence.
    + intros (d & s' & [= -> ->] & Hd & _). congruence.
Qed.

Lemma validate_lower_token_iff (value field : string) (maximum : Z) :
  validate_lower_token value field maximum = Ok tt <->
  lower_token value /\ (str_len value <= maximum)%Z.
Proof.
  unfold validate_lower_token. destruct value as [|c s]; simpl.
  { split; [done|]. by intros [H _]; inversion H. }
  destruct (maximum <? str_len (String c s))%Z eqn:Hlen; split_bools.
  { split; [done|]. intros [_ H]. lia. }
  destruct (separator_byte c) eqn:Hsep; simpl.
  { split; [done|]. intros [H _]. inversion H; subst.
    rewrite lower_not_separator in Hsep; [done|].
    unfold lower_or_digit. by apply orb_true_iff; left. }
  rewrite (bool_decide_true (Some c = Some c)), andb_true_r by done.
  destruct (is_ascii_digit c) eqn:Hdig; simpl.
  { destruct (lower_or_digit c); (split; [done|]); intros [H _]; inversion H; subst;
      by rewrite lower_not_digit in Hdig. }
  unfold lower_or_digit. rewrite Hdig, orb_false_r.
  destruct (is_ascii_lowercase c) eqn:Hlow; simpl.
  - destruct (lower_token_loop_tail field c s Hdig) as [Htail _].
    destruct (lower_token_loop field (Some c) false s) as [[]|] eqn:E; simpl.
    1,3: (split; [done|]); intros [H _]; inversion H; subst; exfalso;
      destruct Htail as [_ Htail]; discriminate (Htail ltac:(done)).
    split; [|done]. intros _. split; [|done]. constructor; [done|]. by apply Htail.
  - split; [done|]. intros [H _]. inversion H; congruence.
Qed.

Record Capability : Type := MkCapability { cap_str : string }.
Record EvidenceKind : Type := MkEvidenceKind { evk_str : string }.

#[export] Instance Capability_eq_dec : EqDecision Capability.
Proof. solve_decision. Defined.
#[export] Instance Capability_countable : Countable Capability.
Proof. by apply (inj_countable' cap_str MkCapability); intros []. Defined.
#[export] Instance EvidenceKind_eq_dec : EqDecision EvidenceKind.
Proof. solve_decision. Defined.

Definition Capability_parse (value : string) : result DomainError Capability :=
  try* validate_lower_token value "capability" MAX_CAPABILITY_LENGTH in
  Ok (MkCapability value).

Definition EvidenceKind_parse (value : string) : result DomainError EvidenceKind :=
  try* validate_lower_token value "evidence_kind" MAX_EVIDENCE_KIND_LENGTH in
  Ok (MkEvidenceKind value).

#[export] Instance valid_capability : Valid Capability :=
  fun c => lower_token (cap_str c) /\ (str_len (cap_str c) <= MAX_CAPABILITY_LENGTH)%Z.
#[export] Instance valid_evidence_kind : Valid EvidenceKind :=
  fun k => lower_token (evk_str k) /\ (str_len (evk_str k) <= MAX_EVIDENCE_KIND_LENGTH)%Z.

Lemma Capability_parse_iff (value : string) (c : Capability) :
  Capability_parse value = Ok c <-> c = MkCapability value /\ valid c.
Proof.
  unfold Capability_parse, valid, valid_capability. split.
  - intros H. inv_ok. split; [done|]. destruct x. by eapply validate_lower_token_iff.
  - intros [-> Hv]. by rewrite (proj2 (validate_lower_token_iff _ _ _) Hv).
Qed.

Lemma EvidenceKind_parse_iff (value : string) (k : EvidenceKind) :
  EvidenceKind_parse value = Ok k <-> k = MkEvidenceKind value /\ valid k.
Proof.
  unfold EvidenceKind_parse, valid, valid_evidence_kind. split.
  - intros H. inv_ok. split; [done|]. destruct x. by eapply validate_lower_token_iff.
  - intros [-> Hv]. by rewrite (proj2 (validate_lower_token_iff _ _ _) Hv).
Qed.

(** ** [DiagnosticCode] *)

Definition code_byte (c : Ascii.ascii) : bool :=
  is_ascii_uppercase c || is_ascii_digit c || Ascii.eqb c "_"%char.

Record DiagnosticCode : Type := MkCode { code_str : string }.

#[export] Instance DiagnosticCode_eq_dec : EqDecision DiagnosticCode.
Proof. solve_decision. Defined.

Definition DiagnosticCode_parse (value : string) : result DomainError DiagnosticCode :=
  match value with
  | EmptyString => Err (Empty "diagnostic_code")
  | String first _ =>
      if (MAX_DIAGNOSTIC_CODE_LENGTH <? str_len value)%Z
      then Err (TooLong "diagnostic_code" MAX_DIAGNOSTIC_CODE_LENGTH (str_len value))
      else if negb (is_ascii_uppercase first) || negb (str_all code_byte value)
      then Err (InvalidFormat "diagnostic_code"
                  "use uppercase ASCII letters, digits, and underscore")
      else Ok (MkCode value)
  end.

Definition code_ok (value : string) : bool :=
  match value with
  | EmptyString => false
  | String first _ =>
      is_ascii_uppercase first && str_all code_byte value
      && (str_len value <=? MAX_DIAGNOSTIC_CODE_LENGTH)%Z
  end.

#[export] Instance valid_code : Valid DiagnosticCode := fun c => code_ok (code_str c) = true.

Lemma DiagnosticCode_parse_iff (value : string) (c : DiagnosticCode) :
  DiagnosticCode_parse value = Ok c <-> c = MkCode value /\ valid c.
Proof.
  unfold DiagnosticCode_parse, valid, valid_code, code_ok.
  destruct value as [|d s]; [split; [done | by intros [-> ?]]|].
  destruct (MAX_DIAGNOSTIC_CODE_LENGTH <? str_len (String d s))%Z eqn:Hl; split_bools.
  - split; [done|]. intros [-> [_ H%Z.leb_le]%andb_true_iff]. simpl in H. lia.
  - apply Z.leb_le in Hl. split.
    + intros H. inv_ok. cbn [code_str]. rewrite Hl, andb_true_r. clear Hl.
      split_bools. split; [done|]. by apply andb_true_iff.
    + intros [-> H]. cbn [code_str] in H. rewrite Hl, andb_true_r in H.
      apply andb_true_iff in H as [-> ->]. done.
Qed.

(** ** Media types *)

Definition MAX_ARTIFACT_BYTES : Z := 1099511627776.
Definition MAX_MEDIA_TYPE_LENGTH : Z := 129.

Inductive ArtifactSensitivity : Type := Public | Private | Hidden.

#[export] Instance ArtifactSensitivity_eq_dec : EqDecision ArtifactSensitivity.
Proof. solve_decision. Defined.

Definition is_media_type_byte (c : Ascii.ascii) : bool :=
  is_ascii_alphanumeric c || one_of "!#$&^_.+-" c.

(** [str::split_once(sep)] at an ASCII separator. *)
Fixpoint split_once (sep : Ascii.ascii) (s : string) : option (string * string) :=
  match s with
  | EmptyString => None
  | String c s' =>
      if Ascii.eqb c sep then Some (EmptyString, s')
      else match split_once sep s' with
           | Some (a, b) => Some (String c a, b)
           | None => None
           end
  end.

Lemma split_once_Some (sep : Ascii.ascii) (s a b : string) :
  split_once sep s = Some (a, b) -> s = a +:+ String sep b.
Proof.
  revert a; induction s as [|c s IH]; intros a; simpl; [done|].
  destruct (Ascii.eqb_spec c sep) as [->|Hne]; [by intros [= <- <-]|].
  destruct (split_once sep s) as [[a' b']|]; [|done].
  intros [= <- <-]. simpl. by rewrite (IH a').
Qed.

Record MediaType : Type := MkMediaType { media_str : string }.

#[export] Instance MediaType_eq_dec : EqDecision MediaType.
Proof. solve_decision. Defined.

Definition MediaType_parse (value : string) : result DomainError MediaType :=
  if (MAX_MEDIA_TYPE_LENGTH <? str_len value)%Z
  then Err (TooLong "media_type" MAX_MEDIA_TYPE_LENGTH (str_len value))
  else
    match split_once "/"%char value with
    | None => Err (InvalidFormat "media_type" "expected type/subtype")
    | Some (top_level, subtype) =>
        if is_empty top_level || is_empty subtype
           || (64 <? str_len top_level)%Z || (64 <? str_len subtype)%Z
           || negb (str_all is_media_type_byte top_level)
           || negb (str_all is_media_type_byte subtype)
        then Err (InvalidFormat "media_type"
                    "type and subtype must be bounded ASCII tokens")
        else Ok (MkMediaType value)
    end.

#[export] Instance valid_media_type : Valid MediaType :=
  fun m => MediaType_parse (media_str m) = Ok m.

Lemma MediaType_parse_iff (value : string) (m : MediaType) :
  MediaType_parse value = Ok m <-> m = MkMediaType value /\ valid m.
Proof.
  unfold valid, valid_media_type. split.
  - intros H. assert (m = MkMediaType value) as ->; [|done].
    revert H. unfold MediaType_parse. intros H.
    destruct (MAX_MEDIA_TYPE_LENGTH <? str_len value)%Z; [done|].
    destruct (split_once "/" value) as [[a b]|]; [|done]. by inv_ok.
  - by intros [-> H].
Qed.

(** A media type has exactly one slash: the bytes around it are token bytes. *)
Lemma media_type_tokens (m : MediaType) :
  valid m ->
  exists top_level subtype,
    media_str m = top_level +:+ String "/" subtype /\
    (1 <= str_len top_level <= 64)%Z /\ (1 <= str_len subtype <= 64)%Z /\
    str_all is_media_type_byte top_level = true /\
    str_all is_media_type_byte subtype = true.
Proof.
  unfold valid, valid_media_type, MediaType_parse. intros H.
  destruct (_ <? _)%Z; [done|].
  destruct (split_once "/" (media_str m)) as [[a b]|] eqn:Hs; [|done].
  apply split_once_Some in Hs. inv_ok. split_bools. exists a, b.
  split; [done|]. destruct a, b; unfold str_len in *; simpl in *; try done.
  repeat split; try done; lia.
Qed.

(** ** [ArtifactRef] *)

Record ArtifactRef : Type := MkArtifactRef {
  art_artifact_id : ArtifactId;
  art_digest : ContentDigest;
  art_media_type : MediaType;
  art_size_bytes : Z;
  art_sensitivity : ArtifactSensitivity
}.

#[export] Instance ArtifactRef_eq_dec : EqDecision ArtifactRef.
Proof. solve_decision. Defined.

Definition ArtifactRef_new (artifact_id : ArtifactId) (digest : ContentDigest)
    (media_type : MediaType) (size_bytes : Z) (sensitivity : ArtifactSensitivity)
    : result DomainError ArtifactRef :=
  if (MAX_ARTIFACT_BYTES <? size_bytes)%Z
  then Err (OutOfRange "artifact_size_bytes" 0 MAX_ARTIFACT_BYTES size_bytes)
  else Ok {| art_artifact_id := artifact_id; art_digest := digest;
             art_media_type := media_type; art_size_bytes := size_bytes;
             art_sensitivity := sensitivity |}.

#[export] Instance valid_artifact : Valid ArtifactRef := fun a =>
  valid (art_artifact_id a) /\ valid (art_digest a) /\ valid (art_media_type a) /\
  (0 <= art_size_bytes a <= MAX_ARTIFACT_BYTES)%Z.

Lemma ArtifactRef_new_valid id d m (size : Z) s (a : ArtifactRef) :
  valid id -> valid d -> valid m -> is_u64 size ->
  ArtifactRef_new id d m size s = Ok a -> valid a.
Proof.
  unfold ArtifactRef_new, is_u64. intros ???? H. inv_ok. split_bools.
  repeat split; simpl; try done; lia.
Qed.

Lemma ArtifactRef_new_Ok (a : ArtifactRef) :
  valid a ->
  ArtifactRef_new (art_artifact_id a) (art_digest a) (art_media_type a)
    (art_size_bytes a) (art_sensitivity a) = Ok a.
Proof.
  intros (_ & _ & _ & Hs). unfold ArtifactRef_new.
  rewrite (proj2 (Z.ltb_ge _ _)) by lia. by destruct a.
Qed.
