(* ===== verification/Control.v ===== *)
(** * Time, leases and lifecycle states

    Models [crates/openoj-domain/src/control.rs]: bounded timestamps and lease
    durations, and the lifecycles of an Evaluation and of an Attempt. *)

From S2P Require Import Prelude Value.

Definition MAX_UNIX_MILLIS : Z := 253402300799999.
Definition MAX_LEASE_DURATION_MS : Z := 3600000.

(** ** Timestamps and durations *)

Record UnixMillis : Type := MkMillis { um_value : Z }.
Record LeaseDuration : Type := MkDuration { ld_value : Z }.

#[export] Instance UnixMillis_eq_dec : EqDecision UnixMillis.
Proof. solve_decision. Defined.
#[export] Instance LeaseDuration_eq_dec : EqDecision LeaseDuration.
Proof. solve_decision. Defined.

Definition UnixMillis_new (value : Z) : result DomainError UnixMillis :=
  if (MAX_UNIX_MILLIS <? value)%Z
  then Err (OutOfRange "unix_millis" 0 MAX_UNIX_MILLIS value)
  else Ok (MkMillis value).

Definition LeaseDuration_new (value : Z) : result DomainError LeaseDuration :=
  if negb (in_range 1 MAX_LEASE_DURATION_MS value)
  then Err (OutOfRange "lease_duration_ms" 1 MAX_LEASE_DURATION_MS value)
  else Ok (MkDuration value).

(** [self.0 + duration.0] is a plain [u64] addition: it is modelled with its
    wrap-around, which valid operands never reach. *)
Definition UnixMillis_checked_add (self : UnixMillis) (duration : LeaseDuration)
    : result DomainError UnixMillis :=
  let actual := u64_wrapping_add (um_value self) (ld_value duration) in
  if (MAX_UNIX_MILLIS <? actual)%Z
  then Err (OutOfRange "lease_expires_at_ms" 0 MAX_UNIX_MILLIS actual)
  else Ok (MkMillis actual).

#[export] Instance valid_millis : Valid UnixMillis :=
  fun t => (0 <= um_value t <= MAX_UNIX_MILLIS)%Z.
#[export] Instance valid_duration : Valid LeaseDuration :=
  fun d => (1 <= ld_value d <= MAX_LEASE_DURATION_MS)%Z.

Lemma UnixMillis_new_iff (value : Z) (t : UnixMillis) :
  is_u64 value -> (UnixMillis_new value = Ok t <-> t = MkMillis value /\ valid t).
Proof.
  unfold UnixMillis_new, valid, valid_millis, is_u64. intros Hv. split.
  - intros H. inv_ok. split_bools. split; [done|]. simpl. lia.
  - intros [-> H]. simpl in H. by rewrite (proj2 (Z.ltb_ge _ _)) by lia.
Qed.

Lemma LeaseDuration_new_iff (value : Z) (d : LeaseDuration) :
  LeaseDuration_new value = Ok d <-> d = MkDuration value /\ valid d.
Proof.
  unfold LeaseDuration_new, valid, valid_duration. split.
  - intros H. inv_ok. apply negb_false_iff, in_range_true in Hguard. done.
  - intros [-> H]. simpl in H. by rewrite (proj2 (in_range_true _ _ _) H).
Qed.

(** Adding a valid lease to a valid time never wraps: the sum is exact. *)
Lemma lease_add_exact (t : UnixMillis) (d : LeaseDuration) :
  valid t -> valid d ->
  u64_wrapping_add (um_value t) (ld_value d) = (um_value t + ld_value d)%Z.
Proof.
  unfold valid, valid_millis, valid_duration, u64_wrapping_add.
  unfold MAX_UNIX_MILLIS, MAX_LEASE_DURATION_MS, u64_max. intros.
  apply Z.mod_small. lia.
Qed.

Lemma checked_add_Ok_inv (t : UnixMillis) (d : LeaseDuration) (e : UnixMillis) :
  valid t -> valid d -> UnixMillis_checked_add t d = Ok e ->
  um_value e = (um_value t + ld_value d)%Z /\ valid e.
Proof.
  intros Ht Hd H. unfold UnixMillis_checked_add in H.
  rewrite lease_add_exact in H by done. inv_ok. split_bools.
  unfold valid, valid_millis, valid_duration in *. simpl. lia.
Qed.

(** ** Evaluation lifecycle *)

Module EvaluationState.
Inductive t : Type := Queued | Leased | Completed | Failed | Cancelled.

#[global] Instance eq_dec : EqDecision t.
Proof. solve_decision. Defined.

Definition as_str (s : t) : string :=
  match s with
  | Queued => "queued"
  | Leased => "leased"
  | Completed => "completed"
  | Failed => "failed"
  | Cancelled => "cancelled"
  end.

Definition can_step (from to : t) : bool :=
  match from, to with
  | Queued, (Leased | Cancelled) => true
  | Leased, (Queued | Completed | Failed | Cancelled) => true
  | _, _ => false
  end.

Definition transition_to (self next : t) : result DomainError t :=
  if negb (can_step self next)
  then Err (InvalidTransition "evaluation" (as_str self) (as_str next))
  else Ok next.

Definition is_terminal (s : t) : bool :=
  match s with
  | Completed | Failed | Cancelled => true
  | Queued | Leased => false
  end.

#[global] Instance as_str_inj : Inj (=) (=) as_str.
Proof. by intros [] []. Qed.

Lemma transition_to_Ok (s n r : t) :
  transition_to s n = Ok r <-> r = n /\ can_step s n = true.
Proof.
  unfold transition_to. destruct (can_step s n); simpl; split; try (by intros []).
  - by intros [= ->].
  - by intros [-> _].
  - done.
Qed.
End EvaluationState.

(** ** Attempt lifecycle *)

Module AttemptState.
Inductive t : Type := Queued | Leased | Completed | Failed | Cancelled | Expired.

#[global] Instance eq_dec : EqDecision t.
Proof. solve_decision. Defined.

Definition as_str (s : t) : string :=
  match s with
  | Queued => "queued"
  | Leased => "leased"
  | Completed => "completed"
  | Failed => "failed"
  | Cancelled => "cancelled"
  | Expired => "expired"
  end.

Definition can_step (from to : t) : bool :=
  match from, to with
  | Queued, (Leased | Cancelled) => true
  | Leased, (Completed | Failed | Cancelled | Expired) => true
  | _, _ => false
  end.

Definition transition_to (self next : t) : result DomainError t :=
  if negb (can_step self next)
  then Err (InvalidTransition "attempt" (as_str self) (as_str next))
  else Ok next.

Definition is_terminal (s : t) : bool :=
  match s with
  | Completed | Failed | Cancelled | Expired => true
  | Queued | Leased => false
  end.

#[global] Instance as_str_inj : Inj (=) (=) as_str.
Proof. by intros [] []. Qed.

Lemma attempt_transition_to_Ok (s n r : t) :
  transition_to s n = Ok r <-> r = n /\ can_step s n = true.
Proof.
  unfold transition_to. destruct (can_step s n); simpl; split; try (by intros []).
  - by intros [= ->].
  - by intros [-> _].
  - done.
Qed.
End AttemptState.

(** Terminal states have no successor; every other state has one. *)
Lemma terminal_iff_stuck (s : EvaluationState.t) :
  EvaluationState.is_terminal s = true <->
  forall n, EvaluationState.can_step s n = false.
Proof.
  destruct s; simpl; split; try done.
  - intros H. discriminate (H EvaluationState.Leased).
  - intros H. discriminate (H EvaluationState.Queued).
Qed.

Lemma attempt_terminal_iff_stuck (s : AttemptState.t) :
  AttemptState.is_terminal s = true <-> forall n, AttemptState.can_step s n = false.
Proof.
  destruct s; simpl; split; try done.
  - intros H. discriminate (H AttemptState.Leased).
  - intros H. discriminate (H AttemptState.Completed).
Qed.
