(* ===== verification/Evaluation.v ===== *)
(** * Evaluation requests, stage reports and results

    Models [crates/openoj-domain/src/evaluation.rs]: the evaluation plan, the
    resource policy, requests and their next attempt, resource usage, stage
    reports, provenance and the canonical evaluation result with its terminal
    semantics. *)

From S2P Require Import Prelude Value Control.

Definition MAX_CAPABILITIES : Z := 32.
Definition MAX_STAGES : Z := 32.
Definition MAX_STAGE_DIAGNOSTICS : Z := 64.
Definition MAX_STAGE_EVIDENCE : Z := 256.
Definition MAX_RESULT_DIAGNOSTICS : Z := 64.
Definition MAX_RESULT_EVIDENCE : Z := 256.
Definition MAX_DIAGNOSTIC_MESSAGE_LENGTH : Z := 2048.
Definition MAX_CPU_TIME_MS : Z := 86400000.
Definition MAX_WALL_TIME_MS : Z := 86400000.
Definition MAX_MEMORY_BYTES : Z := 1099511627776.
Definition MAX_OUTPUT_BYTES : Z := 1073741824.
Definition MAX_PROCESS_LIMIT : Z := 65535.

Definition len {A : Type} (l : list A) : Z := Z.of_nat (length l).

(** ** Plan *)

Module StageKind.
Inductive t : Type := Prepare | Build | Run | Check | Aggregate.

#[global] Instance eq_dec : EqDecision t.
Proof. solve_decision. Defined.

Definition as_str (s : t) : string :=
  match s with
  | Prepare => "prepare"
  | Build => "build"
  | Run => "run"
  | Check => "check"
  | Aggregate => "aggregate"
  end.
End StageKind.

Definition ALGORITHM_BATCH_STAGES : list StageKind.t :=
  [StageKind.Prepare; StageKind.Build; StageKind.Run; StageKind.Check; StageKind.Aggregate].

Inductive EvaluationProfile : Type := AlgorithmBatch.

#[export] Instance EvaluationProfile_eq_dec : EqDecision EvaluationProfile.
Proof. solve_decision. Defined.

Definition EvaluationProfile_as_str (p : EvaluationProfile) : string :=
  match p with AlgorithmBatch => "algorithm_batch" end.

Record EvaluationPlan : Type := MkPlan {
  plan_profile : EvaluationProfile;
  plan_stages : list StageKind.t
}.

#[export] Instance EvaluationPlan_eq_dec : EqDecision EvaluationPlan.
Proof. solve_decision. Defined.

Definition EvaluationPlan_algorithm_batch : EvaluationPlan :=
  {| plan_profile := AlgorithmBatch; plan_stages := ALGORITHM_BATCH_STAGES |}.

Definition EvaluationPlan_try_algorithm_batch (stages : list StageKind.t)
    : result DomainError EvaluationPlan :=
  if (MAX_STAGES <? len stages)%Z
  then Err (TooManyItems "plan.stages" MAX_STAGES (len stages))
  else if negb (bool_decide (stages = ALGORITHM_BATCH_STAGES))
  then Err InvalidPlan
  else Ok {| plan_profile := AlgorithmBatch; plan_stages := stages |}.

#[export] Instance valid_plan : Valid EvaluationPlan :=
  fun p => p = EvaluationPlan_algorithm_batch.

Lemma try_algorithm_batch_iff (stages : list StageKind.t) (p : EvaluationPlan) :
  EvaluationPlan_try_algorithm_batch stages = Ok p <->
  stages = ALGORITHM_BATCH_STAGES /\ valid p.
Proof.
  unfold EvaluationPlan_try_algorithm_batch, valid, valid_plan. split.
  - intros H. inv_ok. split_bools. by subst.
  - by intros [-> ->].
Qed.

(** ** Resource policy *)

Inductive NetworkPolicy : Type := Denied.

#[export] Instance NetworkPolicy_eq_dec : EqDecision NetworkPolicy.
Proof. solve_decision. Defined.

Definition NetworkPolicy_as_str (n : NetworkPolicy) : string :=
  match n with Denied => "denied" end.

Definition require_range (field : string) (actual minimum maximum : Z)
    : result DomainError unit :=
  if negb (in_range minimum maximum actual)
  then Err (OutOfRange field minimum maximum actual)
  else Ok tt.

Lemma require_range_iff field actual minimum maximum :
  require_range field actual minimum maximum = Ok tt <-> (minimum <= actual <= maximum)%Z.
Proof.
  unfold require_range. rewrite <- in_range_true. by destruct (in_range _ _ _).
Qed.

Record ResourcePolicy : Type := MkPolicy {
  rp_cpu_time_ms : Z;
  rp_wall_time_ms : Z;
  rp_memory_bytes : Z;
  rp_output_bytes : Z;
  rp_process_limit : Z;
  rp_network : NetworkPolicy
}.

#[export] Instance ResourcePolicy_eq_dec : EqDecision ResourcePolicy.
Proof. solve_decision. Defined.

Definition ResourcePolicy_new (cpu_time_ms wall_time_ms memory_bytes output_bytes
    process_limit : Z) (network : NetworkPolicy) : result DomainError ResourcePolicy :=
  try* require_range "cpu_time_ms" cpu_time_ms 1 MAX_CPU_TIME_MS in
  try* require_range "wall_time_ms" wall_time_ms 1 MAX_WALL_TIME_MS in
  try* require_range "memory_bytes" memory_bytes 1 MAX_MEMORY_BYTES in
  try* require_range "output_bytes" output_bytes 1 MAX_OUTPUT_BYTES in
  try* require_range "process_limit" process_limit 1 MAX_PROCESS_LIMIT in
  Ok {| rp_cpu_time_ms := cpu_time_ms; rp_wall_time_ms := wall_time_ms;
        rp_memory_bytes := memory_bytes; rp_output_bytes := output_bytes;
        rp_process_limit := process_limit; rp_network := network |}.

#[export] Instance valid_policy : Valid ResourcePolicy := fun p =>
  (1 <= rp_cpu_time_ms p <= MAX_CPU_TIME_MS)%Z /\
  (1 <= rp_wall_time_ms p <= MAX_WALL_TIME_MS)%Z /\
  (1 <= rp_memory_bytes p <= MAX_MEMORY_BYTES)%Z /\
  (1 <= rp_output_bytes p <= MAX_OUTPUT_BYTES)%Z /\
  (1 <= rp_process_limit p <= MAX_PROCESS_LIMIT)%Z.

(** Discharging the [try*] range checks of a constructor. *)
Ltac inv_units :=
  inv_ok; repeat match goal with
  | H : require_range _ _ _ _ = Ok ?u |- _ =>
      destruct u; apply require_range_iff in H
  end.

Lemma ResourcePolicy_new_iff c w m o pl n (p : ResourcePolicy) :
  ResourcePolicy_new c w m o pl n = Ok p <->
  p = MkPolicy c w m o pl n /\ valid p.
Proof.
  unfold ResourcePolicy_new, valid, valid_policy. split.
  - intros H. inv_units. split; [done|]. simpl. tauto.
  - intros [-> (H1 & H2 & H3 & H4 & H5)]. simpl in *.
    by rewrite !(proj2 (require_range_iff _ _ _ _)) by done.
Qed.

(** ** References *)

Record ProblemVersionRef : Type := MkProblemVersionRef {
  pv_problem_id : ProblemId;
  pv_problem_version_id : ProblemVersionId;
  pv_digest : ContentDigest
}.

Record RuntimeRef : Type := MkRuntimeRef {
  rt_runtime_id : RuntimeId;
  rt_digest : ContentDigest
}.

Record SubmissionRef : Type := MkSubmissionRef {
  sub_submission_id : SubmissionId;
  sub_source : ArtifactRef
}.

#[export] Instance ProblemVersionRef_eq_dec : EqDecision ProblemVersionRef.
Proof. solve_decision. Defined.
#[export] Instance RuntimeRef_eq_dec : EqDecision RuntimeRef.
Proof. solve_decision. Defined.
#[export] Instance SubmissionRef_eq_dec : EqDecision SubmissionRef.
Proof. solve_decision. Defined.

#[export] Instance valid_problem_version : Valid ProblemVersionRef := fun r =>
  valid (pv_problem_id r) /\ valid (pv_problem_version_id r) /\ valid (pv_digest r).
#[export] Instance valid_runtime : Valid RuntimeRef := fun r =>
  valid (rt_runtime_id r) /\ valid (rt_digest r).
#[export] Instance valid_submission : Valid SubmissionRef := fun r =>
  valid (sub_submission_id r) /\ valid (sub_source r).

(** ** Requests *)

Record EvaluationRequest : Type := MkRequest {
  er_request_id : RequestId;
  er_idempotency_key : IdempotencyKey;
  er_evaluation_id : EvaluationId;
  er_attempt_id : AttemptId;
  er_attempt_number : Z;
  er_problem_version : ProblemVersionRef;
  er_submission : SubmissionRef;
  er_runtime : RuntimeRef;
  er_plan : EvaluationPlan;
  er_policy : ResourcePolicy;
  er_required_capabilities : list Capability
}.

Record EvaluationRequestParts : Type := MkRequestParts {
  erp_request_id : RequestId;
  erp_idempotency_key : IdempotencyKey;
  erp_evaluation_id : EvaluationId;
  erp_attempt_id : AttemptId;
  erp_attempt_number : Z;
  erp_problem_version : ProblemVersionRef;
  erp_submission : SubmissionRef;
  erp_runtime : RuntimeRef;
  erp_plan : EvaluationPlan;
  erp_policy : ResourcePolicy;
  erp_required_capabilities : list Capability
}.

#[export] Instance EvaluationRequest_eq_dec : EqDecision EvaluationRequest.
Proof. solve_decision. Defined.

(** The [BTreeSet] loop: fails at the first capability already seen. *)
Fixpoint insert_capabilities (seen : gset Capability) (l : list Capability)
    : result DomainError unit :=
  match l with
  | [] => Ok tt
  | c :: l' =>
      if bool_decide (c ∈ seen) then Err (DuplicateItem "required_capabilities")
      else insert_capabilities ({[c]} ∪ seen) l'
  end.

Lemma insert_capabilities_iff (seen : gset Capability) (l : list Capability) :
  insert_capabilities seen l = Ok tt <-> NoDup l /\ (forall c, c ∈ l -> c ∉ seen).
Proof.
  revert seen; induction l as [|c l IH]; intros seen; simpl.
  { split; [|done]. intros _. split; [constructor | by intros c ?%not_elem_of_nil]. }
  destruct (decide (c ∈ seen)) as [Hin|Hni].
  - rewrite bool_decide_true by done. split; [done|].
    intros [_ H]. by destruct (H c (list_elem_of_here _ _)).
  - rewrite bool_decide_false by done. rewrite IH, NoDup_cons. split.
    + intros [Hnd H]. repeat split; try done.
      * intros Hc. by apply (H c Hc), elem_of_union_l, elem_of_singleton.
      * intros d [->|Hd]%elem_of_cons Hs; [done|]. by apply (H d Hd), elem_of_union_r.
    + intros [[Hc Hnd] H]. split; [done|]. intros d Hd [->%elem_of_singleton|Hs]%elem_of_union.
      * done.
      * by destruct (H d (list_elem_of_further _ _ _ Hd)).
Qed.

Definition EvaluationRequest_new (parts : EvaluationRequestParts)
    : result DomainError EvaluationRequest :=
  try* require_range "attempt_number" (erp_attempt_number parts) 1 u32_max in
  if (MAX_CAPABILITIES <? len (erp_required_capabilities parts))%Z
  then Err (TooManyItems "required_capabilities" MAX_CAPABILITIES
              (len (erp_required_capabilities parts)))
  else
    try* insert_capabilities ∅ (erp_required_capabilities parts) in
    Ok {| er_request_id := erp_request_id parts;
          er_idempotency_key := erp_idempotency_key parts;
          er_evaluation_id := erp_evaluation_id parts;
          er_attempt_id := erp_attempt_id parts;
          er_attempt_number := erp_attempt_number parts;
          er_problem_version := erp_problem_version parts;
          er_submission := erp_submission parts;
          er_runtime := erp_runtime parts;
          er_plan := erp_plan parts;
          er_policy := erp_policy parts;
          er_required_capabilities := erp_required_capabilities parts |}.

Definition EvaluationRequest_with_next_attempt (self : EvaluationRequest)
    (next_attempt_id : AttemptId) (next_idempotency_key : IdempotencyKey)
    : result DomainError EvaluationRequest :=
  let* attempt_number :=
    ok_or (OutOfRange "attempt_number" 1 u32_max (er_attempt_number self))
      (u32_checked_add (er_attempt_number self) 1) in
  EvaluationRequest_new
    {| erp_request_id := er_request_id self;
       erp_idempotency_key := next_idempotency_key;
       erp_evaluation_id := er_evaluation_id self;
       erp_attempt_id := next_attempt_id;
       erp_attempt_number := attempt_number;
       erp_problem_version := er_problem_version self;
       erp_submission := er_submission self;
       erp_runtime := er_runtime self;
       erp_plan := er_plan self;
       erp_policy := er_policy self;
       erp_required_capabilities := er_required_capabilities self |}.

(** The bounds [EvaluationRequest_new] itself establishes. *)
Definition request_bounds (attempt_number : Z) (capabilities : list Capability) : Prop :=
  (1 <= attempt_number <= u32_max)%Z /\
  (len capabilities <= MAX_CAPABILITIES)%Z /\ NoDup capabilities.

#[export] Instance valid_request : Valid EvaluationRequest := fun r =>
  (valid (er_request_id r) /\ valid (er_idempotency_key r) /\
   valid (er_evaluation_id r) /\ valid (er_attempt_id r)) /\
  (valid (er_problem_version r) /\ valid (er_submission r) /\
   valid (er_runtime r) /\ valid (er_plan r) /\ valid (er_policy r)) /\
  valid (er_required_capabilities r) /\
  request_bounds (er_attempt_number r) (er_required_capabilities r).

(** The parts a request is rebuilt from. *)
Definition parts_of (r : EvaluationRequest) : EvaluationRequestParts :=
  {| erp_request_id := er_request_id r;
     erp_idempotency_key := er_idempotency_key r;
     erp_evaluation_id := er_evaluation_id r;
     erp_attempt_id := er_attempt_id r;
     erp_attempt_number := er_attempt_number r;
     erp_problem_version := er_problem_version r;
     erp_submission := er_submission r;
     erp_runtime := er_runtime r;
     erp_plan := er_plan r;
     erp_policy := er_policy r;
     erp_required_capabilities := er_required_capabilities r |}.

Lemma EvaluationRequest_new_iff (p : EvaluationRequestParts) (r : EvaluationRequest) :
  EvaluationRequest_new p = Ok r <->
  p = parts_of r /\ request_bounds (er_attempt_number r) (er_required_capabilities r).
Proof.
  unfold EvaluationRequest_new, request_bounds. split.
  - intros H. inv_units. split_bools. destruct x0.
    match goal with H : insert_capabilities _ _ = _ |- _ =>
      apply insert_capabilities_iff in H as [Hnd _] end.
    split; [by destruct p|]. simpl. auto.
  - intros (-> & Hn & Hl & Hnd). simpl.
    rewrite (proj2 (require_range_iff _ _ _ _) Hn). simpl.
    rewrite (proj2 (Z.ltb_ge _ _)) by done.
    rewrite (proj2 (insert_capabilities_iff ∅ _)); [by destruct r|].
    split; [done | set_solver].
Qed.

Lemma EvaluationRequest_new_valid (p : EvaluationRequestParts) (r : EvaluationRequest) :
  (valid (erp_request_id p) /\ valid (erp_idempotency_key p) /\
   valid (erp_evaluation_id p) /\ valid (erp_attempt_id p)) ->
  (valid (erp_problem_version p) /\ valid (erp_submission p) /\
   valid (erp_runtime p) /\ valid (erp_plan p) /\ valid (erp_policy p)) ->
  valid (erp_required_capabilities p) ->
  EvaluationRequest_new p = Ok r -> valid r.
Proof.
  intros H1 H2 H3 [-> Hb]%EvaluationRequest_new_iff. simpl in *.
  split; [done|]. split; [done|]. by split.
Qed.

(** The next attempt is the same evaluation under a new attempt identity. *)
Definition next_attempt_of (r : EvaluationRequest) (a : AttemptId) (k : IdempotencyKey)
    : EvaluationRequest :=
  {| er_request_id := er_request_id r;
     er_idempotency_key := k;
     er_evaluation_id := er_evaluation_id r;
     er_attempt_id := a;
     er_attempt_number := er_attempt_number r + 1;
     er_problem_version := er_problem_version r;
     er_submission := er_submission r;
     er_runtime := er_runtime r;
     er_plan := er_plan r;
     er_policy := er_policy r;
     er_required_capabilities := er_required_capabilities r |}.

Lemma with_next_attempt_spec (r : EvaluationRequest) (a : AttemptId) (k : IdempotencyKey) :
  valid r ->
  EvaluationRequest_with_next_attempt r a k =
    if (er_attempt_number r <? u32_max)%Z then Ok (next_attempt_of r a k)
    else Err (OutOfRange "attempt_number" 1 u32_max (er_attempt_number r)).
Proof.
  intros (_ & _ & _ & Hn & Hc & Hnd).
  unfold EvaluationRequest_with_next_attempt, u32_checked_add.
  destruct (Z.ltb_spec (er_attempt_number r) u32_max).
  - rewrite (proj2 (Z.leb_le _ _)) by lia. simpl.
    apply EvaluationRequest_new_iff. split; [done|]. simpl.
    repeat split; try done; lia.
  - by rewrite (proj2 (Z.leb_gt _ _)) by lia.
Qed.

Lemma next_attempt_valid (r : EvaluationRequest) (a : AttemptId) (k : IdempotencyKey) :
  valid r -> valid a -> valid k -> (er_attempt_number r < u32_max)%Z ->
  valid (next_attempt_of r a k).
Proof.
  intros ((?&?&?&?) & Hrefs & Hcaps & Hn & Hb) Ha Hk Hlt.
  split; [by split_and!|]. split; [exact Hrefs|]. split; [exact Hcaps|].
  split; [simpl; lia | exact Hb].
Qed.

(** ** Resource usage *)

Record ResourceUsage : Type := MkUsage {
  ru_cpu_time_ms : Z;
  ru_wall_time_ms : Z;
  ru_memory_peak_bytes : Z;
  ru_output_bytes : Z
}.

#[export] Instance ResourceUsage_eq_dec : EqDecision ResourceUsage.
Proof. solve_decision. Defined.

Definition ResourceUsage_default : ResourceUsage := MkUsage 0 0 0 0.

Definition ResourceUsage_new (cpu_time_ms wall_time_ms memory_peak_bytes output_bytes : Z)
    : result DomainError ResourceUsage :=
  try* require_range "usage.cpu_time_ms" cpu_time_ms 0 MAX_CPU_TIME_MS in
  try* require_range "usage.wall_time_ms" wall_time_ms 0 MAX_WALL_TIME_MS in
  try* require_range "usage.memory_peak_bytes" memory_peak_bytes 0 MAX_MEMORY_BYTES in
  try* require_range "usage.output_bytes" output_bytes 0 MAX_OUTPUT_BYTES in
  Ok (MkUsage cpu_time_ms wall_time_ms memory_peak_bytes output_bytes).

Definition ResourceUsage_checked_add (self other : ResourceUsage)
    : result DomainError ResourceUsage :=
  match u64_checked_add (ru_cpu_time_ms self) (ru_cpu_time_ms other) with
  | None => Err (OutOfRange "usage.cpu_time_ms" 0 MAX_CPU_TIME_MS u64_max)
  | Some cpu_time_ms =>
  match u64_checked_add (ru_wall_time_ms self) (ru_wall_time_ms other) with
  | None => Err (OutOfRange "usage.wall_time_ms" 0 MAX_WALL_TIME_MS u64_max)
  | Some wall_time_ms =>
  let memory_peak_bytes :=
    Z.max (ru_memory_peak_bytes self) (ru_memory_peak_bytes other) in
  match u64_checked_add (ru_output_bytes self) (ru_output_bytes other) with
  | None => Err (OutOfRange "usage.output_bytes" 0 MAX_OUTPUT_BYTES u64_max)
  | Some output_bytes =>
      ResourceUsage_new cpu_time_ms wall_time_ms memory_peak_bytes output_bytes
  end end end.

#[export] Instance valid_usage : Valid ResourceUsage := fun u =>
  (0 <= ru_cpu_time_ms u <= MAX_CPU_TIME_MS)%Z /\
  (0 <= ru_wall_time_ms u <= MAX_WALL_TIME_MS)%Z /\
  (0 <= ru_memory_peak_bytes u <= MAX_MEMORY_BYTES)%Z /\
  (0 <= ru_output_bytes u <= MAX_OUTPUT_BYTES)%Z.

(** The aggregation the code means: sums of the counters, maximum of the peak. *)
Definition usage_join (a b : ResourceUsage) : ResourceUsage :=
  {| ru_cpu_time_ms := ru_cpu_time_ms a + ru_cpu_time_ms b;
     ru_wall_time_ms := ru_wall_time_ms a + ru_wall_time_ms b;
     ru_memory_peak_bytes := Z.max (ru_memory_peak_bytes a) (ru_memory_peak_bytes b);
     ru_output_bytes := ru_output_bytes a + ru_output_bytes b |}.

Lemma ResourceUsage_new_iff c w m o (u : ResourceUsage) :
  ResourceUsage_new c w m o = Ok u <-> u = MkUsage c w m o /\ valid u.
Proof.
  unfold ResourceUsage_new, valid, valid_usage. split.
  - intros H. inv_units. split; [done|]. simpl. tauto.
  - intros [-> (H1 & H2 & H3 & H4)]. simpl in *.
    by rewrite !(proj2 (require_range_iff _ _ _ _)) by done.
Qed.

Lemma usage_checked_add_iff (a b u : ResourceUsage) :
  valid a -> valid b ->
  (ResourceUsage_checked_add a b = Ok u <-> u = usage_join a b /\ valid u).
Proof.
  unfold valid at 1 2, valid_usage. intros Ha Hb.
  unfold ResourceUsage_checked_add, u64_checked_add.
  rewrite !(proj2 (Z.leb_le _ _)).
  - apply ResourceUsage_new_iff.
  - unfold MAX_OUTPUT_BYTES, u64_max in *. lia.
  - unfold MAX_WALL_TIME_MS, u64_max in *. lia.
  - unfold MAX_CPU_TIME_MS, u64_max in *. lia.
Qed.

Lemma usage_default_valid : valid ResourceUsage_default.
Proof. repeat split; vm_compute; congruence. Qed.

Lemma usage_join_default (u : ResourceUsage) :
  valid u -> usage_join ResourceUsage_default u = u.
Proof.
  intros (? & ? & ? & ?). destruct u; unfold usage_join; simpl in *. f_equal; lia.
Qed.

#[export] Hint Resolve usage_default_valid : openoj.

(** ** Diagnostics and evidence *)

(** A UTF-8 continuation byte, [0b10xxxxxx]. *)
Definition is_continuation (c : ascii) : bool := in_range 128 191 (byte_code c).

(** [str::chars().count()] of a UTF-8 string. *)
Fixpoint char_count (s : string) : Z :=
  match s with
  | EmptyString => 0
  | String c s' => ((if is_continuation c then 0 else 1) + char_count s')%Z
  end.

Lemma char_count_bounds (s : string) : (0 <= char_count s <= str_len s)%Z.
Proof.
  unfold str_len. induction s as [|c s IH]; simpl; [done|].
  destruct (is_continuation c); lia.
Qed.

Record Diagnostic : Type := MkDiagnostic {
  diag_code : DiagnosticCode;
  diag_message : string;
  diag_truncated : bool
}.

#[export] Instance Diagnostic_eq_dec : EqDecision Diagnostic.
Proof. solve_decision. Defined.

Definition Diagnostic_new (code : DiagnosticCode) (message : string) (truncated : bool)
    : result DomainError Diagnostic :=
  if (MAX_DIAGNOSTIC_MESSAGE_LENGTH <? char_count message)%Z
  then Err (TooLong "diagnostic.message" MAX_DIAGNOSTIC_MESSAGE_LENGTH (char_count message))
  else Ok {| diag_code := code; diag_message := message; diag_truncated := truncated |}.

#[export] Instance valid_diagnostic : Valid Diagnostic := fun d =>
  valid (diag_code d) /\ (char_count (diag_message d) <= MAX_DIAGNOSTIC_MESSAGE_LENGTH)%Z.

Lemma Diagnostic_new_iff c m t (d : Diagnostic) :
  Diagnostic_new c m t = Ok d <->
  d = MkDiagnostic c m t /\ (char_count m <= MAX_DIAGNOSTIC_MESSAGE_LENGTH)%Z.
Proof.
  unfold Diagnostic_new. split.
  - intros H. inv_ok. by split_bools.
  - intros [-> H]. by rewrite (proj2 (Z.ltb_ge _ _)) by done.
Qed.

Record EvidenceRef : Type := MkEvidenceRef {
  ev_evidence_id : EvidenceId;
  ev_kind : EvidenceKind;
  ev_artifact : option ArtifactRef
}.

#[export] Instance EvidenceRef_eq_dec : EqDecision EvidenceRef.
Proof. solve_decision. Defined.

#[export] Instance valid_evidence : Valid EvidenceRef := fun e =>
  valid (ev_evidence_id e) /\ valid (ev_kind e) /\ valid (ev_artifact e).

(** ** Stage reports *)

Module StageStatus.
Inductive t : Type := Succeeded | Failed | Cancelled | Skipped.

#[global] Instance eq_dec : EqDecision t.
Proof. solve_decision. Defined.

Definition as_str (s : t) : string :=
  match s with
  | Succeeded => "succeeded"
  | Failed => "failed"
  | Cancelled => "cancelled"
  | Skipped => "skipped"
  end.
End StageStatus.

Record StageReport : Type := MkStageReport {
  sr_stage : StageKind.t;
  sr_status : StageStatus.t;
  sr_usage : ResourceUsage;
  sr_diagnostics : list Diagnostic;
  sr_evidence : list EvidenceRef
}.

#[export] Instance StageReport_eq_dec : EqDecision StageReport.
Proof. solve_decision. Defined.

Definition enforce_collection_limit (field : string) (actual maximum : Z)
    : result DomainError unit :=
  if (maximum <? actual)%Z then Err (TooManyItems field maximum actual) else Ok tt.

Lemma enforce_collection_limit_iff field actual maximum :
  enforce_collection_limit field actual maximum = Ok tt <-> (actual <= maximum)%Z.
Proof.
  unfold enforce_collection_limit.
  destruct (Z.ltb_spec maximum actual); split; (done || lia).
Qed.

Definition StageReport_new (stage : StageKind.t) (status : StageStatus.t)
    (usage : ResourceUsage) (diagnostics : list Diagnostic) (evidence : list EvidenceRef)
    : result DomainError StageReport :=
  try* enforce_collection_limit "stage.diagnostics" (len diagnostics)
         MAX_STAGE_DIAGNOSTICS in
  try* enforce_collection_limit "stage.evidence" (len evidence) MAX_STAGE_EVIDENCE in
  Ok {| sr_stage := stage; sr_status := status; sr_usage := usage;
        sr_diagnostics := diagnostics; sr_evidence := evidence |}.

#[export] Instance valid_report : Valid StageReport := fun r =>
  valid (sr_usage r) /\ valid (sr_diagnostics r) /\ valid (sr_evidence r) /\
  (len (sr_diagnostics r) <= MAX_STAGE_DIAGNOSTICS)%Z /\
  (len (sr_evidence r) <= MAX_STAGE_EVIDENCE)%Z.

Lemma StageReport_new_iff st s u d e (r : StageReport) :
  StageReport_new st s u d e = Ok r <->
  r = MkStageReport st s u d e /\
  (len d <= MAX_STAGE_DIAGNOSTICS)%Z /\ (len e <= MAX_STAGE_EVIDENCE)%Z.
Proof.
  unfold StageReport_new. split.
  - intros H. inv_ok.
    repeat match goal with H : enforce_collection_limit _ _ _ = Ok ?u |- _ =>
      destruct u; apply enforce_collection_limit_iff in H end. done.
  - intros (-> & Hd & He).
    by rewrite !(proj2 (enforce_collection_limit_iff _ _ _)) by done.
Qed.
