(* ===== verification/EvalResult.v ===== *)
(** * Canonical evaluation results

    Models [crates/openoj-domain/src/evaluation.rs] from [EvaluationStatus] on:
    verdicts, scores, provenance, the result identity and
    [EvaluationResult::new] with its terminal semantics. [result_spec] is the
    declarative contract of the constructor. *)

From S2P Require Import Prelude Value Control Evaluation.

Module EvaluationStatus.
Inductive t : Type := Completed | Failed | Cancelled.

#[global] Instance eq_dec : EqDecision t.
Proof. solve_decision. Defined.

Definition as_str (s : t) : string :=
  match s with
  | Completed => "completed"
  | Failed => "failed"
  | Cancelled => "cancelled"
  end.
End EvaluationStatus.

Module Verdict.
Inductive t : Type :=
  | Accepted | WrongAnswer | CompileError | RuntimeError | TimeLimitExceeded
  | MemoryLimitExceeded | OutputLimitExceeded | SystemError | Cancelled.

#[global] Instance eq_dec : EqDecision t.
Proof. solve_decision. Defined.

Definition as_str (v : t) : string :=
  match v with
  | Accepted => "accepted"
  | WrongAnswer => "wrong_answer"
  | CompileError => "compile_error"
  | RuntimeError => "runtime_error"
  | TimeLimitExceeded => "time_limit_exceeded"
  | MemoryLimitExceeded => "memory_limit_exceeded"
  | OutputLimitExceeded => "output_limit_exceeded"
  | SystemError => "system_error"
  | Cancelled => "cancelled"
  end.
End Verdict.

(** ** Score *)

Record Score : Type := MkScore { sc_earned : Z; sc_possible : Z }.

#[export] Instance Score_eq_dec : EqDecision Score.
Proof. solve_decision. Defined.

Definition Score_new (earned possible : Z) : result DomainError Score :=
  if ((possible =? 0) || (possible <? earned))%Z
  then Err InvalidScore
  else Ok {| sc_earned := earned; sc_possible := possible |}.

Definition Score_zero (possible : Z) : option Score :=
  if (possible =? 0)%Z then None
  else Some {| sc_earned := 0; sc_possible := possible |}.

#[export] Instance valid_score : Valid Score := fun s =>
  (0 <= sc_earned s <= sc_possible s)%Z /\ (1 <= sc_possible s <= u32_max)%Z.

Lemma Score_new_iff e p (s : Score) :
  is_u32 e -> is_u32 p -> (Score_new e p = Ok s <-> s = MkScore e p /\ valid s).
Proof.
  unfold Score_new, valid, valid_score, is_u32. intros He Hp. split.
  - intros H. inv_ok. split_bools. split; [done|]. simpl. lia.
  - intros [-> H]. simpl in H.
    rewrite (proj2 (Z.eqb_neq _ _)), (proj2 (Z.ltb_ge _ _)) by lia. done.
Qed.

Lemma Score_zero_valid p s : is_u32 p -> Score_zero p = Some s -> valid s /\ sc_earned s = 0%Z.
Proof.
  unfold Score_zero, is_u32, valid, valid_score. destruct (Z.eqb_spec p 0); [done|].
  intros Hp [= <-]. simpl. lia.
Qed.

(** ** Provenance *)

Module ExecutorKind.
Inductive t : Type := DevelopmentMock | Firecracker.

#[global] Instance eq_dec : EqDecision t.
Proof. solve_decision. Defined.

Definition as_str (k : t) : string :=
  match k with
  | DevelopmentMock => "development_mock"
  | Firecracker => "firecracker"
  end.
End ExecutorKind.

Record ExecutionProvenance : Type := MkProvenance {
  pr_executor_kind : ExecutorKind.t;
  pr_production_eligible : bool;
  pr_runtime_digest : ContentDigest;
  pr_node_id : option NodeId
}.

#[export] Instance ExecutionProvenance_eq_dec : EqDecision ExecutionProvenance.
Proof. solve_decision. Defined.

Definition is_none {A : Type} (o : option A) : bool :=
  match o with Some _ => false | None => true end.

Definition ExecutionProvenance_new (executor_kind : ExecutorKind.t)
    (production_eligible : bool) (runtime_digest : ContentDigest)
    (node_id : option NodeId) : result DomainError ExecutionProvenance :=
  if bool_decide (executor_kind = ExecutorKind.DevelopmentMock) && production_eligible
  then Err (InvalidProvenance "development mock results cannot be production eligible")
  else if production_eligible && is_none node_id
  then Err (InvalidProvenance "production-eligible results require a node identity")
  else Ok {| pr_executor_kind := executor_kind;
             pr_production_eligible := production_eligible;
             pr_runtime_digest := runtime_digest;
             pr_node_id := node_id |}.

Definition ExecutionProvenance_development_mock (runtime_digest : ContentDigest)
    : ExecutionProvenance :=
  {| pr_executor_kind := ExecutorKind.DevelopmentMock;
     pr_production_eligible := false;
     pr_runtime_digest := runtime_digest;
     pr_node_id := None |}.

(** What may be called production eligible: a microVM execution on a named
    node. *)
Definition provenance_ok (k : ExecutorKind.t) (eligible : bool) (node : option NodeId)
    : Prop :=
  eligible = true -> k = ExecutorKind.Firecracker /\ exists n, node = Some n.

#[export] Instance valid_provenance : Valid ExecutionProvenance := fun p =>
  valid (pr_runtime_digest p) /\ valid (pr_node_id p) /\
  provenance_ok (pr_executor_kind p) (pr_production_eligible p) (pr_node_id p).

Lemma ExecutionProvenance_new_iff k e d n (p : ExecutionProvenance) :
  ExecutionProvenance_new k e d n = Ok p <->
  p = MkProvenance k e d n /\ provenance_ok k e n.
Proof.
  unfold ExecutionProvenance_new, provenance_ok.
  destruct k, e, n as [n|]; simpl; split;
    try (by intros [= <-]; split; [|eauto]);
    try (by intros [-> H]; destruct (H eq_refl) as [? [? ?]]);
    try done; by intros [-> _].
Qed.

(** ** Identity *)

Record EvaluationIdentity : Type := MkIdentity {
  ei_request_id : RequestId;
  ei_evaluation_id : EvaluationId;
  ei_attempt_id : AttemptId;
  ei_problem_version_id : ProblemVersionId;
  ei_submission_id : SubmissionId;
  ei_runtime_id : RuntimeId;
  ei_runtime_digest : ContentDigest
}.

#[export] Instance EvaluationIdentity_eq_dec : EqDecision EvaluationIdentity.
Proof. solve_decision. Defined.

Definition EvaluationIdentity_from_request (request : EvaluationRequest)
    : EvaluationIdentity :=
  {| ei_request_id := er_request_id request;
     ei_evaluation_id := er_evaluation_id request;
     ei_attempt_id := er_attempt_id request;
     ei_problem_version_id := pv_problem_version_id (er_problem_version request);
     ei_submission_id := sub_submission_id (er_submission request);
     ei_runtime_id := rt_runtime_id (er_runtime request);
     ei_runtime_digest := rt_digest (er_runtime request) |}.

#[export] Instance valid_identity : Valid EvaluationIdentity := fun i =>
  valid (ei_request_id i) /\ valid (ei_evaluation_id i) /\ valid (ei_attempt_id i) /\
  valid (ei_problem_version_id i) /\ valid (ei_submission_id i) /\
  valid (ei_runtime_id i) /\ valid (ei_runtime_digest i).

Lemma identity_from_request_valid (r : EvaluationRequest) :
  valid r -> valid (EvaluationIdentity_from_request r).
Proof.
  intros ((?&?&?&?) & ((?&?&?) & (?&?) & (?&?) & _) & _). by split_and!.
Qed.

#[export] Hint Resolve identity_from_request_valid : openoj.

(** ** Results *)

Record EvaluationResultParts : Type := MkResultParts {
  rsp_identity : EvaluationIdentity;
  rsp_status : EvaluationStatus.t;
  rsp_verdict : Verdict.t;
  rsp_score : Score;
  rsp_stages : list StageReport;
  rsp_usage : ResourceUsage;
  rsp_diagnostics : list Diagnostic;
  rsp_evidence : list EvidenceRef;
  rsp_provenance : ExecutionProvenance
}.

Record EvaluationResult : Type := MkResult {
  res_identity : EvaluationIdentity;
  res_status : EvaluationStatus.t;
  res_verdict : Verdict.t;
  res_score : Score;
  res_stages : list StageReport;
  res_usage : ResourceUsage;
  res_diagnostics : list Diagnostic;
  res_evidence : list EvidenceRef;
  res_provenance : ExecutionProvenance
}.

#[export] Instance EvaluationResult_eq_dec : EqDecision EvaluationResult.
Proof. solve_decision. Defined.

(** [slice.iter().any(|stage| stage.status() != s)]. *)
Definition any_status_not (s : StageStatus.t) (stages : list StageReport) : bool :=
  existsb (fun stage => negb (bool_decide (sr_status stage = s))) stages.

Definition validate_terminal_stage_pattern (stages : list StageReport)
    (terminal_status : StageStatus.t) : result DomainError unit :=
  match position (fun stage => bool_decide (sr_status stage = terminal_status)) stages with
  | None =>
      Err (InvalidResult "terminal result does not contain its terminal stage status")
  | Some terminal_index =>
      if any_status_not StageStatus.Succeeded (take terminal_index stages)
         || any_status_not StageStatus.Skipped (drop (terminal_index + 1) stages)
      then Err (InvalidResult
                  "terminal stage requires succeeded predecessors and skipped successors")
      else Ok tt
  end.

Definition validate_rejected_stage (stages : list StageReport)
    (rejected_stage : StageKind.t) : result DomainError unit :=
  match position (fun stage => bool_decide (sr_stage stage = rejected_stage)) stages with
  | None => Err (InvalidResult "the verdict does not map to a canonical stage")
  | Some rejected_index =>
      match stages !! rejected_index with
      | None => Err (InvalidResult "the verdict does not map to a canonical stage")
      | Some rejected =>
          if negb (bool_decide (sr_status rejected = StageStatus.Failed))
             || any_status_not StageStatus.Succeeded (take rejected_index stages)
             || any_status_not StageStatus.Skipped (drop (rejected_index + 1) stages)
          then Err (InvalidResult
                      "rejected results require succeeded predecessors and skipped successors")
          else Ok tt
      end
  end.

Definition validate_terminal_semantics (status : EvaluationStatus.t) (verdict : Verdict.t)
    (score : Score) (stages : list StageReport) : result DomainError unit :=
  match status with
  | EvaluationStatus.Completed =>
      if bool_decide (verdict = Verdict.Cancelled)
         || bool_decide (verdict = Verdict.SystemError)
      then Err (InvalidResult
                  "completed results cannot use cancelled or system-error verdicts")
      else
        match verdict with
        | Verdict.Accepted | Verdict.WrongAnswer =>
            if any_status_not StageStatus.Succeeded stages
            then Err (InvalidResult
                   "accepted and wrong-answer results require all stages to succeed")
            else Ok tt
        | Verdict.CompileError =>
            try* validate_rejected_stage stages StageKind.Build in
            if negb (sc_earned score =? 0)%Z
            then Err (InvalidResult "compile-error results require a zero score")
            else Ok tt
        | Verdict.RuntimeError | Verdict.TimeLimitExceeded
        | Verdict.MemoryLimitExceeded | Verdict.OutputLimitExceeded =>
            try* validate_rejected_stage stages StageKind.Run in
            if negb (sc_earned score =? 0)%Z
            then Err (InvalidResult "run-rejected results require a zero score")
            else Ok tt
        | Verdict.SystemError | Verdict.Cancelled =>
            Err (InvalidResult "completed results use an invalid terminal verdict")
        end
  | EvaluationStatus.Failed =>
      if negb (bool_decide (verdict = Verdict.SystemError))
         || negb (sc_earned score =? 0)%Z
      then Err (InvalidResult "failed results require system_error and a zero score")
      else
        try* validate_terminal_stage_pattern stages StageStatus.Failed in
        Ok tt
  | EvaluationStatus.Cancelled =>
      if negb (bool_decide (verdict = Verdict.Cancelled))
         || negb (sc_earned score =? 0)%Z
      then Err (InvalidResult "cancelled results require cancelled verdict and a zero score")
      else
        try* validate_terminal_stage_pattern stages StageStatus.Cancelled in
        Ok tt
  end.

Definition EvaluationResult_new (parts : EvaluationResultParts)
    : result DomainError EvaluationResult :=
  if (MAX_STAGES <? len (rsp_stages parts))%Z || bool_decide (rsp_stages parts = [])
  then Err (InvalidResult "stage reports must be non-empty and bounded")
  else
    let stage_kinds := map sr_stage (rsp_stages parts) in
    if negb (bool_decide (stage_kinds = ALGORITHM_BATCH_STAGES))
    then Err (InvalidResult
                "algorithm batch results must preserve the canonical stage order")
    else
      try* enforce_collection_limit "result.diagnostics" (len (rsp_diagnostics parts))
             MAX_RESULT_DIAGNOSTICS in
      try* enforce_collection_limit "result.evidence" (len (rsp_evidence parts))
             MAX_RESULT_EVIDENCE in
      if negb (bool_decide (pr_runtime_digest (rsp_provenance parts)
                            = ei_runtime_digest (rsp_identity parts)))
      then Err (InvalidProvenance
                  "result provenance must match the requested runtime digest")
      else
        try* validate_terminal_semantics (rsp_status parts) (rsp_verdict parts)
               (rsp_score parts) (rsp_stages parts) in
        Ok {| res_identity := rsp_identity parts;
              res_status := rsp_status parts;
              res_verdict := rsp_verdict parts;
              res_score := rsp_score parts;
              res_stages := rsp_stages parts;
              res_usage := rsp_usage parts;
              res_diagnostics := rsp_diagnostics parts;
              res_evidence := rsp_evidence parts;
              res_provenance := rsp_provenance parts |}.

(** ** The declarative contract

    A stage pattern is a row of successes, then at most one deciding stage,
    then skipped stages; which deciding stages a verdict allows is
    [verdict_row]. *)

(** [k] successes, one stage with status [s], the rest of five skipped. *)
Definition decided_at (s : StageStatus.t) (k : nat) : list StageStatus.t :=
  replicate k StageStatus.Succeeded ++ s :: replicate (4 - k) StageStatus.Skipped.

Definition verdict_row (status : EvaluationStatus.t) (verdict : Verdict.t)
    (row : list StageStatus.t) : Prop :=
  match status, verdict with
  | EvaluationStatus.Completed, (Verdict.Accepted | Verdict.WrongAnswer) =>
      row = replicate 5 StageStatus.Succeeded
  | EvaluationStatus.Completed, Verdict.CompileError =>
      row = decided_at StageStatus.Failed 1
  | EvaluationStatus.Completed,
      (Verdict.RuntimeError | Verdict.TimeLimitExceeded
      | Verdict.MemoryLimitExceeded | Verdict.OutputLimitExceeded) =>
      row = decided_at StageStatus.Failed 2
  | EvaluationStatus.Failed, Verdict.SystemError =>
      exists k, (k < 5)%nat /\ row = decided_at StageStatus.Failed k
  | EvaluationStatus.Cancelled, Verdict.Cancelled =>
      exists k, (k < 5)%nat /\ row = decided_at StageStatus.Cancelled k
  | _, _ => False
  end.

Definition scored (status : EvaluationStatus.t) (verdict : Verdict.t) : bool :=
  match status, verdict with
  | EvaluationStatus.Completed, (Verdict.Accepted | Verdict.WrongAnswer) => true
  | _, _ => false
  end.

Record terminal_spec (status : EvaluationStatus.t) (verdict : Verdict.t) (score : Score)
    (stages : list StageReport) : Prop := {
  ts_order : map sr_stage stages = ALGORITHM_BATCH_STAGES;
  ts_row : verdict_row status verdict (map sr_status stages);
  ts_score : scored status verdict = false -> sc_earned score = 0%Z
}.

Record result_spec (p : EvaluationResultParts) : Prop := {
  rs_terminal : terminal_spec (rsp_status p) (rsp_verdict p) (rsp_score p) (rsp_stages p);
  rs_diagnostics : (len (rsp_diagnostics p) <= MAX_RESULT_DIAGNOSTICS)%Z;
  rs_evidence : (len (rsp_evidence p) <= MAX_RESULT_EVIDENCE)%Z;
  rs_digest :
    pr_runtime_digest (rsp_provenance p) = ei_runtime_digest (rsp_identity p)
}.

Definition result_parts (r : EvaluationResult) : EvaluationResultParts :=
  {| rsp_identity := res_identity r; rsp_status := res_status r;
     rsp_verdict := res_verdict r; rsp_score := res_score r;
     rsp_stages := res_stages r; rsp_usage := res_usage r;
     rsp_diagnostics := res_diagnostics r; rsp_evidence := res_evidence r;
     rsp_provenance := res_provenance r |}.

Lemma any_status_not_false (s : StageStatus.t) (l : list StageReport) :
  any_status_not s l = false <-> map sr_status l = replicate (length l) s.
Proof.
  unfold any_status_not. induction l as [|r l IH]; simpl; [done|].
  rewrite orb_false_iff, IH, negb_false_iff, bool_decide_eq_true.
  split; [by intros [-> ->] | by intros [= -> ->]].
Qed.

(** Both stage-pattern checks in terms of the status row, for any length. *)
Lemma terminal_stage_pattern_iff (stages : list StageReport) (s : StageStatus.t) :
  s <> StageStatus.Succeeded ->
  (validate_terminal_stage_pattern stages s = Ok tt <->
   exists k, (k < length stages)%nat /\
     map sr_status stages =
       replicate k StageStatus.Succeeded ++
       s :: replicate (length stages - S k) StageStatus.Skipped).
Proof.
  intros Hs. unfold validate_terminal_stage_pattern.
  destruct (position _ stages) as [i|] eqn:Hp.
  - apply position_Some in Hp as (pre & x & post & -> & <- & Hx & Hpre).
    apply bool_decide_eq_true in Hx.
    rewrite take_middle, Nat.add_1_r, drop_S_middle.
    destruct (any_status_not _ pre || any_status_not _ post) eqn:Hany.
    + split; [done|]. intros (k & Hk & Hmap). exfalso.
      assert (k = length pre) as ->.
      { destruct (decide (k = length pre)) as [|Hne]; [done|]. exfalso.
        assert (Hl := f_equal (fun l => l !! length pre) Hmap). simpl in Hl.
        rewrite list_lookup_fmap, list_lookup_middle in Hl by done. simpl in Hl.
        destruct (decide (k < length pre)%nat).
        - rewrite Forall_forall in Hpre.
          destruct (lookup_lt_is_Some_2 pre k) as [y Hy]; [done|].
          specialize (Hpre y (list_elem_of_lookup_2 _ _ _ Hy)).
          apply bool_decide_eq_false in Hpre.
          assert (Hl' := f_equal (fun l => l !! k) Hmap). simpl in Hl'.
          rewrite list_lookup_fmap, lookup_app_l, Hy in Hl' by done.
          rewrite list_lookup_middle in Hl' by by rewrite length_replicate.
          simpl in Hl'. congruence.
        - rewrite lookup_app_l in Hl by (rewrite length_replicate; lia).
          rewrite lookup_replicate_2 in Hl by lia. congruence. }
      rewrite map_app in Hmap. simpl in Hmap.
      apply app_inj_1 in Hmap as [H1 H2];
        [|by rewrite length_map, length_replicate].
      injection H2 as _ H2. rewrite length_app in H2. simpl in H2.
      replace (length pre + S (length post) - S (length pre))%nat
        with (length post) in H2 by lia.
      apply any_status_not_false in H1, H2. rewrite H1, H2 in Hany. done.
    + apply orb_false_iff in Hany as [H1 H2].
      apply any_status_not_false in H1, H2. split; [intros _ | done].
      exists (length pre). rewrite length_app. simpl. split; [lia|].
      rewrite map_app. simpl. rewrite H1, H2, Hx. repeat f_equal. lia.
  - apply position_None in Hp. split; [done|]. intros (k & Hk & Hmap).
    assert (Hin : s ∈ map sr_status stages) by (rewrite Hmap; set_solver).
    apply list_elem_of_fmap in Hin as (y & -> & Hy).
    rewrite Forall_forall in Hp. specialize (Hp y Hy).
    by apply bool_decide_eq_false in Hp.
Qed.

(** A canonical result has five reports; naming them turns the index
    arithmetic of the two checks into computation. *)
Lemma canonical_stages_inv (stages : list StageReport) :
  map sr_stage stages = ALGORITHM_BATCH_STAGES ->
  exists p b r c a, stages = [p; b; r; c; a] /\
    sr_stage p = StageKind.Prepare /\ sr_stage b = StageKind.Build /\
    sr_stage r = StageKind.Run /\ sr_stage c = StageKind.Check /\
    sr_stage a = StageKind.Aggregate.
Proof.
  destruct stages as [|p [|b [|r [|c [|a [|]]]]]]; try done.
  simpl. intros [= ? ? ? ? ?]. by exists p, b, r, c, a.
Qed.

Lemma canonical_length (stages : list StageReport) :
  map sr_stage stages = ALGORITHM_BATCH_STAGES -> length stages = 5.
Proof. intros H. by rewrite <- (length_map sr_stage), H. Qed.

(** The index of a stage in the canonical order. *)
Definition stage_index (s : StageKind.t) : nat :=
  match s with
  | StageKind.Prepare => 0
  | StageKind.Build => 1
  | StageKind.Run => 2
  | StageKind.Check => 3
  | StageKind.Aggregate => 4
  end.

Lemma position_canonical (stages : list StageReport) (s : StageKind.t) :
  map sr_stage stages = ALGORITHM_BATCH_STAGES ->
  position (fun r => bool_decide (sr_stage r = s)) stages = Some (stage_index s).
Proof.
  intros (p & b & r & c & a & -> & Hp & Hb & Hr & Hc & Ha)%canonical_stages_inv.
  simpl. rewrite Hp, Hb, Hr, Hc, Ha. by destruct s.
Qed.

Lemma rejected_stage_iff (stages : list StageReport) (s : StageKind.t) :
  map sr_stage stages = ALGORITHM_BATCH_STAGES ->
  validate_rejected_stage stages s = Ok tt <->
  map sr_status stages = decided_at StageStatus.Failed (stage_index s).
Proof.
  intros H. unfold validate_rejected_stage. rewrite position_canonical by done.
  pose proof (canonical_length _ H) as Hlen.
  assert (Hi : (stage_index s < 5)%nat) by (destruct s; simpl; lia).
  revert Hi. generalize (stage_index s) as i. intros i Hi. rewrite <- Hlen in Hi.
  destruct (lookup_lt_is_Some_2 _ _ Hi) as [x Hx]. rewrite Hx, Nat.add_1_r.
  rewrite <- (take_drop_middle _ _ _ Hx) at 3.
  rewrite map_app. simpl. unfold decided_at.
  assert (Ht : length (take i stages) = i) by (rewrite length_take; lia).
  assert (Hd : length (drop (S i) stages) = (4 - i)%nat) by (rewrite length_drop; lia).
  destruct (any_status_not _ (take i stages)) eqn:H1;
    [|destruct (any_status_not _ (drop (S i) stages)) eqn:H2].
  1,2: rewrite ?orb_true_r; simpl; split; [done|]; intros [E1 E2]%app_inj_1;
    [|by rewrite length_map, length_replicate]; injection E2 as _ E2.
  - rewrite (proj2 (any_status_not_false _ _)) in H1; [done | by rewrite Ht].
  - rewrite (proj2 (any_status_not_false _ _)) in H2; [done | by rewrite Hd].
  - apply any_status_not_false in H1, H2. rewrite Ht in H1. rewrite Hd in H2.
    rewrite H1, H2, !orb_false_r. case_bool_decide as Hf; simpl.
    + by rewrite Hf.
    + split; [done|]. intros [_ E]%app_inj_1; [|done]. by injection E.
Qed.

Lemma verdict_semantics_iff status verdict score stages :
  map sr_stage stages = ALGORITHM_BATCH_STAGES ->
  validate_terminal_semantics status verdict score stages = Ok tt <->
  verdict_row status verdict (map sr_status stages) /\
  (scored status verdict = false -> sc_earned score = 0%Z).
Proof.
  intros Hk. pose proof (canonical_length _ Hk) as Hlen.
  assert (Hrej : forall s e, rbind (validate_rejected_stage stages s)
            (fun _ => if negb (sc_earned score =? 0)%Z then Err e else Ok tt) = Ok tt <->
            map sr_status stages = decided_at StageStatus.Failed (stage_index s) /\
            (false = false -> sc_earned score = 0%Z)).
  { intros s e. rewrite <- rejected_stage_iff by done.
    destruct (validate_rejected_stage stages s) as [[]|]; simpl; [|by split; [|intros []]].
    destruct (Z.eqb_spec (sc_earned score) 0); [tauto|].
    split; [done | intros [_ H]; by destruct (H eq_refl)]. }
  assert (Hpat : forall s, s <> StageStatus.Succeeded ->
            rbind (validate_terminal_stage_pattern stages s) (fun _ => Ok tt) = Ok tt <->
            exists k, (k < 5)%nat /\ map sr_status stages = decided_at s k).
  { intros s Hs. transitivity (validate_terminal_stage_pattern stages s = Ok tt).
    - destruct (validate_terminal_stage_pattern stages s) as [[]|]; by split.
    - rewrite terminal_stage_pattern_iff, Hlen by done. done. }
  unfold validate_terminal_semantics.
  destruct status, verdict; simpl; try apply Hrej; try (split; [done | by intros []]).
  1,2: destruct (any_status_not _ stages) eqn:E;
    [ split; [done|]; intros [Hr _]; rewrite (proj2 (any_status_not_false _ _)) in E;
      [done | by rewrite Hlen]
    | apply any_status_not_false in E; rewrite Hlen in E; by split ].
  1,2: destruct (Z.eqb_spec (sc_earned score) 0); simpl;
    [rewrite Hpat by done; tauto | split; [done | intros [_ H]; by destruct (H eq_refl)]].
Qed.

(** The constructor accepts exactly the parts of the contract, unchanged. *)
Lemma EvaluationResult_new_spec (p : EvaluationResultParts) (r : EvaluationResult) :
  EvaluationResult_new p = Ok r <-> p = result_parts r /\ result_spec p.
Proof.
  unfold EvaluationResult_new. split.
  - intros H. inv_ok. split_bools.
    repeat match goal with H : enforce_collection_limit _ _ _ = Ok ?u |- _ =>
      destruct u; apply enforce_collection_limit_iff in H end.
    match goal with H : validate_terminal_semantics _ _ _ _ = Ok ?u |- _ =>
      destruct u; apply verdict_semantics_iff in H as [? ?]; [|done] end.
    split; [by destruct p|]. by repeat split.
  - intros [Hp [[Ho Hr Hs] Hd He Hdig]].
    pose proof (canonical_length _ Ho) as Hlen. unfold len at 1. rewrite Hlen.
    rewrite (bool_decide_false (rsp_stages p = [])) by (intros H; by rewrite H in Hlen).
    rewrite (bool_decide_true _ Ho). simpl.
    rewrite !(proj2 (enforce_collection_limit_iff _ _ _)) by done. simpl.
    rewrite (bool_decide_true _ Hdig). simpl.
    rewrite (proj2 (verdict_semantics_iff _ _ _ _ Ho)) by done. simpl.
    subst p. by destruct r.
Qed.

#[export] Instance valid_result : Valid EvaluationResult := fun r =>
  valid (res_identity r) /\ valid (res_score r) /\ valid (res_stages r) /\
  valid (res_usage r) /\ valid (res_diagnostics r) /\ valid (res_evidence r) /\
  valid (res_provenance r) /\ result_spec (result_parts r).

Lemma EvaluationResult_new_valid (p : EvaluationResultParts) (r : EvaluationResult) :
  valid (rsp_identity p) -> valid (rsp_score p) -> valid (rsp_stages p) ->
  valid (rsp_usage p) -> valid (rsp_diagnostics p) -> valid (rsp_evidence p) ->
  valid (rsp_provenance p) -> EvaluationResult_new p = Ok r -> valid r.
Proof.
  intros ? ? ? ? ? ? ? [-> Hs]%EvaluationResult_new_spec. by repeat split_and.
Qed.

(** The error answers of the constructor, in the order the code checks. *)
Lemma EvaluationResult_new_total (p : EvaluationResultParts) :
  (exists r, EvaluationResult_new p = Ok r) \/ (exists e, EvaluationResult_new p = Err e).
Proof. destruct (EvaluationResult_new p); eauto. Qed.

(** [execution_proven_non_production]: the development mock is never production
    eligible. *)
Lemma development_mock_valid (d : ContentDigest) :
  valid d -> valid (ExecutionProvenance_development_mock d).
Proof. intros Hd. by split_and!. Qed.

#[export] Hint Resolve development_mock_valid : openoj.
