(* ===== verification/Application.v ===== *)
(** * The evaluation pipeline

    Models [crates/openoj-application/src/lib.rs]: [evaluate] drives an executor
    through the stages of a request, records every outcome in an
    [EvaluationRun], stops at the first terminal outcome and builds the
    canonical result. The executor is a type class over its own mutable state,
    so the theorems hold for every implementation of the trait. *)

From S2P Require Import Prelude Value Control Evaluation EvalResult.

Inductive ApplicationError : Type :=
  | UnsupportedCapability
  | InvalidExecutorOutput (reason : string)
  | Domain (error : DomainError).

#[export] Instance ApplicationError_eq_dec : EqDecision ApplicationError.
Proof. solve_decision. Defined.

(** ** Decisions and stage outcomes *)

Record Decision : Type := MkDecision { dec_verdict : Verdict.t; dec_score : Score }.

Definition Decision_new (verdict : Verdict.t) (score : Score)
    : result ApplicationError Decision :=
  match verdict with
  | Verdict.Accepted | Verdict.WrongAnswer =>
      Ok {| dec_verdict := verdict; dec_score := score |}
  | _ =>
      Err (InvalidExecutorOutput
             "the check-stage decision must be accepted or wrong_answer")
  end.

#[export] Instance valid_decision : Valid Decision := fun d =>
  (dec_verdict d = Verdict.Accepted \/ dec_verdict d = Verdict.WrongAnswer) /\
  valid (dec_score d).

Lemma Decision_new_iff v s (d : Decision) :
  valid s -> (Decision_new v s = Ok d <-> d = MkDecision v s /\ valid d).
Proof.
  intros Hs. unfold Decision_new, valid, valid_decision. split.
  - intros H. by destruct v; simplify_eq; simpl; auto.
  - intros [-> [[H|H] _]]; simpl in H; by subst.
Qed.

Inductive StageExecution : Type :=
  | ExSucceeded (usage : ResourceUsage) (diagnostics : list Diagnostic)
      (evidence : list EvidenceRef) (decision : option Decision)
  | ExRejected (verdict : Verdict.t) (usage : ResourceUsage)
      (diagnostics : list Diagnostic) (evidence : list EvidenceRef)
  | ExFailed (usage : ResourceUsage) (diagnostics : list Diagnostic)
      (evidence : list EvidenceRef)
  | ExCancelled (usage : ResourceUsage) (diagnostics : list Diagnostic)
      (evidence : list EvidenceRef).

Record StageContext : Type := MkStageContext {
  sc_request : EvaluationRequest;
  sc_stage : StageKind.t
}.

(** The [StageExecutor] trait; [execute] takes [&mut self], so it returns the
    executor's next state. *)
Class StageExecutor (S : Type) := {
  se_kind : S -> ExecutorKind.t;
  se_production_eligible : S -> bool;
  se_node_id : S -> option NodeId;
  se_supports : S -> Capability -> bool;
  se_execute : StageContext -> S -> StageExecution * S
}.

(** ** The run *)

Record Terminal : Type := MkTerminal {
  t_status : EvaluationStatus.t;
  t_verdict : Verdict.t;
  t_score : Score
}.

Record EvaluationRun : Type := MkRun {
  run_request : EvaluationRequest;
  run_reports : list StageReport;
  run_usage : ResourceUsage;
  run_decision : option Decision;
  run_provenance : ExecutionProvenance
}.

Definition EvaluationRun_new (request : EvaluationRequest)
    (provenance : ExecutionProvenance) : EvaluationRun :=
  {| run_request := request;
     run_reports := [];
     run_usage := ResourceUsage_default;
     run_decision := None;
     run_provenance := provenance |}.

Definition is_some {A : Type} (o : option A) : bool := negb (is_none o).

Definition validate_decision_location (stage : StageKind.t) (decision : option Decision)
    : result ApplicationError unit :=
  if negb (Bool.eqb (bool_decide (stage = StageKind.Check)) (is_some decision))
  then Err (InvalidExecutorOutput
              "exactly the successful check stage must produce a decision")
  else Ok tt.

Definition rejection_matches (stage : StageKind.t) (verdict : Verdict.t) : bool :=
  match stage with
  | StageKind.Build => bool_decide (verdict = Verdict.CompileError)
  | StageKind.Run =>
      match verdict with
      | Verdict.RuntimeError | Verdict.TimeLimitExceeded
      | Verdict.MemoryLimitExceeded | Verdict.OutputLimitExceeded => true
      | _ => false
      end
  | StageKind.Prepare | StageKind.Check | StageKind.Aggregate => false
  end.

Definition validate_rejection (stage : StageKind.t) (verdict : Verdict.t)
    : result ApplicationError unit :=
  if negb (rejection_matches stage verdict)
  then Err (InvalidExecutorOutput "stage rejection and verdict are inconsistent")
  else Ok tt.

(** [request.plan().stages()[start..]], reported as skipped. *)
Definition append_skipped_reports (request : EvaluationRequest) (start : nat)
    (reports : list StageReport) : result ApplicationError (list StageReport) :=
  let* skipped :=
    traverse (fun stage =>
      map_err Domain
        (StageReport_new stage StageStatus.Skipped ResourceUsage_default [] []))
      (drop start (plan_stages (er_plan request))) in
  Ok (reports ++ skipped).

Definition zero_score : result ApplicationError Score := map_err Domain (Score_new 0 1).

Definition EvaluationRun_record (self : EvaluationRun) (index : nat) (stage : StageKind.t)
    (outcome : StageExecution) : result ApplicationError (EvaluationRun * option Terminal) :=
  let* (status, usage, diagnostics, evidence, terminal, stage_decision) :=
    match outcome with
    | ExSucceeded usage diagnostics evidence decision =>
        try* validate_decision_location stage decision in
        Ok (StageStatus.Succeeded, usage, diagnostics, evidence, None, decision)
    | ExRejected verdict usage diagnostics evidence =>
        try* validate_rejection stage verdict in
        let* score := zero_score in
        Ok (StageStatus.Failed, usage, diagnostics, evidence,
            Some (MkTerminal EvaluationStatus.Completed verdict score), None)
    | ExFailed usage diagnostics evidence =>
        let* score := zero_score in
        Ok (StageStatus.Failed, usage, diagnostics, evidence,
            Some (MkTerminal EvaluationStatus.Failed Verdict.SystemError score), None)
    | ExCancelled usage diagnostics evidence =>
        let* score := zero_score in
        Ok (StageStatus.Cancelled, usage, diagnostics, evidence,
            Some (MkTerminal EvaluationStatus.Cancelled Verdict.Cancelled score), None)
    end in
  let* total := map_err Domain (ResourceUsage_checked_add (run_usage self) usage) in
  let* report := map_err Domain (StageReport_new stage status usage diagnostics evidence) in
  let reports := run_reports self ++ [report] in
  let decision :=
    if bool_decide (stage = StageKind.Check) then stage_decision else run_decision self in
  let* reports :=
    match terminal with
    | Some _ => append_skipped_reports (run_request self) (index + 1) reports
    | None => Ok reports
    end in
  Ok ({| run_request := run_request self; run_reports := reports; run_usage := total;
         run_decision := decision; run_provenance := run_provenance self |}, terminal).

Definition build_result (request : EvaluationRequest) (status : EvaluationStatus.t)
    (verdict : Verdict.t) (score : Score) (stages : list StageReport)
    (usage : ResourceUsage) (provenance : ExecutionProvenance)
    : result ApplicationError EvaluationResult :=
  map_err Domain (EvaluationResult_new
    {| rsp_identity := EvaluationIdentity_from_request request;
       rsp_status := status;
       rsp_verdict := verdict;
       rsp_score := score;
       rsp_stages := stages;
       rsp_usage := usage;
       rsp_diagnostics := [];
       rsp_evidence := [];
       rsp_provenance := provenance |}).

Definition EvaluationRun_finish (self : EvaluationRun) (terminal : Terminal)
    : result ApplicationError EvaluationResult :=
  build_result (run_request self) (t_status terminal) (t_verdict terminal)
    (t_score terminal) (run_reports self) (run_usage self) (run_provenance self).

Definition EvaluationRun_finish_success (self : EvaluationRun)
    : result ApplicationError EvaluationResult :=
  match run_decision self with
  | None => Err (InvalidExecutorOutput "the check stage did not produce a decision")
  | Some decision =>
      EvaluationRun_finish self
        (MkTerminal EvaluationStatus.Completed (dec_verdict decision) (dec_score decision))
  end.

Section Pipeline.
Context {S : Type} `{StageExecutor S}.

(** The [for] loop of [evaluate], from stage [index] on. *)
Fixpoint evaluate_stages (request : EvaluationRequest) (index : nat)
    (stages : list StageKind.t) (run : EvaluationRun) (executor : S)
    : result ApplicationError EvaluationResult * S :=
  match stages with
  | [] => (EvaluationRun_finish_success run, executor)
  | stage :: rest =>
      let '(outcome, executor') := se_execute (MkStageContext request stage) executor in
      match EvaluationRun_record run index stage outcome with
      | Err e => (Err e, executor')
      | Ok (run', Some terminal) => (EvaluationRun_finish run' terminal, executor')
      | Ok (run', None) => evaluate_stages request (index + 1) rest run' executor'
      end
  end.

Definition evaluate (request : EvaluationRequest) (executor : S)
    : result ApplicationError EvaluationResult * S :=
  if existsb (fun capability => negb (se_supports executor capability))
       (er_required_capabilities request)
  then (Err UnsupportedCapability, executor)
  else
    match map_err Domain
            (ExecutionProvenance_new (se_kind executor) (se_production_eligible executor)
               (rt_digest (er_runtime request)) (se_node_id executor)) with
    | Err e => (Err e, executor)
    | Ok provenance =>
        evaluate_stages request 0 (plan_stages (er_plan request))
          (EvaluationRun_new request provenance) executor
    end.
End Pipeline.
