(* ===== verification/Pipeline.v ===== *)
(** * What the evaluation pipeline promises

    The declarative semantics of [Application.evaluate]: an execution is the
    sequence of stage outcomes the executor produced ([Executes]), and the
    result is a function of that sequence ([expected_result]). The refinement
    theorem says the code computes exactly that function, for every executor,
    and fails exactly when an outcome or a total breaks its contract. *)

From S2P Require Import Prelude Value Control Evaluation EvalResult Application.

(** ** Outcomes *)

Definition outcome_usage (o : StageExecution) : ResourceUsage :=
  match o with
  | ExSucceeded u _ _ _ | ExRejected _ u _ _ | ExFailed u _ _ | ExCancelled u _ _ => u
  end.

Definition outcome_diagnostics (o : StageExecution) : list Diagnostic :=
  match o with
  | ExSucceeded _ d _ _ | ExRejected _ _ d _ | ExFailed _ d _ | ExCancelled _ d _ => d
  end.

Definition outcome_evidence (o : StageExecution) : list EvidenceRef :=
  match o with
  | ExSucceeded _ _ e _ | ExRejected _ _ _ e | ExFailed _ _ e | ExCancelled _ _ e => e
  end.

Definition outcome_status (o : StageExecution) : StageStatus.t :=
  match o with
  | ExSucceeded _ _ _ _ => StageStatus.Succeeded
  | ExRejected _ _ _ _ | ExFailed _ _ _ => StageStatus.Failed
  | ExCancelled _ _ _ => StageStatus.Cancelled
  end.

Definition outcome_decision (o : StageExecution) : option Decision :=
  match o with ExSucceeded _ _ _ d => d | _ => None end.

Definition score_0_1 : Score := MkScore 0 1.

Definition outcome_terminal (o : StageExecution) : option Terminal :=
  match o with
  | ExSucceeded _ _ _ _ => None
  | ExRejected v _ _ _ => Some (MkTerminal EvaluationStatus.Completed v score_0_1)
  | ExFailed _ _ _ => Some (MkTerminal EvaluationStatus.Failed Verdict.SystemError score_0_1)
  | ExCancelled _ _ _ =>
      Some (MkTerminal EvaluationStatus.Cancelled Verdict.Cancelled score_0_1)
  end.

(** What an outcome must satisfy at its stage. *)
Definition outcome_conforms (k : StageKind.t) (o : StageExecution) : Prop :=
  match o with
  | ExSucceeded _ _ _ d => (k = StageKind.Check <-> d <> None)
  | ExRejected v _ _ _ => rejection_matches k v = true
  | ExFailed _ _ _ | ExCancelled _ _ _ => True
  end /\
  (len (outcome_diagnostics o) <= MAX_STAGE_DIAGNOSTICS)%Z /\
  (len (outcome_evidence o) <= MAX_STAGE_EVIDENCE)%Z.

Definition outcome_report (k : StageKind.t) (o : StageExecution) : StageReport :=
  MkStageReport k (outcome_status o) (outcome_usage o) (outcome_diagnostics o)
    (outcome_evidence o).

Definition skipped_report (k : StageKind.t) : StageReport :=
  MkStageReport k StageStatus.Skipped ResourceUsage_default [] [].

#[export] Instance valid_execution : Valid StageExecution := fun o =>
  valid (outcome_usage o) /\ valid (outcome_diagnostics o) /\
  valid (outcome_evidence o) /\ valid (outcome_decision o).

(** ** Traces *)

Definition trace_usage (start : ResourceUsage) (os : list StageExecution) : ResourceUsage :=
  foldl usage_join start (map outcome_usage os).

Fixpoint trace_reports (ks : list StageKind.t) (os : list StageExecution)
    : list StageReport :=
  match ks, os with
  | [], _ => []
  | k :: ks', o :: os' => outcome_report k o :: trace_reports ks' os'
  | k :: ks', [] => skipped_report k :: trace_reports ks' []
  end.

Fixpoint trace_decision (start : option Decision) (ks : list StageKind.t)
    (os : list StageExecution) : option Decision :=
  match ks, os with
  | k :: ks', o :: os' =>
      trace_decision (if bool_decide (k = StageKind.Check) then outcome_decision o else start)
        ks' os'
  | _, _ => start
  end.

Definition trace_conforms (ks : list StageKind.t) (os : list StageExecution) : Prop :=
  Forall (uncurry outcome_conforms) (zip ks os).

Definition trace_terminal (os : list StageExecution) : option Terminal :=
  o ← last os; outcome_terminal o.

Section Semantics.
Context {S : Type} `{StageExecutor S}.
Variable request : EvaluationRequest.

(** The executor's calls over the stages [ks]: one per stage, in order, up to
    and including the first outcome that is terminal. *)
Inductive Executes : list StageKind.t -> S -> list StageExecution -> S -> Prop :=
  | exec_done s : Executes [] s [] s
  | exec_stop k ks s o s' :
      se_execute (MkStageContext request k) s = (o, s') ->
      outcome_terminal o <> None -> Executes (k :: ks) s [o] s'
  | exec_next k ks s o s' os s'' :
      se_execute (MkStageContext request k) s = (o, s') ->
      outcome_terminal o = None ->
      Executes ks s' os s'' -> Executes (k :: ks) s (o :: os) s''.

(** The shape of an execution: successes only, or successes and then one
    terminal outcome. *)
Lemma Executes_shape ks s os s' :
  Executes ks s os s' ->
  (length os = length ks /\ Forall (fun o => outcome_terminal o = None) os) \/
  (exists pre o, os = pre ++ [o] /\ (length os <= length ks)%nat /\
     Forall (fun o => outcome_terminal o = None) pre /\ outcome_terminal o <> None).
Proof.
  induction 1 as [s|k ks s o s' He Ho|k ks s o s' os s'' He Ho _ IH].
  - by left.
  - right. exists [], o. simpl. repeat split; [lia | done | done].
  - destruct IH as [[Hl Hf]|(pre & x & -> & Hl & Hf & Hx)].
    + left. simpl. split; [lia|]. by constructor.
    + right. exists (o :: pre), x. simpl in *. repeat split; [lia| |done]. by constructor.
Qed.

Lemma Executes_cons_inv k ks s o s1 os s' :
  se_execute (MkStageContext request k) s = (o, s1) ->
  Executes (k :: ks) s os s' ->
  (outcome_terminal o <> None /\ os = [o] /\ s' = s1) \/
  (outcome_terminal o = None /\ exists os', os = o :: os' /\ Executes ks s1 os' s').
Proof.
  intros He Hx. inversion Hx as [|? ? ? ? ? He2 Ho2|? ? ? ? ? ? ? He2 Ho2 Hr2]; subst;
    rewrite He in He2; simplify_eq; eauto 6.
Qed.

(** The executor is deterministic, so its execution is unique. *)
Lemma Executes_unique ks s os1 s1 os2 s2 :
  Executes ks s os1 s1 -> Executes ks s os2 s2 -> os1 = os2 /\ s1 = s2.
Proof.
  intros H1. revert os2 s2.
  induction H1 as [s|k ks s o s' He Ho|k ks s o s' os s'' He Ho _ IH];
    intros os2 s2 H2; [by inversion H2|..];
    destruct (Executes_cons_inv _ _ _ _ _ _ _ He H2) as
      [(Ht & -> & ->)|(Ht & os' & -> & Hr)]; try done.
  by destruct (IH _ _ Hr) as [-> ->].
Qed.

Lemma Executes_total ks s : exists os s', Executes ks s os s'.
Proof.
  revert s; induction ks as [|k ks IH]; intros s; [by exists [], s; constructor|].
  destruct (se_execute (MkStageContext request k) s) as [o s'] eqn:He.
  destruct (outcome_terminal o) eqn:Ho.
  - exists [o], s'. eapply exec_stop; [done | by rewrite Ho].
  - destruct (IH s') as (os & s'' & Hos). exists (o :: os), s''. by eapply exec_next.
Qed.
End Semantics.

(** ** One recorded stage *)

Lemma usage_join_valid_l (a b : ResourceUsage) :
  (0 <= ru_cpu_time_ms a /\ 0 <= ru_wall_time_ms a /\
   0 <= ru_memory_peak_bytes a /\ 0 <= ru_output_bytes a)%Z ->
  valid b -> valid (usage_join a b) -> valid a.
Proof. unfold valid, valid_usage, usage_join; simpl. lia. Qed.

Lemma trace_usage_valid_start (u : ResourceUsage) (os : list StageExecution) :
  (0 <= ru_cpu_time_ms u /\ 0 <= ru_wall_time_ms u /\
   0 <= ru_memory_peak_bytes u /\ 0 <= ru_output_bytes u)%Z ->
  Forall valid os -> valid (trace_usage u os) -> valid u.
Proof.
  unfold trace_usage. revert u; induction os as [|o os IH]; intros u Hu; [done|].
  inversion 1 as [|? ? Ho Hos]; subst. simpl. intros Hv.
  destruct Ho as [Ho _]. pose proof Ho as Ho'. unfold valid, valid_usage in Ho.
  eapply usage_join_valid_l; [exact Hu | exact Ho' |].
  apply IH; [|done|done]. simpl. lia.
Qed.

Lemma append_skipped_spec (r : EvaluationRequest) (i : nat) (reports : list StageReport) :
  append_skipped_reports r i reports =
    Ok (reports ++ trace_reports (drop i (plan_stages (er_plan r))) []).
Proof.
  unfold append_skipped_reports.
  assert (Ht : forall ks, traverse (fun stage => map_err Domain
      (StageReport_new stage StageStatus.Skipped ResourceUsage_default [] [])) ks
      = Ok (trace_reports ks [])) by (induction ks as [|k ks IH]; [done|]; simpl in *; by rewrite IH).
  by rewrite Ht.
Qed.

(** The run after a non-terminal outcome, and the reports a terminal adds. *)
Definition run_after (run : EvaluationRun) (k : StageKind.t) (o : StageExecution)
    (rest : list StageReport) : EvaluationRun :=
  {| run_request := run_request run;
     run_reports := run_reports run ++ outcome_report k o :: rest;
     run_usage := usage_join (run_usage run) (outcome_usage o);
     run_decision :=
       if bool_decide (k = StageKind.Check) then outcome_decision o else run_decision run;
     run_provenance := run_provenance run |}.

Definition rest_reports (run : EvaluationRun) (i : nat) (o : StageExecution)
    : list StageReport :=
  match outcome_terminal o with
  | None => []
  | Some _ => trace_reports (drop (i + 1) (plan_stages (er_plan (run_request run)))) []
  end.

Lemma validate_decision_location_iff k d :
  validate_decision_location k d = Ok tt <-> (k = StageKind.Check <-> d <> None).
Proof.
  unfold validate_decision_location. destruct d as [d|]; simpl;
    case_bool_decide as Hk; simpl; naive_solver.
Qed.

Lemma record_iff run i k o x :
  valid (run_usage run) -> valid o ->
  (EvaluationRun_record run i k o = Ok x <->
   outcome_conforms k o /\ valid (usage_join (run_usage run) (outcome_usage o)) /\
   x = (run_after run k o (rest_reports run i o), outcome_terminal o)).
Proof.
  intros Hru (Hou & _).
  assert (Hrec : forall st d e tm dec,
    outcome_status o = st -> outcome_diagnostics o = d -> outcome_evidence o = e ->
    outcome_terminal o = tm -> outcome_decision o = dec ->
    (rbind (map_err Domain (ResourceUsage_checked_add (run_usage run) (outcome_usage o)))
     (fun total => rbind (map_err Domain (StageReport_new k st (outcome_usage o) d e))
     (fun report => rbind
        (match tm with
         | Some _ => append_skipped_reports (run_request run) (i + 1)
                       (run_reports run ++ [report])
         | None => Ok (run_reports run ++ [report]) end)
     (fun reports => Ok ({| run_request := run_request run; run_reports := reports;
        run_usage := total;
        run_decision := if bool_decide (k = StageKind.Check) then dec else run_decision run;
        run_provenance := run_provenance run |}, tm)))) = Ok x <->
     ((len (outcome_diagnostics o) <= MAX_STAGE_DIAGNOSTICS)%Z /\
      (len (outcome_evidence o) <= MAX_STAGE_EVIDENCE)%Z) /\
     valid (usage_join (run_usage run) (outcome_usage o)) /\
     x = (run_after run k o (rest_reports run i o), outcome_terminal o))).
  { intros st d e tm dec <- <- <- <- <-. unfold rest_reports. split.
    - intros Hx. inv_ok.
      match goal with H : ResourceUsage_checked_add _ _ = _ |- _ =>
        apply usage_checked_add_iff in H as [-> Hv]; [|done|done] end.
      match goal with H : StageReport_new _ _ _ _ _ = _ |- _ =>
        apply StageReport_new_iff in H as (-> & Hd & He) end.
      split; [done|]. split; [done|]. unfold run_after.
      destruct (outcome_terminal o);
        [match goal with H : append_skipped_reports _ _ _ = _ |- _ =>
           rewrite append_skipped_spec in H end|]; inv_ok; by rewrite <- ?app_assoc.
    - intros ([Hd He] & Hv & ->).
      rewrite (proj2 (usage_checked_add_iff _ _ _ Hru Hou) (conj eq_refl Hv)). simpl.
      rewrite (proj2 (StageReport_new_iff _ _ _ _ _ _) (conj eq_refl (conj Hd He))). simpl.
      unfold run_after. destruct (outcome_terminal o); simpl;
        [by rewrite append_skipped_spec, <- app_assoc | done]. }
  unfold EvaluationRun_record, outcome_conforms.
  change zero_score with (@Ok ApplicationError _ score_0_1).
  destruct o as [u d e dec|v u d e|u d e|u d e]; simpl outcome_usage in *.
  - rewrite <- validate_decision_location_iff.
    destruct (validate_decision_location k dec) as [[]|]; simpl rbind at 2;
      [|split; [done | by intros [[? _] _]]].
    etransitivity; [by apply (Hrec _ _ _ _ _ eq_refl eq_refl eq_refl eq_refl eq_refl) | tauto].
  - unfold validate_rejection. destruct (rejection_matches k v); simpl negb;
      [|split; [done | by intros [[? _] _]]].
    etransitivity; [by apply (Hrec _ _ _ _ _ eq_refl eq_refl eq_refl eq_refl eq_refl) | tauto].
  - etransitivity; [by apply (Hrec _ _ _ _ _ eq_refl eq_refl eq_refl eq_refl eq_refl) | tauto].
  - etransitivity; [by apply (Hrec _ _ _ _ _ eq_refl eq_refl eq_refl eq_refl eq_refl) | tauto].
Qed.

(** ** The loop *)

(** The run after the outcomes [os] of the stages [ks]. *)
Definition run_extend (run : EvaluationRun) (ks : list StageKind.t)
    (os : list StageExecution) : EvaluationRun :=
  {| run_request := run_request run;
     run_reports := run_reports run ++ trace_reports ks os;
     run_usage := trace_usage (run_usage run) os;
     run_decision := trace_decision (run_decision run) ks os;
     run_provenance := run_provenance run |}.

Definition finish_trace (run : EvaluationRun) (os : list StageExecution)
    : result ApplicationError EvaluationResult :=
  match trace_terminal os with
  | Some t => EvaluationRun_finish run t
  | None => EvaluationRun_finish_success run
  end.

(** What Rust's type privacy gives every executor: the values its methods
    return were built by the validating constructors. *)
Class ExecutorLaws (S : Type) `{StageExecutor S} := {
  el_execute_valid : forall ctx s, valid (fst (se_execute ctx s));
  el_node_valid : forall s, valid (se_node_id s)
}.

Section Refinement.
Context {S : Type} `{ExecutorLaws S}.
Variable request : EvaluationRequest.

Lemma execute_valid ctx s o s' : se_execute ctx s = (o, s') -> valid o.
Proof. intros He. pose proof (el_execute_valid ctx s) as Hv. by rewrite He in Hv. Qed.

Lemma Executes_valid ks s os s' : Executes request ks s os s' -> Forall valid os.
Proof.
  induction 1; [constructor|..]; constructor; eauto using execute_valid.
Qed.

Lemma trace_terminal_cons o os :
  outcome_terminal o = None -> trace_terminal (o :: os) = trace_terminal os.
Proof. intros Ho. unfold trace_terminal. by destruct os; simpl; rewrite ?Ho. Qed.

Lemma run_extend_after run k ks o os :
  outcome_terminal o = None ->
  run_extend (run_after run k o []) ks os = run_extend run (k :: ks) (o :: os).
Proof.
  intros Ho. unfold run_extend, run_after. simpl. f_equal. by rewrite <- app_assoc.
Qed.

Lemma run_after_stop run i k ks o t :
  outcome_terminal o = Some t ->
  drop i (plan_stages (er_plan (run_request run))) = k :: ks ->
  run_after run k o (rest_reports run i o) = run_extend run (k :: ks) [o].
Proof.
  intros Ho Hd. unfold run_extend, run_after, rest_reports. simpl. rewrite Ho.
  rewrite (drop_cons_next _ _ _ _ Hd). by destruct ks.
Qed.

Lemma trace_conforms_nil ks : trace_conforms ks [].
Proof. unfold trace_conforms. destruct ks; constructor. Qed.

Lemma trace_conforms_cons k ks o os :
  trace_conforms (k :: ks) (o :: os) <-> outcome_conforms k o /\ trace_conforms ks os.
Proof. unfold trace_conforms. simpl. by rewrite Forall_cons. Qed.

Lemma evaluate_stages_iff ks i run s r s' :
  run_request run = request ->
  drop i (plan_stages (er_plan request)) = ks ->
  valid (run_usage run) ->
  (evaluate_stages request i ks run s = (Ok r, s') <->
   exists os, Executes request ks s os s' /\ trace_conforms ks os /\
     valid (trace_usage (run_usage run) os) /\
     finish_trace (run_extend run ks os) os = Ok r).
Proof.
  revert i run s. induction ks as [|k ks IH]; intros i run s Hreq Hd Hu; simpl.
  { assert (Hx : run_extend run [] [] = run)
      by (destruct run; unfold run_extend; simpl; by rewrite app_nil_r).
    split.
    - intros [= Hf <-]. exists []. rewrite Hx. split; [constructor|]. split; [constructor|].
      by split.
    - intros (os & He & _ & _ & Hf). inversion He; subst. rewrite Hx in Hf.
      unfold finish_trace in Hf. simpl in Hf. by rewrite Hf. }
  destruct (se_execute (MkStageContext request k) s) as [o s1] eqn:He.
  pose proof (execute_valid _ _ _ _ He) as Ho.
  assert (Hrec := record_iff run i k o).
  destruct (EvaluationRun_record run i k o) as [[run' t]|e] eqn:Hr.
  - specialize (Hrec (run', t) Hu Ho). apply proj1 in Hrec.
    destruct (Hrec eq_refl) as (Hc & Hv & [= -> ->]). clear Hrec Hr.
    destruct (outcome_terminal o) as [t|] eqn:Ht.
    + rewrite (run_after_stop _ _ _ ks _ t) by (subst; done). split.
      * intros [= Hf <-]. exists [o]. split; [eapply exec_stop; [done | by rewrite Ht]|].
        rewrite trace_conforms_cons.
        split; [split; [done | apply trace_conforms_nil]|]. split; [done|].
        unfold finish_trace, trace_terminal. simpl. by rewrite Ht.
      * intros (os & Hex & _ & _ & Hf).
        destruct (Executes_cons_inv _ _ _ _ _ _ _ _ He Hex) as
          [(_ & -> & ->)|(Hn & _)]; [|congruence].
        unfold finish_trace, trace_terminal in Hf. simpl in Hf. rewrite Ht in Hf.
        by rewrite Hf.
    + unfold rest_reports. rewrite Ht.
      rewrite (IH (i + 1)) by (done || by eapply drop_cons_next).
      split; intros (os & Hex & Hcs & Hvs & Hf).
      * exists (o :: os). split; [by eapply exec_next|]. rewrite trace_conforms_cons.
        split; [done|]. split; [done|].
        rewrite <- run_extend_after by done.
        unfold finish_trace in *. by rewrite trace_terminal_cons.
      * destruct (Executes_cons_inv _ _ _ _ _ _ _ _ He Hex) as
          [(Hn & _)|(_ & os' & -> & Hex')]; [congruence|].
        rewrite trace_conforms_cons in Hcs. destruct Hcs as [_ Hcs].
        rewrite <- run_extend_after in Hf by done.
        unfold finish_trace in *. rewrite trace_terminal_cons in Hf by done. eauto.
  - split; [done|]. intros (os & Hex & Hcs & Hvs & _). exfalso.
    assert (exists os', os = o :: os' /\ Forall valid os') as (os' & -> & Hvo).
    { pose proof (Executes_valid _ _ _ _ Hex) as Hall.
      destruct (Executes_cons_inv _ _ _ _ _ _ _ _ He Hex) as
        [(_ & -> & _)|(_ & os' & -> & _)]; inversion Hall; eauto. }
    rewrite trace_conforms_cons in Hcs. destruct Hcs as [Hc _].
    assert (Hv : valid (usage_join (run_usage run) (outcome_usage o))).
    { eapply (trace_usage_valid_start _ os'); [|done|done].
      destruct Ho as [Ho _]. unfold valid, valid_usage in Ho, Hu. simpl. lia. }
    eapply proj2 in Hrec; [|done|done]. discriminate (Hrec (conj Hc (conj Hv eq_refl))).
Qed.
End Refinement.

(** ** The result of a trace *)

Definition trace_end (ks : list StageKind.t) (os : list StageExecution) : option Terminal :=
  match trace_terminal os with
  | Some t => Some t
  | None =>
      d ← trace_decision None ks os;
      Some (MkTerminal EvaluationStatus.Completed (dec_verdict d) (dec_score d))
  end.

Definition trace_provenance {S : Type} `{StageExecutor S} (request : EvaluationRequest)
    (s : S) : ExecutionProvenance :=
  MkProvenance (se_kind s) (se_production_eligible s) (rt_digest (er_runtime request))
    (se_node_id s).

Definition expected_result (request : EvaluationRequest) (p : ExecutionProvenance)
    (os : list StageExecution) (t : Terminal) : EvaluationResult :=
  {| res_identity := EvaluationIdentity_from_request request;
     res_status := t_status t;
     res_verdict := t_verdict t;
     res_score := t_score t;
     res_stages := trace_reports ALGORITHM_BATCH_STAGES os;
     res_usage := trace_usage ResourceUsage_default os;
     res_diagnostics := [];
     res_evidence := [];
     res_provenance := p |}.

Lemma trace_reports_kinds ks os : map sr_stage (trace_reports ks os) = ks.
Proof.
  revert os; induction ks as [|k ks IH]; intros os; [done|].
  destruct os; simpl; by rewrite IH.
Qed.

Lemma terminal_outcome_cases o :
  outcome_terminal o = None <-> exists u d e dec, o = ExSucceeded u d e dec.
Proof. destruct o; simpl; naive_solver. Qed.

(** A conforming execution of the canonical plan ends in a row its verdict
    allows; in particular a fully successful one has a decision. *)
Lemma success_row os :
  length os = 5 -> Forall (fun o => outcome_terminal o = None) os -> Forall valid os ->
  trace_conforms ALGORITHM_BATCH_STAGES os ->
  exists t, trace_end ALGORITHM_BATCH_STAGES os = Some t /\
    verdict_row (t_status t) (t_verdict t)
      (map sr_status (trace_reports ALGORITHM_BATCH_STAGES os)) /\
    (scored (t_status t) (t_verdict t) = false -> sc_earned (t_score t) = 0%Z) /\
    valid (t_score t).
Proof.
  intros Hl Hs Hv Hc.
  destruct os as [|o1 [|o2 [|o3 [|o4 [|o5 [|]]]]]]; try done. clear Hl.
  repeat match goal with H : Forall _ (_ :: _) |- _ => inversion H; clear H; subst end.
  repeat match goal with H : outcome_terminal _ = None |- _ =>
    apply terminal_outcome_cases in H as (? & ? & ? & ? & ->) end.
  unfold trace_conforms in Hc. simpl in Hc.
  repeat match goal with H : Forall _ (_ :: _) |- _ => inversion H; clear H; subst end.
  simpl in *.
  match goal with H : outcome_conforms StageKind.Check (ExSucceeded _ _ _ ?dec) |- _ =>
    destruct H as [[Hd _] _]; destruct dec as [d|]; [|by destruct (Hd eq_refl)] end.
  eexists. split; [done|]. simpl.
  match goal with H : valid (ExSucceeded _ _ _ (Some d)) |- _ =>
    destruct H as (_ & _ & _ & [Hdec Hsc]) end.
  by destruct Hdec as [-> | ->].
Qed.

Lemma stopped_row pre o :
  (length (pre ++ [o]) <= 5)%nat -> Forall (fun o => outcome_terminal o = None) pre ->
  outcome_terminal o <> None -> trace_conforms ALGORITHM_BATCH_STAGES (pre ++ [o]) ->
  exists t, outcome_terminal o = Some t /\
    trace_end ALGORITHM_BATCH_STAGES (pre ++ [o]) = Some t /\
    verdict_row (t_status t) (t_verdict t)
      (map sr_status (trace_reports ALGORITHM_BATCH_STAGES (pre ++ [o]))) /\
    (scored (t_status t) (t_verdict t) = false -> sc_earned (t_score t) = 0%Z) /\
    valid (t_score t).
Proof.
  intros Hl Hs Ho Hc. destruct (outcome_terminal o) as [t|] eqn:Ht; [|done].
  exists t. split; [done|].
  assert (He : trace_end ALGORITHM_BATCH_STAGES (pre ++ [o]) = Some t).
  { unfold trace_end, trace_terminal. rewrite last_snoc. simpl. by rewrite Ht. }
  split; [done|]. clear He Ho.
  assert (Hz : sc_earned (t_score t) = 0%Z /\ valid (t_score t)).
  { destruct o; simplify_eq/=; repeat split; vm_compute; congruence. }
  split; [|tauto]. clear Hz. rewrite length_app in Hl. simpl in Hl.
  destruct pre as [|o1 [|o2 [|o3 [|o4 [|]]]]]; simpl in Hl; try lia; clear Hl.
  all: repeat match goal with H : Forall _ (_ :: _) |- _ => inversion H; clear H; subst end.
  all: repeat match goal with H : outcome_terminal _ = None |- _ =>
    apply terminal_outcome_cases in H as (? & ? & ? & ? & ->) end.
  all: unfold trace_conforms in Hc; simpl in Hc.
  all: repeat match goal with H : Forall _ (_ :: _) |- _ => inversion H; clear H; subst end.
  all: match goal with H : uncurry outcome_conforms (_, ?x), Ht : outcome_terminal ?x = _ |- _ =>
    destruct H as [Ho _] end.
  all: destruct o as [|v u d e|u d e|u d e]; simplify_eq/=; try discriminate Ho.
  all: try (by destruct v).
  1,2: by exists 0%nat; split; [lia|].
  1,2: by exists 1%nat; split; [lia|].
  1,2: by exists 2%nat; split; [lia|].
  1,2: by exists 3%nat; split; [lia|].
  1,2: by exists 4%nat; split; [lia|].
Qed.

Lemma trace_row {S : Type} `{ExecutorLaws S} request s os s' :
  Executes request ALGORITHM_BATCH_STAGES s os s' ->
  trace_conforms ALGORITHM_BATCH_STAGES os ->
  exists t, trace_end ALGORITHM_BATCH_STAGES os = Some t /\
    verdict_row (t_status t) (t_verdict t)
      (map sr_status (trace_reports ALGORITHM_BATCH_STAGES os)) /\
    (scored (t_status t) (t_verdict t) = false -> sc_earned (t_score t) = 0%Z) /\
    valid (t_score t).
Proof.
  intros He Hc. pose proof (Executes_valid _ _ _ _ _ He) as Hv.
  apply Executes_shape in He as [[Hl Hf]|(pre & o & -> & Hl & Hf & Ho)].
  - by apply success_row.
  - destruct (stopped_row pre o) as (t & _ & Ht); [done..|]. by exists t.
Qed.

Lemma finish_trace_extend run os :
  run_decision run = None ->
  finish_trace (run_extend run ALGORITHM_BATCH_STAGES os) os =
  match trace_end ALGORITHM_BATCH_STAGES os with
  | Some t => EvaluationRun_finish (run_extend run ALGORITHM_BATCH_STAGES os) t
  | None => Err (InvalidExecutorOutput "the check stage did not produce a decision")
  end.
Proof.
  intros Hd. unfold finish_trace, trace_end.
  destruct (trace_terminal os); [done|]. unfold EvaluationRun_finish_success.
  change (run_decision (run_extend run ALGORITHM_BATCH_STAGES os))
    with (trace_decision (run_decision run) ALGORITHM_BATCH_STAGES os).
  rewrite Hd. by destruct (trace_decision None ALGORITHM_BATCH_STAGES os).
Qed.

Lemma expected_result_built request p os t :
  pr_runtime_digest p = rt_digest (er_runtime request) ->
  verdict_row (t_status t) (t_verdict t)
    (map sr_status (trace_reports ALGORITHM_BATCH_STAGES os)) ->
  (scored (t_status t) (t_verdict t) = false -> sc_earned (t_score t) = 0%Z) ->
  result_spec (result_parts (expected_result request p os t)).
Proof.
  intros Hp Hr Hs. split; [|done|done|exact Hp].
  split; [exact (trace_reports_kinds _ os) | exact Hr | exact Hs].
Qed.

Lemma finish_expected request p os t :
  pr_runtime_digest p = rt_digest (er_runtime request) ->
  verdict_row (t_status t) (t_verdict t)
    (map sr_status (trace_reports ALGORITHM_BATCH_STAGES os)) ->
  (scored (t_status t) (t_verdict t) = false -> sc_earned (t_score t) = 0%Z) ->
  EvaluationRun_finish (run_extend (EvaluationRun_new request p) ALGORITHM_BATCH_STAGES os) t
    = Ok (expected_result request p os t).
Proof.
  intros Hp Hr Hs. unfold EvaluationRun_finish, build_result.
  rewrite (proj2 (EvaluationResult_new_spec _ (expected_result request p os t))); [done|].
  split; [done|]. by apply (expected_result_built request p os t).
Qed.

Section Theorems.
Context {S : Type} `{ExecutorLaws S}.
Implicit Types (request : EvaluationRequest) (s : S).

Definition supported (request : EvaluationRequest) (s : S) : Prop :=
  Forall (fun c => se_supports s c = true) (er_required_capabilities request).

Lemma supported_iff request s :
  existsb (fun c => negb (se_supports s c)) (er_required_capabilities request) = false <->
  supported request s.
Proof.
  unfold supported. rewrite existsb_false. apply Forall_iff. intros c.
  apply negb_false_iff.
Qed.

Lemma evaluate_characterised request s r s' :
  valid request ->
  (evaluate request s = (Ok r, s') <->
   supported request s /\
   provenance_ok (se_kind s) (se_production_eligible s) (se_node_id s) /\
   exists os t,
     Executes request ALGORITHM_BATCH_STAGES s os s' /\
     trace_conforms ALGORITHM_BATCH_STAGES os /\
     valid (trace_usage ResourceUsage_default os) /\
     trace_end ALGORITHM_BATCH_STAGES os = Some t /\
     r = expected_result request (trace_provenance request s) os t).
Proof.
  intros Hreq. assert (Hplan : plan_stages (er_plan request) = ALGORITHM_BATCH_STAGES).
  { destruct Hreq as (_ & (_ & _ & _ & Hp & _) & _). by rewrite Hp. }
  unfold evaluate. rewrite <- supported_iff.
  destruct (existsb _ _); [by split; [|intros []]|].
  destruct (ExecutionProvenance_new _ _ _ _) as [p|e] eqn:Hp; simpl.
  - apply ExecutionProvenance_new_iff in Hp as [-> Hok]. rewrite Hplan.
    rewrite (evaluate_stages_iff request ALGORITHM_BATCH_STAGES 0)
      by (done || by apply usage_default_valid || by rewrite Hplan).
    setoid_rewrite finish_trace_extend; [|done]. split.
    + intros (os & He & Hc & Hu & Hf). split; [done|]. split; [done|].
      destruct (trace_row _ _ _ _ He Hc) as (t & Ht & Hr & Hsc & _).
      exists os, t. rewrite Ht in Hf.
      rewrite finish_expected in Hf by done. by injection Hf as <-.
    + intros (_ & _ & os & t & He & Hc & Hu & Ht & ->). exists os.
      destruct (trace_row _ _ _ _ He Hc) as (t' & Ht' & Hr & Hsc & _).
      rewrite Ht in Ht'. injection Ht' as <-. rewrite Ht.
      by rewrite finish_expected.
  - split; [done|]. intros (_ & Hok & _). exfalso.
    rewrite (proj2 (ExecutionProvenance_new_iff _ _ _ _ _) (conj eq_refl Hok)) in Hp. done.
Qed.

Lemma trace_reports_valid ks os :
  Forall valid os -> trace_conforms ks os -> valid (trace_reports ks os).
Proof.
  revert os; induction ks as [|k ks IH]; intros os Hv Hc; [constructor|].
  destruct os as [|o os]; simpl.
  - constructor; [|by apply IH; [|destruct ks; constructor]].
    split; [apply usage_default_valid|]. repeat split; try constructor; vm_compute; congruence.
  - inversion Hv as [|? ? (Hu & Hd & He & _) Hvs]; subst.
    apply trace_conforms_cons in Hc as [(_ & Hld & Hle) Hcs].
    constructor; [by split_and!|]. by apply IH.
Qed.

Lemma evaluate_result_is_valid request s r s' :
  valid request -> evaluate request s = (Ok r, s') -> valid r.
Proof.
  intros Hreq Hev. apply evaluate_characterised in Hev; [|done].
  destruct Hev as (_ & Hp & os & t & He & Hc & Hu & Ht & ->).
  pose proof (Executes_valid _ _ _ _ _ He) as Hv.
  destruct (trace_row _ _ _ _ He Hc) as (t' & Ht' & Hr & Hs & Hsc).
  rewrite Ht in Ht'. injection Ht' as <-.
  split; [by apply identity_from_request_valid|]. split; [done|].
  split; [by apply trace_reports_valid|]. split; [done|].
  split; [constructor|]. split; [constructor|].
  split; [|by apply expected_result_built].
  split; [|split; [apply el_node_valid | done]].
  by destruct Hreq as (_ & (_ & _ & [_ ?] & _) & _).
Qed.

(** A denied capability is denied before the executor is called. *)
Lemma evaluate_unsupported request s :
  ~ supported request s -> evaluate request s = (Err UnsupportedCapability, s).
Proof.
  intros Hn. unfold evaluate.
  destruct (existsb _ _) eqn:E; [done|]. by apply supported_iff in E.
Qed.
End Theorems.
