(* ===== verification/Json.v ===== *)
(** * JSON values

    The [serde_json::Value] the codecs of the repository build and take apart:
    values, objects as the sorted map serde_json uses without its
    [preserve_order] feature, and the accessors [get], [insert], [as_str],
    [as_u64] and the rest. The text form is not modelled here: [SerdeJson] states
    what the code relies on of the library's reader and writer. *)

From S2P Require Import Prelude.

Inductive Json : Type :=
  | JNull
  | JBool (b : bool)
  | JInt (z : Z)
  | JFloat (repr : string)
  | JString (s : string)
  | JArray (l : list Json)
  | JObject (fields : list (string * Json)).

(** Induction through the nested lists. *)
Section JsonInd.
Variable P : Json -> Prop.
Hypothesis Hnull : P JNull.
Hypothesis Hbool : forall b, P (JBool b).
Hypothesis Hint : forall z, P (JInt z).
Hypothesis Hfloat : forall s, P (JFloat s).
Hypothesis Hstring : forall s, P (JString s).
Hypothesis Harray : forall l, Forall P l -> P (JArray l).
Hypothesis Hobject : forall l, Forall (fun kv => P (snd kv)) l -> P (JObject l).

Fixpoint Json_nested_ind (j : Json) : P j :=
  match j with
  | JNull => Hnull
  | JBool b => Hbool b
  | JInt z => Hint z
  | JFloat s => Hfloat s
  | JString s => Hstring s
  | JArray l =>
      Harray l ((fix go l : Forall P l :=
        match l with
        | [] => Forall_nil_2 P
        | x :: l' => Forall_cons_2 P x l' (Json_nested_ind x) (go l')
        end) l)
  | JObject l =>
      Hobject l ((fix go l : Forall (fun kv => P (snd kv)) l :=
        match l with
        | [] => Forall_nil_2 _
        | kv :: l' => Forall_cons_2 (fun kv => P (snd kv)) kv l' (Json_nested_ind (snd kv)) (go l')
        end) l)
  end.
End JsonInd.

(** ** Objects *)

Fixpoint map_get (name : string) (m : list (string * Json)) : option Json :=
  match m with
  | [] => None
  | (k, v) :: m' => if String.eqb k name then Some v else map_get name m'
  end.

(** [Map::insert] into a map sorted by key. *)
Fixpoint map_insert (name : string) (value : Json) (m : list (string * Json))
    : list (string * Json) :=
  match m with
  | [] => [(name, value)]
  | (k, v) :: m' =>
      match String.compare name k with
      | Lt => (name, value) :: m
      | Eq => (name, value) :: m'
      | Gt => (k, v) :: map_insert name value m'
      end
  end.

Definition map_contains_key (name : string) (m : list (string * Json)) : bool :=
  match map_get name m with Some _ => true | None => false end.

(** The object literal of [json!]. *)
Definition map_of (fields : list (string * Json)) : list (string * Json) :=
  foldr (fun kv m => map_insert (fst kv) (snd kv) m) [] fields.

Definition json_object (fields : list (string * Json)) : Json := JObject (map_of fields).

Lemma string_compare_eq s t : String.compare s t = Eq <-> s = t.
Proof.
  split; [apply String.compare_eq_iff|]. intros <-.
  pose proof (String.compare_antisym s s). by destruct (String.compare s s).
Qed.

Lemma map_get_insert name value m : map_get name (map_insert name value m) = Some value.
Proof.
  induction m as [|[k v] m IH]; simpl; [by rewrite String.eqb_refl|].
  destruct (String.compare name k) eqn:E; simpl; rewrite ?String.eqb_refl; try done.
  destruct (String.eqb_spec k name) as [->|]; [|done].
  by rewrite (proj2 (string_compare_eq name name) eq_refl) in E.
Qed.

Lemma map_get_insert_ne name name' value m :
  name <> name' -> map_get name' (map_insert name value m) = map_get name' m.
Proof.
  intros Hne. apply String.eqb_neq in Hne as Hneb.
  induction m as [|[k v] m IH]; simpl; [by rewrite Hneb|].
  destruct (String.compare name k) eqn:E; simpl; rewrite ?Hneb; try done.
  - apply string_compare_eq in E as <-. by rewrite Hneb.
  - by rewrite IH.
Qed.

(** Looking a name up in an object literal finds its first field of that name. *)
Lemma map_get_of name fields : map_get name (map_of fields) = map_get name fields.
Proof.
  induction fields as [|[k v] fields IH]; [done|]. simpl.
  destruct (String.eqb_spec k name) as [->|Hne].
  - apply map_get_insert.
  - by rewrite map_get_insert_ne.
Qed.

(** ** Accessors *)

Definition json_as_object (v : Json) : option (list (string * Json)) :=
  match v with JObject m => Some m | _ => None end.
Definition json_as_array (v : Json) : option (list Json) :=
  match v with JArray l => Some l | _ => None end.
Definition json_as_str (v : Json) : option string :=
  match v with JString s => Some s | _ => None end.
Definition json_as_bool (v : Json) : option bool :=
  match v with JBool b => Some b | _ => None end.
Definition json_as_u64 (v : Json) : option Z :=
  match v with
  | JInt z => if ((0 <=? z) && (z <=? u64_max))%Z then Some z else None
  | _ => None
  end.

Lemma json_as_u64_int z : is_u64 z -> json_as_u64 (JInt z) = Some z.
Proof. intros [Hlo Hhi]. simpl. by rewrite (proj2 (Z.leb_le _ _) Hlo), (proj2 (Z.leb_le _ _) Hhi). Qed.

Lemma json_as_u64_Some v z : json_as_u64 v = Some z -> v = JInt z /\ is_u64 z.
Proof.
  destruct v; simpl; try done. destruct (_ && _) eqn:E; [|done]. intros [= ->].
  apply andb_true_iff in E as [Hlo%Z.leb_le Hhi%Z.leb_le]. done.
Qed.

Definition json_as_i64 (v : Json) : option Z :=
  match v with
  | JInt z => if in_range (- i64_max - 1) i64_max z then Some z else None
  | _ => None
  end.

Lemma json_as_i64_int z : (- i64_max - 1 <= z <= i64_max)%Z -> json_as_i64 (JInt z) = Some z.
Proof. intros Hz. simpl. by rewrite (proj2 (in_range_true _ _ _) Hz). Qed.

(** ** The serialisation library *)

(** No float anywhere: the writer prints such a value so that the reader gives
    it back exactly. *)
Fixpoint float_free (v : Json) : bool :=
  match v with
  | JFloat _ => false
  | JArray l => forallb float_free l
  | JObject m => forallb (fun kv => float_free (snd kv)) m
  | _ => true
  end.

(** No [null] anywhere: an optional member is present or absent. *)
Fixpoint null_free (v : Json) : bool :=
  match v with
  | JNull => false
  | JArray l => forallb null_free l
  | JObject m => forallb (fun kv => null_free (snd kv)) m
  | _ => true
  end.

Definition plain (v : Json) : bool := float_free v && null_free v.

(** [serde_json::from_slice] and [to_vec] on values. *)
Class SerdeJson := {
  json_from_slice : string -> option Json;
  json_to_vec : Json -> option string
}.

Class SerdeJsonLaws `{SerdeJson} := {
  serde_text_roundtrip : forall v s,
    float_free v = true -> json_to_vec v = Some s -> json_from_slice s = Some v;
  serde_text_nonempty : forall v s, json_to_vec v = Some s -> (1 <= str_len s)%Z
}.

Lemma map_insert_forallb (p : string * Json -> bool) name value m :
  p (name, value) = true -> forallb p m = true -> forallb p (map_insert name value m) = true.
Proof.
  intros Hp. induction m as [|[k v] m IH]; simpl; [by rewrite Hp|].
  intros [Hk Hm]%andb_true_iff. destruct (String.compare name k); simpl;
    rewrite ?Hp, ?Hk, ?Hm; simpl; auto.
Qed.

Lemma map_of_forallb (p : string * Json -> bool) fields :
  forallb p fields = true -> forallb p (map_of fields) = true.
Proof.
  induction fields as [|[k v] fields IH]; simpl; [done|].
  intros [Hk Hf]%andb_true_iff. apply map_insert_forallb; auto.
Qed.

Lemma forallb_and {A} (p q : A -> bool) (l : list A) :
  forallb (fun x => p x && q x) l = forallb p l && forallb q l.
Proof.
  induction l as [|x l IH]; simpl; [done|]. rewrite IH.
  by destruct (p x), (q x), (forallb p l), (forallb q l).
Qed.

Lemma json_object_plain fields :
  forallb (fun kv => plain (snd kv)) fields = true -> plain (json_object fields) = true.
Proof.
  unfold plain. rewrite forallb_and. intros [Hf Hn]%andb_true_iff. simpl.
  apply andb_true_iff. split; by apply map_of_forallb.
Qed.

Lemma json_array_plain l : forallb plain l = true -> plain (JArray l) = true.
Proof. unfold plain. by rewrite forallb_and. Qed.

Lemma forallb_map {A B} (f : A -> B) (p : B -> bool) (l : list A) :
  forallb p (map f l) = forallb (fun x => p (f x)) l.
Proof. induction l as [|x l IH]; simpl; [done|]. by rewrite IH. Qed.

(** ** A concrete reader and writer

    A value printed through stdpp's binary encoding of trees: it satisfies the
    laws, so it can stand for the library where a closed example is wanted. *)

Definition json_leaf : Type := string + Z + bool + unit.

Fixpoint json_tree (v : Json) : gen_tree json_leaf :=
  match v with
  | JNull => GenLeaf (inr tt)
  | JBool b => GenLeaf (inl (inr b))
  | JInt z => GenLeaf (inl (inl (inr z)))
  | JFloat s => GenNode 0 [GenLeaf (inl (inl (inl s)))]
  | JString s => GenLeaf (inl (inl (inl s)))
  | JArray l => GenNode 1 (map json_tree l)
  | JObject m =>
      GenNode 2 (map (fun kv => GenNode 3 [GenLeaf (inl (inl (inl (fst kv)))); json_tree (snd kv)]) m)
  end.

Fixpoint tree_json (t : gen_tree json_leaf) : Json :=
  match t with
  | GenLeaf (inr tt) => JNull
  | GenLeaf (inl (inr b)) => JBool b
  | GenLeaf (inl (inl (inr z))) => JInt z
  | GenLeaf (inl (inl (inl s))) => JString s
  | GenNode 0 (t' :: _) => match tree_json t' with JString s => JFloat s | v => v end
  | GenNode 1 l => JArray (map tree_json l)
  | GenNode 2 l =>
      JObject (map (fun t' =>
        match t' with
        | GenNode 3 [GenLeaf (inl (inl (inl k))); v] => (k, tree_json v)
        | _ => (EmptyString, JNull)
        end) l)
  | _ => JNull
  end.

Lemma tree_json_tree v : tree_json (json_tree v) = v.
Proof.
  induction v as [|b|z|s|s|l IH|m IH] using Json_nested_ind; try done; simpl; f_equal;
    rewrite map_map; induction IH as [|x l Hx _ IHl]; simpl; try done; rewrite IHl, Hx; [done|].
  by destruct x.
Qed.

Lemma json_tree_inj x y : json_tree x = json_tree y -> x = y.
Proof. intros Hxy. by rewrite <- (tree_json_tree x), Hxy, tree_json_tree. Qed.

#[export] Instance Json_eq_dec : EqDecision Json.
Proof.
  intros x y. destruct (decide (json_tree x = json_tree y)) as [Heq|Hne].
  - left. by apply json_tree_inj.
  - right. congruence.
Defined.
#[export] Instance Json_countable : Countable Json.
Proof. apply (inj_countable' json_tree tree_json tree_json_tree). Defined.

Fixpoint pos_text (p : positive) : string :=
  match p with
  | xH => "."
  | xO p' => String "0" (pos_text p')
  | xI p' => String "1" (pos_text p')
  end.

Fixpoint text_pos (s : string) : option positive :=
  match s with
  | String "0" s' => option_map xO (text_pos s')
  | String "1" s' => option_map xI (text_pos s')
  | String "." EmptyString => Some xH
  | _ => None
  end.

Lemma text_pos_text p : text_pos (pos_text p) = Some p.
Proof. induction p as [p IH|p IH|]; simpl; rewrite ?IH; done. Qed.

Definition binary_serde : SerdeJson := {|
  json_from_slice := fun s => p ← text_pos s; decode p;
  json_to_vec := fun v => Some (pos_text (encode v))
|}.

Lemma binary_serde_laws : @SerdeJsonLaws binary_serde.
Proof.
  split; simpl.
  - intros v s _ [= <-]. rewrite text_pos_text. simpl. apply decode_encode.
  - intros v s [= <-]. unfold str_len. destruct (encode v); simpl; lia.
Qed.
