(* ===== verification/Codec.v ===== *)
(** * The codec interface

    What the other components need of [crates/openoj-protocol]: the canonical
    byte encoding of requests and results and its errors. [Protocol] discharges
    the laws; the store is verified against this interface alone. *)

From S2P Require Import Prelude Value Control Evaluation EvalResult.

Abbreviation bytes := string.


Inductive ProtocolError : Type :=
  | MessageTooLarge (maximum actual : Z)
  | MalformedDocument
  | SchemaUnavailable
  | SchemaViolation
  | SemanticViolation
  | ProtocolDomain (error : DomainError)
  | EncodingFailed.

#[export] Instance ProtocolError_eq_dec : EqDecision ProtocolError.
Proof. solve_decision. Defined.

Class RequestCodec := {
  encode_evaluation_request : EvaluationRequest -> result ProtocolError bytes;
  decode_evaluation_request : bytes -> result ProtocolError EvaluationRequest;
  encode_evaluation_result : EvaluationResult -> result ProtocolError bytes
}.

(** Its promises: encodings decode to the request they came from, decoded
    requests are valid, and encodings respect the byte bounds. *)
Class RequestCodecLaws `{RequestCodec} := {
  codec_roundtrip : forall r p,
    valid r -> encode_evaluation_request r = Ok p -> decode_evaluation_request p = Ok r;
  codec_decoded_valid : forall p r, decode_evaluation_request p = Ok r -> valid r;
  codec_request_bound : forall r p,
    encode_evaluation_request r = Ok p -> (1 <= str_len p <= 262144)%Z;
  codec_result_bound : forall r p,
    encode_evaluation_result r = Ok p -> (1 <= str_len p <= 1048576)%Z
}.

