(* ===== verification/Protocol.v ===== *)
(** * The canonical wire protocol

    Models [crates/openoj-protocol/src/lib.rs]: the translation of requests and
    results to and from JSON values, the cross-field checks of a result, and the
    bounded encoders and decoders around them. The generated wire types, the
    compiled JSON schema and the text form of JSON come from other packages and
    are the parameters [Wire] and [CanonicalSchema]. *)

From S2P Require Import Prelude Value Control Evaluation EvalResult Json Codec.

Definition SCHEMA_VERSION : string := "openoj.evaluation/v0alpha1".
Definition MAX_EVALUATION_REQUEST_BYTES : Z := 262144.
Definition MAX_EVALUATION_RESULT_BYTES : Z := 1048576.

(** ** The generated wire types *)

(** A type of the [wire] module with its serde implementations. *)
Record Wire : Type := MkWire {
  wire_t : Type;
  wire_from_slice : string -> option wire_t;
  wire_to_vec : wire_t -> option string;
  wire_from_value : Json -> option wire_t;
  wire_to_value : wire_t -> option Json
}.

(** Writing a typed document and reading it back gives it again, and a typed
    view of a value without [null] and floats is lossless. *)
Record WireLaws (w : Wire) : Prop := {
  wire_text_roundtrip : forall t s,
    wire_to_vec w t = Some s -> wire_from_slice w s = Some t /\ (1 <= str_len s)%Z;
  wire_value_roundtrip : forall v t,
    plain v = true -> wire_from_value w v = Some t -> wire_to_value w t = Some v
}.

(** [validator()]: the compiled schema, if it compiles. *)
Class CanonicalSchema := {
  request_wire : Wire;
  result_wire : Wire;
  schema_validator : option (Json -> bool)
}.

Class CanonicalSchemaLaws `{CanonicalSchema} := {
  request_wire_laws : WireLaws request_wire;
  result_wire_laws : WireLaws result_wire
}.

(** ** Field access *)

Definition as_object (value : Json) : result ProtocolError (list (string * Json)) :=
  ok_or SchemaViolation (json_as_object value).
Definition as_array (value : Json) : result ProtocolError (list Json) :=
  ok_or SchemaViolation (json_as_array value).
Definition as_str (value : Json) : result ProtocolError string :=
  ok_or SchemaViolation (json_as_str value).
Definition field (object : list (string * Json)) (name : string) : result ProtocolError Json :=
  ok_or SchemaViolation (map_get name object).
Definition string_field (object : list (string * Json)) (name : string)
    : result ProtocolError string :=
  let* v := field object name in as_str v.
Definition u64_field (object : list (string * Json)) (name : string)
    : result ProtocolError Z :=
  let* v := field object name in ok_or SchemaViolation (json_as_u64 v).
Definition bool_field (e : ProtocolError) (object : list (string * Json)) (name : string)
    : result ProtocolError bool :=
  let* v := field object name in ok_or e (json_as_bool v).

(** [?] on a [DomainError]. *)
Definition domain {A : Type} (r : result DomainError A) : result ProtocolError A :=
  map_err ProtocolDomain r.

(** [match value { "a" => .., "b" => .., _ => Err }]. *)
Fixpoint match_str {A : Type} (arms : list (string * A)) (value : string)
    : result ProtocolError A :=
  match arms with
  | [] => Err SchemaViolation
  | (s, a) :: arms' => if String.eqb value s then Ok a else match_str arms' value
  end.

(** ** To JSON *)

Definition strings (l : list string) : Json := JArray (map JString l).

Definition sensitivity_str (s : ArtifactSensitivity) : string :=
  match s with
  | Public => "public"
  | Private => "private"
  | Hidden => "hidden"
  end.

Definition artifact_to_value (artifact : ArtifactRef) : Json :=
  json_object [
    ("artifact_id", JString (id_str (art_artifact_id artifact)));
    ("digest", JString (digest_str (art_digest artifact)));
    ("media_type", JString (media_str (art_media_type artifact)));
    ("size_bytes", JInt (art_size_bytes artifact));
    ("sensitivity", JString (sensitivity_str (art_sensitivity artifact)))].

Definition request_to_value (request : EvaluationRequest) : Json :=
  json_object [
    ("message_type", JString "evaluation_request");
    ("schema_version", JString SCHEMA_VERSION);
    ("request_id", JString (id_str (er_request_id request)));
    ("idempotency_key", JString (key_str (er_idempotency_key request)));
    ("evaluation_id", JString (id_str (er_evaluation_id request)));
    ("attempt_id", JString (id_str (er_attempt_id request)));
    ("attempt_number", JInt (er_attempt_number request));
    ("problem_version", json_object [
      ("problem_id", JString (id_str (pv_problem_id (er_problem_version request))));
      ("problem_version_id",
        JString (id_str (pv_problem_version_id (er_problem_version request))));
      ("digest", JString (digest_str (pv_digest (er_problem_version request))))]);
    ("submission", json_object [
      ("submission_id", JString (id_str (sub_submission_id (er_submission request))));
      ("source", artifact_to_value (sub_source (er_submission request)))]);
    ("runtime", json_object [
      ("runtime_id", JString (id_str (rt_runtime_id (er_runtime request))));
      ("digest", JString (digest_str (rt_digest (er_runtime request))))]);
    ("plan", json_object [
      ("profile", JString (EvaluationProfile_as_str (plan_profile (er_plan request))));
      ("stages", strings (map StageKind.as_str (plan_stages (er_plan request))))]);
    ("policy", json_object [
      ("cpu_time_ms", JInt (rp_cpu_time_ms (er_policy request)));
      ("wall_time_ms", JInt (rp_wall_time_ms (er_policy request)));
      ("memory_bytes", JInt (rp_memory_bytes (er_policy request)));
      ("output_bytes", JInt (rp_output_bytes (er_policy request)));
      ("process_limit", JInt (rp_process_limit (er_policy request)));
      ("network", JString (NetworkPolicy_as_str (rp_network (er_policy request))))]);
    ("required_capabilities", strings (map cap_str (er_required_capabilities request)))].

Definition score_to_value (score : Score) : Json :=
  json_object [("earned", JInt (sc_earned score)); ("possible", JInt (sc_possible score))].

Definition usage_to_value (usage : ResourceUsage) : Json :=
  json_object [
    ("cpu_time_ms", JInt (ru_cpu_time_ms usage));
    ("wall_time_ms", JInt (ru_wall_time_ms usage));
    ("memory_peak_bytes", JInt (ru_memory_peak_bytes usage));
    ("output_bytes", JInt (ru_output_bytes usage))].

Definition diagnostic_to_value (diagnostic : Diagnostic) : Json :=
  json_object [
    ("code", JString (code_str (diag_code diagnostic)));
    ("message", JString (diag_message diagnostic));
    ("truncated", JBool (diag_truncated diagnostic))].

Definition evidence_to_value (evidence : EvidenceRef) : Json :=
  let value := map_of [
    ("evidence_id", JString (id_str (ev_evidence_id evidence)));
    ("kind", JString (evk_str (ev_kind evidence)))] in
  match ev_artifact evidence with
  | Some artifact => JObject (map_insert "artifact" (artifact_to_value artifact) value)
  | None => JObject value
  end.

Definition provenance_to_value (provenance : ExecutionProvenance) : Json :=
  let value := map_of [
    ("executor_kind", JString (ExecutorKind.as_str (pr_executor_kind provenance)));
    ("production_eligible", JBool (pr_production_eligible provenance));
    ("runtime_digest", JString (digest_str (pr_runtime_digest provenance)))] in
  match pr_node_id provenance with
  | Some node_id => JObject (map_insert "node_id" (JString (id_str node_id)) value)
  | None => JObject value
  end.

Definition stage_report_to_value (report : StageReport) : Json :=
  json_object [
    ("stage", JString (StageKind.as_str (sr_stage report)));
    ("status", JString (StageStatus.as_str (sr_status report)));
    ("usage", usage_to_value (sr_usage report));
    ("diagnostics", JArray (map diagnostic_to_value (sr_diagnostics report)));
    ("evidence", JArray (map evidence_to_value (sr_evidence report)))].

Definition result_to_value (r : EvaluationResult) : Json :=
  json_object [
    ("message_type", JString "evaluation_result");
    ("schema_version", JString SCHEMA_VERSION);
    ("request_id", JString (id_str (ei_request_id (res_identity r))));
    ("evaluation_id", JString (id_str (ei_evaluation_id (res_identity r))));
    ("attempt_id", JString (id_str (ei_attempt_id (res_identity r))));
    ("problem_version_id", JString (id_str (ei_problem_version_id (res_identity r))));
    ("submission_id", JString (id_str (ei_submission_id (res_identity r))));
    ("runtime_id", JString (id_str (ei_runtime_id (res_identity r))));
    ("status", JString (EvaluationStatus.as_str (res_status r)));
    ("verdict", JString (Verdict.as_str (res_verdict r)));
    ("score", score_to_value (res_score r));
    ("stages", JArray (map stage_report_to_value (res_stages r)));
    ("usage", usage_to_value (res_usage r));
    ("diagnostics", JArray (map diagnostic_to_value (res_diagnostics r)));
    ("evidence", JArray (map evidence_to_value (res_evidence r)));
    ("provenance", provenance_to_value (res_provenance r))].

(** ** From JSON *)

Definition stage_kind_from_value (value : Json) : result ProtocolError StageKind.t :=
  let* s := as_str value in
  match_str [("prepare", StageKind.Prepare); ("build", StageKind.Build);
             ("run", StageKind.Run); ("check", StageKind.Check);
             ("aggregate", StageKind.Aggregate)] s.

Definition stage_status_from_value (value : string) : result ProtocolError StageStatus.t :=
  match_str [("succeeded", StageStatus.Succeeded); ("failed", StageStatus.Failed);
             ("cancelled", StageStatus.Cancelled); ("skipped", StageStatus.Skipped)] value.

Definition evaluation_status_from_value (value : string)
    : result ProtocolError EvaluationStatus.t :=
  match_str [("completed", EvaluationStatus.Completed); ("failed", EvaluationStatus.Failed);
             ("cancelled", EvaluationStatus.Cancelled)] value.

Definition verdict_from_value (value : string) : result ProtocolError Verdict.t :=
  match_str [("accepted", Verdict.Accepted); ("wrong_answer", Verdict.WrongAnswer);
             ("compile_error", Verdict.CompileError); ("runtime_error", Verdict.RuntimeError);
             ("time_limit_exceeded", Verdict.TimeLimitExceeded);
             ("memory_limit_exceeded", Verdict.MemoryLimitExceeded);
             ("output_limit_exceeded", Verdict.OutputLimitExceeded);
             ("system_error", Verdict.SystemError); ("cancelled", Verdict.Cancelled)] value.

Definition executor_kind_from_value (value : string) : result ProtocolError ExecutorKind.t :=
  match_str [("development_mock", ExecutorKind.DevelopmentMock);
             ("firecracker", ExecutorKind.Firecracker)] value.

Definition artifact_from_value (value : Json) : result ProtocolError ArtifactRef :=
  let* artifact := as_object value in
  let* s := string_field artifact "sensitivity" in
  let* sensitivity :=
    match_str [("public", Public); ("private", Private); ("hidden", Hidden)] s in
  let* id := string_field artifact "artifact_id" in
  let* artifact_id := domain (id_parse id) in
  let* d := string_field artifact "digest" in
  let* digest := domain (ContentDigest_parse d) in
  let* m := string_field artifact "media_type" in
  let* media_type := domain (MediaType_parse m) in
  let* size_bytes := u64_field artifact "size_bytes" in
  domain (ArtifactRef_new artifact_id digest media_type size_bytes sensitivity).

(** [T::parse(string_field(object, name)?)?]. *)
Definition parse_field {A : Type} (parse : string -> result DomainError A)
    (object : list (string * Json)) (name : string) : result ProtocolError A :=
  let* s := string_field object name in domain (parse s).

Definition request_from_value (value : Json) : result ProtocolError EvaluationRequest :=
  let* object := as_object value in
  let* v := field object "problem_version" in
  let* problem := as_object v in
  let* v := field object "submission" in
  let* submission := as_object v in
  let* v := field submission "source" in
  let* source := artifact_from_value v in
  let* v := field object "runtime" in
  let* runtime := as_object v in
  let* v := field object "plan" in
  let* plan := as_object v in
  let* v := field object "policy" in
  let* policy := as_object v in
  let* v := field plan "stages" in
  let* stage_values := as_array v in
  let* stages := traverse stage_kind_from_value stage_values in
  let* profile := string_field plan "profile" in
  if negb (String.eqb profile "algorithm_batch") then Err SchemaViolation
  else
    let* v := field object "required_capabilities" in
    let* capability_values := as_array v in
    let* required_capabilities :=
      traverse (fun value => let* s := as_str value in domain (Capability_parse s))
        capability_values in
    let* n := u64_field object "attempt_number" in
    let* attempt_number := u32_try_from SchemaViolation n in
    let* n := u64_field policy "process_limit" in
    let* process_limit := u32_try_from SchemaViolation n in
    let* network := string_field policy "network" in
    if negb (String.eqb network "denied") then Err SchemaViolation
    else
      let* request_id := parse_field id_parse object "request_id" in
      let* idempotency_key := parse_field IdempotencyKey_parse object "idempotency_key" in
      let* evaluation_id := parse_field id_parse object "evaluation_id" in
      let* attempt_id := parse_field id_parse object "attempt_id" in
      let* problem_id := parse_field id_parse problem "problem_id" in
      let* problem_version_id := parse_field id_parse problem "problem_version_id" in
      let* problem_digest := parse_field ContentDigest_parse problem "digest" in
      let* submission_id := parse_field id_parse submission "submission_id" in
      let* runtime_id := parse_field id_parse runtime "runtime_id" in
      let* runtime_digest := parse_field ContentDigest_parse runtime "digest" in
      let* plan := domain (EvaluationPlan_try_algorithm_batch stages) in
      let* cpu_time_ms := u64_field policy "cpu_time_ms" in
      let* wall_time_ms := u64_field policy "wall_time_ms" in
      let* memory_bytes := u64_field policy "memory_bytes" in
      let* output_bytes := u64_field policy "output_bytes" in
      let* policy := domain (ResourcePolicy_new cpu_time_ms wall_time_ms memory_bytes
                               output_bytes process_limit Denied) in
      domain (EvaluationRequest_new
        {| erp_request_id := request_id;
           erp_idempotency_key := idempotency_key;
           erp_evaluation_id := evaluation_id;
           erp_attempt_id := attempt_id;
           erp_attempt_number := attempt_number;
           erp_problem_version := MkProblemVersionRef problem_id problem_version_id problem_digest;
           erp_submission := MkSubmissionRef submission_id source;
           erp_runtime := MkRuntimeRef runtime_id runtime_digest;
           erp_plan := plan;
           erp_policy := policy;
           erp_required_capabilities := required_capabilities |}).

Definition usage_from_value (value : Json) : result ProtocolError ResourceUsage :=
  let* object := as_object value in
  let* cpu_time_ms := u64_field object "cpu_time_ms" in
  let* wall_time_ms := u64_field object "wall_time_ms" in
  let* memory_peak_bytes := u64_field object "memory_peak_bytes" in
  let* output_bytes := u64_field object "output_bytes" in
  domain (ResourceUsage_new cpu_time_ms wall_time_ms memory_peak_bytes output_bytes).

Definition diagnostic_from_value (value : Json) : result ProtocolError Diagnostic :=
  let* object := as_object value in
  let* truncated := bool_field SchemaViolation object "truncated" in
  let* code := parse_field DiagnosticCode_parse object "code" in
  let* message := string_field object "message" in
  domain (Diagnostic_new code message truncated).

(** [object.get(name).map(f).transpose()?]. *)
Definition optional_field {A : Type} (object : list (string * Json)) (name : string)
    (f : Json -> result ProtocolError A) : result ProtocolError (option A) :=
  match map_get name object with
  | None => Ok None
  | Some v => let* a := f v in Ok (Some a)
  end.

Definition evidence_from_value (value : Json) : result ProtocolError EvidenceRef :=
  let* object := as_object value in
  let* artifact := optional_field object "artifact" artifact_from_value in
  let* evidence_id := parse_field id_parse object "evidence_id" in
  let* kind := parse_field EvidenceKind_parse object "kind" in
  Ok (MkEvidenceRef evidence_id kind artifact).

Definition array_field {A : Type} (f : Json -> result ProtocolError A)
    (object : list (string * Json)) (name : string) : result ProtocolError (list A) :=
  let* v := field object name in
  let* l := as_array v in
  traverse f l.

Definition stage_report_from_value (value : Json) : result ProtocolError StageReport :=
  let* object := as_object value in
  let* diagnostics := array_field diagnostic_from_value object "diagnostics" in
  let* evidence := array_field evidence_from_value object "evidence" in
  let* v := field object "stage" in
  let* stage := stage_kind_from_value v in
  let* s := string_field object "status" in
  let* status := stage_status_from_value s in
  let* v := field object "usage" in
  let* usage := usage_from_value v in
  domain (StageReport_new stage status usage diagnostics evidence).

Definition result_from_value (value : Json) : result ProtocolError EvaluationResult :=
  let* object := as_object value in
  let* v := field object "score" in
  let* score := as_object v in
  let* v := field object "provenance" in
  let* provenance := as_object v in
  let* request_id := parse_field id_parse object "request_id" in
  let* evaluation_id := parse_field id_parse object "evaluation_id" in
  let* attempt_id := parse_field id_parse object "attempt_id" in
  let* problem_version_id := parse_field id_parse object "problem_version_id" in
  let* submission_id := parse_field id_parse object "submission_id" in
  let* runtime_id := parse_field id_parse object "runtime_id" in
  let* runtime_digest := parse_field ContentDigest_parse provenance "runtime_digest" in
  let identity := MkIdentity request_id evaluation_id attempt_id problem_version_id
                    submission_id runtime_id runtime_digest in
  let* stages := array_field stage_report_from_value object "stages" in
  let* diagnostics := array_field diagnostic_from_value object "diagnostics" in
  let* evidence := array_field evidence_from_value object "evidence" in
  let* production_eligible := bool_field SchemaViolation provenance "production_eligible" in
  let* node_id :=
    optional_field provenance "node_id"
      (fun value => let* s := as_str value in domain (id_parse s)) in
  let* s := string_field object "status" in
  let* status := evaluation_status_from_value s in
  let* s := string_field object "verdict" in
  let* verdict := verdict_from_value s in
  let* n := u64_field score "earned" in
  let* earned := u32_try_from SchemaViolation n in
  let* n := u64_field score "possible" in
  let* possible := u32_try_from SchemaViolation n in
  let* score := domain (Score_new earned possible) in
  let* v := field object "usage" in
  let* usage := usage_from_value v in
  let* s := string_field provenance "executor_kind" in
  let* executor_kind := executor_kind_from_value s in
  let* digest := parse_field ContentDigest_parse provenance "runtime_digest" in
  let* provenance :=
    domain (ExecutionProvenance_new executor_kind production_eligible digest node_id) in
  domain (EvaluationResult_new
    {| rsp_identity := identity;
       rsp_status := status;
       rsp_verdict := verdict;
       rsp_score := score;
       rsp_stages := stages;
       rsp_usage := usage;
       rsp_diagnostics := diagnostics;
       rsp_evidence := evidence;
       rsp_provenance := provenance |}).

(** ** Cross-field checks of a result *)

Definition any_not (s : string) (l : list string) : bool :=
  existsb (fun x => negb (String.eqb x s)) l.

Definition validate_terminal_pattern (statuses : list string) (terminal_index : nat)
    (terminal_status : string) : result ProtocolError unit :=
  if negb (bool_decide (statuses !! terminal_index = Some terminal_status))
     || any_not "succeeded" (take terminal_index statuses)
     || any_not "skipped" (drop (terminal_index + 1) statuses)
  then Err SemanticViolation
  else Ok tt.

Definition validate_any_terminal_pattern (statuses : list string) (terminal_status : string)
    : result ProtocolError unit :=
  match position (fun status => String.eqb status terminal_status) statuses with
  | None => Err SemanticViolation
  | Some index => validate_terminal_pattern statuses index terminal_status
  end.

Definition EXPECTED_STAGES : list string := ["prepare"; "build"; "run"; "check"; "aggregate"].

Definition str_in (l : list string) (s : string) : bool := existsb (String.eqb s) l.

Definition run_rejections : list string :=
  ["runtime_error"; "time_limit_exceeded"; "memory_limit_exceeded"; "output_limit_exceeded"].

(** The [zip] loop: every report is at its expected stage; collects the
    statuses. *)
Fixpoint stage_statuses (stages : list Json) (expected : list string)
    : result ProtocolError (list string) :=
  match stages, expected with
  | stage :: stages', e :: expected' =>
      let* report := as_object stage in
      let* s := string_field report "stage" in
      if negb (String.eqb s e) then Err SemanticViolation
      else
        let* status := string_field report "status" in
        let* rest := stage_statuses stages' expected' in
        Ok (status :: rest)
  | _, _ => Ok []
  end.

Definition validate_result_stages (stages : list Json) (status verdict : string)
    : result ProtocolError unit :=
  if negb (Nat.eqb (length stages) (length EXPECTED_STAGES)) then Err SemanticViolation
  else
    let* statuses := stage_statuses stages EXPECTED_STAGES in
    if String.eqb status "completed" && str_in ["accepted"; "wrong_answer"] verdict then
      if any_not "succeeded" statuses then Err SemanticViolation else Ok tt
    else if String.eqb status "completed" && String.eqb verdict "compile_error" then
      validate_terminal_pattern statuses 1 "failed"
    else if String.eqb status "completed" && str_in run_rejections verdict then
      validate_terminal_pattern statuses 2 "failed"
    else if String.eqb status "failed" && String.eqb verdict "system_error" then
      validate_any_terminal_pattern statuses "failed"
    else if String.eqb status "cancelled" && String.eqb verdict "cancelled" then
      validate_any_terminal_pattern statuses "cancelled"
    else Err SemanticViolation.

(** The accumulating loop of [validate_aggregate_usage]. *)
Fixpoint sum_usage (acc : ResourceUsage) (stages : list Json)
    : result ProtocolError ResourceUsage :=
  match stages with
  | [] => Ok acc
  | stage :: stages' =>
      let* report := as_object stage in
      let* v := field report "usage" in
      let* usage := as_object v in
      let* c := u64_field usage "cpu_time_ms" in
      let* cpu := ok_or SemanticViolation (u64_checked_add (ru_cpu_time_ms acc) c) in
      let* w := u64_field usage "wall_time_ms" in
      let* wall := ok_or SemanticViolation (u64_checked_add (ru_wall_time_ms acc) w) in
      let* m := u64_field usage "memory_peak_bytes" in
      let* o := u64_field usage "output_bytes" in
      let* output := ok_or SemanticViolation (u64_checked_add (ru_output_bytes acc) o) in
      sum_usage (MkUsage cpu wall (Z.max (ru_memory_peak_bytes acc) m) output) stages'
  end.

Definition validate_aggregate_usage (object : list (string * Json)) (stages : list Json)
    : result ProtocolError unit :=
  let* total := sum_usage (MkUsage 0 0 0 0) stages in
  let* v := field object "usage" in
  let* aggregate := as_object v in
  let* c := u64_field aggregate "cpu_time_ms" in
  if negb (c =? ru_cpu_time_ms total)%Z then Err SemanticViolation
  else
    let* w := u64_field aggregate "wall_time_ms" in
    if negb (w =? ru_wall_time_ms total)%Z then Err SemanticViolation
    else
      let* m := u64_field aggregate "memory_peak_bytes" in
      if negb (m =? ru_memory_peak_bytes total)%Z then Err SemanticViolation
      else
        let* o := u64_field aggregate "output_bytes" in
        if negb (o =? ru_output_bytes total)%Z then Err SemanticViolation
        else Ok tt.

Definition validate_result_semantics (value : Json) : result ProtocolError unit :=
  let* object := as_object value in
  let* status := string_field object "status" in
  let* verdict := string_field object "verdict" in
  let* v := field object "score" in
  let* score := as_object v in
  let* earned := u64_field score "earned" in
  let* possible := u64_field score "possible" in
  let* v := field object "stages" in
  let* stages := as_array v in
  let* v := field object "provenance" in
  let* provenance := as_object v in
  if (possible <? earned)%Z then Err SemanticViolation
  else if String.eqb status "completed" && str_in ["cancelled"; "system_error"] verdict
  then Err SemanticViolation
  else if String.eqb status "failed"
          && (negb (String.eqb verdict "system_error") || negb (earned =? 0)%Z)
  then Err SemanticViolation
  else if String.eqb status "cancelled"
          && (negb (String.eqb verdict "cancelled") || negb (earned =? 0)%Z)
  then Err SemanticViolation
  else if negb (str_in ["completed"; "failed"; "cancelled"] status)
  then Err SemanticViolation
  else if String.eqb status "completed"
          && str_in ("compile_error" :: run_rejections) verdict && negb (earned =? 0)%Z
  then Err SemanticViolation
  else
    try* validate_result_stages stages status verdict in
    try* validate_aggregate_usage object stages in
    let* executor_kind := string_field provenance "executor_kind" in
    let* production_eligible := bool_field SemanticViolation provenance "production_eligible" in
    if production_eligible
       && (String.eqb executor_kind "development_mock"
           || negb (map_contains_key "node_id" provenance))
    then Err SemanticViolation
    else Ok tt.

(** ** Encoding and decoding *)

Definition ensure_size (actual maximum : Z) : result ProtocolError unit :=
  if (maximum <? actual)%Z then Err (MessageTooLarge maximum actual) else Ok tt.

Section Codec.
Context `{CanonicalSchema}.

Definition validate (value : Json) : result ProtocolError unit :=
  let* validator := ok_or SchemaUnavailable schema_validator in
  if validator value then Ok tt else Err SchemaViolation.

Definition decode_wire (w : Wire) (input : bytes) (maximum : Z)
    : result ProtocolError Json :=
  try* ensure_size (str_len input) maximum in
  let* typed := ok_or MalformedDocument (wire_from_slice w input) in
  let* value := ok_or EncodingFailed (wire_to_value w typed) in
  try* validate value in
  Ok value.

Definition encode_wire (w : Wire) (value : Json) (maximum : Z)
    : result ProtocolError bytes :=
  try* validate value in
  let* typed := ok_or SchemaViolation (wire_from_value w value) in
  let* encoded := ok_or EncodingFailed (wire_to_vec w typed) in
  try* ensure_size (str_len encoded) maximum in
  Ok encoded.

Definition decode_request (input : bytes) : result ProtocolError EvaluationRequest :=
  let* value := decode_wire request_wire input MAX_EVALUATION_REQUEST_BYTES in
  request_from_value value.

Definition encode_request (request : EvaluationRequest) : result ProtocolError bytes :=
  encode_wire request_wire (request_to_value request) MAX_EVALUATION_REQUEST_BYTES.

Definition decode_evaluation_result (input : bytes)
    : result ProtocolError (wire_t result_wire) :=
  try* ensure_size (str_len input) MAX_EVALUATION_RESULT_BYTES in
  let* typed := ok_or MalformedDocument (wire_from_slice result_wire input) in
  let* value := ok_or EncodingFailed (wire_to_value result_wire typed) in
  try* validate value in
  try* validate_result_semantics value in
  Ok typed.

Definition decode_evaluation_result_domain (input : bytes)
    : result ProtocolError EvaluationResult :=
  let* typed := decode_evaluation_result input in
  let* value := ok_or EncodingFailed (wire_to_value result_wire typed) in
  result_from_value value.

Definition encode_result (r : EvaluationResult) : result ProtocolError bytes :=
  let value := result_to_value r in
  try* validate_result_semantics value in
  encode_wire result_wire value MAX_EVALUATION_RESULT_BYTES.

(** The codec the store is verified against. *)
#[global] Instance canonical_codec : RequestCodec := {|
  Codec.encode_evaluation_request := encode_request;
  Codec.decode_evaluation_request := decode_request;
  Codec.encode_evaluation_result := encode_result
|}.
End Codec.
