(* ===== verification/Policy.v ===== *)
(** * Control-plane policies, commands and store errors

    Models [crates/openoj-application/src/control.rs]: the lease policy, the
    default-deny node allowlist, the commands of the evaluation store, its
    snapshots, leases and errors. *)

From S2P Require Import Prelude Value Control Evaluation EvalResult.

Module NodePolicyError.
Inductive t : Type :=
  | InvalidRenewSchedule | DuplicateNode | InvalidCapabilities | IdentityDenied
  | CapabilityDenied.

#[global] Instance eq_dec : EqDecision t.
Proof. solve_decision. Defined.
End NodePolicyError.

(** ** Lease policy *)

Record LeasePolicy : Type := MkLeasePolicy {
  lp_lease_duration : LeaseDuration;
  lp_renew_after : LeaseDuration
}.

Definition LeasePolicy_new (lease_duration renew_after : LeaseDuration)
    : result NodePolicyError.t LeasePolicy :=
  if (ld_value lease_duration / 2 <? ld_value renew_after)%Z
  then Err NodePolicyError.InvalidRenewSchedule
  else Ok {| lp_lease_duration := lease_duration; lp_renew_after := renew_after |}.

#[export] Instance valid_lease_policy : Valid LeasePolicy := fun p =>
  valid (lp_lease_duration p) /\ valid (lp_renew_after p) /\
  (2 * ld_value (lp_renew_after p) <= ld_value (lp_lease_duration p))%Z.

(** An accepted schedule leaves at least one more renewal before expiry. *)
Lemma LeasePolicy_new_iff d r p :
  valid d -> valid r ->
  (LeasePolicy_new d r = Ok p <-> p = MkLeasePolicy d r /\ valid p).
Proof.
  unfold LeasePolicy_new, valid at 3, valid_lease_policy. intros Hd Hr.
  pose proof (Z.div_mod (ld_value d) 2 ltac:(lia)) as Hdm.
  pose proof (Z.mod_pos_bound (ld_value d) 2 ltac:(lia)) as Hm.
  split.
  - intros H. inv_ok. split_bools. split; [done|]. simpl. split; [done|]. split; [done|]. lia.
  - intros [-> (_ & _ & Hle)]. simpl in Hle.
    by rewrite (proj2 (Z.ltb_ge _ _)) by lia.
Qed.

(** ** Node policy *)

Record NodePolicy : Type := MkNodePolicy { np_allowed : gmap NodeId (gset Capability) }.

Definition set_len (s : gset Capability) : Z := Z.of_nat (size s).

Fixpoint NodePolicy_insert (allowed : gmap NodeId (gset Capability))
    (nodes : list (NodeId * list Capability))
    : result NodePolicyError.t (gmap NodeId (gset Capability)) :=
  match nodes with
  | [] => Ok allowed
  | (node_id, capabilities) :: rest =>
      let capability_count := len capabilities in
      let unique : gset Capability := list_to_set capabilities in
      if bool_decide (unique = ∅) || (64 <? set_len unique)%Z
         || negb (set_len unique =? capability_count)%Z
      then Err NodePolicyError.InvalidCapabilities
      else
        match allowed !! node_id with
        | Some _ => Err NodePolicyError.DuplicateNode
        | None => NodePolicy_insert (<[node_id := unique]> allowed) rest
        end
  end.

Definition NodePolicy_new (nodes : list (NodeId * list Capability))
    : result NodePolicyError.t NodePolicy :=
  let* allowed := NodePolicy_insert ∅ nodes in
  Ok {| np_allowed := allowed |}.

Definition NodePolicy_authorize (self : NodePolicy) (node_id : NodeId)
    (declared : list Capability) : result NodePolicyError.t unit :=
  let* allowed := ok_or NodePolicyError.IdentityDenied (np_allowed self !! node_id) in
  match declared with
  | [] => Err NodePolicyError.CapabilityDenied
  | _ =>
      let unique_declared : gset Capability := list_to_set declared in
      if negb (set_len unique_declared =? len declared)%Z
         || existsb (fun capability => negb (bool_decide (capability ∈ allowed)))
              (elements unique_declared)
      then Err NodePolicyError.CapabilityDenied
      else Ok tt
  end.

Definition NodePolicy_authorize_identity (self : NodePolicy) (node_id : NodeId)
    : result NodePolicyError.t unit :=
  match np_allowed self !! node_id with
  | Some _ => Ok tt
  | None => Err NodePolicyError.IdentityDenied
  end.

(** A list has as many elements as its set exactly when nothing repeats. *)
Lemma size_list_to_set_le (l : list Capability) :
  (size (list_to_set l : gset Capability) <= length l)%nat.
Proof.
  induction l as [|c l IH]; [by rewrite list_to_set_nil, size_empty|].
  rewrite list_to_set_cons, size_union_alt, size_singleton. simpl.
  pose proof (subseteq_size (list_to_set (C:=gset Capability) l ∖ {[c]})
    (list_to_set l) ltac:(set_solver)). lia.
Qed.

Lemma set_len_NoDup (l : list Capability) :
  (set_len (list_to_set l) =? len l)%Z = true <-> NoDup l.
Proof.
  unfold set_len, len. rewrite Z.eqb_eq. split.
  - intros H. apply Nat2Z.inj in H. induction l as [|c l IH]; [constructor|].
    pose proof (size_list_to_set_le l) as Hle.
    rewrite list_to_set_cons in H. simpl in H. destruct (decide (c ∈ l)) as [Hin|Hni].
    + replace ({[c]} ∪ list_to_set (C:=gset Capability) l)
        with (list_to_set (C:=gset Capability) l) in H by set_solver. lia.
    + rewrite size_union in H by set_solver. rewrite size_singleton in H.
      constructor; [done|]. apply IH. lia.
  - intros Hn. f_equal. by rewrite size_list_to_set.
Qed.

(** Authorisation admits exactly the non-empty duplicate-free subsets of the
    deployment's allowlist for that node. *)
Lemma NodePolicy_authorize_iff p n declared :
  NodePolicy_authorize p n declared = Ok tt <->
  exists allowed, np_allowed p !! n = Some allowed /\ declared <> [] /\ NoDup declared /\
    forall c, c ∈ declared -> c ∈ allowed.
Proof.
  unfold NodePolicy_authorize.
  destruct (np_allowed p !! n) as [allowed|]; simpl; [|naive_solver].
  destruct declared as [|c0 l]; [naive_solver|].
  assert (Hne : c0 :: l <> []) by done. revert Hne.
  generalize (c0 :: l) as declared. clear c0 l. intros declared Hne.
  destruct (set_len (list_to_set declared) =? len declared)%Z eqn:Hl; simpl.
  - apply set_len_NoDup in Hl.
    destruct (existsb _ _) eqn:He.
    + split; [done|]. intros (? & [= <-] & _ & _ & Hall). exfalso.
      apply existsb_exists in He as (c & Hc & Hn).
      apply negb_true_iff, bool_decide_eq_false in Hn. apply Hn, Hall.
      by apply list_elem_of_In, elem_of_elements, elem_of_list_to_set in Hc.
    + split; [|done]. intros _. exists allowed. split; [done|]. split; [done|]. split; [done|].
      intros c Hc. apply existsb_false in He. rewrite Forall_forall in He.
      specialize (He c). rewrite elem_of_elements, elem_of_list_to_set in He.
      specialize (He Hc). by apply negb_false_iff, bool_decide_eq_true in He.
  - split; [done|]. intros (_ & _ & _ & Hnd & _). apply set_len_NoDup in Hnd. congruence.
Qed.

(** What [NodePolicy::new] builds: the configured nodes and nothing else. *)
Definition node_capabilities_ok (capabilities : list Capability) : Prop :=
  (1 <= len capabilities <= 64)%Z /\ NoDup capabilities.

Lemma NodePolicy_insert_iff allowed nodes m :
  NodePolicy_insert allowed nodes = Ok m <->
  NoDup (map fst nodes) /\ Forall (fun n => allowed !! n = None) (map fst nodes) /\
  Forall (fun nc => node_capabilities_ok (snd nc)) nodes /\
  m = list_to_map (map (fun nc => (fst nc, list_to_set (snd nc))) nodes) ∪ allowed.
Proof.
  revert allowed; induction nodes as [|[n cs] nodes IH]; intros allowed; simpl.
  { rewrite (left_id_L ∅ (∪)). split; [intros [= ->]|intros (_ & _ & _ & ->); done].
    repeat constructor. }
  rewrite !Forall_cons, NoDup_cons. simpl.
  assert (Hg : bool_decide ((list_to_set cs : gset Capability) = ∅)
     || (64 <? set_len (list_to_set cs))%Z
     || negb (set_len (list_to_set cs) =? len cs)%Z = false <-> node_capabilities_ok cs).
  { unfold node_capabilities_ok. rewrite !orb_false_iff, negb_false_iff, set_len_NoDup.
    split.
    - intros [[H1 H2] H3]. apply bool_decide_eq_false in H1. apply Z.ltb_ge in H2.
      rewrite <- (proj1 (Z.eqb_eq _ _) (proj2 (set_len_NoDup cs) H3)).
      split; [|done]. split; [|done]. unfold set_len.
      destruct (decide (size (list_to_set (C:=gset Capability) cs) = 0)) as [E|]; [|lia].
      apply size_empty_inv in E. by apply leibniz_equiv in E.
    - intros [Hb Hn]. pose proof (proj1 (Z.eqb_eq _ _) (proj2 (set_len_NoDup cs) Hn)) as E.
      rewrite E. split; [|done]. split; [|apply Z.ltb_ge; lia].
      apply bool_decide_eq_false. intros H0. rewrite H0 in E. unfold set_len in E.
      rewrite size_empty in E. lia. }
  destruct (_ || _) eqn:Hb.
  { split; [done|]. intros (_ & _ & [Hok _] & _). apply Hg in Hok. congruence. }
  destruct (allowed !! n) as [x|] eqn:Ha.
  { split; [done|]. intros (_ & [? _] & _). done. }
  assert (Hlm : n ∉ map fst nodes ->
    list_to_map (M:=gmap NodeId (gset Capability))
      (map (fun nc => (fst nc, list_to_set (snd nc))) nodes) !! n = None).
  { intros Hn. apply not_elem_of_list_to_map. change (map fst nodes) with (fst <$> nodes) in Hn.
    rewrite <- list_fmap_compose. exact Hn. }
  rewrite IH. split.
  - intros (Hnd & Hf & Hok & ->).
    assert (Hn : n ∉ map fst nodes).
    { intros Hin. rewrite Forall_forall in Hf. specialize (Hf n Hin).
      by rewrite lookup_insert_eq in Hf. }
    split; [done|]. split; [|split; [by split; [apply Hg|]|]].
    + split; [done|]. eapply Forall_impl; [exact Hf|]. intros y Hy. simpl in Hy.
      destruct (decide (n = y)) as [->|]; [by rewrite lookup_insert_eq in Hy|].
      by rewrite lookup_insert_ne in Hy.
    + rewrite <- insert_union_l. symmetry. apply insert_union_r. by apply Hlm.
  - intros ([Hni Hnd] & [_ Hf] & [_ Hok] & ->). repeat split; try done.
    + rewrite Forall_forall in *. intros y Hy. rewrite lookup_insert_ne; [by apply Hf|].
      by intros ->.
    + rewrite <- insert_union_l. apply insert_union_r. by apply Hlm.
Qed.

Lemma NodePolicy_new_iff nodes p :
  NodePolicy_new nodes = Ok p <->
  NoDup (map fst nodes) /\ Forall (fun nc => node_capabilities_ok (snd nc)) nodes /\
  np_allowed p = list_to_map (map (fun nc => (fst nc, list_to_set (snd nc))) nodes).
Proof.
  unfold NodePolicy_new. destruct (NodePolicy_insert ∅ nodes) as [m|e] eqn:E; simpl.
  - apply NodePolicy_insert_iff in E as (Hnd & _ & Hok & ->).
    rewrite (right_id_L ∅ (∪)). split; [by intros [= <-]|].
    intros (_ & _ & Hp). destruct p; simpl in *. by subst.
  - split; [done|]. intros (Hnd & Hok & Hp). exfalso.
    set (m := np_allowed p ∪ ∅).
    rewrite (proj2 (NodePolicy_insert_iff ∅ nodes m)) in E; [done|].
    split; [done|]. split; [|split; [done | by unfold m; rewrite Hp]].
    apply Forall_forall. intros; by rewrite lookup_empty.
Qed.

(** ** Commands, snapshots and errors *)

Record JudgeClaim : Type := MkJudgeClaim {
  jc_node_id : NodeId;
  jc_declared_capabilities : list Capability;
  jc_operation_id : ClaimOperationId;
  jc_lease_token : LeaseToken;
  jc_now : UnixMillis;
  jc_lease_policy : LeasePolicy
}.

Record JudgeRenew : Type := MkJudgeRenew {
  jr_node_id : NodeId;
  jr_evaluation_id : EvaluationId;
  jr_attempt_id : AttemptId;
  jr_lease_token : LeaseToken;
  jr_now : UnixMillis;
  jr_lease_policy : LeasePolicy
}.

Inductive JudgeRenewDirective : Type :=
  | Continue (expires_at : UnixMillis)
  | Cancel.

Record JudgeSubmitResult : Type := MkJudgeSubmitResult {
  js_node_id : NodeId;
  js_operation_id : ResultOperationId;
  js_lease_token : LeaseToken;
  js_result : EvaluationResult;
  js_now : UnixMillis
}.

Record CreateEvaluation : Type := MkCreateEvaluation {
  ce_request : EvaluationRequest;
  ce_created_at : UnixMillis
}.

Record ClaimTask : Type := MkClaimTask {
  ct_node_id : NodeId;
  ct_lease_token : LeaseToken;
  ct_now : UnixMillis;
  ct_lease_duration : LeaseDuration
}.

Record RetryExpired : Type := MkRetryExpired {
  re_request : EvaluationRequest;
  re_now : UnixMillis
}.

Record SubmitResult : Type := MkSubmitResult {
  sr_idempotency_key : IdempotencyKey;
  sr_lease_token : LeaseToken;
  sr_result : EvaluationResult;
  sr_now : UnixMillis
}.

Record CancelEvaluation : Type := MkCancelEvaluation {
  cc_idempotency_key : IdempotencyKey;
  cc_evaluation_id : EvaluationId;
  cc_result : EvaluationResult;
  cc_now : UnixMillis
}.

Record EvaluationSnapshot : Type := MkSnapshot {
  es_evaluation_id : EvaluationId;
  es_state : EvaluationState.t;
  es_current_attempt_id : AttemptId;
  es_attempt_number : Z;
  es_attempt_state : AttemptState.t;
  es_terminal_result : bool
}.

Record TaskLease : Type := MkTaskLease {
  tl_request : EvaluationRequest;
  tl_node_id : NodeId;
  tl_lease_token : LeaseToken;
  tl_expires_at : UnixMillis
}.

Module StoreError.
Inductive t : Type :=
  | InvalidTime | IdempotencyConflict | IdentityConflict | ImmutableReferenceConflict
  | NotFound | NoTaskAvailable | LeaseConflict | StaleLease | InvalidTransition
  | TerminalConflict | IncompatibleSchema | Unavailable | CorruptData.

#[global] Instance eq_dec : EqDecision t.
Proof. solve_decision. Defined.
End StoreError.
