(* ===== verification/Schema.v ===== *)
(** * The PostgreSQL schema as data

    Models the migrations
    [crates/openoj-storage/migrations/202608170001_p0b_control_spine.sql] and
    [202608170002_p0c_judge_control.sql]: the tables as finite maps from primary
    keys to rows, the CHECK constraints as boolean predicates of a row, the
    unique constraints and foreign keys as checks of the whole table, and the
    INSERT and UPDATE statements the store issues, each of which returns the
    new tables or the class of database error it raises. *)

From S2P Require Import Prelude Value Control Evaluation EvalResult Codec.

(** ** Rows *)

Record ArtifactRow : Type := MkArtifactRow {
  ar_digest : string;
  ar_media_type : string;
  ar_size_bytes : Z;
  ar_sensitivity : string
}.

Record ProblemVersionRow : Type := MkProblemVersionRow {
  pvr_problem_id : string;
  pvr_digest : string
}.

Record SubmissionRow : Type := MkSubmissionRow { sbr_source_artifact_id : string }.

Record RuntimeRow : Type := MkRuntimeRow { rtr_digest : string }.

Record EvaluationRow : Type := MkEvaluationRow {
  e_request_id : string;
  e_creation_key : string;
  e_problem_version_id : string;
  e_submission_id : string;
  e_runtime_id : string;
  e_initial_request : bytes;
  e_state : string;
  e_current_attempt : string;
  e_terminal_result : option bytes;
  e_result_key : option string;
  e_created_at : Z;
  e_updated_at : Z
}.

Record AttemptRow : Type := MkAttemptRow {
  a_evaluation_id : string;
  a_request_id : string;
  a_number : Z;
  a_idempotency_key : string;
  a_payload : bytes;
  a_state : string;
  a_node_id : option string;
  a_lease_token : option string;
  a_lease_expires_at : option Z;
  a_created_at : Z;
  a_updated_at : Z;
  a_claim_operation : option string
}.

Record TaskRow : Type := MkTaskRow {
  t_state : string;
  t_created_at : Z;
  t_updated_at : Z;
  t_capabilities : list string
}.

#[export] Instance ArtifactRow_eq_dec : EqDecision ArtifactRow.
Proof. solve_decision. Defined.
#[export] Instance ProblemVersionRow_eq_dec : EqDecision ProblemVersionRow.
Proof. solve_decision. Defined.
#[export] Instance EvaluationRow_eq_dec : EqDecision EvaluationRow.
Proof. solve_decision. Defined.
#[export] Instance AttemptRow_eq_dec : EqDecision AttemptRow.
Proof. solve_decision. Defined.
#[export] Instance TaskRow_eq_dec : EqDecision TaskRow.
Proof. solve_decision. Defined.

Record Db : Type := MkDb {
  artifacts : gmap string ArtifactRow;
  problem_versions : gmap string ProblemVersionRow;
  submissions : gmap string SubmissionRow;
  runtimes : gmap string RuntimeRow;
  evaluations : gmap string EvaluationRow;
  attempts : gmap string AttemptRow;
  tasks : gmap string TaskRow
}.

Definition empty_db : Db := MkDb ∅ ∅ ∅ ∅ ∅ ∅ ∅.

(** ** Collation

    The order of [text] values is the collation of the deployment's database,
    which the repository does not fix: any total order on strings will do. *)
Class Collation := {
  text_leb : string -> string -> bool;
  text_leb_total : forall s t, text_leb s t = true \/ text_leb t s = true;
  text_leb_trans : forall s t u,
    text_leb s t = true -> text_leb t u = true -> text_leb s u = true;
  text_leb_antisym : forall s t, text_leb s t = true -> text_leb t s = true -> s = t
}.

(** ** CHECK constraints *)

(** A [varchar(n)] column: at most [n] characters. *)
Definition varchar (n : Z) (s : string) : bool := (char_count s <=? n)%Z.

(** [varchar(n)] with the pattern [^[A-Za-z0-9][A-Za-z0-9._:-]*$]. *)
Definition id_column (n : Z) (s : string) : bool := varchar n s && opaque_format s.

Definition nullable {A : Type} (check : A -> bool) (o : option A) : bool :=
  match o with None => true | Some a => check a end.

(** [^sha256:[0-9a-f]{64}$] in a [varchar(71)]. *)
Definition digest_column (s : string) : bool :=
  varchar 71 s &&
  match strip_prefix "sha256:" s with
  | Some hex => digest_hex_ok hex
  | None => false
  end.

Definition octet_length_between (lo hi : Z) (b : bytes) : bool := in_range lo hi (str_len b).

Definition time_bound (created updated : Z) : bool :=
  in_range 0 MAX_UNIX_MILLIS created && in_range created MAX_UNIX_MILLIS updated.

Definition one_of_strings (l : list string) (s : string) : bool :=
  existsb (String.eqb s) l.

Definition artifact_check (id : string) (r : ArtifactRow) : bool :=
  id_column 64 id && digest_column (ar_digest r) &&
  varchar 129 (ar_media_type r) && octet_length_between 1 129 (ar_media_type r) &&
  in_range 0 1099511627776 (ar_size_bytes r) &&
  varchar 16 (ar_sensitivity r) &&
  one_of_strings ["public"; "private"; "hidden"] (ar_sensitivity r).

Definition problem_version_check (id : string) (r : ProblemVersionRow) : bool :=
  id_column 64 id && id_column 64 (pvr_problem_id r) && digest_column (pvr_digest r).

Definition submission_check (id : string) (r : SubmissionRow) : bool :=
  id_column 64 id && varchar 64 (sbr_source_artifact_id r).

Definition runtime_check (id : string) (r : RuntimeRow) : bool :=
  id_column 64 id && digest_column (rtr_digest r).

Definition evaluation_states : list string :=
  ["queued"; "leased"; "completed"; "failed"; "cancelled"].
Definition attempt_states : list string :=
  ["queued"; "leased"; "completed"; "failed"; "cancelled"; "expired"].
Definition task_states : list string :=
  ["ready"; "leased"; "completed"; "cancelled"; "expired"].

Definition is_null {A : Type} (o : option A) : bool :=
  match o with None => true | Some _ => false end.

Definition evaluation_check (id : string) (r : EvaluationRow) : bool :=
  id_column 64 id && id_column 64 (e_request_id r) &&
  id_column 64 (e_current_attempt r) && id_column 128 (e_creation_key r) &&
  nullable (id_column 128) (e_result_key r) &&
  varchar 64 (e_problem_version_id r) && varchar 64 (e_submission_id r) &&
  varchar 64 (e_runtime_id r) &&
  octet_length_between 1 262144 (e_initial_request r) &&
  varchar 16 (e_state r) && one_of_strings evaluation_states (e_state r) &&
  Bool.eqb (is_null (e_terminal_result r)) (is_null (e_result_key r)) &&
  nullable (octet_length_between 1 1048576) (e_terminal_result r) &&
  time_bound (e_created_at r) (e_updated_at r).

Definition attempt_check (id : string) (r : AttemptRow) : bool :=
  id_column 64 id && varchar 64 (a_evaluation_id r) && id_column 64 (a_request_id r) &&
  id_column 128 (a_idempotency_key r) &&
  nullable (id_column 64) (a_node_id r) && nullable (id_column 64) (a_lease_token r) &&
  nullable (id_column 64) (a_claim_operation r) &&
  in_range 1 4294967295 (a_number r) &&
  octet_length_between 1 262144 (a_payload r) &&
  varchar 16 (a_state r) && one_of_strings attempt_states (a_state r) &&
  Bool.eqb (is_null (a_node_id r)) (is_null (a_lease_token r)) &&
  Bool.eqb (is_null (a_lease_token r)) (is_null (a_lease_expires_at r)) &&
  nullable (in_range 0 MAX_UNIX_MILLIS) (a_lease_expires_at r) &&
  time_bound (a_created_at r) (a_updated_at r).

(** The pattern [^[a-z0-9]+([.-][a-z0-9]+)*$]; [segment_start] says that the
    next byte must open a segment. *)
Fixpoint sql_capability_loop (segment_start : bool) (s : string) : bool :=
  match s with
  | EmptyString => negb segment_start
  | String c s' =>
      if lower_or_digit c then sql_capability_loop false s'
      else if one_of ".-" c then negb segment_start && sql_capability_loop true s'
      else false
  end.

Definition sql_capability (s : string) : bool :=
  sql_capability_loop true s && (str_len s <=? 64)%Z.

Section Constraints.
Context `{Collation}.

(** [openoj_valid_required_capabilities]. *)
Fixpoint valid_capabilities_loop (previous : option string) (l : list string) : bool :=
  match l with
  | [] => true
  | capability :: rest =>
      sql_capability capability &&
      match previous with
      | Some p => negb (text_leb capability p)
      | None => true
      end &&
      valid_capabilities_loop (Some capability) rest
  end.

Definition valid_required_capabilities (l : list string) : bool :=
  in_range 1 64 (len l) && valid_capabilities_loop None l.

Definition task_check (id : string) (r : TaskRow) : bool :=
  varchar 16 (t_state r) && one_of_strings task_states (t_state r) &&
  time_bound (t_created_at r) (t_updated_at r) &&
  valid_required_capabilities (t_capabilities r).
End Constraints.

(** ** Statements *)

(** SQLSTATE 23505 against every other database error. *)
Inductive DbError : Type := UniqueViolation | OtherDatabaseError.

(** Another row of the table satisfies [P]. *)
Definition conflicts {R : Type} (m : gmap string R) (id : string) (P : R -> bool) : bool :=
  existsb (fun kr => negb (bool_decide (fst kr = id)) && P (snd kr)) (map_to_list m).

Definition same_some {A : Type} `{EqDecision A} (a b : option A) : bool :=
  match a, b with
  | Some x, Some y => bool_decide (x = y)
  | _, _ => false
  end.

Definition evaluation_conflict (m : gmap string EvaluationRow) (id : string)
    (r : EvaluationRow) : bool :=
  conflicts m id (fun r' => String.eqb (e_creation_key r') (e_creation_key r)) ||
  conflicts m id (fun r' => same_some (e_result_key r') (e_result_key r)).

Definition attempt_conflict (m : gmap string AttemptRow) (id : string) (r : AttemptRow)
    : bool :=
  conflicts m id (fun r' => String.eqb (a_idempotency_key r') (a_idempotency_key r)) ||
  conflicts m id (fun r' => String.eqb (a_evaluation_id r') (a_evaluation_id r)
                            && (a_number r' =? a_number r)%Z) ||
  conflicts m id (fun r' => same_some (a_node_id r') (a_node_id r)
                            && same_some (a_claim_operation r') (a_claim_operation r)).

Definition has_key {R : Type} (m : gmap string R) (id : string) : bool :=
  match m !! id with Some _ => true | None => false end.

Definition guard (e : DbError) (b : bool) : result DbError unit :=
  if b then Ok tt else Err e.

Definition set_evaluations (db : Db) (m : gmap string EvaluationRow) : Db :=
  {| artifacts := artifacts db; problem_versions := problem_versions db;
     submissions := submissions db; runtimes := runtimes db;
     evaluations := m; attempts := attempts db; tasks := tasks db |}.
Definition set_attempts (db : Db) (m : gmap string AttemptRow) : Db :=
  {| artifacts := artifacts db; problem_versions := problem_versions db;
     submissions := submissions db; runtimes := runtimes db;
     evaluations := evaluations db; attempts := m; tasks := tasks db |}.
Definition set_tasks (db : Db) (m : gmap string TaskRow) : Db :=
  {| artifacts := artifacts db; problem_versions := problem_versions db;
     submissions := submissions db; runtimes := runtimes db;
     evaluations := evaluations db; attempts := attempts db; tasks := m |}.

(** [INSERT ... ON CONFLICT (pk) DO NOTHING] into the reference tables. *)
Definition insert_artifact (id : string) (r : ArtifactRow) (db : Db) : result DbError Db :=
  try* guard OtherDatabaseError (artifact_check id r) in
  if has_key (artifacts db) id then Ok db
  else Ok {| artifacts := <[id := r]> (artifacts db);
             problem_versions := problem_versions db; submissions := submissions db;
             runtimes := runtimes db; evaluations := evaluations db;
             attempts := attempts db; tasks := tasks db |}.

Definition insert_problem_version (id : string) (r : ProblemVersionRow) (db : Db)
    : result DbError Db :=
  try* guard OtherDatabaseError (problem_version_check id r) in
  if has_key (problem_versions db) id then Ok db
  else Ok {| artifacts := artifacts db;
             problem_versions := <[id := r]> (problem_versions db);
             submissions := submissions db; runtimes := runtimes db;
             evaluations := evaluations db; attempts := attempts db; tasks := tasks db |}.

Definition insert_submission (id : string) (r : SubmissionRow) (db : Db)
    : result DbError Db :=
  try* guard OtherDatabaseError (submission_check id r) in
  if has_key (submissions db) id then Ok db
  else
    try* guard OtherDatabaseError (has_key (artifacts db) (sbr_source_artifact_id r)) in
    Ok {| artifacts := artifacts db; problem_versions := problem_versions db;
          submissions := <[id := r]> (submissions db); runtimes := runtimes db;
          evaluations := evaluations db; attempts := attempts db; tasks := tasks db |}.

Definition insert_runtime (id : string) (r : RuntimeRow) (db : Db) : result DbError Db :=
  try* guard OtherDatabaseError (runtime_check id r) in
  if has_key (runtimes db) id then Ok db
  else Ok {| artifacts := artifacts db; problem_versions := problem_versions db;
             submissions := submissions db; runtimes := <[id := r]> (runtimes db);
             evaluations := evaluations db; attempts := attempts db; tasks := tasks db |}.

(** [INSERT INTO evaluations]; the foreign key to the current attempt is
    deferred to the commit. *)
Definition insert_evaluation_row (id : string) (r : EvaluationRow) (db : Db)
    : result DbError Db :=
  try* guard OtherDatabaseError (evaluation_check id r) in
  try* guard UniqueViolation
         (negb (has_key (evaluations db) id) &&
          negb (evaluation_conflict (evaluations db) id r)) in
  try* guard OtherDatabaseError
         (has_key (problem_versions db) (e_problem_version_id r) &&
          has_key (submissions db) (e_submission_id r) &&
          has_key (runtimes db) (e_runtime_id r)) in
  Ok (set_evaluations db (<[id := r]> (evaluations db))).

Definition insert_attempt_row (id : string) (r : AttemptRow) (db : Db)
    : result DbError Db :=
  try* guard OtherDatabaseError (attempt_check id r) in
  try* guard UniqueViolation
         (negb (has_key (attempts db) id) &&
          negb (attempt_conflict (attempts db) id r)) in
  try* guard OtherDatabaseError (has_key (evaluations db) (a_evaluation_id r)) in
  Ok (set_attempts db (<[id := r]> (attempts db))).

Definition insert_task_row `{Collation} (id : string) (r : TaskRow) (db : Db)
    : result DbError Db :=
  try* guard OtherDatabaseError (task_check id r) in
  try* guard UniqueViolation (negb (has_key (tasks db) id)) in
  try* guard OtherDatabaseError (has_key (attempts db) id) in
  Ok (set_tasks db (<[id := r]> (tasks db))).

(** [UPDATE ... SET ... WHERE pk = $1]: no row is no error. *)
Definition update_evaluation (id : string) (f : EvaluationRow -> EvaluationRow) (db : Db)
    : result DbError Db :=
  match evaluations db !! id with
  | None => Ok db
  | Some r =>
      try* guard OtherDatabaseError (evaluation_check id (f r)) in
      try* guard UniqueViolation (negb (evaluation_conflict (evaluations db) id (f r))) in
      Ok (set_evaluations db (<[id := f r]> (evaluations db)))
  end.

Definition update_attempt (id : string) (f : AttemptRow -> AttemptRow) (db : Db)
    : result DbError Db :=
  match attempts db !! id with
  | None => Ok db
  | Some r =>
      try* guard OtherDatabaseError (attempt_check id (f r)) in
      try* guard UniqueViolation (negb (attempt_conflict (attempts db) id (f r))) in
      Ok (set_attempts db (<[id := f r]> (attempts db)))
  end.

Definition update_task `{Collation} (id : string) (f : TaskRow -> TaskRow) (db : Db)
    : result DbError Db :=
  match tasks db !! id with
  | None => Ok db
  | Some r =>
      try* guard OtherDatabaseError (task_check id (f r)) in
      Ok (set_tasks db (<[id := f r]> (tasks db)))
  end.

(** [COMMIT] checks the deferred foreign key
    [evaluations_current_attempt_fk]. *)
Definition commit_check (db : Db) : result DbError unit :=
  guard OtherDatabaseError
    (forallb (fun kr => has_key (attempts db) (e_current_attempt (snd kr)))
       (map_to_list (evaluations db))).

(** ** Queries *)

(** [SELECT ... WHERE P] without an order, first row. *)
Definition select_first {R : Type} (P : string -> R -> bool) (m : gmap string R)
    : option (string * R) :=
  find (fun kr => P (fst kr) (snd kr)) (map_to_list m).

(** [SELECT ... WHERE P ORDER BY (time, id) LIMIT 1]. *)
Section OrderBy.
Context `{Collation}.

Definition order_leb (x y : Z * string) : bool :=
  ((fst x <? fst y)%Z || ((fst x =? fst y)%Z && text_leb (snd x) (snd y))).

Fixpoint first_by {R : Type} (key : R -> Z * string) (l : list R) : option R :=
  match l with
  | [] => None
  | r :: l' =>
      match first_by key l' with
      | None => Some r
      | Some r' => if order_leb (key r) (key r') then Some r else Some r'
      end
  end.
End OrderBy.
