(* ===== verification/Store.v ===== *)
(** * The evaluation store

    Models [crates/openoj-storage/src/]: [lib.rs], [create.rs], [lease.rs],
    [terminal.rs], [read.rs], [model.rs] and [migration.rs]. A transaction is a
    state-passing function that either fails and rolls back or returns the new
    tables ([Sql]); an operation of the store is a sequence of transactions with
    ordinary code between them ([Op]), so that operations of different callers
    interleave at transaction boundaries and the connection may be lost before
    or after any commit. *)

From S2P Require Import Prelude Value Control Evaluation EvalResult Codec Policy Schema.

(** ** Transactions and operations *)

Definition Sql (A : Type) : Type := Db -> result StoreError.t (A * Db).

Definition sql_ret {A : Type} (a : A) : Sql A := fun db => Ok (a, db).
Definition sql_fail {A : Type} (e : StoreError.t) : Sql A := fun _ => Err e.
Definition sql_lift {A : Type} (r : result StoreError.t A) : Sql A :=
  fun db => match r with Ok a => Ok (a, db) | Err e => Err e end.
Definition sql_get : Sql Db := fun db => Ok (db, db).
Definition sql_bind {A B : Type} (m : Sql A) (k : A -> Sql B) : Sql B :=
  fun db => match m db with Ok (a, db') => k a db' | Err e => Err e end.

(** [query(..).execute(..).map_err(map)]. *)
Definition sql_exec (map : DbError -> StoreError.t) (stmt : Db -> result DbError Db)
    : Sql unit :=
  fun db => match stmt db with Ok db' => Ok (tt, db') | Err e => Err (map e) end.

Declare Scope sql_scope.
Delimit Scope sql_scope with sql.
#[global] Open Scope sql_scope.

Notation "'sql*' x ':=' m 'in' k" := (sql_bind m (fun x => k))
  (at level 10, x pattern, m at level 100, k at level 200) : sql_scope.
Notation "'exec*' m 'in' k" := (sql_bind m (fun _ : unit => k))
  (at level 10, m at level 100, k at level 200) : sql_scope.

Definition unavailable (e : DbError) : StoreError.t := StoreError.Unavailable.

(** [pool.begin() .. transaction.commit()]: an error before the commit rolls
    back; the commit checks the deferred constraint. *)
Definition transaction {A : Type} (body : Sql A) : Sql A :=
  sql* a := body in
  sql* db := sql_get in
  exec* sql_lift (map_err unavailable (commit_check db)) in
  sql_ret a.

(** An operation: code that runs transactions, draws entropy and returns. The
    argument of a transaction is the set of task rows other transactions hold
    locked at that moment. *)
Inductive Op (A : Type) : Type :=
  | Done (r : result StoreError.t A)
  | Tx {B : Type} (tx : gset string -> Sql B) (k : result StoreError.t B -> Op A)
  | Draw (k : option string -> Op A)
  | OutOfFuel.
Arguments Done {A} r.
Arguments Tx {A B} tx k.
Arguments Draw {A} k.
Arguments OutOfFuel {A}.

Fixpoint op_then {A B : Type} (m : Op A) (k : result StoreError.t A -> Op B) : Op B :=
  match m with
  | Done r => k r
  | Tx tx k' => Tx tx (fun r => op_then (k' r) k)
  | Draw k' => Draw (fun d => op_then (k' d) k)
  | OutOfFuel => OutOfFuel
  end.

(** A transaction that does not look at the locks of others. *)
Definition tx {A B : Type} (m : Sql B) (k : result StoreError.t B -> Op A) : Op A :=
  Tx (fun _ => m) k.

(** [result?]. *)
Definition op_try {A B : Type} (r : result StoreError.t B) (k : B -> Op A) : Op A :=
  match r with Ok b => k b | Err e => Done (Err e) end.

Section Store.
Context `{Collation, RequestCodec}.

(** ** [model.rs] and [read.rs] *)

Definition evaluation_state_from_str (value : string)
    : result StoreError.t EvaluationState.t :=
  if String.eqb value "queued" then Ok EvaluationState.Queued
  else if String.eqb value "leased" then Ok EvaluationState.Leased
  else if String.eqb value "completed" then Ok EvaluationState.Completed
  else if String.eqb value "failed" then Ok EvaluationState.Failed
  else if String.eqb value "cancelled" then Ok EvaluationState.Cancelled
  else Err StoreError.CorruptData.

Definition attempt_state_from_str (value : string) : result StoreError.t AttemptState.t :=
  if String.eqb value "queued" then Ok AttemptState.Queued
  else if String.eqb value "leased" then Ok AttemptState.Leased
  else if String.eqb value "completed" then Ok AttemptState.Completed
  else if String.eqb value "failed" then Ok AttemptState.Failed
  else if String.eqb value "cancelled" then Ok AttemptState.Cancelled
  else if String.eqb value "expired" then Ok AttemptState.Expired
  else Err StoreError.CorruptData.

Definition corrupt {E A : Type} (r : result E A) : result StoreError.t A :=
  map_err (fun _ => StoreError.CorruptData) r.

Definition snapshot (evaluation_id evaluation_state attempt_id : string)
    (attempt_number : Z) (attempt_state : string) (terminal_result : bool)
    : result StoreError.t EvaluationSnapshot :=
  let* evaluation_id := corrupt (id_parse evaluation_id) in
  let* state := evaluation_state_from_str evaluation_state in
  let* current_attempt_id := corrupt (id_parse attempt_id) in
  let* attempt_number := u32_try_from StoreError.CorruptData attempt_number in
  let* attempt_state := attempt_state_from_str attempt_state in
  Ok {| es_evaluation_id := evaluation_id;
        es_state := state;
        es_current_attempt_id := current_attempt_id;
        es_attempt_number := attempt_number;
        es_attempt_state := attempt_state;
        es_terminal_result := terminal_result |}.

(** [FROM evaluations e JOIN evaluation_attempts a ON a.attempt_id =
    e.current_attempt_id WHERE e.evaluation_id = $1]. *)
Definition current_attempt (db : Db) (evaluation_id : string)
    : option (EvaluationRow * AttemptRow) :=
  match evaluations db !! evaluation_id with
  | None => None
  | Some e =>
      match attempts db !! e_current_attempt e with
      | None => None
      | Some a => Some (e, a)
      end
  end.

Definition status_query (evaluation_id : EvaluationId) : Sql EvaluationSnapshot :=
  sql* db := sql_get in
  sql* (e, a) := sql_lift (ok_or StoreError.NotFound
                    (current_attempt db (id_str evaluation_id))) in
  sql* request := sql_lift (corrupt (decode_evaluation_request (a_payload a))) in
  if negb (String.eqb (id_str (er_evaluation_id request)) (id_str evaluation_id))
     || negb (String.eqb (id_str (er_attempt_id request)) (e_current_attempt e))
     || negb (er_attempt_number request =? a_number a)%Z
  then sql_fail StoreError.CorruptData
  else
    sql_lift (snapshot (id_str evaluation_id) (e_state e) (e_current_attempt e)
                (a_number a) (a_state a) (negb (is_null (e_terminal_result e)))).

Definition evaluation_status (evaluation_id : EvaluationId) : Op EvaluationSnapshot :=
  tx (status_query evaluation_id) Done.

(** [EvaluationId::parse] of a stored identifier, then the status. *)
Definition status_of_stored (evaluation_id : string) : Op EvaluationSnapshot :=
  op_try (corrupt (id_parse evaluation_id)) evaluation_status.

(** ** [create.rs] *)

Definition map_insert_error (error : DbError) : StoreError.t :=
  match error with
  | UniqueViolation => StoreError.IdentityConflict
  | OtherDatabaseError => StoreError.Unavailable
  end.

Definition insert_task (request : EvaluationRequest) (created_at : Z) : Sql unit :=
  sql_exec map_insert_error
    (insert_task_row (id_str (er_attempt_id request))
       {| t_state := "ready"; t_created_at := created_at; t_updated_at := created_at;
          t_capabilities := map cap_str (er_required_capabilities request) |}).

Definition sensitivity_as_str (s : ArtifactSensitivity) : string :=
  match s with
  | Public => "public"
  | Private => "private"
  | Hidden => "hidden"
  end.

Definition register_artifact (request : EvaluationRequest) : Sql unit :=
  let source := sub_source (er_submission request) in
  let id := id_str (art_artifact_id source) in
  sql* size := sql_lift (i64_try_from StoreError.CorruptData (art_size_bytes source)) in
  let row := {| ar_digest := digest_str (art_digest source);
                ar_media_type := media_str (art_media_type source);
                ar_size_bytes := size;
                ar_sensitivity := sensitivity_as_str (art_sensitivity source) |} in
  exec* sql_exec unavailable (insert_artifact id row) in
  sql* db := sql_get in
  sql* stored := sql_lift (ok_or StoreError.Unavailable (artifacts db !! id)) in
  if negb (bool_decide (stored = row))
  then sql_fail StoreError.ImmutableReferenceConflict
  else sql_ret tt.

Definition register_problem_version (request : EvaluationRequest) : Sql unit :=
  let reference := er_problem_version request in
  let id := id_str (pv_problem_version_id reference) in
  let row := {| pvr_problem_id := id_str (pv_problem_id reference);
                pvr_digest := digest_str (pv_digest reference) |} in
  exec* sql_exec unavailable (insert_problem_version id row) in
  sql* db := sql_get in
  sql* stored := sql_lift (ok_or StoreError.Unavailable (problem_versions db !! id)) in
  if negb (bool_decide (stored = row))
  then sql_fail StoreError.ImmutableReferenceConflict
  else sql_ret tt.

Definition register_submission (request : EvaluationRequest) : Sql unit :=
  let reference := er_submission request in
  let id := id_str (sub_submission_id reference) in
  let source_artifact_id := id_str (art_artifact_id (sub_source reference)) in
  exec* sql_exec unavailable
          (insert_submission id {| sbr_source_artifact_id := source_artifact_id |}) in
  sql* db := sql_get in
  sql* stored := sql_lift (ok_or StoreError.Unavailable (submissions db !! id)) in
  if negb (String.eqb (sbr_source_artifact_id stored) source_artifact_id)
  then sql_fail StoreError.ImmutableReferenceConflict
  else sql_ret tt.

Definition register_runtime (request : EvaluationRequest) : Sql unit :=
  let reference := er_runtime request in
  let id := id_str (rt_runtime_id reference) in
  exec* sql_exec unavailable
          (insert_runtime id {| rtr_digest := digest_str (rt_digest reference) |}) in
  sql* db := sql_get in
  sql* stored := sql_lift (ok_or StoreError.Unavailable (runtimes db !! id)) in
  if negb (String.eqb (rtr_digest stored) (digest_str (rt_digest reference)))
  then sql_fail StoreError.ImmutableReferenceConflict
  else sql_ret tt.

Definition insert_evaluation (request : EvaluationRequest) (payload : bytes)
    (created_at : Z) : Sql unit :=
  sql_exec map_insert_error
    (insert_evaluation_row (id_str (er_evaluation_id request))
       {| e_request_id := id_str (er_request_id request);
          e_creation_key := key_str (er_idempotency_key request);
          e_problem_version_id :=
            id_str (pv_problem_version_id (er_problem_version request));
          e_submission_id := id_str (sub_submission_id (er_submission request));
          e_runtime_id := id_str (rt_runtime_id (er_runtime request));
          e_initial_request := payload;
          e_state := "queued";
          e_current_attempt := id_str (er_attempt_id request);
          e_terminal_result := None;
          e_result_key := None;
          e_created_at := created_at;
          e_updated_at := created_at |}).

(** The row both [insert_attempt] and [replace_attempt] insert. *)
Definition queued_attempt (request : EvaluationRequest) (payload : bytes)
    (attempt_number created_at : Z) : AttemptRow :=
  {| a_evaluation_id := id_str (er_evaluation_id request);
     a_request_id := id_str (er_request_id request);
     a_number := attempt_number;
     a_idempotency_key := key_str (er_idempotency_key request);
     a_payload := payload;
     a_state := "queued";
     a_node_id := None;
     a_lease_token := None;
     a_lease_expires_at := None;
     a_created_at := created_at;
     a_updated_at := created_at;
     a_claim_operation := None |}.

Definition insert_attempt (request : EvaluationRequest) (payload : bytes)
    (attempt_number created_at : Z) : Sql unit :=
  sql_exec map_insert_error
    (insert_attempt_row (id_str (er_attempt_id request))
       (queued_attempt request payload attempt_number created_at)).

(** The transaction of [create_evaluation]; [Some id] is the replay of an
    earlier creation. *)
Definition create_transaction (command : CreateEvaluation) (payload : bytes)
    : Sql (option string) :=
  let request := ce_request command in
  transaction (
    sql* db := sql_get in
    match select_first
            (fun _ r => String.eqb (e_creation_key r) (key_str (er_idempotency_key request)))
            (evaluations db) with
    | Some (evaluation_id, row) =>
        if negb (String.eqb (e_initial_request row) payload)
        then sql_fail StoreError.IdempotencyConflict
        else sql_ret (Some evaluation_id)
    | None =>
        exec* register_artifact request in
        exec* register_problem_version request in
        exec* register_submission request in
        exec* register_runtime request in
        sql* created_at :=
          sql_lift (i64_try_from StoreError.InvalidTime
                      (um_value (ce_created_at command))) in
        let attempt_number := er_attempt_number request in
        exec* insert_evaluation request payload created_at in
        exec* insert_attempt request payload attempt_number created_at in
        exec* insert_task request created_at in
        sql_ret None
    end).

Definition create_evaluation (command : CreateEvaluation) : Op EvaluationSnapshot :=
  op_try (corrupt (encode_evaluation_request (ce_request command))) (fun payload =>
    tx (create_transaction command payload) (fun created =>
      op_try created (fun replayed =>
        match replayed with
        | Some evaluation_id => status_of_stored evaluation_id
        | None => evaluation_status (er_evaluation_id (ce_request command))
        end))).
End Store.
