(* ===== verification/Lease.v ===== *)
(** * Leases, retries and terminal writes of the store

    Models [crates/openoj-storage/src/lease.rs], [terminal.rs] and
    [migration.rs]: claiming, renewing, retrying and recovering attempts, and
    the first-terminal-wins writes of results and cancellations. *)

From S2P Require Import Prelude Value Control Evaluation EvalResult Codec Policy Schema Store.

Section Lease.
Context `{Collation, RequestCodec}.

(** ** Claims *)

Definition queue_key (x : string * TaskRow * AttemptRow) : Z * string :=
  let '(attempt_id, t, _) := x in (t_created_at t, attempt_id).

(** [t.required_capabilities <@ $1]. *)
Definition contained_in (required declared : list string) : bool :=
  forallb (fun c => one_of_strings declared c) required.

(** The join of the claim query, without the locked rows ([SKIP LOCKED]). *)
Definition claimable (locked : gset string) (capabilities : option (list string))
    (db : Db) : list (string * TaskRow * AttemptRow) :=
  omap (fun '(attempt_id, t) =>
    match attempts db !! attempt_id with
    | None => None
    | Some a =>
        if String.eqb (t_state t) "ready" && String.eqb (a_state a) "queued" &&
           existsb (fun '(_, e) => String.eqb (e_current_attempt e) attempt_id
                                   && String.eqb (e_state e) "queued")
             (map_to_list (evaluations db)) &&
           match capabilities with
           | None => true
           | Some declared => contained_in (t_capabilities t) declared
           end &&
           negb (bool_decide (attempt_id ∈ locked))
        then Some (attempt_id, t, a) else None
    end) (map_to_list (tasks db)).

Definition lease_attempt (node_id lease_token : string) (expiry : Z)
    (operation_id : option string) (now : Z) (a : AttemptRow) : AttemptRow :=
  {| a_evaluation_id := a_evaluation_id a; a_request_id := a_request_id a;
     a_number := a_number a; a_idempotency_key := a_idempotency_key a;
     a_payload := a_payload a; a_state := "leased"; a_node_id := Some node_id;
     a_lease_token := Some lease_token; a_lease_expires_at := Some expiry;
     a_created_at := a_created_at a; a_updated_at := now;
     a_claim_operation := operation_id |}.

Definition set_evaluation_state (state : string) (now : Z) (e : EvaluationRow)
    : EvaluationRow :=
  {| e_request_id := e_request_id e; e_creation_key := e_creation_key e;
     e_problem_version_id := e_problem_version_id e;
     e_submission_id := e_submission_id e; e_runtime_id := e_runtime_id e;
     e_initial_request := e_initial_request e; e_state := state;
     e_current_attempt := e_current_attempt e;
     e_terminal_result := e_terminal_result e; e_result_key := e_result_key e;
     e_created_at := e_created_at e; e_updated_at := now |}.

Definition set_attempt_state (state : string) (now : Z) (a : AttemptRow) : AttemptRow :=
  {| a_evaluation_id := a_evaluation_id a; a_request_id := a_request_id a;
     a_number := a_number a; a_idempotency_key := a_idempotency_key a;
     a_payload := a_payload a; a_state := state; a_node_id := a_node_id a;
     a_lease_token := a_lease_token a; a_lease_expires_at := a_lease_expires_at a;
     a_created_at := a_created_at a; a_updated_at := now;
     a_claim_operation := a_claim_operation a |}.

Definition set_task_state (state : string) (now : Z) (t : TaskRow) : TaskRow :=
  {| t_state := state; t_created_at := t_created_at t; t_updated_at := now;
     t_capabilities := t_capabilities t |}.

(** The transaction of [claim_task_with_capabilities]. *)
Definition claim_transaction (command : ClaimTask) (operation_id : option string)
    (capabilities : option (list string)) (now expiry : Z) (locked : gset string)
    : Sql EvaluationRequest :=
  transaction (
    sql* db := sql_get in
    sql* (attempt_id, _, a) :=
      sql_lift (ok_or StoreError.NoTaskAvailable
                  (first_by queue_key (claimable locked capabilities db))) in
    sql* request := sql_lift (corrupt (decode_evaluation_request (a_payload a))) in
    if negb (String.eqb (id_str (er_attempt_id request)) attempt_id)
       || negb (String.eqb (id_str (er_evaluation_id request)) (a_evaluation_id a))
       || negb (er_attempt_number request =? a_number a)%Z
    then sql_fail StoreError.CorruptData
    else
      exec* sql_exec unavailable (update_attempt attempt_id
              (lease_attempt (id_str (ct_node_id command))
                 (id_str (ct_lease_token command)) expiry operation_id now)) in
      exec* sql_exec unavailable
              (update_evaluation (a_evaluation_id a) (set_evaluation_state "leased" now)) in
      exec* sql_exec unavailable
              (update_task attempt_id (set_task_state "leased" now)) in
      sql_ret request).

Definition invalid_time {E A : Type} (r : result E A) : result StoreError.t A :=
  map_err (fun _ => StoreError.InvalidTime) r.

Definition claim_task_with_capabilities (command : ClaimTask)
    (operation_id : option string) (capabilities : option (list string)) : Op TaskLease :=
  op_try (invalid_time (UnixMillis_checked_add (ct_now command) (ct_lease_duration command)))
    (fun expires_at =>
  op_try (i64_try_from StoreError.InvalidTime (um_value (ct_now command))) (fun now =>
  op_try (i64_try_from StoreError.InvalidTime (um_value expires_at)) (fun expiry =>
  Tx (claim_transaction command operation_id capabilities now expiry) (fun claimed =>
  op_try claimed (fun request =>
    Done (Ok {| tl_request := request;
                tl_node_id := ct_node_id command;
                tl_lease_token := ct_lease_token command;
                tl_expires_at := expires_at |})))))).

Definition claim_task (command : ClaimTask) : Op TaskLease :=
  claim_task_with_capabilities command None None.

(** [u64::try_from] and [UnixMillis::new] of a stored expiry. *)
Definition stored_millis (expires_at : Z) : result StoreError.t UnixMillis :=
  if (0 <=? expires_at)%Z then corrupt (UnixMillis_new expires_at)
  else Err StoreError.CorruptData.

Definition claim_replay_query (command : JudgeClaim) : Sql (option TaskLease) :=
  sql* db := sql_get in
  match select_first
          (fun _ a => bool_decide (a_claim_operation a =
                                   Some (id_str (jc_operation_id command))))
          (attempts db) with
  | None => sql_ret None
  | Some (_, a) =>
      sql* node_id := sql_lift (ok_or StoreError.CorruptData (a_node_id a)) in
      if negb (String.eqb node_id (id_str (jc_node_id command)))
      then sql_fail StoreError.IdempotencyConflict
      else if negb (String.eqb (a_state a) "leased")
      then sql_fail StoreError.LeaseConflict
      else
        sql* lease_token := sql_lift (ok_or StoreError.CorruptData (a_lease_token a)) in
        sql* expires_at := sql_lift (ok_or StoreError.CorruptData (a_lease_expires_at a)) in
        sql* request := sql_lift (corrupt (decode_evaluation_request (a_payload a))) in
        sql* lease_token := sql_lift (corrupt (id_parse lease_token)) in
        sql* expires_at := sql_lift (stored_millis expires_at) in
        sql_ret (Some {| tl_request := request;
                         tl_node_id := jc_node_id command;
                         tl_lease_token := lease_token;
                         tl_expires_at := expires_at |})
  end.

Definition judge_claim_task (command : JudgeClaim) : Op TaskLease :=
  tx (claim_replay_query command) (fun replay =>
    op_try replay (fun replayed =>
      match replayed with
      | Some lease => Done (Ok lease)
      | None =>
          let claim := {| ct_node_id := jc_node_id command;
                          ct_lease_token := jc_lease_token command;
                          ct_now := jc_now command;
                          ct_lease_duration :=
                            lp_lease_duration (jc_lease_policy command) |} in
          claim_task_with_capabilities claim
            (Some (id_str (jc_operation_id command)))
            (Some (map cap_str (jc_declared_capabilities command)))
      end)).

(** ** Renewals *)

Definition renew_attempt (expiry now : Z) (a : AttemptRow) : AttemptRow :=
  {| a_evaluation_id := a_evaluation_id a; a_request_id := a_request_id a;
     a_number := a_number a; a_idempotency_key := a_idempotency_key a;
     a_payload := a_payload a; a_state := a_state a; a_node_id := a_node_id a;
     a_lease_token := a_lease_token a; a_lease_expires_at := Some expiry;
     a_created_at := a_created_at a; a_updated_at := now;
     a_claim_operation := a_claim_operation a |}.

Definition renew_transaction (command : JudgeRenew) (expires_at : UnixMillis)
    (now expiry : Z) : Sql JudgeRenewDirective :=
  transaction (
    sql* db := sql_get in
    sql* (e, a) := sql_lift (ok_or StoreError.NotFound
                      (current_attempt db (id_str (jr_evaluation_id command)))) in
    if String.eqb (e_state e) "cancelled" || String.eqb (a_state a) "cancelled"
    then sql_ret Cancel
    else
      sql* node_id := sql_lift (ok_or StoreError.CorruptData (a_node_id a)) in
      sql* lease_token := sql_lift (ok_or StoreError.CorruptData (a_lease_token a)) in
      if negb (String.eqb (e_state e) "leased")
         || negb (String.eqb (a_state a) "leased")
         || negb (String.eqb (e_current_attempt e) (id_str (jr_attempt_id command)))
         || negb (String.eqb node_id (id_str (jr_node_id command)))
         || negb (String.eqb lease_token (id_str (jr_lease_token command)))
      then sql_fail StoreError.StaleLease
      else
        exec* sql_exec unavailable
                (update_attempt (id_str (jr_attempt_id command))
                   (renew_attempt expiry now)) in
        sql_ret (Continue expires_at)).

Definition judge_renew_lease (command : JudgeRenew) : Op JudgeRenewDirective :=
  op_try (invalid_time (UnixMillis_checked_add (jr_now command)
            (lp_lease_duration (jr_lease_policy command)))) (fun expires_at =>
  op_try (i64_try_from StoreError.InvalidTime (um_value (jr_now command))) (fun now =>
  op_try (i64_try_from StoreError.InvalidTime (um_value expires_at)) (fun expiry =>
    tx (renew_transaction command expires_at now expiry) Done))).

(** ** Retries *)

Definition requeue_evaluation (attempt_id : string) (now : Z) (e : EvaluationRow)
    : EvaluationRow :=
  {| e_request_id := e_request_id e; e_creation_key := e_creation_key e;
     e_problem_version_id := e_problem_version_id e;
     e_submission_id := e_submission_id e; e_runtime_id := e_runtime_id e;
     e_initial_request := e_initial_request e; e_state := "queued";
     e_current_attempt := attempt_id;
     e_terminal_result := e_terminal_result e; e_result_key := e_result_key e;
     e_created_at := e_created_at e; e_updated_at := now |}.

Definition map_retry_insert_error (error : DbError) : StoreError.t :=
  match error with
  | UniqueViolation => StoreError.IdentityConflict
  | OtherDatabaseError => StoreError.Unavailable
  end.

Definition replace_attempt (current_attempt_id : string) (request : EvaluationRequest)
    (payload : bytes) (now : Z) : Sql unit :=
  exec* sql_exec unavailable
          (update_attempt current_attempt_id (set_attempt_state "expired" now)) in
  exec* sql_exec unavailable
          (update_task current_attempt_id (set_task_state "expired" now)) in
  exec* sql_exec unavailable
          (update_evaluation (id_str (er_evaluation_id request))
             (requeue_evaluation (id_str (er_attempt_id request)) now)) in
  exec* sql_exec map_retry_insert_error
          (insert_attempt_row (id_str (er_attempt_id request))
             (queued_attempt request payload (er_attempt_number request) now)) in
  insert_task request now.

Definition same_evaluation_semantics (current retry : EvaluationRequest) : bool :=
  bool_decide (er_evaluation_id current = er_evaluation_id retry) &&
  bool_decide (er_problem_version current = er_problem_version retry) &&
  bool_decide (er_submission current = er_submission retry) &&
  bool_decide (er_runtime current = er_runtime retry) &&
  bool_decide (er_plan current = er_plan retry) &&
  bool_decide (er_policy current = er_policy retry) &&
  bool_decide (er_required_capabilities current = er_required_capabilities retry).

(** The transaction of [retry_expired]; [Some id] replays an earlier retry. *)
Definition retry_transaction (command : RetryExpired) (payload : bytes) (now : Z)
    : Sql (option string) :=
  let request := re_request command in
  transaction (
    sql* db := sql_get in
    match select_first
            (fun _ a => String.eqb (a_idempotency_key a)
                          (key_str (er_idempotency_key request)))
            (attempts db) with
    | Some (_, a) =>
        if negb (String.eqb (a_payload a) payload)
        then sql_fail StoreError.IdempotencyConflict
        else sql_ret (Some (a_evaluation_id a))
    | None =>
        sql* (e, a) := sql_lift (ok_or StoreError.NotFound
                          (current_attempt db (id_str (er_evaluation_id request)))) in
        if negb (String.eqb (e_state e) "leased") || negb (String.eqb (a_state a) "leased")
        then sql_fail StoreError.InvalidTransition
        else
          sql* lease_expires_at :=
            sql_lift (ok_or StoreError.CorruptData (a_lease_expires_at a)) in
          if (now <=? lease_expires_at)%Z then sql_fail StoreError.LeaseConflict
          else if negb (er_attempt_number request =? a_number a + 1)%Z
          then sql_fail StoreError.InvalidTransition
          else
            sql* current_request :=
              sql_lift (corrupt (decode_evaluation_request (a_payload a))) in
            if negb (same_evaluation_semantics current_request request)
            then sql_fail StoreError.IdentityConflict
            else
              exec* replace_attempt (e_current_attempt e) request payload now in
              sql_ret None
    end).

Definition retry_expired (command : RetryExpired) : Op EvaluationSnapshot :=
  op_try (i64_try_from StoreError.InvalidTime (um_value (re_now command))) (fun now =>
  op_try (corrupt (encode_evaluation_request (re_request command))) (fun payload =>
  tx (retry_transaction command payload now) (fun retried =>
  op_try retried (fun replayed =>
    match replayed with
    | Some evaluation_id => status_of_stored evaluation_id
    | None => evaluation_status (er_evaluation_id (re_request command))
    end)))).

(** ** Recovery *)

Definition expired_key (x : string * AttemptRow) : Z * string :=
  (default 0%Z (a_lease_expires_at (snd x)), fst x).

Definition lease_expired (now : Z) (a : AttemptRow) : bool :=
  match a_lease_expires_at a with
  | Some expiry => (expiry <? now)%Z
  | None => false
  end.

(** The attempts the recovery query selects, in no particular order. *)
Definition expired_leases (now : Z) (db : Db) : list (string * AttemptRow) :=
  omap (fun '(_, e) =>
    match attempts db !! e_current_attempt e with
    | None => None
    | Some a =>
        if String.eqb (e_state e) "leased" && String.eqb (a_state a) "leased" &&
           lease_expired now a
        then Some (e_current_attempt e, a) else None
    end) (map_to_list (evaluations db)).

Definition expired_query (now : Z) : Sql (option bytes) :=
  sql* db := sql_get in
  sql_ret (option_map (fun x => a_payload (snd x))
             (first_by expired_key (expired_leases now db))).

(** The draw is the hexadecimal form of 24 random bytes, if entropy is to be
    had. *)
Definition next_attempt_id (draw : option string) : result StoreError.t AttemptId :=
  let* hex := ok_or StoreError.Unavailable draw in
  corrupt (id_parse ("attempt_" +:+ hex)).

Definition next_idempotency_key (draw : option string)
    : result StoreError.t IdempotencyKey :=
  let* hex := ok_or StoreError.Unavailable draw in
  corrupt (IdempotencyKey_parse ("idem_retry_" +:+ hex)).

Definition u32_saturating_add (a b : Z) : Z := Z.min (a + b) u32_max.

(** The [loop] of [recover_expired], bounded by [fuel] iterations. *)
Fixpoint recover_loop (fuel : nat) (now : UnixMillis) (now_ms recovered : Z) : Op Z :=
  match fuel with
  | O => OutOfFuel
  | S fuel' =>
      tx (expired_query now_ms) (fun found =>
      op_try found (fun row =>
        match row with
        | None => Done (Ok recovered)
        | Some payload =>
            op_try (corrupt (decode_evaluation_request payload)) (fun current =>
            Draw (fun draw =>
            op_try (next_attempt_id draw) (fun attempt_id =>
            Draw (fun draw =>
            op_try (next_idempotency_key draw) (fun idempotency_key =>
            op_try (corrupt (EvaluationRequest_with_next_attempt current attempt_id
                               idempotency_key)) (fun next =>
            op_then (retry_expired {| re_request := next; re_now := now |}) (fun retried =>
              match retried with
              | Ok _ => recover_loop fuel' now now_ms (u32_saturating_add recovered 1)
              | Err (StoreError.LeaseConflict | StoreError.InvalidTransition
                    | StoreError.IdentityConflict | StoreError.NotFound) =>
                  recover_loop fuel' now now_ms recovered
              | Err error => Done (Err error)
              end)))))))
        end))
  end.

Definition recover_expired (fuel : nat) (now : UnixMillis) : Op Z :=
  op_try (i64_try_from StoreError.InvalidTime (um_value now)) (fun now_ms =>
    recover_loop fuel now now_ms 0).

(** ** Terminal writes *)

Record TerminalWrite : Type := MkTerminalWrite {
  tw_evaluation_id : string;
  tw_attempt_id : string;
  tw_state : string;
  tw_task_state : string;
  tw_payload : bytes;
  tw_idempotency_key : string;
  tw_now : Z
}.

Definition finish_evaluation (write : TerminalWrite) (e : EvaluationRow) : EvaluationRow :=
  {| e_request_id := e_request_id e; e_creation_key := e_creation_key e;
     e_problem_version_id := e_problem_version_id e;
     e_submission_id := e_submission_id e; e_runtime_id := e_runtime_id e;
     e_initial_request := e_initial_request e; e_state := tw_state write;
     e_current_attempt := e_current_attempt e;
     e_terminal_result := Some (tw_payload write);
     e_result_key := Some (tw_idempotency_key write);
     e_created_at := e_created_at e; e_updated_at := tw_now write |}.

Definition map_terminal_error (error : DbError) : StoreError.t :=
  match error with
  | UniqueViolation => StoreError.IdempotencyConflict
  | OtherDatabaseError => StoreError.Unavailable
  end.

Definition write_terminal (write : TerminalWrite) : Sql unit :=
  exec* sql_exec map_terminal_error
          (update_evaluation (tw_evaluation_id write) (finish_evaluation write)) in
  exec* sql_exec unavailable
          (update_attempt (tw_attempt_id write)
             (set_attempt_state (tw_state write) (tw_now write))) in
  sql_exec unavailable
    (update_task (tw_attempt_id write)
       (set_task_state (tw_task_state write) (tw_now write))).

Definition submit_transaction (command : SubmitResult) (payload : bytes) (now : Z)
    : Sql unit :=
  let identity := res_identity (sr_result command) in
  transaction (
    sql* db := sql_get in
    sql* (e, a) := sql_lift (ok_or StoreError.NotFound
                      (current_attempt db (id_str (ei_evaluation_id identity)))) in
    match e_terminal_result e with
    | Some stored_result =>
        if bool_decide (e_result_key e = Some (key_str (sr_idempotency_key command)))
        then
          if negb (String.eqb stored_result payload)
          then sql_fail StoreError.IdempotencyConflict
          else sql_ret tt
        else sql_fail StoreError.TerminalConflict
    | None =>
        if negb (String.eqb (e_state e) "leased")
           || negb (String.eqb (a_state a) "leased")
           || negb (String.eqb (e_current_attempt e) (id_str (ei_attempt_id identity)))
        then sql_fail StoreError.StaleLease
        else
          sql* stored_lease_token :=
            sql_lift (ok_or StoreError.CorruptData (a_lease_token a)) in
          if negb (String.eqb stored_lease_token (id_str (sr_lease_token command)))
          then sql_fail StoreError.StaleLease
          else
            sql* lease_expires_at :=
              sql_lift (ok_or StoreError.CorruptData (a_lease_expires_at a)) in
            if (lease_expires_at <? now)%Z then sql_fail StoreError.StaleLease
            else
              sql* request := sql_lift (corrupt (decode_evaluation_request (a_payload a))) in
              if negb (bool_decide (EvaluationIdentity_from_request request = identity))
              then sql_fail StoreError.IdentityConflict
              else
                write_terminal
                  {| tw_evaluation_id := id_str (ei_evaluation_id identity);
                     tw_attempt_id := id_str (ei_attempt_id identity);
                     tw_state := EvaluationStatus.as_str (res_status (sr_result command));
                     tw_task_state :=
                       if bool_decide (res_status (sr_result command)
                                       = EvaluationStatus.Cancelled)
                       then "cancelled" else "completed";
                     tw_payload := payload;
                     tw_idempotency_key := key_str (sr_idempotency_key command);
                     tw_now := now |}
    end).

Definition submit_result (command : SubmitResult) : Op EvaluationSnapshot :=
  op_try (corrupt (encode_evaluation_result (sr_result command))) (fun payload =>
  op_try (i64_try_from StoreError.InvalidTime (um_value (sr_now command))) (fun now =>
  tx (submit_transaction command payload now) (fun submitted =>
  op_try submitted (fun _ =>
    evaluation_status (ei_evaluation_id (res_identity (sr_result command))))))).

(** The owner query of [judge_submit_result] decodes [node_id] into a
    non-optional string: a NULL is a decode error, mapped like a lost
    connection. *)
Definition owner_query (evaluation_id : EvaluationId) : Sql (option string) :=
  sql* db := sql_get in
  match current_attempt db (id_str evaluation_id) with
  | None => sql_ret None
  | Some (_, a) =>
      sql* node_id := sql_lift (ok_or StoreError.Unavailable (a_node_id a)) in
      sql_ret (Some node_id)
  end.

Definition judge_submit_result (command : JudgeSubmitResult) : Op EvaluationSnapshot :=
  if negb (bool_decide (pr_node_id (res_provenance (js_result command))
                        = Some (js_node_id command)))
  then Done (Err StoreError.IdentityConflict)
  else
    tx (owner_query (ei_evaluation_id (res_identity (js_result command)))) (fun owned =>
    op_try owned (fun owner =>
      if negb (bool_decide (owner = Some (id_str (js_node_id command))))
      then Done (Err StoreError.StaleLease)
      else
        op_try (corrupt (IdempotencyKey_parse (id_str (js_operation_id command))))
          (fun idempotency_key =>
        submit_result {| sr_idempotency_key := idempotency_key;
                         sr_lease_token := js_lease_token command;
                         sr_result := js_result command;
                         sr_now := js_now command |}))).

Definition cancel_transaction (command : CancelEvaluation) (payload : bytes) (now : Z)
    : Sql unit :=
  let identity := res_identity (cc_result command) in
  transaction (
    sql* db := sql_get in
    sql* (e, a) := sql_lift (ok_or StoreError.NotFound
                      (current_attempt db (id_str (cc_evaluation_id command)))) in
    match e_terminal_result e with
    | Some stored_result =>
        if bool_decide (e_result_key e = Some (key_str (cc_idempotency_key command)))
        then
          if negb (String.eqb stored_result payload)
          then sql_fail StoreError.IdempotencyConflict
          else sql_ret tt
        else sql_fail StoreError.TerminalConflict
    | None =>
        if negb (one_of_strings ["queued"; "leased"] (e_state e))
           || negb (one_of_strings ["queued"; "leased"] (a_state a))
        then sql_fail StoreError.InvalidTransition
        else if negb (String.eqb (e_current_attempt e) (id_str (ei_attempt_id identity)))
        then sql_fail StoreError.IdentityConflict
        else
          sql* request := sql_lift (corrupt (decode_evaluation_request (a_payload a))) in
          if negb (bool_decide (EvaluationIdentity_from_request request = identity))
          then sql_fail StoreError.IdentityConflict
          else
            write_terminal
              {| tw_evaluation_id := id_str (cc_evaluation_id command);
                 tw_attempt_id := e_current_attempt e;
                 tw_state := "cancelled";
                 tw_task_state := "cancelled";
                 tw_payload := payload;
                 tw_idempotency_key := key_str (cc_idempotency_key command);
                 tw_now := now |}
    end).

Definition cancel_evaluation (command : CancelEvaluation) : Op EvaluationSnapshot :=
  if negb (bool_decide (res_status (cc_result command) = EvaluationStatus.Cancelled))
     || negb (bool_decide (ei_evaluation_id (res_identity (cc_result command))
                           = cc_evaluation_id command))
  then Done (Err StoreError.IdentityConflict)
  else
    op_try (corrupt (encode_evaluation_result (cc_result command))) (fun payload =>
    op_try (i64_try_from StoreError.InvalidTime (um_value (cc_now command))) (fun now =>
    tx (cancel_transaction command payload now) (fun cancelled =>
    op_try cancelled (fun _ => evaluation_status (cc_evaluation_id command))))).
End Lease.

(** ** [migration.rs] and the pool size *)

Definition SUPPORTED_SCHEMA_VERSION : Z := 2.

(** [check_compatibility], given the [schema_version] row if there is one. *)
Definition check_compatibility (version : option Z) : result StoreError.t unit :=
  if bool_decide (version = Some SUPPORTED_SCHEMA_VERSION) then Ok tt
  else Err StoreError.IncompatibleSchema.

Definition MAX_DATABASE_POOL_SIZE : Z := 64.

Definition DatabasePoolSize_new (value : Z) : option Z :=
  if in_range 1 MAX_DATABASE_POOL_SIZE value then Some value else None.
