(* ===== verification/StoreLemmas.v ===== *)
(** * Reasoning about transactions

    Inversion and introduction lemmas of the SQL monad, the statements and the
    queries of [Schema] and [Store]: what a statement that succeeded did, when a
    unique check passes, what a query returned. *)

From S2P Require Import Prelude Value Control Evaluation EvalResult Codec Policy Schema Store.

(** ** The monad *)

Lemma sql_bind_Ok {A B} (m : Sql A) (k : A -> Sql B) db b db2 :
  sql_bind m k db = Ok (b, db2) <->
  exists a db1, m db = Ok (a, db1) /\ k a db1 = Ok (b, db2).
Proof.
  unfold sql_bind. destruct (m db) as [[a db1]|e].
  - split; [eauto | by intros (? & ? & [= <- <-] & ?)].
  - split; [done | by intros (? & ? & ? & ?)].
Qed.

Lemma sql_lift_Ok {A} (r : result StoreError.t A) db a db1 :
  sql_lift r db = Ok (a, db1) <-> r = Ok a /\ db1 = db.
Proof. unfold sql_lift. destruct r; split; naive_solver. Qed.

Lemma sql_ret_Ok {A} (x : A) db a db1 : sql_ret x db = Ok (a, db1) <-> a = x /\ db1 = db.
Proof. unfold sql_ret. split; [by intros [= -> ->] | by intros [-> ->]]. Qed.

Lemma sql_get_Ok db x db1 : sql_get db = Ok (x, db1) <-> x = db /\ db1 = db.
Proof. unfold sql_get. split; [by intros [= -> ->] | by intros [-> ->]]. Qed.

Lemma sql_exec_Ok map stmt db u db1 :
  sql_exec map stmt db = Ok (u, db1) <-> stmt db = Ok db1.
Proof. unfold sql_exec. destruct (stmt db), u; naive_solver. Qed.

Lemma transaction_Ok {A} (body : Sql A) db a db1 :
  transaction body db = Ok (a, db1) <->
  body db = Ok (a, db1) /\ commit_check db1 = Ok tt.
Proof.
  unfold transaction. rewrite sql_bind_Ok. split.
  - intros (a' & db' & Hb & H). unfold sql_bind, sql_get, sql_lift, sql_ret in H.
    destruct (commit_check db') as [[]|e] eqn:Hc; simpl in H; [|done].
    injection H as -> ->. done.
  - intros [Hb Hc]. exists a, db1. split; [done|].
    unfold sql_bind, sql_get, sql_lift, sql_ret. by rewrite Hc.
Qed.

(** A body that only reads commits, given the deferred constraint holds. *)
Lemma transaction_Err {A} (body : Sql A) db e :
  body db = Err e -> transaction body db = Err e.
Proof. unfold transaction, sql_bind. by intros ->. Qed.

(** [inv_sql] runs a successful transaction forward. *)
Ltac inv_sql_step :=
  match goal with
  | H : transaction _ _ = Ok _ |- _ => apply transaction_Ok in H; destruct H as [H ?]
  | H : sql_bind sql_get _ _ = Ok _ |- _ =>
      apply sql_bind_Ok in H; destruct H as (? & ? & [-> ->]%sql_get_Ok & H)
  | H : sql_bind (sql_exec _ _) _ _ = Ok _ |- _ =>
      apply sql_bind_Ok in H;
      let Hs := fresh "Hstmt" in destruct H as (? & ? & Hs%sql_exec_Ok & H)
  | H : sql_bind (sql_lift _) _ _ = Ok _ |- _ =>
      apply sql_bind_Ok in H;
      let Hl := fresh "Hlift" in destruct H as (? & ? & [Hl ->]%sql_lift_Ok & H)
  | H : sql_bind _ _ _ = Ok _ |- _ =>
      apply sql_bind_Ok in H; destruct H as (? & ? & ? & H)
  | H : sql_exec _ _ _ = Ok _ |- _ => apply sql_exec_Ok in H
  | H : sql_ret _ _ = Ok _ |- _ => apply sql_ret_Ok in H; destruct H as [-> ->]
  | H : sql_lift _ _ = Ok _ |- _ => apply sql_lift_Ok in H; destruct H as [H ->]
  | H : sql_fail _ _ = Ok _ |- _ => discriminate H
  | H : corrupt _ = Ok _ |- _ => apply map_err_Ok_inv in H
  | H : ok_or _ _ = Ok _ |- _ => apply ok_or_Ok_inv in H
  | H : (if ?c then _ else _) _ = Ok _ |- _ =>
      let Hc := fresh "Hcond" in destruct c eqn:Hc
  end.
Ltac inv_sql := repeat inv_sql_step.

(** Negated string comparisons of the code's guards. *)
Ltac split_eqs :=
  repeat match goal with
  | H : (_ || _)%bool = false |- _ => apply orb_false_iff in H; destruct H
  | H : (_ && _)%bool = true |- _ => apply andb_true_iff in H; destruct H
  | H : negb _ = false |- _ => apply negb_false_iff in H
  | H : negb _ = true |- _ => apply negb_true_iff in H
  | H : String.eqb _ _ = true |- _ => apply String.eqb_eq in H
  | H : String.eqb _ _ = false |- _ => apply String.eqb_neq in H
  | H : (_ =? _)%Z = true |- _ => apply Z.eqb_eq in H
  | H : (_ <? _)%Z = true |- _ => apply Z.ltb_lt in H
  | H : (_ <? _)%Z = false |- _ => apply Z.ltb_ge in H
  | H : (_ <=? _)%Z = true |- _ => apply Z.leb_le in H
  | H : (_ <=? _)%Z = false |- _ => apply Z.leb_gt in H
  | H : bool_decide _ = true |- _ => apply bool_decide_eq_true in H
  | H : bool_decide _ = false |- _ => apply bool_decide_eq_false in H
  end.

(** ** Tables *)

Lemma has_key_true {R} (m : gmap string R) id :
  has_key m id = true <-> exists r, m !! id = Some r.
Proof. unfold has_key. destruct (m !! id); naive_solver. Qed.

Lemma has_key_false {R} (m : gmap string R) id : has_key m id = false <-> m !! id = None.
Proof. unfold has_key. destruct (m !! id); naive_solver. Qed.

Lemma guard_Ok e b u : guard e b = Ok u <-> b = true.
Proof. unfold guard. destruct b, u; naive_solver. Qed.

Lemma conflicts_false {R} (m : gmap string R) id (P : R -> bool) :
  conflicts m id P = false <-> forall j r, m !! j = Some r -> j <> id -> P r = false.
Proof.
  unfold conflicts. rewrite existsb_false, Forall_forall. split.
  - intros H j r Hj Hne. specialize (H (j, r)). rewrite elem_of_map_to_list in H.
    specialize (H Hj). simpl in H. by rewrite bool_decide_false in H by done.
  - intros H [j r] Hjr. rewrite elem_of_map_to_list in Hjr. simpl.
    destruct (decide (j = id)) as [->|Hne]; [by rewrite bool_decide_true|].
    rewrite (H j r) by done. by rewrite andb_false_r.
Qed.

(** A column, or an optional key of several columns, is unique in a table. *)
Definition UniqueBy {R K : Type} (key : R -> option K) (m : gmap string R) : Prop :=
  forall i j x y k, m !! i = Some x -> m !! j = Some y ->
    key x = Some k -> key y = Some k -> i = j.

Lemma UniqueBy_empty {R K} (key : R -> option K) : UniqueBy key ∅.
Proof. intros i j x y k H. by rewrite lookup_empty in H. Qed.

Lemma UniqueBy_insert {R K} (key : R -> option K) (m : gmap string R) id r :
  UniqueBy key m ->
  (forall j r' k, m !! j = Some r' -> j <> id -> key r' = Some k -> key r <> Some k) ->
  UniqueBy key (<[id := r]> m).
Proof.
  intros Hu Hr i j x y k Hi Hj Hx Hy.
  apply lookup_insert_Some in Hi as [[<- <-]|[Hni Hi]];
    apply lookup_insert_Some in Hj as [[<- <-]|[Hnj Hj]]; [done| | |].
  - by destruct (Hr j y k Hj ltac:(congruence) Hy).
  - by destruct (Hr i x k Hi ltac:(congruence) Hx).
  - by eapply Hu.
Qed.

Lemma same_some_false {A} `{EqDecision A} (a b : option A) k :
  same_some a b = false -> a = Some k -> b <> Some k.
Proof.
  unfold same_some. intros H -> Hb. subst b. by rewrite bool_decide_true in H.
Qed.

Lemma and_iff_compat (A A' B B' : Prop) :
  (A <-> A') -> (B <-> B') -> (A /\ B <-> A' /\ B').
Proof. tauto. Qed.

(** The unique keys of the two tables that have more than a primary key. *)
Definition creation_key (e : EvaluationRow) : option string := Some (e_creation_key e).
Definition attempt_key (a : AttemptRow) : option string := Some (a_idempotency_key a).
Definition attempt_ordinal (a : AttemptRow) : option (string * Z) :=
  Some (a_evaluation_id a, a_number a).
Definition claim_key (a : AttemptRow) : option (string * string) :=
  n ← a_node_id a; c ← a_claim_operation a; Some (n, c).

Lemma evaluation_conflict_false m id r :
  evaluation_conflict m id r = false <->
  (forall j r', m !! j = Some r' -> j <> id -> e_creation_key r' <> e_creation_key r) /\
  (forall j r' k, m !! j = Some r' -> j <> id ->
     e_result_key r' = Some k -> e_result_key r <> Some k).
Proof.
  unfold evaluation_conflict. rewrite orb_false_iff, !conflicts_false.
  apply and_iff_compat; split; intros H j r'.
  - intros Hj Hne. by apply String.eqb_neq, H with j.
  - intros Hj Hne. by apply String.eqb_neq, H with j.
  - intros k Hj Hne Hk. eapply same_some_false; [by apply (H j)|done].
  - intros Hj Hne. specialize (H j r'). unfold same_some.
    destruct (e_result_key r') as [k|]; [|done]. destruct (e_result_key r) as [k'|]; [|done].
    apply bool_decide_eq_false. intros ->. by destruct (H k' Hj Hne eq_refl).
Qed.

Lemma attempt_conflict_false m id r :
  attempt_conflict m id r = false <->
  (forall j r', m !! j = Some r' -> j <> id -> a_idempotency_key r' <> a_idempotency_key r) /\
  (forall j r', m !! j = Some r' -> j <> id ->
     (a_evaluation_id r', a_number r') <> (a_evaluation_id r, a_number r)) /\
  (forall j r' k, m !! j = Some r' -> j <> id -> claim_key r' = Some k ->
     claim_key r <> Some k).
Proof.
  unfold attempt_conflict. rewrite !orb_false_iff, !conflicts_false, Logic.and_assoc.
  apply and_iff_compat; [|apply and_iff_compat]; split; intros H j r'.
  - intros Hj Hne. by apply String.eqb_neq, H with j.
  - intros Hj Hne. by apply String.eqb_neq, H with j.
  - intros Hj Hne [= He Hn]. specialize (H j r' Hj Hne).
    by rewrite He, Hn, String.eqb_refl, Z.eqb_refl in H.
  - intros Hj Hne. specialize (H j r' Hj Hne).
    destruct (String.eqb_spec (a_evaluation_id r') (a_evaluation_id r)) as [He|]; [|done].
    destruct (Z.eqb_spec (a_number r') (a_number r)) as [Hn|]; [|done].
    destruct H. congruence.
  - intros k Hj Hne. specialize (H j r' Hj Hne). unfold claim_key.
    destruct (a_node_id r') as [n|], (a_claim_operation r') as [c|]; try done.
    intros [= <-]. destruct (a_node_id r) as [n'|], (a_claim_operation r) as [c'|]; try done.
    simpl in *. intros [= -> ->]. by rewrite !bool_decide_true in H.
  - intros Hj Hne. specialize (H j r'). unfold claim_key, same_some in *.
    destruct (a_node_id r') as [n|], (a_claim_operation r') as [c|]; try done;
      try by rewrite andb_false_r.
    destruct (a_node_id r) as [n'|], (a_claim_operation r) as [c'|]; try done;
      try by rewrite andb_false_r.
    apply andb_false_iff. simpl in H. destruct (decide (n = n')) as [->|]; [|by left; case_bool_decide].
    destruct (decide (c = c')) as [->|]; [|by right; case_bool_decide].
    by destruct (H (n', c') Hj Hne eq_refl).
Qed.

(** ** Statements that succeed *)

Ltac inv_stmt :=
  repeat first
    [ progress inv_ok
    | match goal with H : guard _ _ = Ok ?u |- _ => destruct u; apply guard_Ok in H end ].

Lemma insert_evaluation_Ok id r db db' :
  insert_evaluation_row id r db = Ok db' <->
  evaluation_check id r = true /\ evaluations db !! id = None /\
  evaluation_conflict (evaluations db) id r = false /\
  (has_key (problem_versions db) (e_problem_version_id r) = true /\
   has_key (submissions db) (e_submission_id r) = true /\
   has_key (runtimes db) (e_runtime_id r) = true) /\
  db' = set_evaluations db (<[id := r]> (evaluations db)).
Proof.
  unfold insert_evaluation_row. split.
  - intros H. inv_stmt. split_eqs. rewrite ?has_key_false in *. by split_and!.
  - intros (-> & Hn & -> & (-> & -> & ->) & ->). simpl. apply has_key_false in Hn. by rewrite Hn.
Qed.

Lemma insert_attempt_Ok id r db db' :
  insert_attempt_row id r db = Ok db' <->
  attempt_check id r = true /\ attempts db !! id = None /\
  attempt_conflict (attempts db) id r = false /\
  has_key (evaluations db) (a_evaluation_id r) = true /\
  db' = set_attempts db (<[id := r]> (attempts db)).
Proof.
  unfold insert_attempt_row. split.
  - intros H. inv_stmt. split_eqs. rewrite ?has_key_false in *. by split_and!.
  - intros (-> & Hn & -> & -> & ->). simpl. apply has_key_false in Hn. by rewrite Hn.
Qed.

Section Statements.
Context `{Collation}.

Lemma insert_task_Ok id r db db' :
  insert_task_row id r db = Ok db' <->
  task_check id r = true /\ tasks db !! id = None /\ has_key (attempts db) id = true /\
  db' = set_tasks db (<[id := r]> (tasks db)).
Proof.
  unfold insert_task_row. split.
  - intros Hs. inv_stmt. split_eqs. rewrite ?has_key_false in *. by split_and!.
  - intros (-> & Hn & -> & ->). simpl. apply has_key_false in Hn. by rewrite Hn.
Qed.

Lemma update_task_Ok id f db t db' :
  tasks db !! id = Some t ->
  (update_task id f db = Ok db' <->
   task_check id (f t) = true /\ db' = set_tasks db (<[id := f t]> (tasks db))).
Proof.
  intros Ht. unfold update_task. rewrite Ht. split.
  - intros Hs. by inv_stmt.
  - by intros [-> ->].
Qed.
End Statements.

Lemma update_evaluation_Ok id f db e db' :
  evaluations db !! id = Some e ->
  (update_evaluation id f db = Ok db' <->
   evaluation_check id (f e) = true /\
   evaluation_conflict (evaluations db) id (f e) = false /\
   db' = set_evaluations db (<[id := f e]> (evaluations db))).
Proof.
  intros He. unfold update_evaluation. rewrite He. split.
  - intros H. inv_stmt. split_eqs. by split_and!.
  - by intros (-> & -> & ->).
Qed.

Lemma update_attempt_Ok id f db a db' :
  attempts db !! id = Some a ->
  (update_attempt id f db = Ok db' <->
   attempt_check id (f a) = true /\
   attempt_conflict (attempts db) id (f a) = false /\
   db' = set_attempts db (<[id := f a]> (attempts db))).
Proof.
  intros Ha. unfold update_attempt. rewrite Ha. split.
  - intros H. inv_stmt. split_eqs. by split_and!.
  - by intros (-> & -> & ->).
Qed.

Lemma commit_check_Ok db :
  commit_check db = Ok tt <->
  forall eid e, evaluations db !! eid = Some e -> exists a, attempts db !! e_current_attempt e = Some a.
Proof.
  unfold commit_check. rewrite guard_Ok, forallb_forall. split.
  - intros H eid e He. apply has_key_true, (H (eid, e)).
    by apply list_elem_of_In, elem_of_map_to_list.
  - intros H [eid e] Hin. apply has_key_true. simpl.
    by apply list_elem_of_In, elem_of_map_to_list, H in Hin.
Qed.

(** ** Queries *)

Lemma select_first_Some {R} (P : string -> R -> bool) (m : gmap string R) id r :
  select_first P m = Some (id, r) -> m !! id = Some r /\ P id r = true.
Proof.
  unfold select_first. intros H. apply find_some in H as [Hin HP].
  by apply list_elem_of_In, elem_of_map_to_list in Hin.
Qed.

Lemma select_first_None {R} (P : string -> R -> bool) (m : gmap string R) :
  select_first P m = None <-> forall id r, m !! id = Some r -> P id r = false.
Proof.
  unfold select_first. split.
  - intros H id r Hr. apply (find_none _ _ H (id, r)).
    by apply list_elem_of_In, elem_of_map_to_list.
  - intros H. destruct (find _ _) as [[id r]|] eqn:E; [|done].
    apply find_some in E as [Hin HP]. apply list_elem_of_In, elem_of_map_to_list in Hin.
    simpl in HP. by rewrite H in HP.
Qed.

(** A query on a unique column returns its only row. *)
Lemma select_first_unique {R} (P : string -> R -> bool) (m : gmap string R) id r :
  m !! id = Some r -> P id r = true ->
  (forall j r', m !! j = Some r' -> P j r' = true -> j = id) ->
  select_first P m = Some (id, r).
Proof.
  intros Hr HP Hu. destruct (select_first P m) as [[j r']|] eqn:E.
  - apply select_first_Some in E as [Hj HPj]. rewrite (Hu j r' Hj HPj) in Hj |- *. congruence.
  - pose proof (proj1 (select_first_None P m) E id r Hr). congruence.
Qed.

Section Order.
Context `{Collation}.

Lemma order_leb_total x y : order_leb x y = true \/ order_leb y x = true.
Proof.
  unfold order_leb. destruct (Z.lt_trichotomy (fst x) (fst y)) as [Hl|[He|Hg]].
  - left. by rewrite (proj2 (Z.ltb_lt _ _) Hl).
  - rewrite He, Z.eqb_refl. destruct (text_leb_total (snd x) (snd y)) as [-> | ->];
      rewrite !orb_true_r; auto.
  - right. by rewrite (proj2 (Z.ltb_lt _ _) Hg).
Qed.

Lemma order_leb_refl x : order_leb x x = true.
Proof. by destruct (order_leb_total x x). Qed.

Lemma order_leb_trans x y z :
  order_leb x y = true -> order_leb y z = true -> order_leb x z = true.
Proof.
  unfold order_leb. rewrite !orb_true_iff, !andb_true_iff, !Z.ltb_lt, !Z.eqb_eq.
  intros [Hl|[He Ht]] [Hl'|[He' Ht']]; [left; lia|left; lia|left; lia|].
  right. split; [lia|]. by eapply text_leb_trans.
Qed.

Lemma first_by_None {R} (key : R -> Z * string) l : first_by key l = None <-> l = [].
Proof.
  destruct l as [|r l]; simpl; [done|]. split; [|done].
  destruct (first_by key l); [by destruct (order_leb _ _)|done].
Qed.

Lemma first_by_Some {R} (key : R -> Z * string) l r :
  first_by key l = Some r ->
  r ∈ l /\ forall x, x ∈ l -> order_leb (key r) (key x) = true.
Proof.
  revert r; induction l as [|y l IH]; simpl; intros r; [done|].
  destruct (first_by key l) as [r'|] eqn:E.
  - destruct (IH r' eq_refl) as [Hin Hmin]. destruct (order_leb (key y) (key r')) eqn:Ho.
    + intros [= ->]. split; [left|]. intros x [->|Hx]%elem_of_cons; [apply order_leb_refl|].
      eapply order_leb_trans; [done | by apply Hmin].
    + intros [= ->]. split; [by right|]. intros x [->|Hx]%elem_of_cons; [|by apply Hmin].
      destruct (order_leb_total (key r) (key y)); congruence.
  - intros [= ->]. apply first_by_None in E as ->. split; [left|].
    intros x ->%list_elem_of_singleton. apply order_leb_refl.
Qed.
End Order.
