(* ===== verification/StoreInv.v ===== *)
(** * The invariant of the evaluation store

    [Inv] is what every reachable state of the tables satisfies: the schema's own
    constraints, and above them the correspondence of an evaluation with its
    current attempt and task that the code relies on without the schema stating
    it. [Evolves] is what one committed transaction may do to the rows: nothing
    disappears, terminal rows are frozen, and states move along
    [EvaluationState.transition_to] and [AttemptState.transition_to]. *)

From S2P Require Import Prelude Value Control Evaluation EvalResult Codec Policy Schema Store Lease StoreLemmas.

(** ** Row relations *)

Definition terminal_states : list string := ["completed"; "failed"; "cancelled"].

(** The task state that goes with an attempt state. *)
Definition task_state_of (s : string) : string :=
  if String.eqb s "queued" then "ready"
  else if String.eqb s "leased" then "leased"
  else if String.eqb s "completed" || String.eqb s "failed" then "completed"
  else if String.eqb s "cancelled" then "cancelled"
  else "expired".

(** The lease columns an attempt has in each state. *)
Definition lease_columns (a : AttemptRow) : Prop :=
  (a_state a = "queued" ->
     a_node_id a = None /\ a_lease_token a = None /\ a_lease_expires_at a = None /\
     a_claim_operation a = None) /\
  (a_state a = "leased" ->
     exists node token expiry, a_node_id a = Some node /\ a_lease_token a = Some token /\
       a_lease_expires_at a = Some expiry /\ (a_created_at a <= expiry)%Z).

Definition attempt_task (a : AttemptRow) (t : TaskRow) : Prop :=
  t_state t = task_state_of (a_state a) /\ t_created_at t = a_created_at a /\
  lease_columns a.

Definition evaluation_current (eid : string) (e : EvaluationRow) (a : AttemptRow) : Prop :=
  a_evaluation_id a = eid /\ a_state a = e_state e /\ e_state e <> "expired" /\
  (e_created_at e <= a_created_at a)%Z /\
  (e_terminal_result e <> None <-> e_state e ∈ terminal_states).

Section Payload.
Context `{RequestCodec}.

(** The stored document is the request of its attempt. *)
Definition payload_ok (aid : string) (a : AttemptRow) (t : TaskRow) : Prop :=
  exists r, decode_evaluation_request (a_payload a) = Ok r /\ valid r /\
    id_str (er_attempt_id r) = aid /\ id_str (er_evaluation_id r) = a_evaluation_id a /\
    er_attempt_number r = a_number a /\
    key_str (er_idempotency_key r) = a_idempotency_key a /\
    t_capabilities t = map cap_str (er_required_capabilities r).
End Payload.

(** ** The invariant *)

Section Invariant.
Context `{Collation, RequestCodec}.

Record Inv (db : Db) : Prop := {
  inv_evaluation_check :
    forall eid e, evaluations db !! eid = Some e -> evaluation_check eid e = true;
  inv_attempt_check :
    forall aid a, attempts db !! aid = Some a -> attempt_check aid a = true;
  inv_task_check :
    forall aid t, tasks db !! aid = Some t -> task_check aid t = true;
  inv_creation_unique : UniqueBy creation_key (evaluations db);
  inv_result_unique : UniqueBy e_result_key (evaluations db);
  inv_attempt_unique : UniqueBy attempt_key (attempts db);
  inv_ordinal_unique : UniqueBy attempt_ordinal (attempts db);
  inv_claim_unique : UniqueBy claim_key (attempts db);
  inv_references :
    forall eid e, evaluations db !! eid = Some e ->
      has_key (problem_versions db) (e_problem_version_id e) = true /\
      has_key (submissions db) (e_submission_id e) = true /\
      has_key (runtimes db) (e_runtime_id e) = true;
  inv_current :
    forall eid e, evaluations db !! eid = Some e ->
      exists a, attempts db !! e_current_attempt e = Some a /\ evaluation_current eid e a;
  inv_attempt :
    forall aid a, attempts db !! aid = Some a ->
      exists e t, evaluations db !! a_evaluation_id a = Some e /\
        tasks db !! aid = Some t /\ attempt_task a t /\ payload_ok aid a t /\
        (aid <> e_current_attempt e ->
           a_state a = "expired" /\
           exists c, attempts db !! e_current_attempt e = Some c /\
             (a_number a < a_number c)%Z);
  inv_tasks :
    forall aid t, tasks db !! aid = Some t -> exists a, attempts db !! aid = Some a
}.

Lemma Inv_empty : Inv empty_db.
Proof.
  split; simpl; try (intros ? ? Hl; by rewrite lookup_empty in Hl); apply UniqueBy_empty.
Qed.

(** The foreign keys of the schema, the deferred one included. *)
Lemma Inv_commit db : Inv db -> commit_check db = Ok tt.
Proof.
  intros Hi. apply commit_check_Ok. intros eid e He.
  destruct (inv_current db Hi eid e He) as (a & Ha & _). eauto.
Qed.

(** A current attempt determines its evaluation. *)
Lemma Inv_current_inj db eid e aid a :
  Inv db -> attempts db !! aid = Some a -> evaluations db !! eid = Some e ->
  e_current_attempt e = aid -> a_evaluation_id a = eid.
Proof.
  intros Hi Ha He <-. destruct (inv_current db Hi eid e He) as (a' & Ha' & Hc & _).
  congruence.
Qed.

(** Everything the invariant says of an evaluation at once. *)
Lemma Inv_bundle db eid e :
  Inv db -> evaluations db !! eid = Some e ->
  exists a t, attempts db !! e_current_attempt e = Some a /\
    tasks db !! e_current_attempt e = Some t /\ evaluation_current eid e a /\
    attempt_task a t /\ payload_ok (e_current_attempt e) a t.
Proof.
  intros Hi He. destruct (inv_current db Hi eid e He) as (a & Ha & Hc).
  destruct (inv_attempt db Hi _ a Ha) as (e' & t & He' & Ht & Hat & Hp & _). by exists a, t.
Qed.

Lemma Inv_current_attempt db eid e a :
  Inv db -> current_attempt db eid = Some (e, a) ->
  evaluations db !! eid = Some e /\ attempts db !! e_current_attempt e = Some a /\
  evaluation_current eid e a /\
  exists t, tasks db !! e_current_attempt e = Some t /\ attempt_task a t /\
    payload_ok (e_current_attempt e) a t.
Proof.
  unfold current_attempt. intros Hi Hc. destruct (evaluations db !! eid) as [e'|] eqn:He; [|done].
  destruct (attempts db !! e_current_attempt e') as [a'|] eqn:Ha; [|done].
  injection Hc as -> ->. destruct (Inv_bundle db eid e Hi He) as (a' & t & Ha' & Ht & Hx).
  assert (a' = a) as -> by congruence. split_and!; try done; [apply Hx|]. exists t. tauto.
Qed.
End Invariant.

(** ** What a committed transaction may do *)

Definition state_moves {T : Type} (as_str : T -> string) (can_step : T -> T -> bool)
    (s s' : string) : Prop :=
  s = s' \/ exists x y, s = as_str x /\ s' = as_str y /\ can_step x y = true.

Definition evaluation_moves := state_moves EvaluationState.as_str EvaluationState.can_step.
Definition attempt_moves := state_moves AttemptState.as_str AttemptState.can_step.

(** The columns no statement of the store writes. *)
Definition evaluation_frame (e e' : EvaluationRow) : Prop :=
  e_request_id e' = e_request_id e /\ e_creation_key e' = e_creation_key e /\
  e_problem_version_id e' = e_problem_version_id e /\
  e_submission_id e' = e_submission_id e /\ e_runtime_id e' = e_runtime_id e /\
  e_initial_request e' = e_initial_request e /\ e_created_at e' = e_created_at e.

Definition attempt_frame (a a' : AttemptRow) : Prop :=
  a_evaluation_id a' = a_evaluation_id a /\ a_request_id a' = a_request_id a /\
  a_number a' = a_number a /\ a_idempotency_key a' = a_idempotency_key a /\
  a_payload a' = a_payload a /\ a_created_at a' = a_created_at a.

Record evaluation_step (e e' : EvaluationRow) : Prop := {
  es_frame : evaluation_frame e e';
  es_moves : evaluation_moves (e_state e) (e_state e');
  es_frozen : e_terminal_result e <> None -> e' = e
}.

Record attempt_step (a a' : AttemptRow) : Prop := {
  as_frame : attempt_frame a a';
  as_moves : attempt_moves (a_state a) (a_state a');
  as_frozen : a_state a <> "queued" -> a_state a <> "leased" -> a' = a;
  as_fenced : a_state a = "leased" -> a_state a' = "leased" ->
    a_node_id a' = a_node_id a /\ a_lease_token a' = a_lease_token a /\
    a_claim_operation a' = a_claim_operation a
}.

Record Evolves (db db' : Db) : Prop := {
  ev_artifacts : artifacts db ⊆ artifacts db';
  ev_problem_versions : problem_versions db ⊆ problem_versions db';
  ev_submissions : submissions db ⊆ submissions db';
  ev_runtimes : runtimes db ⊆ runtimes db';
  ev_evaluations : forall eid e, evaluations db !! eid = Some e ->
    exists e', evaluations db' !! eid = Some e' /\ evaluation_step e e';
  ev_attempts : forall aid a, attempts db !! aid = Some a ->
    exists a', attempts db' !! aid = Some a' /\ attempt_step a a'
}.

Lemma evaluation_step_refl e : evaluation_step e e.
Proof. split; [by repeat split | by left | done]. Qed.

Lemma attempt_step_refl a : attempt_step a a.
Proof. split; [by repeat split | by left | done | done]. Qed.

Lemma Evolves_refl db : Evolves db db.
Proof. split; try done; eauto using evaluation_step_refl, attempt_step_refl. Qed.

#[export] Hint Resolve evaluation_step_refl attempt_step_refl Evolves_refl Inv_commit : openoj.

(** ** Rewriting the rows of one evaluation *)

Definition put_rows (db : Db) (eid : string) (e : EvaluationRow)
    (attempts' : gmap string AttemptRow) (tasks' : gmap string TaskRow) : Db :=
  {| artifacts := artifacts db; problem_versions := problem_versions db;
     submissions := submissions db; runtimes := runtimes db;
     evaluations := <[eid := e]> (evaluations db);
     attempts := attempts'; tasks := tasks' |}.

Definition put_bundle (db : Db) (eid : string) (e : EvaluationRow) (aid : string)
    (a : AttemptRow) (t : TaskRow) : Db :=
  put_rows db eid e (<[aid := a]> (attempts db)) (<[aid := t]> (tasks db)).

(** [insert_cases H]: a lookup in an updated map is the new row or an old one. *)
Ltac insert_cases H :=
  apply lookup_insert_Some in H; destruct H as [[<- <-]|[? H]].

Lemma UniqueBy_evaluation db eid e :
  UniqueBy creation_key (evaluations db) -> UniqueBy e_result_key (evaluations db) ->
  evaluation_conflict (evaluations db) eid e = false ->
  UniqueBy creation_key (<[eid := e]> (evaluations db)) /\
  UniqueBy e_result_key (<[eid := e]> (evaluations db)).
Proof.
  intros Hu1 Hu2 [H1 H2]%evaluation_conflict_false. split; apply UniqueBy_insert; try done.
  intros j r' k Hj Hne [= <-] [= Hk]. by destruct (H1 j r' Hj Hne).
Qed.

Lemma UniqueBy_attempt (m : gmap string AttemptRow) aid a :
  UniqueBy attempt_key m -> UniqueBy attempt_ordinal m -> UniqueBy claim_key m ->
  attempt_conflict m aid a = false ->
  UniqueBy attempt_key (<[aid := a]> m) /\ UniqueBy attempt_ordinal (<[aid := a]> m) /\
  UniqueBy claim_key (<[aid := a]> m).
Proof.
  intros Hu1 Hu2 Hu3 (H1 & H2 & H3)%attempt_conflict_false.
  split_and!; apply UniqueBy_insert; try done.
  - intros j r' k Hj Hne [= <-] [= Hk]. by destruct (H1 j r' Hj Hne).
  - intros j r' k Hj Hne [= <-] [= Hk Hk']. destruct (H2 j r' Hj Hne). congruence.
Qed.

Section Preservation.
Context `{Collation, RequestCodec}.

Lemma payload_ok_frame aid a a' t t' :
  attempt_frame a a' -> t_capabilities t' = t_capabilities t ->
  payload_ok aid a t -> payload_ok aid a' t'.
Proof.
  intros (He & _ & Hn & Hk & Hp & _) Ht (r & Hd & Hv & Ha & Hev & Hnum & Hkey & Hc).
  exists r. rewrite Hp, He, Hn, Hk, Ht. done.
Qed.

(** Rewriting an evaluation, its current attempt and its task within their
    frames keeps the invariant, if the statements' checks passed and the new
    rows correspond. *)
Lemma bundle_update db eid e a t e' a' t' :
  Inv db -> evaluations db !! eid = Some e ->
  attempts db !! e_current_attempt e = Some a -> tasks db !! e_current_attempt e = Some t ->
  evaluation_frame e e' -> e_current_attempt e' = e_current_attempt e ->
  attempt_frame a a' ->
  evaluation_check eid e' = true -> attempt_check (e_current_attempt e) a' = true ->
  task_check (e_current_attempt e) t' = true ->
  evaluation_conflict (evaluations db) eid e' = false ->
  attempt_conflict (attempts db) (e_current_attempt e) a' = false ->
  evaluation_current eid e' a' -> attempt_task a' t' ->
  t_capabilities t' = t_capabilities t ->
  Inv (put_bundle db eid e' (e_current_attempt e) a' t').
Proof.
  intros Hi He Ha Ht Hfe Hcur Hfa Hce Hca Hct Hxe Hxa Hec Hat Hcaps.
  pose proof (inv_current db Hi eid e He) as (a0 & Ha0 & Hid & _).
  assert (a0 = a) as -> by congruence.
  destruct (UniqueBy_evaluation db eid e' (inv_creation_unique db Hi)
    (inv_result_unique db Hi) Hxe) as [Hu1 Hu2].
  destruct (UniqueBy_attempt (attempts db) _ a' (inv_attempt_unique db Hi)
    (inv_ordinal_unique db Hi) (inv_claim_unique db Hi) Hxa) as (Hu3 & Hu4 & Hu5).
  split; simpl; try done.
  - intros i x Hl. insert_cases Hl; [done|]. by apply (inv_evaluation_check db Hi).
  - intros i x Hl. insert_cases Hl; [done|]. by apply (inv_attempt_check db Hi).
  - intros i x Hl. insert_cases Hl; [done|]. by apply (inv_task_check db Hi).
  - intros i x Hl. insert_cases Hl; [|by apply (inv_references db Hi i)].
    destruct Hfe as (_ & _ & -> & -> & -> & _). by apply (inv_references db Hi eid).
  - intros i x Hl. insert_cases Hl.
    + exists a'. rewrite Hcur. by rewrite lookup_insert_eq.
    + destruct (inv_current db Hi i x Hl) as (c & Hc & Hcc). exists c. split; [|done].
      rewrite lookup_insert_ne; [done|]. intros Heq. rewrite <- Heq in Hc.
      destruct Hcc as [Hi2 _]. congruence.
  - intros i x Hl. insert_cases Hl.
    + exists e', t'. replace (a_evaluation_id a') with eid
        by (destruct Hfa as [-> _]; congruence). rewrite !lookup_insert_eq.
      refine (conj eq_refl (conj eq_refl (conj Hat (conj _ _)))); [|by rewrite Hcur].
      eapply payload_ok_frame; [done..|].
      destruct (inv_attempt db Hi _ a Ha) as (? & t0 & _ & Ht0 & _ & Hp & _).
      assert (t0 = t) as -> by congruence. done.
    + destruct (inv_attempt db Hi i x Hl) as (ex & tx & Hex & Htx & Hatx & Hpx & Hold).
      destruct (decide (a_evaluation_id x = eid)) as [Heq|Hneq].
      * rewrite Heq in *. assert (ex = e) as -> by congruence.
        exists e', tx. rewrite lookup_insert_eq, lookup_insert_ne by done.
        refine (conj eq_refl (conj Htx (conj Hatx (conj Hpx _)))).
        rewrite Hcur, lookup_insert_eq. intros Hne.
        destruct (Hold Hne) as (Hs & c & Hc & Hlt). split; [done|]. exists a'.
        destruct Hfa as (_ & _ & -> & _). split; [done|]. congruence.
      * exists ex, tx. rewrite !lookup_insert_ne by done.
        refine (conj Hex (conj Htx (conj Hatx (conj Hpx _)))).
        intros Hne. destruct (Hold Hne) as (Hs & c & Hc & Hlt). split; [done|].
        exists c. split; [|done]. rewrite lookup_insert_ne; [done|].
        intros Heq. rewrite <- Heq in Hc. assert (c = a) as -> by congruence.
        destruct (inv_current db Hi _ ex Hex) as (c' & Hc' & Hid' & _).
        rewrite <- Heq in Hc'. congruence.
  - intros i x Hl. insert_cases Hl; [exists a'; by rewrite lookup_insert_eq|].
    rewrite lookup_insert_ne by done. by apply (inv_tasks db Hi i x).
Qed.

Lemma bundle_evolves db eid e a e' a' t' aid :
  evaluations db !! eid = Some e -> attempts db !! aid = Some a ->
  evaluation_step e e' -> attempt_step a a' ->
  Evolves db (put_bundle db eid e' aid a' t').
Proof.
  intros He Ha Hse Hsa. split; simpl; try done.
  - intros i x Hx. destruct (decide (i = eid)) as [->|Hne].
    + rewrite lookup_insert_eq. exists e'. split; [done|]. by replace x with e by congruence.
    + rewrite lookup_insert_ne by done. eauto using evaluation_step_refl.
  - intros i x Hx. destruct (decide (i = aid)) as [->|Hne].
    + rewrite lookup_insert_eq. exists a'. split; [done|]. by replace x with a by congruence.
    + rewrite lookup_insert_ne by done. eauto using attempt_step_refl.
Qed.

(** Retiring the current attempt of an evaluation and adding the next one. *)
Lemma retry_update db eid e a t e' a1 t1 aid a2 t2 :
  Inv db -> evaluations db !! eid = Some e ->
  attempts db !! e_current_attempt e = Some a -> tasks db !! e_current_attempt e = Some t ->
  evaluation_frame e e' -> e_current_attempt e' = aid ->
  attempt_frame a a1 -> a_state a1 = "expired" -> t_capabilities t1 = t_capabilities t ->
  attempt_task a1 t1 -> attempt_task a2 t2 -> payload_ok aid a2 t2 ->
  a_number a2 = (a_number a + 1)%Z ->
  evaluation_check eid e' = true -> attempt_check (e_current_attempt e) a1 = true ->
  task_check (e_current_attempt e) t1 = true ->
  attempt_check aid a2 = true -> task_check aid t2 = true ->
  evaluation_conflict (evaluations db) eid e' = false ->
  attempt_conflict (attempts db) (e_current_attempt e) a1 = false ->
  attempts db !! aid = None -> aid <> e_current_attempt e ->
  attempt_conflict (<[e_current_attempt e := a1]> (attempts db)) aid a2 = false ->
  evaluation_current eid e' a2 ->
  Inv (put_rows db eid e' (<[aid := a2]> (<[e_current_attempt e := a1]> (attempts db)))
         (<[aid := t2]> (<[e_current_attempt e := t1]> (tasks db)))).
Proof.
  intros Hi He Ha Ht Hfe Hcur Hfa Hs1 Hcap1 Hat1 Hat2 Hp2 Hnum Hce Hca1 Hct1 Hca2 Hct2
    Hxe Hx1 Hfresh Hne Hx2 Hec.
  pose proof (inv_current db Hi eid e He) as (a0 & Ha0 & Hid & _).
  assert (a0 = a) as -> by congruence. clear Ha0.
  pose proof (inv_attempt db Hi _ a Ha) as (e0 & t0 & He0 & Ht0 & _ & Hp & _).
  assert (t0 = t) as -> by congruence. clear Ht0.
  destruct (UniqueBy_evaluation db eid e' (inv_creation_unique db Hi)
    (inv_result_unique db Hi) Hxe) as [Hu1 Hu2].
  destruct (UniqueBy_attempt (attempts db) _ a1 (inv_attempt_unique db Hi)
    (inv_ordinal_unique db Hi) (inv_claim_unique db Hi) Hx1) as (Hv1 & Hv2 & Hv3).
  destruct (UniqueBy_attempt _ aid a2 Hv1 Hv2 Hv3 Hx2) as (Hw1 & Hw2 & Hw3).
  split; simpl; try done.
  - intros i x Hl. insert_cases Hl; [done|]. by apply (inv_evaluation_check db Hi).
  - intros i x Hl. insert_cases Hl; [done|]. insert_cases Hl; [done|].
    by apply (inv_attempt_check db Hi).
  - intros i x Hl. insert_cases Hl; [done|]. insert_cases Hl; [done|].
    by apply (inv_task_check db Hi).
  - intros i x Hl. insert_cases Hl; [|by apply (inv_references db Hi i)].
    destruct Hfe as (_ & _ & -> & -> & -> & _). by apply (inv_references db Hi eid).
  - intros i x Hl. insert_cases Hl.
    + exists a2. rewrite Hcur. by rewrite lookup_insert_eq.
    + destruct (inv_current db Hi i x Hl) as (c & Hc & Hcc). exists c. split; [|done].
      rewrite !lookup_insert_ne; [done| |by intros Heq; congruence].
      intros Heq. rewrite <- Heq in Hc. destruct Hcc as [Hi2 _]. congruence.
  - intros i x Hl. insert_cases Hl; [|insert_cases Hl].
    + exists e', t2. destruct Hec as [-> _]. rewrite !lookup_insert_eq.
      refine (conj eq_refl (conj eq_refl (conj Hat2 (conj Hp2 _)))).
      intros Hx. by destruct (Hx (eq_sym Hcur)).
    + exists e', t1. replace (a_evaluation_id a1) with eid
        by (destruct Hfa as [-> _]; congruence).
      rewrite lookup_insert_eq, lookup_insert_ne, lookup_insert_eq by done.
      refine (conj eq_refl (conj eq_refl (conj Hat1 (conj _ _)))).
      { by eapply payload_ok_frame. }
      intros _. split; [done|]. exists a2. rewrite Hcur, lookup_insert_eq.
      split; [done|]. destruct Hfa as (_ & _ & -> & _). lia.
    + destruct (inv_attempt db Hi i x Hl) as (ex & tx & Hex & Htx & Hatx & Hpx & Hold).
      assert (Hia : aid <> i) by (intros <-; congruence).
      destruct (decide (a_evaluation_id x = eid)) as [Heq|Hneq].
      * rewrite Heq in *. assert (ex = e) as -> by congruence.
        exists e', tx. rewrite lookup_insert_eq, !lookup_insert_ne by done.
        refine (conj eq_refl (conj Htx (conj Hatx (conj Hpx _)))).
        rewrite Hcur, lookup_insert_eq. intros _.
        destruct (Hold ltac:(congruence)) as (Hs & c & Hc & Hlt). split; [done|].
        exists a2. split; [done|]. assert (c = a) as -> by congruence. lia.
      * exists ex, tx. rewrite !lookup_insert_ne by done.
        refine (conj Hex (conj Htx (conj Hatx (conj Hpx _)))).
        intros Hnx. destruct (Hold Hnx) as (Hs & c & Hc & Hlt). split; [done|].
        exists c. split; [|done].
        destruct (inv_current db Hi _ ex Hex) as (c' & Hc' & Hid' & _).
        assert (c' = c) as -> by congruence.
        rewrite !lookup_insert_ne; [done| |by intros Hy; congruence].
        intros Hy. rewrite <- Hy in Hc. congruence.
  - intros i x Hl. insert_cases Hl; [exists a2; by rewrite lookup_insert_eq|].
    rewrite lookup_insert_ne by done.
    insert_cases Hl; [exists a1; by rewrite lookup_insert_eq|].
    rewrite lookup_insert_ne by done. by apply (inv_tasks db Hi i x).
Qed.

Lemma retry_evolves db eid e a e' a1 aid a2 tasks' :
  evaluations db !! eid = Some e -> attempts db !! e_current_attempt e = Some a ->
  attempts db !! aid = None -> evaluation_step e e' -> attempt_step a a1 ->
  Evolves db (put_rows db eid e'
    (<[aid := a2]> (<[e_current_attempt e := a1]> (attempts db))) tasks').
Proof.
  intros He Ha Hf Hse Hsa. split; simpl; try done.
  - intros i x Hx. destruct (decide (i = eid)) as [->|Hne].
    + rewrite lookup_insert_eq. exists e'. split; [done|]. by replace x with e by congruence.
    + rewrite lookup_insert_ne by done. eauto using evaluation_step_refl.
  - intros i x Hx. assert (aid <> i) by (intros <-; congruence).
    rewrite lookup_insert_ne by done. destruct (decide (i = e_current_attempt e)) as [->|Hne].
    + rewrite lookup_insert_eq. exists a1. split; [done|]. by replace x with a by congruence.
    + rewrite lookup_insert_ne by done. eauto using attempt_step_refl.
Qed.

(** Adding an evaluation with its first attempt and task, after the reference
    tables grew. *)
Definition grows (db db1 : Db) : Prop :=
  artifacts db ⊆ artifacts db1 /\ problem_versions db ⊆ problem_versions db1 /\
  submissions db ⊆ submissions db1 /\ runtimes db ⊆ runtimes db1 /\
  evaluations db1 = evaluations db /\ attempts db1 = attempts db /\ tasks db1 = tasks db.

Lemma has_key_weaken {R} (m m' : gmap string R) k :
  m ⊆ m' -> has_key m k = true -> has_key m' k = true.
Proof. rewrite !has_key_true. intros Hs [r Hr]. exists r. by eapply lookup_weaken. Qed.

Lemma create_update db db1 eid e aid a t :
  Inv db -> grows db db1 ->
  evaluations db !! eid = None -> attempts db !! aid = None -> tasks db !! aid = None ->
  e_current_attempt e = aid -> evaluation_current eid e a -> attempt_task a t ->
  payload_ok aid a t ->
  evaluation_check eid e = true -> attempt_check aid a = true -> task_check aid t = true ->
  evaluation_conflict (evaluations db) eid e = false ->
  attempt_conflict (attempts db) aid a = false ->
  (has_key (problem_versions db1) (e_problem_version_id e) = true /\
   has_key (submissions db1) (e_submission_id e) = true /\
   has_key (runtimes db1) (e_runtime_id e) = true) ->
  Inv (put_rows db1 eid e (<[aid := a]> (attempts db1)) (<[aid := t]> (tasks db1))).
Proof.
  intros Hi (_ & Hgp & Hgs & Hgr & Hge & Hga & Hgt) Hne Hna Hnt Hcur Hec Hat Hp
    Hce Hca Hct Hxe Hxa Href.
  destruct (UniqueBy_evaluation db eid e (inv_creation_unique db Hi)
    (inv_result_unique db Hi) Hxe) as [Hu1 Hu2].
  destruct (UniqueBy_attempt (attempts db) _ a (inv_attempt_unique db Hi)
    (inv_ordinal_unique db Hi) (inv_claim_unique db Hi) Hxa) as (Hu3 & Hu4 & Hu5).
  split; simpl; rewrite ?Hge, ?Hga, ?Hgt; try done.
  - intros i x Hl. insert_cases Hl; [done|]. by apply (inv_evaluation_check db Hi).
  - intros i x Hl. insert_cases Hl; [done|]. by apply (inv_attempt_check db Hi).
  - intros i x Hl. insert_cases Hl; [done|]. by apply (inv_task_check db Hi).
  - intros i x Hl. insert_cases Hl; [done|].
    destruct (inv_references db Hi i x Hl) as (Hr1 & Hr2 & Hr3).
    split_and!; by eapply has_key_weaken.
  - intros i x Hl. insert_cases Hl.
    + exists a. by rewrite Hcur, lookup_insert_eq.
    + destruct (inv_current db Hi i x Hl) as (c & Hc & Hcc). exists c. split; [|done].
      rewrite lookup_insert_ne; [done|]. intros Heq. congruence.
  - intros i x Hl. insert_cases Hl.
    + exists e, t. destruct Hec as [-> _]. rewrite !lookup_insert_eq.
      refine (conj eq_refl (conj eq_refl (conj Hat (conj Hp _)))).
      intros Hx. by destruct (Hx (eq_sym Hcur)).
    + destruct (inv_attempt db Hi i x Hl) as (ex & tx & Hex & Htx & Hatx & Hpx & Hold).
      exists ex, tx. rewrite !lookup_insert_ne by (done || congruence).
      refine (conj Hex (conj Htx (conj Hatx (conj Hpx _)))).
      intros Hnx. destruct (Hold Hnx) as (Hs & c & Hc & Hlt). split; [done|].
      exists c. split; [|done]. rewrite lookup_insert_ne; [done|]. congruence.
  - intros i x Hl. insert_cases Hl; [exists a; by rewrite lookup_insert_eq|].
    rewrite lookup_insert_ne by done. by apply (inv_tasks db Hi i x).
Qed.

Lemma create_evolves db db1 eid e aid a t :
  grows db db1 -> evaluations db !! eid = None -> attempts db !! aid = None ->
  Evolves db (put_rows db1 eid e (<[aid := a]> (attempts db1)) t).
Proof.
  intros (Hg1 & Hg2 & Hg3 & Hg4 & Hge & Hga & _) Hne Hna. split; simpl; try done.
  - intros i x Hx. rewrite Hge, lookup_insert_ne by (intros <-; congruence).
    eauto using evaluation_step_refl.
  - intros i x Hx. rewrite Hga, lookup_insert_ne by (intros <-; congruence).
    eauto using attempt_step_refl.
Qed.
End Preservation.
