(* ===== verification/Migration.v ===== *)
(** * Schema migrations

    Models [crates/openoj-storage/src/migration.rs]: the list of migrations, the
    run that applies them and checks the schema version, and what the two SQL
    scripts do to the tables. [sqlx]'s migrator applies them; the PL/pgSQL
    function that reads the capabilities of a stored request is evaluated by the
    database. *)

From S2P Require Import Prelude Value Control Evaluation Codec Policy Schema Store Lease StoreLemmas StoreInv.

(** ** The list *)

(** The included scripts, [migrations/202608170001_p0b_control_spine.sql] and
    [migrations/202608170002_p0c_judge_control.sql]. *)
Inductive MigrationScript : Type := P0bControlSpine | P0cJudgeControl.

Record Migration : Type := MkMigration {
  mg_version : Z;
  mg_description : string;
  mg_script : MigrationScript
}.

Definition MIGRATOR : list Migration := [
  MkMigration 202608170001 "p0b control spine" P0bControlSpine;
  MkMigration 202608170002 "p0c judge control" P0cJudgeControl].

(** ** The run *)

(** A database as the migrations see it. [migrator_run] is [Migrator::run], with
    whether it succeeded; [schema_version] the answer of the version query, [None]
    when it fails and otherwise the row if there is one. *)
Class SchemaStore (D : Type) := {
  migrator_run : list Migration -> D -> bool * D;
  schema_version : D -> option (option Z)
}.

(** [PostgresEvaluationStore::check_compatibility] from the answer of its query. *)
Definition store_check_compatibility (version : option (option Z)) : result StoreError.t unit :=
  let* version := ok_or StoreError.Unavailable version in check_compatibility version.

(** [PostgresEvaluationStore::migrate]: the migrations, then the check. *)
Definition store_migrate {D : Type} `{SchemaStore D} (d : D) : result StoreError.t unit * D :=
  let '(applied, d') := migrator_run MIGRATOR d in
  if applied then (store_check_compatibility (schema_version d'), d')
  else (Err StoreError.Unavailable, d').

Lemma store_check_iff version :
  store_check_compatibility version = Ok tt <-> version = Some (Some SUPPORTED_SCHEMA_VERSION).
Proof.
  unfold store_check_compatibility, check_compatibility. destruct version as [v|]; simpl; [|done].
  case_bool_decide as Hv; [by rewrite Hv | split; [done|congruence]].
Qed.

(** ** The tables *)

(** The rows of the first schema: an attempt without the operation that claimed
    it, a task without its capabilities. The other tables do not change. *)
Record LegacyAttemptRow : Type := MkLegacyAttemptRow {
  la_evaluation_id : string;
  la_request_id : string;
  la_number : Z;
  la_idempotency_key : string;
  la_payload : bytes;
  la_state : string;
  la_node_id : option string;
  la_lease_token : option string;
  la_lease_expires_at : option Z;
  la_created_at : Z;
  la_updated_at : Z
}.

Record LegacyTaskRow : Type := MkLegacyTaskRow {
  lt_state : string;
  lt_created_at : Z;
  lt_updated_at : Z
}.

Record LegacyDb : Type := MkLegacyDb {
  l_artifacts : gmap string ArtifactRow;
  l_problem_versions : gmap string ProblemVersionRow;
  l_submissions : gmap string SubmissionRow;
  l_runtimes : gmap string RuntimeRow;
  l_evaluations : gmap string EvaluationRow;
  l_attempts : gmap string LegacyAttemptRow;
  l_tasks : gmap string LegacyTaskRow
}.

Definition empty_legacy : LegacyDb := MkLegacyDb ∅ ∅ ∅ ∅ ∅ ∅ ∅.

Inductive Tables : Type :=
  | NoTables
  | P0bTables (l : LegacyDb)
  | P0cTables (db : Db).

(** The row of [openoj_schema_metadata], if the table is there. *)
Definition tables_version (t : Tables) : option Z :=
  match t with
  | NoTables => None
  | P0bTables _ => Some 1%Z
  | P0cTables _ => Some 2%Z
  end.

(** [openoj_extract_required_capabilities]; [None] when it raises. *)
Class CapabilityExtraction := { extract_required_capabilities : bytes -> option (list string) }.

Section Scripts.
Context `{Collation, CapabilityExtraction}.

(** [ADD COLUMN claim_operation_id]. *)
Definition add_claim_operation (a : LegacyAttemptRow) : AttemptRow := {|
  a_evaluation_id := la_evaluation_id a; a_request_id := la_request_id a; a_number := la_number a;
  a_idempotency_key := la_idempotency_key a; a_payload := la_payload a; a_state := la_state a;
  a_node_id := la_node_id a; a_lease_token := la_lease_token a;
  a_lease_expires_at := la_lease_expires_at a; a_created_at := la_created_at a;
  a_updated_at := la_updated_at a; a_claim_operation := None |}.

(** [ADD COLUMN required_capabilities], the update that fills it from the payload
    of the attempt, [SET NOT NULL] and the check. *)
Definition add_capabilities (attempts : gmap string LegacyAttemptRow) (attempt_id : string)
    (t : LegacyTaskRow) : option TaskRow :=
  a ← attempts !! attempt_id;
  capabilities ← extract_required_capabilities (la_payload a);
  if valid_required_capabilities capabilities
  then Some (MkTaskRow (lt_state t) (lt_created_at t) (lt_updated_at t) capabilities)
  else None.

(** The second script on the rows; it fails as a whole when a row does. *)
Definition upgrade (l : LegacyDb) : option Db :=
  if decide (map_Forall (fun aid t => is_Some (add_capabilities (l_attempts l) aid t)) (l_tasks l))
  then Some (MkDb (l_artifacts l) (l_problem_versions l) (l_submissions l) (l_runtimes l)
               (l_evaluations l) (add_claim_operation <$> l_attempts l)
               (map_imap (add_capabilities (l_attempts l)) (l_tasks l)))
  else None.

(** What a script makes of the tables, if it succeeds: creating a table that is
    there and altering one that is not are errors. *)
Definition script_up (script : MigrationScript) (t : Tables) : option Tables :=
  match script, t with
  | P0bControlSpine, NoTables => Some (P0bTables empty_legacy)
  | P0cJudgeControl, P0bTables l => P0cTables <$> upgrade l
  | _, _ => None
  end.

(** A database: the versions recorded as applied, and the tables. *)
Record Deployed : Type := MkDeployed { dp_applied : list Z; dp_tables : Tables }.

(** What [Migrator::run] documents: the migrations are taken in order, each one
    that is not recorded is applied and recorded in a transaction of its own, and
    at any point the run may end with an error. *)
Inductive migrates : list Migration -> Deployed -> bool -> Deployed -> Prop :=
  | migrates_all d : migrates [] d true d
  | migrates_error ms d : migrates ms d false d
  | migrates_recorded m ms d ok d' :
      mg_version m ∈ dp_applied d -> migrates ms d ok d' -> migrates (m :: ms) d ok d'
  | migrates_apply m ms d t ok d' :
      mg_version m ∉ dp_applied d -> script_up (mg_script m) (dp_tables d) = Some t ->
      migrates ms (MkDeployed (dp_applied d ++ [mg_version m]) t) ok d' ->
      migrates (m :: ms) d ok d'.

Class SchemaStoreLaws `{SchemaStore Deployed} : Prop := {
  migrator_law : forall ms d, let '(ok, d') := migrator_run ms d in migrates ms d ok d';
  (** The query fails, or answers with the row. *)
  version_law : forall d, schema_version d = None \/
    exists v, tables_version (dp_tables d) = Some v /\ schema_version d = Some (Some v)
}.

(** ** What a migration leaves *)

(** No row is lost: the tables are as before, or went through the scripts. *)
Inductive rows_kept : Tables -> Tables -> Prop :=
  | rows_same t : rows_kept t t
  | rows_created : rows_kept NoTables (P0bTables empty_legacy)
  | rows_fresh db : upgrade empty_legacy = Some db -> rows_kept NoTables (P0cTables db)
  | rows_upgraded l db : upgrade l = Some db -> rows_kept (P0bTables l) (P0cTables db).

Lemma script_rows script t t' : script_up script t = Some t' -> rows_kept t t'.
Proof.
  destruct script, t; simpl; try done.
  - intros [= <-]. constructor.
  - intros (db & Hu & ->)%fmap_Some. by constructor.
Qed.

Lemma rows_kept_trans t1 t2 t3 : rows_kept t1 t2 -> rows_kept t2 t3 -> rows_kept t1 t3.
Proof. intros [] H2; inversion H2; subst; by econstructor. Qed.

Lemma migrates_rows ms d ok d' : migrates ms d ok d' -> rows_kept (dp_tables d) (dp_tables d').
Proof.
  induction 1 as [d|ms d|m ms d ok d' _ _ IH|m ms d t ok d' _ Hs _ IH]; [constructor..|done|].
  by eapply rows_kept_trans; [eapply script_rows|].
Qed.

(** The rows after the second script. *)
Lemma upgrade_rows l db :
  upgrade l = Some db ->
  evaluations db = l_evaluations l /\ attempts db = add_claim_operation <$> l_attempts l /\
  (forall aid t', tasks db !! aid = Some t' <->
     exists t a capabilities, l_tasks l !! aid = Some t /\ l_attempts l !! aid = Some a /\
       extract_required_capabilities (la_payload a) = Some capabilities /\
       valid_required_capabilities capabilities = true /\
       t' = MkTaskRow (lt_state t) (lt_created_at t) (lt_updated_at t) capabilities) /\
  (forall aid, is_Some (tasks db !! aid) <-> is_Some (l_tasks l !! aid)).
Proof.
  unfold upgrade. destruct (decide _) as [Hall|]; [|done]. intros [= <-]. simpl.
  split; [done|]. split; [done|]. split.
  - intros aid t'. rewrite map_lookup_imap. split.
    + intros (t & Ht & Ha)%bind_Some. unfold add_capabilities in Ha.
      apply bind_Some in Ha as (a & Ha & Hc). apply bind_Some in Hc as (caps & Hc & Hv).
      destruct (valid_required_capabilities caps) eqn:Hval; [|done]. injection Hv as <-. by exists t, a, caps.
    + intros (t & a & caps & Ht & Ha & Hc & Hv & ->). rewrite Ht. simpl.
      unfold add_capabilities. by rewrite Ha; simpl; rewrite Hc; simpl; rewrite Hv.
  - intros aid. rewrite map_lookup_imap. destruct (l_tasks l !! aid) as [t|] eqn:Ht; simpl.
    + split; [done|]. intros _. by apply (Hall aid).
    + by split; intros [].
Qed.

Lemma upgrade_empty : upgrade empty_legacy = Some empty_db.
Proof.
  unfold upgrade. rewrite decide_True by apply map_Forall_empty. unfold empty_db. simpl.
  by rewrite fmap_empty, map_imap_empty.
Qed.

Section Migrate.
Context `{SchemaStore Deployed, !SchemaStoreLaws}.

(** A compatible schema is the one the operations of the store run on. *)
Lemma compatible_tables d :
  store_check_compatibility (schema_version d) = Ok tt -> exists db, dp_tables d = P0cTables db.
Proof.
  intros Hc%store_check_iff. destruct (version_law d) as [Hn|(v & Hv & Hs)]; [congruence|].
  rewrite Hc in Hs. injection Hs as <-. destruct (dp_tables d); try done. by eexists.
Qed.

(** However a migration ends, no row is lost; it succeeds only over the tables of
    this schema, and a migration of those tables changes nothing. *)
Lemma store_migrate_outcome d :
  let '(r, d') := store_migrate d in
  rows_kept (dp_tables d) (dp_tables d') /\
  (r = Ok tt -> exists db, dp_tables d' = P0cTables db) /\
  (forall db, dp_tables d = P0cTables db -> dp_tables d' = P0cTables db).
Proof.
  unfold store_migrate. pose proof (migrator_law MIGRATOR d) as Hm.
  destruct (migrator_run MIGRATOR d) as [ok d']. apply migrates_rows in Hm.
  assert (Hkept : forall db, dp_tables d = P0cTables db -> dp_tables d' = P0cTables db).
  { intros db Hd. rewrite Hd in Hm. by inversion Hm. }
  destruct ok; split_and!; try done. apply compatible_tables.
Qed.
End Migrate.
End Scripts.

(** ** Upgrading loses nothing *)

Section Upgrade.
Context `{Collation, RequestCodecLaws, CapabilityExtraction}.

(** What the extraction is written for: the sorted capabilities of a request. *)
Definition extracts_capabilities : Prop :=
  forall payload request, decode_evaluation_request payload = Ok request ->
  valid_required_capabilities (map cap_str (er_required_capabilities request)) = true ->
  extract_required_capabilities payload = Some (map cap_str (er_required_capabilities request)).

(** The first schema's rows of a database of the second one. *)
Definition legacy_attempt (a : AttemptRow) : LegacyAttemptRow := {|
  la_evaluation_id := a_evaluation_id a; la_request_id := a_request_id a; la_number := a_number a;
  la_idempotency_key := a_idempotency_key a; la_payload := a_payload a; la_state := a_state a;
  la_node_id := a_node_id a; la_lease_token := a_lease_token a;
  la_lease_expires_at := a_lease_expires_at a; la_created_at := a_created_at a;
  la_updated_at := a_updated_at a |}.

Definition legacy_task (t : TaskRow) : LegacyTaskRow :=
  MkLegacyTaskRow (t_state t) (t_created_at t) (t_updated_at t).

Definition legacy (db : Db) : LegacyDb :=
  MkLegacyDb (artifacts db) (problem_versions db) (submissions db) (runtimes db) (evaluations db)
    (legacy_attempt <$> attempts db) (legacy_task <$> tasks db).

(** A database without claim operations. *)
Definition unclaimed (db : Db) : Prop :=
  forall aid a, attempts db !! aid = Some a -> a_claim_operation a = None.

(** The second script restores the columns the first schema did not have. *)
Lemma upgrade_restores db :
  extracts_capabilities -> Inv db -> unclaimed db -> upgrade (legacy db) = Some db.
Proof.
  intros Hx Hi Hun.
  assert (Htask : forall aid t, tasks db !! aid = Some t ->
            add_capabilities (l_attempts (legacy db)) aid (legacy_task t) = Some t).
  { intros aid t Ht. destruct (inv_tasks db Hi aid t Ht) as [a Ha].
    destruct (inv_attempt db Hi aid a Ha) as (e & t' & _ & Ht' & (_ & _ & _) & Hp & _).
    rewrite Ht in Ht'. injection Ht' as <-. destruct Hp as (r & Hd & _ & _ & _ & _ & _ & Hcaps).
    pose proof (inv_task_check db Hi aid t Ht) as Hc. unfold task_check in Hc.
    apply andb_true_iff in Hc as [_ Hc].
    unfold add_capabilities. simpl. rewrite lookup_fmap, Ha. simpl.
    rewrite Hcaps in Hc. rewrite (Hx _ r Hd Hc). simpl. rewrite Hc. destruct t. simpl in *. by subst. }
  assert (Hattempts : add_claim_operation <$> (legacy_attempt <$> attempts db) = attempts db).
  { apply map_eq. intros aid. rewrite !lookup_fmap. destruct (attempts db !! aid) as [a|] eqn:Ha; [|done].
    simpl. pose proof (Hun aid a Ha) as Hc. destruct a. simpl in *. by subst. }
  assert (Htasks : map_imap (add_capabilities (l_attempts (legacy db))) (legacy_task <$> tasks db) = tasks db).
  { apply map_eq. intros aid. rewrite map_lookup_imap, lookup_fmap.
    destruct (tasks db !! aid) as [t|] eqn:Ht; [|done]. by apply Htask. }
  unfold upgrade. rewrite decide_True.
  - f_equal. simpl in Htasks |- *. rewrite Hattempts, Htasks. by destruct db.
  - intros aid t' Ht. simpl in Ht. rewrite lookup_fmap in Ht. apply fmap_Some in Ht as (t & Ht & ->).
    by rewrite (Htask aid t Ht).
Qed.
End Upgrade.
