(* ===== verification/StoreSteps.v ===== *)
(** * What each transaction of the store does

    For every transaction of [Store] and [Lease]: the exact tables a successful
    run produces from a reachable state, that they satisfy the invariant again,
    and that the step is one [Evolves] allows. *)

From S2P Require Import Prelude Value Control Evaluation EvalResult Codec Policy Schema Store Lease StoreLemmas StoreInv.

(** ** State strings *)

Ltac eval_moves x y := right; exists x, y; repeat split; reflexivity.

Lemma queued_leased_moves :
  evaluation_moves "queued" "leased" /\ attempt_moves "queued" "leased".
Proof.
  split; [eval_moves EvaluationState.Queued EvaluationState.Leased|
          eval_moves AttemptState.Queued AttemptState.Leased].
Qed.

Lemma leased_requeue_moves :
  evaluation_moves "leased" "queued" /\ attempt_moves "leased" "expired".
Proof.
  split; [eval_moves EvaluationState.Leased EvaluationState.Queued|
          eval_moves AttemptState.Leased AttemptState.Expired].
Qed.

Lemma leased_terminal_moves (s : EvaluationStatus.t) :
  evaluation_moves "leased" (EvaluationStatus.as_str s) /\
  attempt_moves "leased" (EvaluationStatus.as_str s).
Proof.
  destruct s; split;
    [ eval_moves EvaluationState.Leased EvaluationState.Completed
    | eval_moves AttemptState.Leased AttemptState.Completed
    | eval_moves EvaluationState.Leased EvaluationState.Failed
    | eval_moves AttemptState.Leased AttemptState.Failed
    | eval_moves EvaluationState.Leased EvaluationState.Cancelled
    | eval_moves AttemptState.Leased AttemptState.Cancelled ].
Qed.

Lemma cancel_moves (s : string) :
  s = "queued" \/ s = "leased" ->
  evaluation_moves s "cancelled" /\ attempt_moves s "cancelled".
Proof.
  intros [-> | ->]; split;
    [ eval_moves EvaluationState.Queued EvaluationState.Cancelled
    | eval_moves AttemptState.Queued AttemptState.Cancelled
    | eval_moves EvaluationState.Leased EvaluationState.Cancelled
    | eval_moves AttemptState.Leased AttemptState.Cancelled ].
Qed.

Lemma one_of_strings_true l s : one_of_strings l s = true <-> s ∈ l.
Proof.
  unfold one_of_strings. rewrite existsb_exists. split.
  - intros (x & Hx & ->%String.eqb_eq). by apply list_elem_of_In.
  - intros Hs. exists s. split; [by apply list_elem_of_In | apply String.eqb_refl].
Qed.

Lemma not_terminal_open s : s = "queued" \/ s = "leased" -> s ∉ terminal_states.
Proof. intros [-> | ->] Hin; unfold terminal_states in Hin; set_solver. Qed.

Lemma attempt_check_created aid a : attempt_check aid a = true -> (a_created_at a <= a_updated_at a)%Z.
Proof.
  unfold attempt_check, time_bound. rewrite !andb_true_iff, !in_range_true. lia.
Qed.

Section Steps.
Context `{Collation, RequestCodec}.

(** ** Claim *)

Lemma claimable_spec locked caps db aid t a :
  (aid, t, a) ∈ claimable locked caps db <->
  tasks db !! aid = Some t /\ attempts db !! aid = Some a /\
  t_state t = "ready" /\ a_state a = "queued" /\
  (exists eid e, evaluations db !! eid = Some e /\ e_current_attempt e = aid /\
     e_state e = "queued") /\
  (forall declared, caps = Some declared -> Forall (fun c => c ∈ declared) (t_capabilities t)) /\
  aid ∉ locked.
Proof.
  unfold claimable. rewrite list_elem_of_omap. split.
  - intros ([aid' t'] & Hin & Hx). apply elem_of_map_to_list in Hin.
    destruct (attempts db !! aid') as [a'|] eqn:Ha; [|done].
    destruct (_ && _) eqn:Hc; [|done]. injection Hx as -> -> ->. split_eqs.
    split; [done|]. split; [done|]. split; [done|]. split; [done|].
    match goal with Hx : existsb _ _ = true |- _ =>
      apply existsb_exists in Hx as ([eid e] & He & Hes) end.
    split_eqs. apply list_elem_of_In, elem_of_map_to_list in He.
    split; [by exists eid, e|]. split; [|done].
    intros declared ->. match goal with Hx : contained_in _ _ = true |- _ =>
      unfold contained_in in Hx; rewrite forallb_forall in Hx end.
    apply Forall_forall. intros c Hc%list_elem_of_In. apply one_of_strings_true. auto.
  - intros (Ht & Ha & Hts & Has & (eid & e & He & Hcur & Hes) & Hcaps & Hl).
    exists (aid, t). split; [by apply elem_of_map_to_list|]. rewrite Ha, Hts, Has. simpl.
    replace (existsb _ _) with true; simpl.
    2:{ symmetry. apply existsb_exists. exists (eid, e).
        split; [by apply list_elem_of_In, elem_of_map_to_list|].
        by rewrite Hcur, Hes, !String.eqb_refl. }
    rewrite bool_decide_false by done. destruct caps as [declared|]; simpl; [|done].
    replace (contained_in _ _) with true; [done|]. symmetry. unfold contained_in.
    apply forallb_forall. intros c Hc%list_elem_of_In. apply one_of_strings_true.
    specialize (Hcaps declared eq_refl). rewrite Forall_forall in Hcaps. auto.
Qed.

(** The tables after a claim of the bundle of [eid]. *)
Definition claimed_db (command : ClaimTask) (op : option string) (now expiry : Z)
    (db : Db) (eid : string) (e : EvaluationRow) (a : AttemptRow) (t : TaskRow) : Db :=
  put_bundle db eid (set_evaluation_state "leased" now e) (e_current_attempt e)
    (lease_attempt (id_str (ct_node_id command)) (id_str (ct_lease_token command))
       expiry op now a)
    (set_task_state "leased" now t).

Lemma claim_Ok command op caps now expiry locked db r db' :
  Inv db -> (now <= expiry)%Z ->
  claim_transaction command op caps now expiry locked db = Ok (r, db') ->
  exists e a t,
    first_by queue_key (claimable locked caps db) = Some (e_current_attempt e, t, a) /\
    evaluations db !! a_evaluation_id a = Some e /\
    e_state e = "queued" /\ a_state a = "queued" /\
    decode_evaluation_request (a_payload a) = Ok r /\
    id_str (er_attempt_id r) = e_current_attempt e /\
    db' = claimed_db command op now expiry db (a_evaluation_id a) e a t /\
    Inv db' /\ Evolves db db'.
Proof.
  intros Hi Hle Hclaim. unfold claim_transaction in Hclaim. inv_sql.
  destruct x as [[aid t] a]. inv_sql. split_eqs.
  destruct (first_by_Some _ _ _ Hlift) as [Hin _].
  apply claimable_spec in Hin as (Ht & Ha & Hts & Has & (eid & e & He & Hcur & Hes) & _ & _).
  assert (a_evaluation_id a = eid) as Heid by by eapply Inv_current_inj.
  destruct Hcur. destruct (Inv_bundle db eid e Hi He) as (a0 & t0 & Ha0 & Ht0 & Hec & Hat & _).
  assert (a0 = a) as -> by congruence. assert (t0 = t) as -> by congruence.
  apply (update_attempt_Ok _ _ _ a) in Hstmt as (Hc1 & Hx1 & ->); [|done].
  apply (update_evaluation_Ok _ _ _ e) in Hstmt0 as (Hc2 & Hx2 & ->); [|by rewrite Heid].
  apply (update_task_Ok _ _ _ t) in Hstmt1 as (Hc3 & ->); [|done].
  exists e, a, t. rewrite Heid. split_and!; try done.
  - rewrite Heid in Hc2, Hx2.
    apply (bundle_update db eid e a t); try done.
    + destruct Hec as (_ & _ & _ & Hcr & Hterm). split_and!; try done; simpl.
      rewrite Hterm, Hes. split; intros Hin2; exfalso; revert Hin2; apply not_terminal_open; auto.
    + destruct Hat as (_ & Hcr & _). split; [done|]. split; [done|]. split; [done|].
      intros _. do 3 eexists. split_and!; try done. simpl.
      apply attempt_check_created in Hc1. simpl in Hc1. lia.
  - apply (bundle_evolves db eid e a); try done.
    + split; [done| simpl; rewrite Hes; apply queued_leased_moves|].
      intros Hn. destruct Hec as (_ & _ & _ & _ & Hterm). apply Hterm in Hn. rewrite Hes in Hn.
      exfalso; revert Hn; apply not_terminal_open; auto.
    + split; [done| simpl; rewrite Has; apply queued_leased_moves| congruence | congruence].
Qed.

(** ** Renewal *)

Lemma evaluation_conflict_self db eid e :
  Inv db -> evaluations db !! eid = Some e ->
  evaluation_conflict (evaluations db) eid e = false.
Proof.
  intros Hi He. apply evaluation_conflict_false. split.
  - intros j r' Hj Hne Heq. destruct Hne.
    apply (inv_creation_unique db Hi j eid r' e (e_creation_key e)); try done.
    unfold creation_key. congruence.
  - intros j r' k Hj Hne Hk Hk'. destruct Hne.
    by apply (inv_result_unique db Hi j eid r' e k).
Qed.

Lemma put_bundle_attempt db eid e aid a t :
  evaluations db !! eid = Some e -> tasks db !! aid = Some t ->
  set_attempts db (<[aid := a]> (attempts db)) = put_bundle db eid e aid a t.
Proof.
  intros He Ht. unfold put_bundle, put_rows, set_attempts.
  by rewrite (insert_id (evaluations db)), (insert_id (tasks db)).
Qed.

(** What a renewal request must match to be honoured. *)
Definition renew_matches (command : JudgeRenew) (e : EvaluationRow) (a : AttemptRow) : Prop :=
  e_state e = "leased" /\ a_state a = "leased" /\
  e_current_attempt e = id_str (jr_attempt_id command) /\
  a_node_id a = Some (id_str (jr_node_id command)) /\
  a_lease_token a = Some (id_str (jr_lease_token command)).

Lemma renew_Ok command expires_at now expiry db d db' :
  Inv db -> (now <= expiry)%Z ->
  renew_transaction command expires_at now expiry db = Ok (d, db') ->
  exists e a,
    current_attempt db (id_str (jr_evaluation_id command)) = Some (e, a) /\
    ((d = Cancel /\ e_state e = "cancelled" /\ db' = db) \/
     (d = Continue expires_at /\ renew_matches command e a /\
      db' = set_attempts db (<[e_current_attempt e := renew_attempt expiry now a]>
                               (attempts db)))) /\
    Inv db' /\ Evolves db db'.
Proof.
  intros Hi Hle Hrenew. unfold renew_transaction in Hrenew. inv_sql.
  destruct x as [e a]. destruct (Inv_current_attempt db _ e a Hi Hlift)
    as (He & Ha & Hec & t & Ht & Hat & Hp).
  inv_sql; split_eqs; exists e, a.
  - split; [done|]. split; [|by split; [|apply Evolves_refl]]. left. split_and!; try done.
    destruct Hec as (_ & Hs & _). apply orb_true_iff in Hcond as [Hc|Hc];
      apply String.eqb_eq in Hc; congruence.
  - apply (update_attempt_Ok _ _ _ a) in Hstmt as (Hc1 & Hx1 & ->); [|congruence].
    split; [done|]. split; [right; split_and!; try done; [split_and!; congruence|congruence]|].
    match goal with Hx : e_current_attempt e = _ |- _ => rewrite <- Hx in * end.
    rewrite (put_bundle_attempt db _ e _ _ t) by done. split.
    + apply (bundle_update db _ e a t); try done.
      * by apply (inv_evaluation_check db Hi).
      * by apply (inv_task_check db Hi).
      * by apply evaluation_conflict_self.
      * destruct Hat as (Hts & Hcr & _ & Hl). split; [done|]. split; [done|].
        split; [simpl; congruence|]. intros _.
        destruct (Hl ltac:(done)) as (n & k & x' & Hn & Hk & _).
        exists n, k, expiry. split_and!; try done. simpl.
        apply attempt_check_created in Hc1. simpl in Hc1. lia.
    + apply (bundle_evolves db _ e a); try done; [apply evaluation_step_refl|].
      split; [done|by left|congruence|done].
Qed.

(** ** Terminal writes *)

Definition terminal_db (write : TerminalWrite) (db : Db) (e : EvaluationRow)
    (a : AttemptRow) (t : TaskRow) : Db :=
  put_bundle db (tw_evaluation_id write) (finish_evaluation write e)
    (tw_attempt_id write) (set_attempt_state (tw_state write) (tw_now write) a)
    (set_task_state (tw_task_state write) (tw_now write) t).

Lemma write_terminal_Ok write db e a t u db' :
  Inv db -> evaluations db !! tw_evaluation_id write = Some e ->
  tw_attempt_id write = e_current_attempt e ->
  attempts db !! e_current_attempt e = Some a -> tasks db !! e_current_attempt e = Some t ->
  evaluation_current (tw_evaluation_id write) e a -> attempt_task a t ->
  e_terminal_result e = None ->
  evaluation_moves (e_state e) (tw_state write) -> attempt_moves (a_state a) (tw_state write) ->
  tw_state write ∈ terminal_states -> tw_task_state write = task_state_of (tw_state write) ->
  write_terminal write db = Ok (u, db') ->
  db' = terminal_db write db e a t /\ Inv db' /\ Evolves db db'.
Proof.
  intros Hi He Hid Ha Ht Hec Hat Hnone Hme Hma Hterm Hts Hw.
  unfold write_terminal in Hw. inv_sql.
  apply (update_evaluation_Ok _ _ _ e) in Hstmt as (Hc1 & Hx1 & ->); [|done].
  apply (update_attempt_Ok _ _ _ a) in Hstmt0 as (Hc2 & Hx2 & ->); [|by rewrite Hid].
  apply (update_task_Ok _ _ _ t) in Hw as (Hc3 & ->); [|by rewrite Hid].
  split; [done|]. rewrite Hid in *. simpl in *.
  assert (Hopen : e_state e ∉ terminal_states).
  { destruct Hec as (_ & _ & _ & _ & Hr). intros Hin. apply Hr in Hin. done. }
  assert (Has : a_state a = "queued" \/ a_state a = "leased").
  { destruct Hec as (_ & Hs & Hne & _). rewrite Hs.
    pose proof (inv_evaluation_check db Hi _ e He) as Hck. unfold evaluation_check in Hck.
    assert (Hst : one_of_strings evaluation_states (e_state e) = true)
      by (split_eqs; done).
    apply one_of_strings_true in Hst. unfold evaluation_states in Hst.
    unfold terminal_states in Hopen. set_solver. }
  assert (Hnq : tw_state write <> "queued" /\ tw_state write <> "leased").
  { unfold terminal_states in Hterm. split; intros Hx; rewrite Hx in Hterm; set_solver. }
  split.
  - change (Inv (put_bundle db (tw_evaluation_id write) (finish_evaluation write e)
      (e_current_attempt e) (set_attempt_state (tw_state write) (tw_now write) a)
      (set_task_state (tw_task_state write) (tw_now write) t))).
    apply (bundle_update db _ e a t); try done.
    + destruct Hec as (Hae & Hs & _ & Hcr & _).
      split; [done|]. split; [done|]. split; [|split; [done|by split]].
      simpl. intros Hx. rewrite Hx in Hterm. unfold terminal_states in Hterm. set_solver.
    + destruct Hat as (_ & Hcr & _). split; [done|]. split; [done|]. simpl.
      by split; intros Hx; simpl in Hx; destruct Hnq.
  - apply (bundle_evolves db _ e a); try done.
    + destruct Hnq as [Hnq Hnl]. split; [done|done|naive_solver|].
      intros _ Hx. simpl in Hx. congruence.
Qed.

(** A result submission either writes the terminal rows of a live lease, or
    replays the identical submission and changes nothing. *)
Definition submit_fence (command : SubmitResult) (now : Z) (e : EvaluationRow)
    (a : AttemptRow) : Prop :=
  e_state e = "leased" /\ a_state a = "leased" /\
  e_current_attempt e = id_str (ei_attempt_id (res_identity (sr_result command))) /\
  a_lease_token a = Some (id_str (sr_lease_token command)) /\
  (exists expiry, a_lease_expires_at a = Some expiry /\ (now <= expiry)%Z) /\
  exists r, decode_evaluation_request (a_payload a) = Ok r /\
    EvaluationIdentity_from_request r = res_identity (sr_result command).

Definition submit_write (command : SubmitResult) (payload : bytes) (now : Z)
    : TerminalWrite :=
  {| tw_evaluation_id := id_str (ei_evaluation_id (res_identity (sr_result command)));
     tw_attempt_id := id_str (ei_attempt_id (res_identity (sr_result command)));
     tw_state := EvaluationStatus.as_str (res_status (sr_result command));
     tw_task_state :=
       if bool_decide (res_status (sr_result command) = EvaluationStatus.Cancelled)
       then "cancelled" else "completed";
     tw_payload := payload;
     tw_idempotency_key := key_str (sr_idempotency_key command);
     tw_now := now |}.

Lemma submit_Ok command payload now db u db' :
  Inv db -> submit_transaction command payload now db = Ok (u, db') ->
  exists e a t,
    current_attempt db (id_str (ei_evaluation_id (res_identity (sr_result command))))
      = Some (e, a) /\ tasks db !! e_current_attempt e = Some t /\
    ((e_terminal_result e = Some payload /\
      e_result_key e = Some (key_str (sr_idempotency_key command)) /\ db' = db) \/
     (e_terminal_result e = None /\ submit_fence command now e a /\
      db' = terminal_db (submit_write command payload now) db e a t)) /\
    Inv db' /\ Evolves db db'.
Proof.
  intros Hi Hs. unfold submit_transaction in Hs. inv_sql.
  destruct x as [e a]. destruct (Inv_current_attempt db _ e a Hi Hlift)
    as (He & Ha & Hec & t & Ht & Hat & Hp).
  exists e, a, t. split; [done|]. split; [done|].
  destruct (e_terminal_result e) as [stored|] eqn:Hr.
  - inv_sql. split_eqs. split; [left; split_and!; congruence|]. split; [done|apply Evolves_refl].
  - inv_sql. split_eqs.
    destruct (write_terminal_Ok (submit_write command payload now) db e a t u db')
      as (Hdb & Hi' & Hev); try done.
    + match goal with Hx : e_state e = _ |- _ => rewrite Hx end. apply leased_terminal_moves.
    + match goal with Hx : a_state a = _ |- _ => rewrite Hx end. apply leased_terminal_moves.
    + simpl. unfold terminal_states. destruct (res_status _); simpl; set_solver.
    + simpl. by destruct (res_status _).
    + split; [|done]. right. split; [done|]. split; [|done].
      split_and!; try done; [congruence|by eexists; split|eauto].
Qed.

Definition cancel_fence (command : CancelEvaluation) (e : EvaluationRow) (a : AttemptRow)
    : Prop :=
  (a_state a = "queued" \/ a_state a = "leased") /\
  e_current_attempt e = id_str (ei_attempt_id (res_identity (cc_result command))) /\
  exists r, decode_evaluation_request (a_payload a) = Ok r /\
    EvaluationIdentity_from_request r = res_identity (cc_result command).

Definition cancel_write (command : CancelEvaluation) (e : EvaluationRow)
    (payload : bytes) (now : Z) : TerminalWrite :=
  {| tw_evaluation_id := id_str (cc_evaluation_id command);
     tw_attempt_id := e_current_attempt e;
     tw_state := "cancelled";
     tw_task_state := "cancelled";
     tw_payload := payload;
     tw_idempotency_key := key_str (cc_idempotency_key command);
     tw_now := now |}.

Lemma cancel_Ok command payload now db u db' :
  Inv db -> cancel_transaction command payload now db = Ok (u, db') ->
  exists e a t,
    current_attempt db (id_str (cc_evaluation_id command)) = Some (e, a) /\
    tasks db !! e_current_attempt e = Some t /\
    ((e_terminal_result e = Some payload /\
      e_result_key e = Some (key_str (cc_idempotency_key command)) /\ db' = db) \/
     (e_terminal_result e = None /\ cancel_fence command e a /\
      db' = terminal_db (cancel_write command e payload now) db e a t)) /\
    Inv db' /\ Evolves db db'.
Proof.
  intros Hi Hs. unfold cancel_transaction in Hs. inv_sql.
  destruct x as [e a]. destruct (Inv_current_attempt db _ e a Hi Hlift)
    as (He & Ha & Hec & t & Ht & Hat & Hp).
  exists e, a, t. split; [done|]. split; [done|].
  destruct (e_terminal_result e) as [stored|] eqn:Hr.
  - inv_sql. split_eqs. split; [left; split_and!; congruence|]. split; [done|apply Evolves_refl].
  - inv_sql. split_eqs.
    assert (Hst : a_state a = "queued" \/ a_state a = "leased").
    { match goal with Hx : one_of_strings _ (a_state a) = true |- _ =>
        apply one_of_strings_true in Hx; set_solver end. }
    assert (Hse : e_state e = a_state a) by (destruct Hec as (_ & Hx & _); congruence).
    destruct (write_terminal_Ok (cancel_write command e payload now) db e a t u db')
      as (Hdb & Hi' & Hev); try done.
    + rewrite Hse. by apply cancel_moves.
    + by apply cancel_moves.
    + simpl. unfold terminal_states. set_solver.
    + split; [|done]. right. split; [done|]. split; [|done]. split_and!; try done. eauto.
Qed.
End Steps.
