(* ===== verification/StoreWrites.v ===== *)
(** * Creation and retry

    The two transactions that add an attempt: what a successful run wrote, that
    the invariant holds again, and that the step is one [Evolves] allows. *)

From S2P Require Import Prelude Value Control Evaluation EvalResult Codec Policy Schema Store Lease StoreLemmas StoreInv StoreSteps.

Section Writes.
Context `{Collation, RequestCodecLaws}.

(** The task row of a fresh attempt. *)
Definition ready_task (request : EvaluationRequest) (created_at : Z) : TaskRow :=
  {| t_state := "ready"; t_created_at := created_at; t_updated_at := created_at;
     t_capabilities := map cap_str (er_required_capabilities request) |}.

Lemma queued_attempt_task request payload n created :
  attempt_task (queued_attempt request payload n created) (ready_task request created).
Proof. split; [done|]. split; [done|]. by split. Qed.

Lemma queued_attempt_payload request payload created :
  valid request -> encode_evaluation_request request = Ok payload ->
  payload_ok (id_str (er_attempt_id request))
    (queued_attempt request payload (er_attempt_number request) created)
    (ready_task request created).
Proof. intros Hv He. exists request. split; [by apply codec_roundtrip|]. done. Qed.

(** ** Retry *)

Definition retry_fence (command : RetryExpired) (now : Z) (e : EvaluationRow)
    (a : AttemptRow) : Prop :=
  e_state e = "leased" /\ a_state a = "leased" /\
  (exists expiry, a_lease_expires_at a = Some expiry /\ (expiry < now)%Z) /\
  er_attempt_number (re_request command) = (a_number a + 1)%Z /\
  exists current, decode_evaluation_request (a_payload a) = Ok current /\
    same_evaluation_semantics current (re_request command) = true.

Definition retried_db (request : EvaluationRequest) (payload : bytes) (now : Z) (db : Db)
    (e : EvaluationRow) (a : AttemptRow) (t : TaskRow) : Db :=
  let aid := id_str (er_attempt_id request) in
  put_rows db (id_str (er_evaluation_id request)) (requeue_evaluation aid now e)
    (<[aid := queued_attempt request payload (er_attempt_number request) now]>
       (<[e_current_attempt e := set_attempt_state "expired" now a]> (attempts db)))
    (<[aid := ready_task request now]>
       (<[e_current_attempt e := set_task_state "expired" now t]> (tasks db))).

Lemma evaluation_check_created eid e :
  evaluation_check eid e = true -> (e_created_at e <= e_updated_at e)%Z.
Proof. unfold evaluation_check, time_bound. rewrite !andb_true_iff, !in_range_true. lia. Qed.

Lemma open_no_result eid e a :
  evaluation_current eid e a -> e_state e = "queued" \/ e_state e = "leased" ->
  e_terminal_result e = None.
Proof.
  intros (_ & _ & _ & _ & Ht) Hs. destruct (e_terminal_result e); [|done].
  exfalso. apply (not_terminal_open _ Hs), Ht. done.
Qed.

Lemma replace_attempt_Ok request payload now db e a t u db' :
  Inv db -> valid request -> encode_evaluation_request request = Ok payload ->
  evaluations db !! id_str (er_evaluation_id request) = Some e ->
  attempts db !! e_current_attempt e = Some a -> tasks db !! e_current_attempt e = Some t ->
  e_state e = "leased" -> a_state a = "leased" ->
  er_attempt_number request = (a_number a + 1)%Z ->
  replace_attempt (e_current_attempt e) request payload now db = Ok (u, db') ->
  db' = retried_db request payload now db e a t /\ Inv db' /\ Evolves db db'.
Proof.
  intros Hi Hv Henc He Ha Ht Hes Has Hnum Hr.
  destruct (Inv_bundle db _ e Hi He) as (a0 & t0 & Ha0 & Ht0 & Hec & Hat & _).
  assert (a0 = a) as -> by congruence. assert (t0 = t) as -> by congruence.
  pose proof (open_no_result _ e a Hec ltac:(auto)) as Hnone.
  unfold replace_attempt, insert_task in Hr. inv_sql.
  apply (update_attempt_Ok _ _ _ a) in Hstmt as (Hc1 & Hx1 & ->); [|done].
  apply (update_task_Ok _ _ _ t) in Hstmt0 as (Hc2 & ->); [|done].
  apply (update_evaluation_Ok _ _ _ e) in Hstmt1 as (Hc3 & Hx3 & ->); [|done].
  apply insert_attempt_Ok in Hstmt2 as (Hc4 & Hf4 & Hx4 & _ & ->).
  apply insert_task_Ok in Hr as (Hc5 & _ & _ & ->). simpl in *.
  apply lookup_insert_None in Hf4 as [Hfresh Hne].
  split; [done|]. split.
  - eapply (retry_update db _ e a t); try done.
    + destruct Hat as (_ & Hcr & _). split; [done|]. split; [done|]. by split.
    + by apply queued_attempt_payload.
    + split; [done|]. split; [done|]. split; [done|].
      split; [by apply evaluation_check_created in Hc3|]. simpl. rewrite Hnone.
      split; [done|]. intros Hin. exfalso. revert Hin. apply not_terminal_open. auto.
  - eapply (retry_evolves db _ e a); try done.
    + split; [done| |congruence]. simpl. rewrite Hes. apply leased_requeue_moves.
    + split; [done| |congruence|by intros _ ?]. simpl. rewrite Has. apply leased_requeue_moves.
Qed.

Lemma retry_Ok command payload now db x db' :
  Inv db -> valid (re_request command) ->
  encode_evaluation_request (re_request command) = Ok payload ->
  retry_transaction command payload now db = Ok (x, db') ->
  ((exists aid a, attempts db !! aid = Some a /\
      a_idempotency_key a = key_str (er_idempotency_key (re_request command)) /\
      a_payload a = payload /\ x = Some (a_evaluation_id a) /\ db' = db) \/
   (exists e a t,
      current_attempt db (id_str (er_evaluation_id (re_request command))) = Some (e, a) /\
      tasks db !! e_current_attempt e = Some t /\ retry_fence command now e a /\
      x = None /\ db' = retried_db (re_request command) payload now db e a t)) /\
  Inv db' /\ Evolves db db'.
Proof.
  intros Hi Hv Henc Hr. unfold retry_transaction in Hr. inv_sql.
  destruct (select_first _ _) as [[aid a]|] eqn:Hs.
  - apply select_first_Some in Hs as [Ha Hk]. inv_sql. split_eqs.
    split; [left; by exists aid, a|]. split; [done|apply Evolves_refl].
  - inv_sql. destruct x0 as [e a].
    destruct (Inv_current_attempt db _ e a Hi Hlift) as (He & Ha & Hec & t & Ht & Hat & Hp).
    inv_sql. split_eqs.
    match goal with Hx : replace_attempt _ _ _ _ _ = Ok (?u, _) |- _ =>
      destruct (replace_attempt_Ok _ payload now db e a t u _ Hi Hv Henc He Ha Ht
        ltac:(done) ltac:(done) ltac:(done) Hx) as (-> & Hi' & Hev) end.
    split; [|done]. right. exists e, a, t.
    split; [done|]. split; [done|]. split; [|done]. split_and!; eauto.
Qed.

(** ** Creation *)

Lemma grows_refl db : grows db db.
Proof. by repeat split. Qed.

Lemma grows_trans db1 db2 db3 : grows db1 db2 -> grows db2 db3 -> grows db1 db3.
Proof.
  intros (?&?&?&?&?&?&?) (?&?&?&?&?&?&?). split_and!; try congruence; by etransitivity.
Qed.

Lemma register_artifact_Ok request db u db' :
  register_artifact request db = Ok (u, db') -> grows db db'.
Proof.
  unfold register_artifact. intros Hr. inv_sql. unfold insert_artifact in Hstmt.
  inv_stmt. destruct (has_key _ _) eqn:Hk; inv_ok; [apply grows_refl|].
  apply has_key_false in Hk. split_and!; simpl; try done. by apply insert_subseteq.
Qed.

Lemma register_problem_version_Ok request db u db' :
  register_problem_version request db = Ok (u, db') -> grows db db'.
Proof.
  unfold register_problem_version. intros Hr. inv_sql. unfold insert_problem_version in Hstmt.
  inv_stmt. destruct (has_key _ _) eqn:Hk; inv_ok; [apply grows_refl|].
  apply has_key_false in Hk. split_and!; simpl; try done. by apply insert_subseteq.
Qed.

Lemma register_submission_Ok request db u db' :
  register_submission request db = Ok (u, db') -> grows db db'.
Proof.
  unfold register_submission. intros Hr. inv_sql. unfold insert_submission in Hstmt.
  inv_stmt. destruct (has_key (submissions _) _) eqn:Hk; inv_stmt; [apply grows_refl|].
  apply has_key_false in Hk. split_and!; simpl; try done. by apply insert_subseteq.
Qed.

Lemma register_runtime_Ok request db u db' :
  register_runtime request db = Ok (u, db') -> grows db db'.
Proof.
  unfold register_runtime. intros Hr. inv_sql. unfold insert_runtime in Hstmt.
  inv_stmt. destruct (has_key _ _) eqn:Hk; inv_ok; [apply grows_refl|].
  apply has_key_false in Hk. split_and!; simpl; try done. by apply insert_subseteq.
Qed.

Definition initial_evaluation (request : EvaluationRequest) (payload : bytes)
    (created_at : Z) : EvaluationRow :=
  {| e_request_id := id_str (er_request_id request);
     e_creation_key := key_str (er_idempotency_key request);
     e_problem_version_id := id_str (pv_problem_version_id (er_problem_version request));
     e_submission_id := id_str (sub_submission_id (er_submission request));
     e_runtime_id := id_str (rt_runtime_id (er_runtime request));
     e_initial_request := payload; e_state := "queued";
     e_current_attempt := id_str (er_attempt_id request);
     e_terminal_result := None; e_result_key := None;
     e_created_at := created_at; e_updated_at := created_at |}.

Definition created_db (request : EvaluationRequest) (payload : bytes) (created_at : Z)
    (db1 : Db) : Db :=
  let aid := id_str (er_attempt_id request) in
  put_rows db1 (id_str (er_evaluation_id request))
    (initial_evaluation request payload created_at)
    (<[aid := queued_attempt request payload (er_attempt_number request) created_at]>
       (attempts db1))
    (<[aid := ready_task request created_at]> (tasks db1)).

Lemma create_Ok command payload db x db' :
  Inv db -> valid (ce_request command) ->
  encode_evaluation_request (ce_request command) = Ok payload ->
  create_transaction command payload db = Ok (x, db') ->
  ((exists eid e, evaluations db !! eid = Some e /\
      e_creation_key e = key_str (er_idempotency_key (ce_request command)) /\
      e_initial_request e = payload /\ x = Some eid /\ db' = db) \/
   (x = None /\
    evaluations db !! id_str (er_evaluation_id (ce_request command)) = None /\
    attempts db !! id_str (er_attempt_id (ce_request command)) = None /\
    exists db1, grows db db1 /\
      db' = created_db (ce_request command) payload (um_value (ce_created_at command)) db1)) /\
  Inv db' /\ Evolves db db'.
Proof.
  intros Hi Hv Henc Hc. unfold create_transaction in Hc. inv_sql.
  destruct (select_first _ _) as [[eid e]|] eqn:Hs.
  - apply select_first_Some in Hs as [He Hk]. inv_sql. split_eqs.
    split; [left; by exists eid, e|]. split; [done|apply Evolves_refl].
  - apply sql_bind_Ok in Hc as (u1 & d1 & Hg1%register_artifact_Ok & Hc).
    apply sql_bind_Ok in Hc as (u2 & d2 & Hg2%register_problem_version_Ok & Hc).
    apply sql_bind_Ok in Hc as (u3 & d3 & Hg3%register_submission_Ok & Hc).
    apply sql_bind_Ok in Hc as (u4 & d4 & Hg4%register_runtime_Ok & Hc).
    assert (Hg : grows db d4) by eauto using grows_trans. clear Hg1 Hg2 Hg3 Hg4.
    unfold insert_evaluation, insert_attempt, insert_task in Hc. inv_sql.
    unfold i64_try_from in Hlift. inv_ok. split_eqs.
    apply insert_evaluation_Ok in Hstmt as (Hc1 & Hf1 & Hx1 & Href & ->).
    apply insert_attempt_Ok in Hstmt0 as (Hc2 & Hf2 & Hx2 & _ & ->).
    apply insert_task_Ok in Hstmt1 as (Hc3 & Hf3 & _ & ->). simpl in *.
    pose proof Hg as (_ & _ & _ & _ & Hge & Hga & Hgt).
    rewrite Hge in Hf1, Hx1. rewrite Hga in Hf2, Hx2. rewrite Hgt in Hf3.
    split; [right; split_and!; try done; by exists d4|]. split.
    + eapply (create_update db d4); try done.
      * split_and!; try done. simpl. split; [done|].
        intros Hin. exfalso. revert Hin. apply not_terminal_open. auto.
      * by apply queued_attempt_payload.
    + by eapply (create_evolves db d4).
Qed.
End Writes.
