(* ===== verification/StoreSystem.v ===== *)
(** * Concurrent callers of the store

    A system of concurrent store operations over one database: callers start
    operations at any time, transactions of different callers interleave, a
    connection may be lost before a transaction takes effect or after it
    committed, and entropy is arbitrary. The invariant holds in every reachable
    state and the rows only ever evolve forward, whatever the interleaving. *)

From S2P Require Import Prelude Value Control Evaluation EvalResult Codec Policy Schema Store Lease StoreLemmas StoreInv StoreSteps StoreWrites.
From stdpp Require Import relations.

(** ** One operation *)

Inductive op_step {A : Type} : Op A * Db -> Op A * Db -> Prop :=
  | step_commit B (t : gset string -> Sql B) k locked db b db' :
      t locked db = Ok (b, db') -> op_step (Tx t k, db) (k (Ok b), db')
  | step_rollback B (t : gset string -> Sql B) k locked db e :
      t locked db = Err e -> op_step (Tx t k, db) (k (Err e), db)
  | step_lost B (t : gset string -> Sql B) k db :
      op_step (Tx t k, db) (k (Err StoreError.Unavailable), db)
  | step_lost_reply B (t : gset string -> Sql B) k locked db b db' :
      t locked db = Ok (b, db') ->
      op_step (Tx t k, db) (k (Err StoreError.Unavailable), db')
  | step_draw k d db : op_step (Draw k, db) (k d, db).

(** ** The store's interface *)

Section System.
Context `{Collation, RequestCodecLaws}.

(** The calls a client of the store can make, with the validity Rust's types
    give their arguments. *)
Inductive StoreCall : forall A : Type, Op A -> Prop :=
  | call_create c : valid (ce_request c) -> StoreCall _ (create_evaluation c)
  | call_status id : StoreCall _ (evaluation_status id)
  | call_claim c : valid (ct_now c) -> valid (ct_lease_duration c) ->
      StoreCall _ (claim_task c)
  | call_judge_claim c : valid (jc_now c) -> valid (jc_lease_policy c) ->
      StoreCall _ (judge_claim_task c)
  | call_renew c : valid (jr_now c) -> valid (jr_lease_policy c) ->
      StoreCall _ (judge_renew_lease c)
  | call_retry c : valid (re_request c) -> StoreCall _ (retry_expired c)
  | call_recover fuel now : StoreCall _ (recover_expired fuel now)
  | call_submit c : StoreCall _ (submit_result c)
  | call_judge_submit c : StoreCall _ (judge_submit_result c)
  | call_cancel c : StoreCall _ (cancel_evaluation c).

Definition Caller : Type := { A : Type & Op A }.

Inductive system_step : list Caller * Db -> list Caller * Db -> Prop :=
  | system_op pre post A (op op' : Op A) db db' :
      op_step (op, db) (op', db') ->
      system_step (pre ++ existT A op :: post, db) (pre ++ existT A op' :: post, db')
  | system_start ops A (op : Op A) db :
      StoreCall A op -> system_step (ops, db) (ops ++ [existT A op], db).

Definition reachable (ops : list Caller) (db : Db) : Prop :=
  rtc system_step ([], empty_db) (ops, db).

(** ** Safe operations *)

Definition guarantee {B : Type} (t : gset string -> Sql B) : Prop :=
  forall locked db b db', Inv db -> t locked db = Ok (b, db') -> Inv db' /\ Evolves db db'.

Fixpoint op_safe {A : Type} (op : Op A) : Prop :=
  match op with
  | Done _ | OutOfFuel => True
  | Tx t k => guarantee t /\ forall r, op_safe (k r)
  | Draw k => forall d, op_safe (k d)
  end.

Lemma op_then_safe {A B} (m : Op A) (k : result StoreError.t A -> Op B) :
  op_safe m -> (forall r, op_safe (k r)) -> op_safe (op_then m k).
Proof.
  intros Hm Hk. induction m as [r|C t k' IH|k' IH|]; simpl in *; [done| |auto|done].
  destruct Hm as [Ht Hm]. auto.
Qed.

Lemma op_try_safe {A B} (r : result StoreError.t B) (k : B -> Op A) :
  (forall b, r = Ok b -> op_safe (k b)) -> op_safe (op_try r k).
Proof. intros Hk. destruct r; simpl; [by apply Hk | done]. Qed.

(** A query leaves the tables as they are. *)
Definition read_only {B : Type} (m : Sql B) : Prop :=
  forall db b db', m db = Ok (b, db') -> db' = db.

Lemma read_only_guarantee {B} (m : Sql B) : read_only m -> guarantee (fun _ => m).
Proof.
  intros Hr locked db b db' Hi Hm. apply Hr in Hm as ->. split; [done|apply Evolves_refl].
Qed.

Lemma status_read_only id : read_only (status_query id).
Proof. intros db b db' Hs. unfold status_query in Hs. inv_sql. destruct x. by inv_sql. Qed.

Lemma replay_read_only c : read_only (claim_replay_query c).
Proof.
  intros db b db' Hs. unfold claim_replay_query in Hs. inv_sql.
  destruct (select_first _ _) as [[? ?]|]; by inv_sql.
Qed.

Lemma owner_read_only id : read_only (owner_query id).
Proof.
  intros db b db' Hs. unfold owner_query in Hs. inv_sql.
  destruct (current_attempt _ _) as [[? ?]|]; by inv_sql.
Qed.

Lemma expired_read_only now : read_only (expired_query now).
Proof. intros db b db' Hs. unfold expired_query in Hs. by inv_sql. Qed.

Lemma status_safe id : op_safe (evaluation_status id).
Proof.
  split; [apply read_only_guarantee, status_read_only | done].
Qed.

Lemma stored_status_safe s : op_safe (status_of_stored s).
Proof. apply op_try_safe. intros. apply status_safe. Qed.

Lemma create_safe c : valid (ce_request c) -> op_safe (create_evaluation c).
Proof.
  intros Hv. apply op_try_safe. intros payload Hp%map_err_Ok_inv. split.
  - intros locked db b db' Hi Ht. by eapply create_Ok in Ht as [_ ?].
  - intros r. apply op_try_safe. intros [s|] _; [apply stored_status_safe|apply status_safe].
Qed.

Lemma claim_with_safe c op caps :
  valid (ct_now c) -> valid (ct_lease_duration c) ->
  op_safe (claim_task_with_capabilities c op caps).
Proof.
  intros Hn Hd. apply op_try_safe. intros e He%map_err_Ok_inv.
  apply op_try_safe. intros now Hnow. apply op_try_safe. intros expiry Hexp.
  unfold i64_try_from in *. inv_ok.
  split.
  - intros locked db b db' Hi Ht. apply claim_Ok in Ht; [|done|].
    + destruct Ht as (? & ? & ? & _ & _ & _ & _ & _ & _ & _ & ?). done.
    + apply checked_add_Ok_inv in He as [-> _]; [|done|done].
      unfold valid, valid_duration in Hd. lia.
  - intros r. by apply op_try_safe.
Qed.

Lemma judge_claim_safe c :
  valid (jc_now c) -> valid (jc_lease_policy c) -> op_safe (judge_claim_task c).
Proof.
  intros Hn Hp. constructor; [apply read_only_guarantee, replay_read_only|].
  intros r. apply op_try_safe. intros [l|] _; [done|].
  apply claim_with_safe; [done|apply Hp].
Qed.

Lemma renew_safe c :
  valid (jr_now c) -> valid (jr_lease_policy c) -> op_safe (judge_renew_lease c).
Proof.
  intros Hn Hp. apply op_try_safe. intros e He%map_err_Ok_inv.
  apply op_try_safe. intros now Hnow. apply op_try_safe. intros expiry Hexp.
  unfold i64_try_from in *. inv_ok.
  split; [|done]. intros locked db b db' Hi Ht. apply renew_Ok in Ht; [|done|].
  - by destruct Ht as (? & ? & _ & _ & ?).
  - apply checked_add_Ok_inv in He as [-> _]; [|done|apply Hp].
    destruct Hp as [Hd _]. unfold valid, valid_duration in Hd. lia.
Qed.

Lemma retry_safe c : valid (re_request c) -> op_safe (retry_expired c).
Proof.
  intros Hv. apply op_try_safe. intros now _. apply op_try_safe.
  intros payload Hp%map_err_Ok_inv. split.
  - intros locked db b db' Hi Ht. by eapply retry_Ok in Ht as [_ ?].
  - intros r. apply op_try_safe. intros [s|] _; [apply stored_status_safe|apply status_safe].
Qed.

Lemma next_attempt_id_valid d a : next_attempt_id d = Ok a -> valid a.
Proof.
  unfold next_attempt_id. intros Hn. inv_ok. apply map_err_Ok_inv in Hn.
  by apply id_parse_iff in Hn as [_ ?].
Qed.

Lemma next_key_valid d k : next_idempotency_key d = Ok k -> valid k.
Proof.
  unfold next_idempotency_key. intros Hn. inv_ok. apply map_err_Ok_inv in Hn.
  by apply IdempotencyKey_parse_iff in Hn as [_ ?].
Qed.

Lemma with_next_attempt_valid r a k n :
  valid r -> valid a -> valid k -> EvaluationRequest_with_next_attempt r a k = Ok n ->
  n = next_attempt_of r a k /\ valid n.
Proof.
  intros Hr Ha Hk Hn. rewrite with_next_attempt_spec in Hn by done.
  destruct (Z.ltb_spec (er_attempt_number r) u32_max); inv_ok.
  split; [done|]. by apply next_attempt_valid.
Qed.

Lemma recover_safe fuel now : op_safe (recover_expired fuel now).
Proof.
  apply op_try_safe. intros now_ms _. generalize 0%Z.
  induction fuel as [|fuel IH]; intros n; simpl; [done|].
  split; [apply read_only_guarantee, expired_read_only|].
  intros r. apply op_try_safe. intros [payload|] _; [|done].
  apply op_try_safe. intros current Hc%map_err_Ok_inv%codec_decoded_valid.
  intros d1. apply op_try_safe. intros a Ha%next_attempt_id_valid.
  intros d2. apply op_try_safe. intros k Hk%next_key_valid.
  apply op_try_safe. intros next Hn%map_err_Ok_inv.
  apply with_next_attempt_valid in Hn as [_ Hn]; [|done..].
  apply op_then_safe; [by apply retry_safe|].
  intros [?|[]]; auto; done.
Qed.

Lemma submit_safe c : op_safe (submit_result c).
Proof.
  apply op_try_safe. intros payload _. apply op_try_safe. intros now _. split.
  - intros locked db b db' Hi Ht. apply submit_Ok in Ht; [|done].
    by destruct Ht as (? & ? & ? & _ & _ & _ & ?).
  - intros r. apply op_try_safe. intros. apply status_safe.
Qed.

Lemma judge_submit_safe c : op_safe (judge_submit_result c).
Proof.
  unfold judge_submit_result. destruct (negb _); [done|].
  split; [apply read_only_guarantee, owner_read_only|].
  intros r. apply op_try_safe. intros owner _. destruct (negb _); [done|].
  apply op_try_safe. intros. apply submit_safe.
Qed.

Lemma cancel_safe c : op_safe (cancel_evaluation c).
Proof.
  unfold cancel_evaluation. destruct (_ || _); [done|].
  apply op_try_safe. intros payload _. apply op_try_safe. intros now _. split.
  - intros locked db b db' Hi Ht. apply cancel_Ok in Ht; [|done].
    by destruct Ht as (? & ? & ? & _ & _ & _ & ?).
  - intros r. apply op_try_safe. intros. apply status_safe.
Qed.

Lemma store_call_safe A op : StoreCall A op -> op_safe op.
Proof.
  destruct 1; auto using create_safe, status_safe, judge_claim_safe, renew_safe, retry_safe,
    recover_safe, submit_safe, judge_submit_safe, cancel_safe.
  by apply claim_with_safe.
Qed.

(** ** The system *)

Definition callers_safe (ops : list Caller) : Prop := Forall (fun c => op_safe (projT2 c)) ops.

Lemma op_step_safe {A} (op op' : Op A) db db' :
  op_step (op, db) (op', db') -> Inv db -> op_safe op ->
  op_safe op' /\ Inv db' /\ Evolves db db'.
Proof.
  intros Hs Hi Hsafe. remember (op, db) as x eqn:Ex. remember (op', db') as y eqn:Ey.
  destruct Hs as [B t k l d b d' Ht|B t k l d e Ht|B t k d|B t k l d b d' Ht|k d0 d];
    injection Ex as <- <-; injection Ey as <- <-; simpl in Hsafe;
    try (destruct Hsafe as [Hg Hk]);
    try (destruct (Hg _ _ _ _ Hi Ht) as [? ?]); auto using Evolves_refl.
Qed.

Lemma system_step_safe ops db ops' db' :
  system_step (ops, db) (ops', db') -> Inv db -> callers_safe ops ->
  callers_safe ops' /\ Inv db' /\ Evolves db db'.
Proof.
  intros Hs Hi Hc. unfold callers_safe in *. inversion Hs; subst.
  - apply Forall_app in Hc as [Hpre [Hop Hpost]%Forall_cons].
    edestruct @op_step_safe as (Hop' & Hi' & Hev); [done|done|exact Hop|].
    split; [|done]. apply Forall_app. split; [done|]. by constructor.
  - split; [|by split; [|apply Evolves_refl]]. apply Forall_app. split; [done|].
    constructor; [|constructor]. by eapply store_call_safe.
Qed.

Lemma system_run_safe x y :
  rtc system_step x y -> Inv (snd x) -> callers_safe (fst x) ->
  callers_safe (fst y) /\ Inv (snd y) /\ rtc Evolves (snd x) (snd y).
Proof.
  induction 1 as [x|[o1 d1] [o2 d2] z Hs _ IH]; intros Hi Hc; [by split_and!|].
  destruct (system_step_safe _ _ _ _ Hs Hi Hc) as (Hc2 & Hi2 & Hev).
  destruct (IH Hi2 Hc2) as (Hc3 & Hi3 & Hev3). split; [done|]. split; [done|].
  by eapply rtc_l.
Qed.

Lemma reachable_Inv ops db : reachable ops db -> Inv db.
Proof.
  intros Hr. apply system_run_safe in Hr as (_ & Hi & _); [done|apply Inv_empty|constructor].
Qed.

Lemma reachable_evolves ops db ops' db' :
  reachable ops db -> rtc system_step (ops, db) (ops', db') -> Inv db' /\ rtc Evolves db db'.
Proof.
  intros Hr Hs. pose proof Hr as Hr0.
  apply system_run_safe in Hr as (Hc & Hi & _); [|apply Inv_empty|constructor].
  by apply (system_run_safe (ops, db)) in Hs as (_ & ? & ?).
Qed.
End System.
