(* ===== verification/StoreRuns.v ===== *)
(** * Runs of store operations

    What an operation answers when its connection is up and nothing runs beside
    it: the executable runner [run_op], the status query, replays, the
    lease-fencing and conflict branches of every transaction, and the recovery
    loop. *)

From S2P Require Import Prelude Value Control Evaluation EvalResult Codec Policy Schema Store Lease StoreLemmas StoreInv StoreSteps StoreWrites StoreSystem.
From stdpp Require Import relations.

(** Run an operation alone on a reachable connection; the entropy is a list of
    draws, and an exhausted list is a failing generator. [None] is a loop that
    ran out of fuel. *)
Fixpoint run_op {A : Type} (op : Op A) (draws : list (option string)) (db : Db)
    : option (result StoreError.t A) * list (option string) * Db :=
  match op with
  | Done r => (Some r, draws, db)
  | OutOfFuel => (None, draws, db)
  | Tx t k =>
      match t ∅ db with
      | Ok (b, db') => run_op (k (Ok b)) draws db'
      | Err e => run_op (k (Err e)) draws db
      end
  | Draw k =>
      match draws with
      | [] => run_op (k None) [] db
      | d :: draws' => run_op (k d) draws' db
      end
  end.

Lemma run_op_then {A B} (m : Op A) (k : result StoreError.t A -> Op B) draws db :
  run_op (op_then m k) draws db =
  match run_op m draws db with
  | (Some r, draws', db') => run_op (k r) draws' db'
  | (None, draws', db') => (None, draws', db')
  end.
Proof.
  revert draws db; induction m as [r|C t k' IH|k' IH|]; intros draws db; simpl; try done.
  - by destruct (t ∅ db) as [[b db']|e]; rewrite IH.
  - by destruct draws; rewrite IH.
Qed.

Section Runs.
Context `{Collation, RequestCodecLaws}.

(** A run keeps the invariant and only moves the tables forward. *)
Lemma run_op_safe {A} (op : Op A) draws db x ds db' :
  op_safe op -> Inv db -> run_op op draws db = (x, ds, db') -> Inv db' /\ rtc Evolves db db'.
Proof.
  revert draws db. induction op as [r|B t k IH|k IH|]; intros draws db Hs Hi Hrun; simpl in *.
  - injection Hrun as _ _ <-. done.
  - destruct Hs as [Hg Hk]. destruct (t ∅ db) as [[b db1]|e] eqn:Ht; [|by eapply IH].
    destruct (Hg _ _ _ _ Hi Ht) as [Hi1 Hev].
    destruct (IH _ draws db1 (Hk _) Hi1 Hrun) as [? Hev']. split; [done|]. by eapply rtc_l.
  - destruct draws; by eapply IH.
  - injection Hrun as _ _ <-. done.
Qed.

(** ** Status *)

Lemma evaluation_state_parse s :
  evaluation_state_from_str (EvaluationState.as_str s) = Ok s.
Proof. by destruct s. Qed.

Lemma attempt_state_parse s : attempt_state_from_str (AttemptState.as_str s) = Ok s.
Proof. by destruct s. Qed.

Lemma evaluation_state_typed eid e :
  evaluation_check eid e = true -> exists s, e_state e = EvaluationState.as_str s.
Proof.
  intros Hc. unfold evaluation_check in Hc.
  assert (Hs : one_of_strings evaluation_states (e_state e) = true) by (split_eqs; done).
  apply one_of_strings_true in Hs. unfold evaluation_states in Hs.
  repeat (apply elem_of_cons in Hs as [->|Hs];
    [first [by exists EvaluationState.Queued | by exists EvaluationState.Leased
      | by exists EvaluationState.Completed | by exists EvaluationState.Failed
      | by exists EvaluationState.Cancelled]|]).
  by apply not_elem_of_nil in Hs.
Qed.

Lemma attempt_state_typed aid a :
  attempt_check aid a = true -> exists s, a_state a = AttemptState.as_str s.
Proof.
  intros Hc. unfold attempt_check in Hc.
  assert (Hs : one_of_strings attempt_states (a_state a) = true) by (split_eqs; done).
  apply one_of_strings_true in Hs. unfold attempt_states in Hs.
  repeat (apply elem_of_cons in Hs as [->|Hs];
    [first [by exists AttemptState.Queued | by exists AttemptState.Leased
      | by exists AttemptState.Completed | by exists AttemptState.Failed
      | by exists AttemptState.Cancelled | by exists AttemptState.Expired]|]).
  by apply not_elem_of_nil in Hs.
Qed.

Lemma attempt_check_number aid a :
  attempt_check aid a = true -> (1 <= a_number a <= u32_max)%Z.
Proof.
  unfold attempt_check, u32_max. rewrite !andb_true_iff, !in_range_true. lia.
Qed.

(** The snapshot that shows the rows of an evaluation. *)
Definition shows (s : EvaluationSnapshot) (id : EvaluationId) (e : EvaluationRow)
    (a : AttemptRow) : Prop :=
  es_evaluation_id s = id /\ EvaluationState.as_str (es_state s) = e_state e /\
  id_str (es_current_attempt_id s) = e_current_attempt e /\
  es_attempt_number s = a_number a /\ AttemptState.as_str (es_attempt_state s) = a_state a /\
  (es_terminal_result s = true <-> e_terminal_result e <> None).

Lemma status_spec db id :
  Inv db -> valid id ->
  match current_attempt db (id_str id) with
  | None => status_query id db = Err StoreError.NotFound
  | Some (e, a) => exists s, status_query id db = Ok (s, db) /\ shows s id e a
  end.
Proof.
  intros Hi Hv. unfold status_query, sql_bind, sql_get, sql_lift, corrupt.
  destruct (current_attempt db (id_str id)) as [[e a]|] eqn:Hc; [|done].
  destruct (Inv_current_attempt db _ e a Hi Hc) as (He & Ha & Hec & t & Ht & Hat & Hp).
  destruct Hp as (r & Hd & Hr & Haid & Heid & Hn & _).
  destruct (evaluation_state_typed _ e (inv_evaluation_check db Hi _ e He)) as [se Hse].
  pose proof (inv_attempt_check db Hi _ a Ha) as Hca.
  destruct (attempt_state_typed _ a Hca) as [sa Hsa].
  simpl. rewrite Hd. simpl.
  destruct Hec as (Hid & _). rewrite Haid, Heid, Hn, Hid, !String.eqb_refl, Z.eqb_refl. simpl.
  unfold snapshot, corrupt.
  rewrite (proj2 (id_parse_iff _ id)) by (split; [by destruct id|done]).
  rewrite Hse, evaluation_state_parse, Hsa, attempt_state_parse.
  rewrite <- Haid, (proj2 (id_parse_iff _ (er_attempt_id r)))
    by (split; [by destruct (er_attempt_id r)|apply Hr]).
  assert (Hu : u32_try_from StoreError.CorruptData (a_number a) = Ok (a_number a)).
  { apply attempt_check_number in Hca. unfold u32_try_from. rewrite (proj2 (Z.leb_le 0 _)), (proj2 (Z.leb_le _ u32_max));
      [done|lia|lia]. }
  simpl. rewrite Hu. simpl. eexists. split; [done|].
  split_and!; try done. simpl. by destruct (e_terminal_result e).
Qed.

Lemma run_status db id draws :
  Inv db -> valid id ->
  match current_attempt db (id_str id) with
  | None => run_op (evaluation_status id) draws db = (Some (Err StoreError.NotFound), draws, db)
  | Some (e, a) =>
      exists s, run_op (evaluation_status id) draws db = (Some (Ok s), draws, db) /\
        shows s id e a
  end.
Proof.
  intros Hi Hv. pose proof (status_spec db id Hi Hv) as Hs. unfold evaluation_status, tx. simpl.
  destruct (current_attempt db (id_str id)) as [[e a]|].
  - destruct Hs as (s & -> & Hs). eauto.
  - by rewrite Hs.
Qed.

(** A run of a transaction that fails, or reads, on its own. *)
Lemma run_tx {A B} (m : Sql B) (k : result StoreError.t B -> Op A) draws db :
  run_op (tx m k) draws db =
  match m db with
  | Ok (b, db') => run_op (k (Ok b)) draws db'
  | Err e => run_op (k (Err e)) draws db
  end.
Proof. done. Qed.

Lemma transaction_read {A} (body : Sql A) db a :
  Inv db -> body db = Ok (a, db) -> transaction body db = Ok (a, db).
Proof. intros Hi Hb. apply transaction_Ok. split; [done|]. by apply Inv_commit. Qed.

Lemma Inv_eid_valid db eid e :
  Inv db -> evaluations db !! eid = Some e -> valid (MkId eid : EvaluationId).
Proof.
  intros Hi He. destruct (Inv_bundle db eid e Hi He) as (a & t & _ & _ & (Hid & _) & _ & Hp).
  destruct Hp as (r & _ & Hv & _ & Heid & _). rewrite <- Hid, <- Heid.
  destruct Hv as ((_ & _ & Hv & _) & _). by destruct (er_evaluation_id r).
Qed.

Lemma run_status_row db id e draws :
  Inv db -> evaluations db !! id_str id = Some e ->
  exists s a, run_op (evaluation_status id) draws db = (Some (Ok s), draws, db) /\
    attempts db !! e_current_attempt e = Some a /\ shows s id e a.
Proof.
  intros Hi He. pose proof (Inv_eid_valid db _ e Hi He) as Hv.
  assert (Hvid : valid id) by (by destruct id).
  pose proof (run_status db id draws Hi Hvid) as Hs.
  destruct (Inv_bundle db _ e Hi He) as (a & t & Ha & _).
  unfold current_attempt in Hs. rewrite He, Ha in Hs. destruct Hs as (s & Hs & Hsh). eauto.
Qed.

(** ** Replayed creations *)

Lemma create_replay_run c payload eid e draws db :
  Inv db -> encode_evaluation_request (ce_request c) = Ok payload ->
  evaluations db !! eid = Some e ->
  e_creation_key e = key_str (er_idempotency_key (ce_request c)) ->
  if bool_decide (e_initial_request e = payload)
  then exists s a, run_op (create_evaluation c) draws db = (Some (Ok s), draws, db) /\
         attempts db !! e_current_attempt e = Some a /\ shows s (MkId eid) e a
  else run_op (create_evaluation c) draws db
         = (Some (Err StoreError.IdempotencyConflict), draws, db).
Proof.
  intros Hi Henc He Hk. unfold create_evaluation. rewrite Henc. simpl op_try.
  assert (Hsel : select_first
    (fun _ r => String.eqb (e_creation_key r) (key_str (er_idempotency_key (ce_request c))))
    (evaluations db) = Some (eid, e)).
  { apply select_first_unique; [done|by rewrite Hk, String.eqb_refl|].
    intros j r' Hj Hr'. apply String.eqb_eq in Hr'.
    apply (inv_creation_unique db Hi j eid r' e (e_creation_key e)); try done.
    unfold creation_key. congruence. }
  case_bool_decide as Hp; rewrite run_tx.
  - assert (Hct : create_transaction c payload db = Ok (Some eid, db)).
    { apply transaction_read; [done|]. unfold sql_bind, sql_get. rewrite Hsel.
      by rewrite Hp, String.eqb_refl. }
    rewrite Hct. simpl op_try. unfold status_of_stored, corrupt.
    rewrite (proj2 (id_parse_iff eid (MkId eid)))
      by (split; [done|by eapply Inv_eid_valid]). simpl map_err. simpl op_try.
    by apply run_status_row.
  - assert (Hct : create_transaction c payload db = Err StoreError.IdempotencyConflict).
    { apply transaction_Err. unfold sql_bind, sql_get. rewrite Hsel.
      apply String.eqb_neq in Hp. by rewrite Hp. }
    by rewrite Hct.
Qed.

(** ** First terminal wins *)

(** The answer to a terminal write on an evaluation that already has a
    result: the stored one replayed, or a conflict. *)
Definition terminal_answer (e : EvaluationRow) (key payload : string)
    : result StoreError.t unit :=
  if bool_decide (e_result_key e = Some key) then
    if bool_decide (e_terminal_result e = Some payload) then Ok tt
    else Err StoreError.IdempotencyConflict
  else Err StoreError.TerminalConflict.

Lemma current_attempt_row db eid e :
  Inv db -> evaluations db !! eid = Some e ->
  exists a, attempts db !! e_current_attempt e = Some a /\
    current_attempt db eid = Some (e, a).
Proof.
  intros Hi He. destruct (Inv_bundle db eid e Hi He) as (a & t & Ha & _).
  exists a. split; [done|]. unfold current_attempt. by rewrite He, Ha.
Qed.

Lemma submit_terminal_run c payload now e draws db :
  Inv db -> encode_evaluation_result (sr_result c) = Ok payload ->
  i64_try_from StoreError.InvalidTime (um_value (sr_now c)) = Ok now ->
  evaluations db !! id_str (ei_evaluation_id (res_identity (sr_result c))) = Some e ->
  e_terminal_result e <> None ->
  match terminal_answer e (key_str (sr_idempotency_key c)) payload with
  | Ok _ => exists s a, run_op (submit_result c) draws db = (Some (Ok s), draws, db) /\
              attempts db !! e_current_attempt e = Some a /\
              shows s (ei_evaluation_id (res_identity (sr_result c))) e a
  | Err x => run_op (submit_result c) draws db = (Some (Err x), draws, db)
  end.
Proof.
  intros Hi Henc Hnow He Hterm. unfold submit_result. rewrite Henc. simpl op_try.
  rewrite Hnow. simpl op_try. rewrite run_tx.
  destruct (current_attempt_row db _ e Hi He) as (a & Ha & Hc).
  unfold terminal_answer. destruct (e_terminal_result e) as [p|] eqn:Hp; [|done].
  unfold submit_transaction, transaction, sql_bind, sql_get, sql_lift. rewrite Hc. simpl ok_or.
  cbn iota beta. rewrite Hp. case_bool_decide as Hkey; [|done].
  case_bool_decide as Hpay.
  - injection Hpay as ->. rewrite String.eqb_refl. simpl.
    rewrite (Inv_commit db Hi). simpl. by apply run_status_row.
  - assert (Hne : String.eqb p payload = false) by (apply String.eqb_neq; congruence).
    by rewrite Hne.
Qed.

Lemma cancel_terminal_run c payload now e draws db :
  Inv db -> encode_evaluation_result (cc_result c) = Ok payload ->
  i64_try_from StoreError.InvalidTime (um_value (cc_now c)) = Ok now ->
  res_status (cc_result c) = EvaluationStatus.Cancelled ->
  ei_evaluation_id (res_identity (cc_result c)) = cc_evaluation_id c ->
  evaluations db !! id_str (cc_evaluation_id c) = Some e ->
  e_terminal_result e <> None ->
  match terminal_answer e (key_str (cc_idempotency_key c)) payload with
  | Ok _ => exists s a, run_op (cancel_evaluation c) draws db = (Some (Ok s), draws, db) /\
              attempts db !! e_current_attempt e = Some a /\
              shows s (cc_evaluation_id c) e a
  | Err x => run_op (cancel_evaluation c) draws db = (Some (Err x), draws, db)
  end.
Proof.
  intros Hi Henc Hnow Hst Hid He Hterm. unfold cancel_evaluation.
  rewrite Hst, Hid, !bool_decide_true by done. simpl orb. cbn iota. rewrite Henc. simpl op_try.
  rewrite Hnow. simpl op_try. rewrite run_tx.
  destruct (current_attempt_row db _ e Hi He) as (a & Ha & Hc).
  unfold terminal_answer. destruct (e_terminal_result e) as [p|] eqn:Hp; [|done].
  unfold cancel_transaction, transaction, sql_bind, sql_get, sql_lift. rewrite Hc. simpl ok_or.
  cbn iota beta. rewrite Hp. case_bool_decide as Hkey; [|done].
  case_bool_decide as Hpay.
  - injection Hpay as ->. rewrite String.eqb_refl. simpl.
    rewrite (Inv_commit db Hi). simpl. by apply run_status_row.
  - assert (Hne : String.eqb p payload = false) by (apply String.eqb_neq; congruence).
    by rewrite Hne.
Qed.

(** ** Stale leases *)

(** The lease a submission claims to hold is the live one. *)
Definition lease_held (c : SubmitResult) (now : Z) (e : EvaluationRow) (a : AttemptRow)
    : Prop :=
  e_state e = "leased" /\
  e_current_attempt e = id_str (ei_attempt_id (res_identity (sr_result c))) /\
  a_lease_token a = Some (id_str (sr_lease_token c)) /\
  exists expiry, a_lease_expires_at a = Some expiry /\ (now <= expiry)%Z.

Lemma submit_stale_run c payload now e a draws db :
  Inv db -> encode_evaluation_result (sr_result c) = Ok payload ->
  i64_try_from StoreError.InvalidTime (um_value (sr_now c)) = Ok now ->
  current_attempt db (id_str (ei_evaluation_id (res_identity (sr_result c)))) = Some (e, a) ->
  e_terminal_result e = None -> ~ lease_held c now e a ->
  run_op (submit_result c) draws db = (Some (Err StoreError.StaleLease), draws, db).
Proof.
  intros Hi Henc Hnow Hc Hnone Hstale. unfold submit_result. rewrite Henc. simpl op_try.
  rewrite Hnow. simpl op_try. rewrite run_tx.
  destruct (Inv_current_attempt db _ e a Hi Hc) as (He & Ha & Hec & t & Ht & Hat & _).
  enough (Hsub : submit_transaction c payload now db = Err StoreError.StaleLease)
    by by rewrite Hsub.
  apply transaction_Err. unfold sql_bind, sql_get, sql_lift. rewrite Hc. simpl ok_or.
  cbn iota beta. rewrite Hnone.
  destruct (String.eqb_spec (e_state e) "leased") as [Hs|]; [|done].
  assert (Hsa : a_state a = "leased") by (destruct Hec as (_ & Hx & _); congruence).
  rewrite Hsa, String.eqb_refl. simpl negb.
  destruct (String.eqb_spec (e_current_attempt e)
    (id_str (ei_attempt_id (res_identity (sr_result c))))) as [Hcur|]; [|done].
  destruct Hat as (_ & _ & _ & Hl). destruct (Hl Hsa) as (n & k & x & _ & Hk & Hx & _).
  simpl. rewrite Hk. simpl.
  destruct (String.eqb_spec k (id_str (sr_lease_token c))) as [->|]; [|done].
  simpl. rewrite Hx. simpl. destruct (Z.ltb_spec x now); [done|].
  destruct Hstale. split_and!; eauto.
Qed.

(** ** Re-queued attempts

    After a recovery the current attempt is queued and its lease columns are
    NULL. *)

Lemma requeued_columns db eid e a :
  Inv db -> current_attempt db eid = Some (e, a) -> a_state a = "queued" ->
  a_node_id a = None /\ a_lease_token a = None.
Proof.
  intros Hi Hc Hs. destruct (Inv_current_attempt db _ e a Hi Hc) as (_ & _ & _ & t & _ & Hat & _).
  destruct Hat as (_ & _ & Hq & _). by destruct (Hq Hs) as (? & ? & _).
Qed.

Lemma judge_submit_requeued_run c e a draws db :
  Inv db ->
  pr_node_id (res_provenance (js_result c)) = Some (js_node_id c) ->
  current_attempt db (id_str (ei_evaluation_id (res_identity (js_result c)))) = Some (e, a) ->
  a_state a = "queued" ->
  run_op (judge_submit_result c) draws db = (Some (Err StoreError.Unavailable), draws, db).
Proof.
  intros Hi Hn Hc Hs. destruct (requeued_columns db _ e a Hi Hc Hs) as [Hnode _].
  unfold judge_submit_result. rewrite Hn, bool_decide_true by done. simpl negb. cbn iota.
  rewrite run_tx. unfold owner_query, sql_bind, sql_get. rewrite Hc, Hnode. done.
Qed.

Lemma renew_requeued_run c expires_at now expiry e a draws db :
  Inv db ->
  UnixMillis_checked_add (jr_now c) (lp_lease_duration (jr_lease_policy c)) = Ok expires_at ->
  i64_try_from StoreError.InvalidTime (um_value (jr_now c)) = Ok now ->
  i64_try_from StoreError.InvalidTime (um_value expires_at) = Ok expiry ->
  current_attempt db (id_str (jr_evaluation_id c)) = Some (e, a) ->
  a_state a = "queued" ->
  run_op (judge_renew_lease c) draws db = (Some (Err StoreError.CorruptData), draws, db).
Proof.
  intros Hi Hadd Hnow Hexp Hc Hs. destruct (requeued_columns db _ e a Hi Hc Hs) as [Hnode _].
  destruct (Inv_current_attempt db _ e a Hi Hc) as (_ & _ & (_ & Hse & _) & _).
  unfold judge_renew_lease. rewrite Hadd. simpl op_try. rewrite Hnow. simpl op_try.
  rewrite Hexp. simpl op_try. rewrite run_tx.
  enough (Hr : renew_transaction c expires_at now expiry db = Err StoreError.CorruptData)
    by by rewrite Hr.
  apply transaction_Err. unfold sql_bind, sql_get, sql_lift. rewrite Hc. simpl ok_or.
  cbn iota beta. rewrite <- Hse, Hs. simpl. by rewrite Hnode.
Qed.

(** ** Claims that find nothing *)

Lemma claim_none c op caps now expiry locked db :
  claimable locked caps db = [] ->
  claim_transaction c op caps now expiry locked db = Err StoreError.NoTaskAvailable.
Proof.
  intros Hn. apply transaction_Err. unfold sql_bind, sql_get, sql_lift. by rewrite Hn.
Qed.
End Runs.

(** ** Steps forward *)

Lemma attempt_frame_trans a b c : attempt_frame a b -> attempt_frame b c -> attempt_frame a c.
Proof. intros (?&?&?&?&?&?) (?&?&?&?&?&?). split_and!; congruence. Qed.

Lemma evaluation_frame_trans a b c :
  evaluation_frame a b -> evaluation_frame b c -> evaluation_frame a c.
Proof. intros (?&?&?&?&?&?&?) (?&?&?&?&?&?&?). split_and!; congruence. Qed.

Lemma evolves_terminal db db' eid e :
  rtc Evolves db db' -> evaluations db !! eid = Some e -> e_terminal_result e <> None ->
  evaluations db' !! eid = Some e.
Proof.
  induction 1 as [|x y z Hev _ IH]; intros He Ht; [done|].
  destruct (ev_evaluations _ _ Hev eid e He) as (e' & He' & Hs).
  rewrite (es_frozen _ _ Hs Ht) in He'. auto.
Qed.

Lemma evolves_evaluation db db' eid e :
  rtc Evolves db db' -> evaluations db !! eid = Some e ->
  exists e', evaluations db' !! eid = Some e' /\ evaluation_frame e e' /\
    rtc evaluation_moves (e_state e) (e_state e').
Proof.
  intros Hr; revert e; induction Hr as [|x y z Hev _ IH]; intros e He.
  { exists e. split; [done|]. split; [by repeat split|done]. }
  destruct (ev_evaluations _ _ Hev eid e He) as (e1 & He1 & Hs).
  destruct (IH e1 He1) as (e2 & He2 & Hf & Hm). exists e2. split; [done|].
  split; [eapply evaluation_frame_trans; [apply Hs|done]|].
  eapply rtc_l; [apply Hs|done].
Qed.

Lemma evolves_attempt db db' aid a :
  rtc Evolves db db' -> attempts db !! aid = Some a ->
  exists a', attempts db' !! aid = Some a' /\ attempt_frame a a' /\
    rtc attempt_moves (a_state a) (a_state a').
Proof.
  intros Hr; revert a; induction Hr as [|x y z Hev _ IH]; intros a Ha.
  { exists a. split; [done|]. split; [by repeat split|done]. }
  destruct (ev_attempts _ _ Hev aid a Ha) as (a1 & Ha1 & Hs).
  destruct (IH a1 Ha1) as (a2 & Ha2 & Hf & Hm). exists a2. split; [done|].
  split; [eapply attempt_frame_trans; [apply Hs|done]|].
  eapply rtc_l; [apply Hs|done].
Qed.

(** String-level moves of typed states are moves of the typed machines. *)
Lemma moves_typed {T : Type} (as_str : T -> string) `{!Inj (=) (=) as_str}
    (can_step : T -> T -> bool) (x : T) (s : string) :
  rtc (state_moves as_str can_step) (as_str x) s ->
  exists y, s = as_str y /\ rtc (fun a b => can_step a b = true) x y.
Proof.
  intros Hr. remember (as_str x) as s0 eqn:Hs0. revert x Hs0.
  induction Hr as [s0|s0 s1 s2 Hm _ IH]; intros x ->; [by exists x|].
  destruct Hm as [<-|(u & v & Hu%(inj as_str) & -> & Hst)]; [by apply IH|]. subst u.
  destruct (IH v eq_refl) as (y & -> & Hy). exists y. split; [done|]. by eapply rtc_l.
Qed.

(** Once leased, an attempt is never queued again. *)
Lemma attempt_not_requeued (x : AttemptState.t) :
  x <> AttemptState.Queued ->
  forall y, rtc (fun a b => AttemptState.can_step a b = true) x y -> y <> AttemptState.Queued.
Proof.
  intros Hx y Hr. induction Hr as [|x y z Hs _ IH]; [done|].
  apply IH. by destruct x, y.
Qed.
