(* ===== verification/StoreDisturbed.v ===== *)
(** * Operations among other callers

    One operation of the store as its caller sees it: between its transactions
    other callers change the tables, and a connection may be lost at any point,
    before a transaction takes effect or after it committed. The relation records
    what the operation itself wrote; the lemmas say so for a creation and for a
    status. *)

From S2P Require Import Prelude Value Control Evaluation EvalResult Codec Policy Schema Store Lease StoreLemmas StoreInv StoreSteps StoreWrites StoreSystem StoreRuns.
From stdpp Require Import relations.

Section Disturbed.
Context `{Collation, RequestCodecLaws}.

(** What other callers do keeps the invariant and moves the tables forward. *)
Definition later (db db' : Db) : Prop := Inv db' /\ rtc Evolves db db'.

(** [disturbed op db writes op' db']: from [op] over [db] the caller comes to [op']
    over [db'], and [writes] are the changes its own transactions committed. *)
Inductive disturbed {A : Type} : Op A -> Db -> list (Db * Db) -> Op A -> Db -> Prop :=
  | disturbed_refl op db : disturbed op db [] op db
  | disturbed_others op db db1 writes op' db' :
      later db db1 -> disturbed op db1 writes op' db' -> disturbed op db writes op' db'
  | disturbed_reads op db op1 writes op' db' :
      op_step (op, db) (op1, db) -> disturbed op1 db writes op' db' -> disturbed op db writes op' db'
  | disturbed_writes op db op1 db1 writes op' db' :
      op_step (op, db) (op1, db1) -> db1 <> db -> disturbed op1 db1 writes op' db' ->
      disturbed op db ((db, db1) :: writes) op' db'.

Lemma later_refl db : Inv db -> later db db.
Proof. by split. Qed.

Lemma later_trans db1 db2 db3 : later db1 db2 -> later db2 db3 -> later db1 db3.
Proof. intros [_ H12] [Hi H23]. split; [done|]. by etrans. Qed.

(** One step of an operation. *)
Lemma op_step_inv {A} (op op1 : Op A) db db1 :
  op_step (op, db) (op1, db1) ->
  match op with
  | Done _ | OutOfFuel => False
  | Draw k => db1 = db /\ exists d, op1 = k d
  | Tx t k =>
      (exists locked b, t locked db = Ok (b, db1) /\
         (op1 = k (Ok b) \/ op1 = k (Err StoreError.Unavailable))) \/
      (db1 = db /\ exists e, op1 = k (Err e))
  end.
Proof. inversion 1; subst; eauto 10. Qed.

Lemma disturbed_done {A} (r : result StoreError.t A) db writes op' db' :
  disturbed (Done r) db writes op' db' -> Inv db -> writes = [] /\ op' = Done r /\ later db db'.
Proof.
  intros Hd. remember (Done r) as op eqn:Hop. induction Hd as
    [op db|op db db1 writes op' db' Hl _ IH|op db op1 writes op' db' Hs _ _|op db op1 db1 writes op' db' Hs _ _ _];
    intros Hi; subst.
  - by split_and!; [..|apply later_refl].
  - destruct IH as (-> & -> & Hl'); [done|apply Hl|]. split_and!; [done..|]. by eapply later_trans.
  - by apply op_step_inv in Hs.
  - by apply op_step_inv in Hs.
Qed.

(** The transaction at the head of an operation: at some moment it took effect,
    with or without a reply, or it did not. *)
Lemma disturbed_tx {A B} (t : gset string -> Sql B) (k : result StoreError.t B -> Op A) db writes x db' :
  guarantee t -> disturbed (Tx t k) db writes (Done x) db' -> Inv db ->
  exists db0 db1 r ws,
    later db db0 /\ disturbed (k r) db1 ws (Done x) db' /\ Inv db1 /\
    ((writes = (db0, db1) :: ws /\ db1 <> db0) \/ (writes = ws /\ db1 = db0)) /\
    ((exists locked b, t locked db0 = Ok (b, db1) /\ (r = Ok b \/ r = Err StoreError.Unavailable)) \/
     (db1 = db0 /\ exists e, r = Err e)).
Proof.
  intros Hg Hd. remember (Tx t k) as op eqn:Hop. remember (Done x) as op' eqn:Hop'. induction Hd as
    [op db|op db db1 writes op' db' Hl _ IH|op db op1 writes op' db' Hs Hd _|op db op1 db1 writes op' db' Hs Hne Hd _];
    intros Hi; subst; [done|..].
  - destruct IH as (d0 & d1 & r & ws & Hl' & Hx); [done..|apply Hl|].
    exists d0, d1, r, ws. split; [by eapply later_trans | done].
  - apply op_step_inv in Hs as [(locked & b & Ht & Hr)|(_ & e & ->)].
    + destruct Hr as [->| ->]; [exists db, db, (Ok b), writes|exists db, db, (Err StoreError.Unavailable), writes];
        (split; [by apply later_refl|]; split; [done|]; split; [done|]; split; [by right|]; left; eauto).
    + exists db, db, (Err e), writes. split; [by apply later_refl|]. split; [done|].
      split; [done|]. split; [by right|]. right. eauto.
  - apply op_step_inv in Hs as [(locked & b & Ht & Hr)|(? & _)]; [|done].
    destruct (Hg _ _ _ _ Hi Ht) as [Hi1 _].
    destruct Hr as [->| ->]; [exists db, db1, (Ok b), writes|exists db, db1, (Err StoreError.Unavailable), writes];
      (split; [by apply later_refl|]; split; [done|]; split; [done|]; split; [by left|]; left; eauto).
Qed.

(** An operation whose answer is handed on. *)
Definition answering {A B} (op : Op A) (f : result StoreError.t A -> result StoreError.t B) : Op B :=
  op_then op (fun r => Done (f r)).

Lemma disturbed_status {B} id (f : result StoreError.t EvaluationSnapshot -> result StoreError.t B)
    db writes x db' :
  disturbed (answering (evaluation_status id) f) db writes (Done x) db' -> Inv db ->
  writes = [] /\ later db db' /\
  exists r, x = f r /\
    forall s, r = Ok s -> exists db0, later db db0 /\ later db0 db' /\ status_query id db0 = Ok (s, db0).
Proof.
  intros Hd Hi. apply disturbed_tx in Hd as (d0 & d1 & r & ws & Hl & Hd & Hi1 & Hw & Hr); [| |done].
  2: { apply read_only_guarantee, status_read_only. }
  apply disturbed_done in Hd as (-> & [= ->] & Hl'); [|done].
  assert (Hsame : d1 = d0).
  { destruct Hr as [(locked & b & Ht & _)|[-> _]]; [by apply status_read_only in Ht | done]. }
  subst d1. destruct Hw as [[_ ?]|[-> _]]; [done|]. split; [done|]. split; [by eapply later_trans|].
  exists r. split; [done|]. intros s ->. exists d0. split; [done|]. split; [done|].
  destruct Hr as [(locked & b & Ht & [[= <-]|?])|(_ & e & ?)]; done.
Qed.

(** ** Creation *)

(** The evaluation a creation stands for is in the tables. *)
Definition recorded (request : EvaluationRequest) (payload : bytes) (id : EvaluationId) (db : Db) : Prop :=
  exists e, evaluations db !! id_str id = Some e /\
    e_creation_key e = key_str (er_idempotency_key request) /\ e_initial_request e = payload.

Lemma recorded_later request payload id db db' :
  recorded request payload id db -> later db db' -> recorded request payload id db'.
Proof.
  intros Hr [_ Hev]. induction Hev as [|db1 db2 db3 Hs _ IH]; [done|]. apply IH.
  destruct Hr as (e & He & Hk & Hp). destruct (ev_evaluations _ _ Hs _ e He) as (e' & He' & [(_ & Hk' & _ & _ & _ & Hp' & _) _ _]).
  exists e'. split; [done|]. by rewrite Hk', Hp'.
Qed.

(** The rows a creation adds, to a database without the evaluation. *)
Definition creates (c : CreateEvaluation) (payload : bytes) (db db' : Db) : Prop :=
  evaluations db !! id_str (er_evaluation_id (ce_request c)) = None /\
  attempts db !! id_str (er_attempt_id (ce_request c)) = None /\
  exists db1, grows db db1 /\
    db' = created_db (ce_request c) payload (um_value (ce_created_at c)) db1.

Lemma creates_recorded c payload db db' :
  creates c payload db db' -> recorded (ce_request c) payload (er_evaluation_id (ce_request c)) db'.
Proof.
  intros (_ & _ & db1 & _ & ->). eexists. split; [apply lookup_insert_eq | done].
Qed.

(** A status that is answered is that of the evaluation it was asked for. *)
Lemma status_query_inv id db s db' :
  Inv db -> status_query id db = Ok (s, db') -> es_evaluation_id s = id.
Proof.
  intros Hi Hq. assert (Hv : valid id).
  { revert Hq. unfold status_query, sql_bind, sql_get, sql_lift.
    destruct (current_attempt db (id_str id)) as [[e a]|] eqn:Hc; [|done].
    apply (Inv_current_attempt db _ e a Hi) in Hc as [He _]. intros _.
    apply (Inv_eid_valid db _ e Hi) in He. by destruct id. }
  pose proof (status_spec db id Hi Hv) as Hs.
  destruct (current_attempt db (id_str id)) as [[e a]|]; [|congruence].
  destruct Hs as (s' & Hq' & Hid & _). congruence.
Qed.

(** The second half of a creation: the status of the evaluation. *)
Lemma disturbed_answer {B} request payload id (f : result StoreError.t EvaluationSnapshot -> result StoreError.t B)
    db writes x db' :
  disturbed (answering (evaluation_status id) f) db writes (Done x) db' -> Inv db ->
  recorded request payload id db ->
  writes = [] /\ later db db' /\
  exists r, x = f r /\
    forall s, r = Ok s -> recorded request payload (es_evaluation_id s) db' /\
      exists db0, later db0 db' /\ status_query (es_evaluation_id s) db0 = Ok (s, db0).
Proof.
  intros Hst Hi Hrec. apply disturbed_status in Hst as (-> & Hl & r & -> & Hs); [|done].
  split; [done|]. split; [done|]. exists r. split; [done|]. intros s ->.
  destruct (Hs s eq_refl) as (db0 & Hl0 & Hl1 & Hq).
  pose proof (status_query_inv id db0 s db0 (proj1 Hl0) Hq) as Hid. rewrite Hid.
  split; [by eapply recorded_later | by exists db0].
Qed.

(** However a creation ends, among other callers and with connections lost, its
    own transactions wrote nothing or exactly the new rows; if it answers, the
    evaluation it answers for is the one that was created for this request. *)
Lemma disturbed_create {B} c payload (f : result StoreError.t EvaluationSnapshot -> result StoreError.t B)
    db writes x db' :
  valid (ce_request c) -> encode_evaluation_request (ce_request c) = Ok payload ->
  disturbed (answering (create_evaluation c) f) db writes (Done x) db' -> Inv db ->
  (writes = [] \/ exists db0 db1, writes = [(db0, db1)] /\ creates c payload db0 db1 /\
     recorded (ce_request c) payload (er_evaluation_id (ce_request c)) db') /\
  later db db' /\
  exists r, x = f r /\
    forall s, r = Ok s -> recorded (ce_request c) payload (es_evaluation_id s) db' /\
      exists db0, later db0 db' /\ status_query (es_evaluation_id s) db0 = Ok (s, db0).
Proof.
  intros Hv Henc Hd Hi. unfold answering, create_evaluation in Hd. rewrite Henc in Hd.
  cbn [corrupt map_err op_try] in Hd.
  apply disturbed_tx in Hd as (d0 & d1 & r & ws & Hl & Hd & Hi1 & Hw & Hr); [| |done].
  2: { intros locked b0 b b1 Hb Ht. by eapply create_Ok in Ht as [_ ?]. }
  assert (Hlost : forall e, r = Err e -> ws = [] /\ later d1 db' /\ x = f (Err e)).
  { intros e ->. cbn [op_try op_then] in Hd. by apply disturbed_done in Hd as (-> & [= ->] & ?). }
  destruct Hr as [(locked & b & Ht & Hr)|[-> [e ->]]].
  2: { destruct (Hlost e eq_refl) as (-> & Hl' & ->). destruct Hw as [[_ ?]|[-> _]]; [done|].
    split; [by left|]. split; [by eapply later_trans|]. by exists (Err e). }
  eapply create_Ok in Ht as (Hcases & _ & Hev); [|apply Hl|done|done].
  assert (Hl1 : later d0 d1) by (split; [done | by apply rtc_once]).
  destruct Hcases as [(eid & e & He & Hk & Hp & -> & ->)|(-> & Hne & Hna & Hgrow)].
  - destruct Hw as [[_ ?]|[-> _]]; [done|].
    assert (Hrec : recorded (ce_request c) payload (MkId eid) d0) by (by exists e).
    destruct Hr as [->| ->].
    2: { destruct (Hlost _ eq_refl) as (-> & Hl' & ->). split; [by left|].
      split; [by eapply later_trans|]. by eexists. }
    cbn [op_try] in Hd. unfold status_of_stored, corrupt in Hd.
    pose proof (Inv_eid_valid d0 eid e Hi1 He) as Heid.
    rewrite (proj2 (id_parse_iff eid (MkId eid))) in Hd by done.
    cbn [map_err op_try] in Hd.
    apply (disturbed_answer _ _ _ _ _ _ _ _ Hd) in Hrec as (-> & Hl' & Hx); [|done].
    split; [by left|]. split; [by eapply later_trans | exact Hx].
  - assert (Hc : creates c payload d0 d1) by done.
    pose proof (creates_recorded _ _ _ _ Hc) as Hrec.
    assert (Hwrites : forall db2, later d1 db2 -> ws = [] ->
      writes = [] \/ exists db0 db1, writes = [(db0, db1)] /\ creates c payload db0 db1 /\
        recorded (ce_request c) payload (er_evaluation_id (ce_request c)) db2).
    { intros db2 Hl2 ->. destruct Hw as [[-> _]|[-> _]]; [right|by left]. exists d0, d1.
      split; [done|]. split; [done|]. by eapply recorded_later. }
    destruct Hr as [->| ->].
    + cbn [op_try] in Hd. destruct (disturbed_answer _ _ _ _ _ _ _ _ Hd Hi1 Hrec) as (-> & Hl' & Hx).
      split; [by apply Hwrites|]. split; [by eapply later_trans; [|eapply later_trans] | exact Hx].
    + destruct (Hlost _ eq_refl) as (-> & Hl' & ->). split; [by apply Hwrites|].
      split; [by eapply later_trans; [|eapply later_trans]|]. by eexists.
Qed.

(** A creation that took effect fails when the connection is lost before its
    status is read. *)
Lemma created_then_lost {B} c payload (f : result StoreError.t EvaluationSnapshot -> result StoreError.t B)
    db db1 :
  encode_evaluation_request (ce_request c) = Ok payload ->
  create_transaction c payload db = Ok (None, db1) -> db1 <> db ->
  disturbed (answering (create_evaluation c) f) db [(db, db1)] (Done (f (Err StoreError.Unavailable))) db1.
Proof.
  intros Henc Ht Hne. unfold answering, create_evaluation. rewrite Henc.
  eapply disturbed_writes; [by eapply (step_commit _ _ _ ∅) | done|].
  eapply disturbed_reads; [apply step_lost | apply disturbed_refl].
Qed.

(** Repeating a creation that is recorded answers its evaluation and changes
    nothing, whenever it was recorded and whatever time it carries. *)
Lemma recorded_replays c payload id db draws :
  Inv db -> encode_evaluation_request (ce_request c) = Ok payload ->
  recorded (ce_request c) payload id db ->
  exists s, run_op (create_evaluation c) draws db = (Some (Ok s), draws, db) /\ es_evaluation_id s = id.
Proof.
  intros Hi Henc (e & He & Hk & Hp).
  pose proof (create_replay_run c payload (id_str id) e draws db Hi Henc He Hk) as Hr.
  rewrite bool_decide_eq_true_2 in Hr by done. destruct Hr as (s & a & Hr & _ & Hid & _).
  exists s. split; [done|]. by destruct id.
Qed.
End Disturbed.
