(* ===== verification/StoreRecover.v ===== *)
(** * Recovery of expired leases

    [recover_expired] loops until no leased evaluation has an expired lease. One
    iteration replaces exactly one expired attempt, so the loop ends after as
    many iterations as there are expired leases; with fresh entropy it never
    spins on an identity conflict. *)

From S2P Require Import Prelude Value Control Evaluation EvalResult Codec Policy Schema Store Lease StoreLemmas StoreInv StoreSteps StoreWrites StoreSystem StoreRuns.
From stdpp Require Import relations.

(** ** CHECK constraints under the store's updates *)

Ltac solve_check := repeat (apply andb_true_iff; split); try done.

Lemma time_bound_true created updated :
  time_bound created updated = true <->
  (0 <= created <= MAX_UNIX_MILLIS /\ created <= updated <= MAX_UNIX_MILLIS)%Z.
Proof. unfold time_bound. by rewrite andb_true_iff, !in_range_true. Qed.

Lemma attempt_check_expire aid a now :
  attempt_check aid a = true -> (a_created_at a <= now <= MAX_UNIX_MILLIS)%Z ->
  attempt_check aid (set_attempt_state "expired" now a) = true.
Proof.
  unfold attempt_check. simpl. rewrite !andb_true_iff, !time_bound_true. intuition lia.
Qed.

Lemma evaluation_check_requeue eid e aid now :
  evaluation_check eid e = true -> id_column 64 aid = true ->
  (e_created_at e <= now <= MAX_UNIX_MILLIS)%Z ->
  evaluation_check eid (requeue_evaluation aid now e) = true.
Proof.
  unfold evaluation_check. simpl. rewrite !andb_true_iff, !time_bound_true. intuition lia.
Qed.

Lemma opaque_id_column m n s : opaque_ok m s = true -> (m <= n)%Z -> id_column n s = true.
Proof.
  unfold opaque_ok, id_column, varchar. rewrite !andb_true_iff, !Z.leb_le.
  pose proof (char_count_bounds s). intuition lia.
Qed.

Lemma id_column_varchar n s : id_column n s = true -> varchar n s = true.
Proof. unfold id_column. by intros [? _]%andb_true_iff. Qed.

Section Recover.
Context `{Collation, RequestCodecLaws}.

Lemma task_check_expire aid t now :
  task_check aid t = true -> (t_created_at t <= now <= MAX_UNIX_MILLIS)%Z ->
  task_check aid (set_task_state "expired" now t) = true.
Proof.
  unfold task_check. simpl. rewrite !andb_true_iff, !time_bound_true. intuition lia.
Qed.

Lemma queued_attempt_check request payload now :
  valid request -> encode_evaluation_request request = Ok payload ->
  (0 <= now <= MAX_UNIX_MILLIS)%Z ->
  attempt_check (id_str (er_attempt_id request))
    (queued_attempt request payload (er_attempt_number request) now) = true.
Proof.
  intros ((Hr & Hk & He & Ha) & _ & _ & Hn & _) Henc Hnow.
  pose proof (codec_request_bound _ _ Henc) as Hb.
  unfold attempt_check. simpl.
  rewrite (opaque_id_column 64 64 _ Ha), (opaque_id_column 64 64 _ Hr),
    (id_column_varchar _ _ (opaque_id_column 64 64 _ He ltac:(lia))),
    (opaque_id_column 128 128 _ Hk) by lia. simpl.
  rewrite (proj2 (in_range_true 1 4294967295 _)) by exact Hn. simpl.
  unfold octet_length_between. rewrite (proj2 (in_range_true _ _ _)) by done. simpl.
  apply time_bound_true. lia.
Qed.

Lemma ready_task_check aid request now t :
  task_check aid t = true ->
  t_capabilities t = map cap_str (er_required_capabilities request) ->
  (0 <= now <= MAX_UNIX_MILLIS)%Z ->
  task_check aid (ready_task request now) = true.
Proof.
  unfold task_check. simpl. intros Hc <- Hnow. split_eqs.
  rewrite (proj2 (time_bound_true now now)) by lia. done.
Qed.

Lemma attempt_conflict_frame db aid a a' :
  Inv db -> attempts db !! aid = Some a -> attempt_frame a a' -> claim_key a' = claim_key a ->
  attempt_conflict (attempts db) aid a' = false.
Proof.
  intros Hi Ha (He & _ & Hn & Hk & _) Hc. apply attempt_conflict_false. split_and!.
  - intros j r' Hj Hne Heq. destruct Hne. rewrite Hk in Heq.
    apply (inv_attempt_unique db Hi j aid r' a (a_idempotency_key a)); try done.
    unfold attempt_key. congruence.
  - intros j r' Hj Hne Heq. destruct Hne. rewrite He, Hn in Heq.
    apply (inv_ordinal_unique db Hi j aid r' a (a_evaluation_id a, a_number a)); try done.
    unfold attempt_ordinal. congruence.
  - intros j r' k Hj Hne Hk1. rewrite Hc. intros Hk2. destruct Hne.
    by apply (inv_claim_unique db Hi j aid r' a k).
Qed.

Lemma evaluation_conflict_requeue db eid e aid now :
  Inv db -> evaluations db !! eid = Some e ->
  evaluation_conflict (evaluations db) eid (requeue_evaluation aid now e) = false.
Proof.
  intros Hi He. rewrite evaluation_conflict_false. simpl.
  by apply evaluation_conflict_false, evaluation_conflict_self.
Qed.

(** No attempt of an evaluation has a larger number than the current one. *)
Lemma attempt_number_bound db eid e a aid x :
  Inv db -> evaluations db !! eid = Some e -> attempts db !! e_current_attempt e = Some a ->
  attempts db !! aid = Some x -> a_evaluation_id x = eid -> (a_number x <= a_number a)%Z.
Proof.
  intros Hi He Ha Hx Hid. destruct (inv_attempt db Hi aid x Hx) as (e' & _ & He' & _ & _ & _ & Hold).
  rewrite Hid in He'. assert (e' = e) as -> by congruence.
  destruct (decide (aid = e_current_attempt e)) as [->|Hne].
  - assert (x = a) as -> by congruence. lia.
  - destruct (Hold Hne) as (_ & c & Hc & Hlt). assert (c = a) as -> by congruence. lia.
Qed.

Lemma tasks_fresh db aid : Inv db -> attempts db !! aid = None -> tasks db !! aid = None.
Proof.
  intros Hi Hn. destruct (tasks db !! aid) as [t|] eqn:Ht; [|done].
  destruct (inv_tasks db Hi aid t Ht) as [a Ha]. congruence.
Qed.

(** The five statements of a retry all succeed under the invariant when the
    new attempt's identity is fresh. *)
Lemma replace_attempt_succeeds request payload now db e a t :
  Inv db -> valid request -> encode_evaluation_request request = Ok payload ->
  evaluations db !! id_str (er_evaluation_id request) = Some e ->
  attempts db !! e_current_attempt e = Some a -> tasks db !! e_current_attempt e = Some t ->
  er_attempt_number request = (a_number a + 1)%Z ->
  t_capabilities t = map cap_str (er_required_capabilities request) ->
  (a_created_at a <= now <= MAX_UNIX_MILLIS)%Z ->
  attempts db !! id_str (er_attempt_id request) = None ->
  (forall aid x, attempts db !! aid = Some x ->
     a_idempotency_key x <> key_str (er_idempotency_key request)) ->
  replace_attempt (e_current_attempt e) request payload now db
    = Ok (tt, retried_db request payload now db e a t).
Proof.
  intros Hi Hv Henc He Ha Ht Hnum Hcap Hnow Hfresh Hkey.
  destruct (Inv_bundle db _ e Hi He) as (a0 & t0 & Ha0 & Ht0 & Hec & Hat & _).
  assert (a0 = a) as -> by congruence. assert (t0 = t) as -> by congruence.
  destruct Hec as (Hid & _ & _ & Hcr & _). destruct Hat as (_ & Htc & _).
  pose proof (inv_attempt_check db Hi _ a Ha) as Hca.
  pose proof (inv_task_check db Hi _ t Ht) as Hct.
  pose proof (inv_evaluation_check db Hi _ e He) as Hce.
  assert (Hpos : (0 <= a_created_at a /\ 0 <= e_created_at e)%Z).
  { unfold attempt_check in Hca. unfold evaluation_check in Hce. split_eqs.
    repeat match goal with Hx : time_bound _ _ = true |- _ => apply time_bound_true in Hx end.
    lia. }
  assert (Hne : e_current_attempt e <> id_str (er_attempt_id request)) by congruence.
  unfold replace_attempt, insert_task. simpl in *.
  apply sql_bind_Ok. eexists tt, _. split.
  { apply sql_exec_Ok. eapply update_attempt_Ok; [done|]. split; [|split; [|done]].
    - by apply attempt_check_expire.
    - by eapply attempt_conflict_frame. }
  apply sql_bind_Ok. eexists tt, _. split.
  { apply sql_exec_Ok. eapply update_task_Ok; [done|]. split; [|done].
    apply task_check_expire; [done|]. lia. }
  apply sql_bind_Ok. eexists tt, _. split.
  { apply sql_exec_Ok. eapply update_evaluation_Ok; [done|]. split; [|split; [|done]].
    - apply evaluation_check_requeue; [done| |lia].
      apply (opaque_id_column 64); [|done]. apply Hv.
    - by apply (evaluation_conflict_requeue db). }
  apply sql_bind_Ok. eexists tt, _. split.
  { apply sql_exec_Ok. eapply insert_attempt_Ok.
    split; [|split; [|split; [|split; [|done]]]].
    - apply queued_attempt_check; [done..|]. lia.
    - simpl. by rewrite lookup_insert_ne.
    - simpl. apply attempt_conflict_false. simpl. split_and!.
      + intros j r' Hj Hnj. insert_cases Hj; [by apply (Hkey _ a Ha)|by eapply Hkey].
      + intros j r' Hj Hnj [= Hx Hy]. insert_cases Hj; [simpl in Hy; lia|].
        pose proof (attempt_number_bound db _ e a j r' Hi He Ha Hj Hx). lia.
      + done.
    - apply has_key_true. eexists. apply lookup_insert_eq. }
  apply sql_exec_Ok. eapply insert_task_Ok. split; [|split; [|split; [|done]]].
  - by eapply ready_task_check; [|done|lia].
  - simpl. rewrite lookup_insert_ne by done. by apply tasks_fresh.
  - apply has_key_true. eexists. apply lookup_insert_eq.
Qed.

(** ** One iteration *)

Lemma expired_leases_spec now db aid a :
  (aid, a) ∈ expired_leases now db <->
  exists eid e, evaluations db !! eid = Some e /\ e_current_attempt e = aid /\
    attempts db !! aid = Some a /\ e_state e = "leased" /\ a_state a = "leased" /\
    lease_expired now a = true.
Proof.
  unfold expired_leases. rewrite list_elem_of_omap. split.
  - intros ([eid e] & Hin & Hx). apply elem_of_map_to_list in Hin.
    destruct (attempts db !! e_current_attempt e) as [a'|] eqn:Ha; [|done].
    destruct (_ && _) eqn:Hc; [|done]. injection Hx as <- <-. split_eqs. by exists eid, e.
  - intros (eid & e & He & <- & Ha & Hs & Hsa & Hl). exists (eid, e).
    split; [by apply elem_of_map_to_list|]. by rewrite Ha, Hs, Hsa, Hl.
Qed.

Lemma omap_ext_in {A B} (f g : A -> option B) (l : list A) :
  (forall x, x ∈ l -> f x = g x) -> omap f l = omap g l.
Proof.
  induction l as [|x l IH]; intros Hfg; [done|]. csimpl.
  rewrite (Hfg x) by left. rewrite IH; [done|]. intros y Hy. apply Hfg. by right.
Qed.

Lemma length_omap_cons {A B} (f : A -> option B) (x : A) (l : list A) :
  length (omap f (x :: l)) =
  (match f x with Some _ => 1 | None => 0 end + length (omap f l))%nat.
Proof. csimpl. by destruct (f x). Qed.

(** The row of the recovery query an evaluation contributes. *)
Definition expired_of (now : Z) (db : Db) (x : string * EvaluationRow)
    : option (string * AttemptRow) :=
  let '(_, e) := x in
  match attempts db !! e_current_attempt e with
  | None => None
  | Some a =>
      if String.eqb (e_state e) "leased" && String.eqb (a_state a) "leased" &&
         lease_expired now a
      then Some (e_current_attempt e, a) else None
  end.

Lemma retried_shrinks request payload now db e a t :
  Inv db -> evaluations db !! id_str (er_evaluation_id request) = Some e ->
  attempts db !! e_current_attempt e = Some a ->
  attempts db !! id_str (er_attempt_id request) = None ->
  e_state e = "leased" -> a_state a = "leased" -> lease_expired now a = true ->
  length (expired_leases now db) =
  S (length (expired_leases now (retried_db request payload now db e a t))).
Proof.
  intros Hi He Ha Hf Hs Hsa Hl. set (eid := id_str (er_evaluation_id request)) in *.
  set (db' := retried_db request payload now db e a t).
  change (length (omap (expired_of now db) (map_to_list (evaluations db))) =
    S (length (omap (expired_of now db') (map_to_list (evaluations db'))))).
  assert (Hm : evaluations db = <[eid := e]> (delete eid (evaluations db)))
    by by rewrite insert_delete_eq, insert_id.
  assert (Hm' : evaluations db' = <[eid := requeue_evaluation (id_str (er_attempt_id request)) now e]>
    (delete eid (evaluations db))) by by rewrite insert_delete_eq.
  rewrite Hm' at 1. rewrite Hm at 1.
  rewrite !map_to_list_insert by apply lookup_delete_eq. rewrite !length_omap_cons.
  replace (expired_of now db (eid, e)) with (Some (e_current_attempt e, a))
    by (unfold expired_of; by rewrite Ha, Hs, Hsa, Hl).
  replace (expired_of now db' (eid, requeue_evaluation (id_str (er_attempt_id request)) now e))
    with (@None (string * AttemptRow))
    by (unfold expired_of; simpl; by rewrite lookup_insert_eq).
  f_equal. simpl. f_equal.
  apply omap_ext_in. intros [i x] Hin. apply elem_of_map_to_list in Hin.
  apply lookup_delete_Some in Hin as [Hne Hx].
  destruct (inv_current db Hi i x Hx) as (c & Hc & Hid & _).
  destruct (inv_current db Hi eid e He) as (c' & Hc' & Hid' & _).
  assert (Hcur : attempts db' !! e_current_attempt x = Some c).
  { simpl. rewrite !lookup_insert_ne; [done| |]; intros Heq; rewrite <- Heq in Hc; congruence. }
  unfold expired_of. by rewrite Hc, Hcur.
Qed.

(** Entropy that collides with nothing the tables hold. *)
Definition draw_fresh (db : Db) (d : string) : Prop :=
  attempts db !! ("attempt_" +:+ d) = None /\
  (forall aid a, attempts db !! aid = Some a ->
     a_idempotency_key a <> "idem_retry_" +:+ d) /\
  is_ok (next_attempt_id (Some d)) = true /\ is_ok (next_idempotency_key (Some d)) = true.

Definition fresh_draws (db : Db) (ds : list string) : Prop :=
  NoDup ds /\ Forall (draw_fresh db) ds.

Lemma next_attempt_id_Ok d :
  is_ok (next_attempt_id (Some d)) = true ->
  next_attempt_id (Some d) = Ok (MkId ("attempt_" +:+ d)) /\
  valid (MkId ("attempt_" +:+ d) : AttemptId).
Proof.
  destruct (next_attempt_id (Some d)) as [i|] eqn:E; [|done]. intros _.
  unfold next_attempt_id in E. simpl in E. apply map_err_Ok_inv, id_parse_iff in E.
  by destruct E as [-> ?].
Qed.

Lemma next_key_Ok d :
  is_ok (next_idempotency_key (Some d)) = true ->
  next_idempotency_key (Some d) = Ok (MkKey ("idem_retry_" +:+ d)) /\
  valid (MkKey ("idem_retry_" +:+ d)).
Proof.
  destruct (next_idempotency_key (Some d)) as [i|] eqn:E; [|done]. intros _.
  unfold next_idempotency_key in E. simpl in E.
  apply map_err_Ok_inv, IdempotencyKey_parse_iff in E. by destruct E as [-> ?].
Qed.

Lemma retried_fresh request payload now db e a t d :
  draw_fresh db d -> id_str (er_attempt_id request) <> "attempt_" +:+ d ->
  key_str (er_idempotency_key request) <> "idem_retry_" +:+ d ->
  attempts db !! e_current_attempt e = Some a ->
  draw_fresh (retried_db request payload now db e a t) d.
Proof.
  intros (Hf & Hk & Ho1 & Ho2) Hne Hnk Ha. split_and!; try done.
  - simpl. rewrite !lookup_insert_ne; [done|congruence|done].
  - intros aid x Hx. simpl in Hx. insert_cases Hx; [done|]. insert_cases Hx; [|by eapply Hk].
    exact (Hk _ a Ha).
Qed.

Lemma retry_run next payload now now_ms db e a t draws :
  Inv db -> valid next -> encode_evaluation_request next = Ok payload ->
  i64_try_from StoreError.InvalidTime (um_value now) = Ok now_ms ->
  select_first (fun _ x => String.eqb (a_idempotency_key x)
    (key_str (er_idempotency_key next))) (attempts db) = None ->
  evaluations db !! id_str (er_evaluation_id next) = Some e ->
  attempts db !! e_current_attempt e = Some a -> tasks db !! e_current_attempt e = Some t ->
  retry_fence {| re_request := next; re_now := now |} now_ms e a ->
  replace_attempt (e_current_attempt e) next payload now_ms db
    = Ok (tt, retried_db next payload now_ms db e a t) ->
  exists s, run_op (retry_expired {| re_request := next; re_now := now |}) draws db
    = (Some (Ok s), draws, retried_db next payload now_ms db e a t).
Proof.
  intros Hi Hv Henc Hnow Hsel He Ha Ht (Hs & Hsa & (x & Hx & Hlt) & Hnum & cur & Hd & Hsem) Hrep.
  destruct (replace_attempt_Ok next payload now_ms db e a t _ _ Hi Hv Henc He Ha Ht Hs Hsa
    Hnum Hrep) as (_ & Hi' & _).
  assert (Htx : retry_transaction {| re_request := next; re_now := now |} payload now_ms db
    = Ok (None, retried_db next payload now_ms db e a t)).
  { unfold retry_transaction. cbv zeta. simpl re_request in *.
    apply transaction_Ok. split; [|by apply Inv_commit].
    unfold sql_bind at 1, sql_get. rewrite Hsel.
    unfold sql_bind, sql_lift, current_attempt. rewrite He, Ha. simpl.
    rewrite Hs, Hsa, Hx. simpl. rewrite (proj2 (Z.leb_gt _ _) Hlt), Hnum, Z.eqb_refl. simpl.
    rewrite Hd. simpl. rewrite Hsem. simpl. by rewrite Hrep. }
  unfold retry_expired. simpl re_now. simpl re_request. rewrite Hnow. simpl op_try.
  rewrite Henc. simpl op_try. rewrite run_tx, Htx. simpl op_try.
  destruct (run_status_row (retried_db next payload now_ms db e a t) (er_evaluation_id next)
    (requeue_evaluation (id_str (er_attempt_id next)) now_ms e) draws Hi') as (s & _ & Hr & _).
  { apply lookup_insert_eq. }
  exists s. done.
Qed.

Lemma i64_millis now : valid now -> i64_try_from StoreError.InvalidTime (um_value now) = Ok (um_value now).
Proof.
  unfold valid, valid_millis, i64_try_from, MAX_UNIX_MILLIS, i64_max. intros Hv.
  by rewrite (proj2 (Z.leb_le _ _)) by lia.
Qed.

Lemma same_semantics_next r a k : same_evaluation_semantics r (next_attempt_of r a k) = true.
Proof. unfold same_evaluation_semantics. by rewrite !bool_decide_true. Qed.

(** What the next iteration finds: the expired bundle and its stored request. *)
Lemma expired_bundle now db aid a :
  Inv db -> (aid, a) ∈ expired_leases now db ->
  exists e t r, evaluations db !! a_evaluation_id a = Some e /\ aid = e_current_attempt e /\
    attempts db !! aid = Some a /\ tasks db !! aid = Some t /\
    e_state e = "leased" /\ a_state a = "leased" /\ lease_expired now a = true /\
    (exists x, a_lease_expires_at a = Some x /\ a_created_at a <= x < now)%Z /\
    decode_evaluation_request (a_payload a) = Ok r /\ valid r /\
    id_str (er_evaluation_id r) = a_evaluation_id a /\ er_attempt_number r = a_number a /\
    t_capabilities t = map cap_str (er_required_capabilities r).
Proof.
  intros Hi (eid & e & He & <- & Ha & Hs & Hsa & Hl)%expired_leases_spec.
  destruct (Inv_bundle db eid e Hi He) as (a0 & t & Ha0 & Ht & (Hid & _) & Hat & Hp).
  assert (a0 = a) as -> by congruence.
  destruct Hp as (r & Hd & Hr & _ & Heid & Hn & _ & Hc). rewrite Hid in *.
  exists e, t, r. do 7 (split; [done|]). split; [|done].
  destruct Hat as (_ & _ & _ & Hlease). destruct (Hlease Hsa) as (? & ? & x & _ & _ & Hx & Hle).
  exists x. split; [done|]. unfold lease_expired in Hl. rewrite Hx in Hl. apply Z.ltb_lt in Hl. lia.
Qed.

(** One iteration on an expired lease: the new attempt is in the tables, or the
    run ends on a request that cannot have a next attempt. *)
Lemma recover_iteration now db aid a d1 d2 ds :
  Inv db -> valid now -> (aid, a) ∈ expired_leases (um_value now) db ->
  fresh_draws db (d1 :: d2 :: ds) ->
  exists r, decode_evaluation_request (a_payload a) = Ok r /\ valid r /\
  let next := next_attempt_of r (MkId ("attempt_" +:+ d1)) (MkKey ("idem_retry_" +:+ d2)) in
  match EvaluationRequest_with_next_attempt r (MkId ("attempt_" +:+ d1))
          (MkKey ("idem_retry_" +:+ d2)) with
  | Err _ => True
  | Ok n => n = next /\
      match encode_evaluation_request next with
      | Err _ => True
      | Ok payload => exists s e t db',
          (evaluations db !! id_str (er_evaluation_id r) = Some e /\ e_current_attempt e = aid /\
           attempts db !! aid = Some a /\ tasks db !! aid = Some t /\
           db' = retried_db next payload (um_value now) db e a t) /\
          run_op (retry_expired {| re_request := next; re_now := now |}) (map Some ds) db
            = (Some (Ok s), map Some ds, db') /\
          Inv db' /\ Evolves db db' /\ fresh_draws db' ds /\
          length (expired_leases (um_value now) db)
            = S (length (expired_leases (um_value now) db'))
      end
  end.
Proof.
  intros Hi Hnow Hin [Hnd [Hd1 [Hd2 Hds]%Forall_cons]%Forall_cons].
  apply NoDup_cons in Hnd as [Hn1 [Hn2 Hnd]%NoDup_cons].
  destruct (expired_bundle _ db aid a Hi Hin) as (e & t & r & He & -> & Ha & Ht & Hs & Hsa & Hl &
    (x & Hx & Hxr) & Hd & Hr & Heid & Hnum & Hcap).
  exists r. split; [done|]. split; [done|]. cbv zeta.
  destruct (next_attempt_id_Ok d1) as [_ Hv1]; [apply Hd1|].
  destruct (next_key_Ok d2) as [_ Hv2]; [apply Hd2|].
  set (next := next_attempt_of r (MkId ("attempt_" +:+ d1)) (MkKey ("idem_retry_" +:+ d2))).
  rewrite with_next_attempt_spec by done.
  destruct (Z.ltb_spec (er_attempt_number r) u32_max) as [Hlt|]; [|done].
  split; [done|]. destruct (encode_evaluation_request next) as [payload|] eqn:Henc; [|done].
  assert (Hvn : valid next) by by apply next_attempt_valid.
  assert (He' : evaluations db !! id_str (er_evaluation_id next) = Some e)
    by (change (er_evaluation_id next) with (er_evaluation_id r); by rewrite Heid).
  assert (Hfresh : attempts db !! id_str (er_attempt_id next) = None) by apply Hd1.
  assert (Hrep : replace_attempt (e_current_attempt e) next payload (um_value now) db
    = Ok (tt, retried_db next payload (um_value now) db e a t)).
  { apply replace_attempt_succeeds; try done.
    - simpl. by rewrite <- Hnum.
    - unfold valid, valid_millis in Hnow. lia.
    - apply Hd2. }
  destruct (retry_run next payload now (um_value now) db e a t (map Some ds)) as [s Hrun]; try done.
  - by apply i64_millis.
  - apply select_first_None. intros j y Hy. apply String.eqb_neq.
    destruct Hd2 as (_ & Hk & _). by eapply Hk.
  - split; [done|]. split; [done|]. split; [exists x; split; [done|lia]|].
    split; [simpl; by rewrite <- Hnum|]. exists r. split; [done|]. apply same_semantics_next.
  - destruct (replace_attempt_Ok next payload (um_value now) db e a t tt _ Hi Hvn Henc He' Ha Ht
      Hs Hsa ltac:(simpl; by rewrite <- Hnum) Hrep) as (_ & Hi' & Hev).
    exists s, e, t, (retried_db next payload (um_value now) db e a t).
    split; [done|]. split; [done|]. split; [done|]. split; [done|]. split; [|by eapply retried_shrinks].
    split; [done|]. rewrite Forall_forall in Hds |- *. intros d Hd'.
    apply retried_fresh; [by apply Hds| | |done]; simpl.
    + intros Heq%app_inj_l. subst d. apply Hn1. by right.
    + intros Heq%app_inj_l. by subst d.
Qed.

Lemma fresh_draws_skip db d ds : fresh_draws db (d :: ds) -> fresh_draws db ds.
Proof. intros [[_ Hnd]%NoDup_cons [_ Hf]%Forall_cons]. by split. Qed.

Lemma retried_evaluations next payload now db e a t :
  evaluations db !! id_str (er_evaluation_id next) = Some e ->
  size (evaluations (retried_db next payload now db e a t)) = size (evaluations db).
Proof. intros He. simpl. by apply map_size_insert_Some. Qed.

Lemma expired_leases_bound now db : (length (expired_leases now db) <= size (evaluations db))%nat.
Proof.
  unfold expired_leases. rewrite <- (length_map_to_list (evaluations db)).
  induction (map_to_list _) as [|x l IH]; [done|]. rewrite length_omap_cons. simpl.
  destruct x as [eid e]. destruct (attempts db !! e_current_attempt e) as [a|]; [|lia].
  destruct (String.eqb _ _ && _ && _); lia.
Qed.

(** What a sweep leaves for the next one: the invariant, fresh entropy and as
    many evaluations as there were. *)
Definition sweepable (db : Db) (ds : list string) (n : nat) (db' : Db) (rest : list string) : Prop :=
  Inv db' /\ rtc Evolves db db' /\ fresh_draws db' rest /\
  (length ds <= length rest + 2 * n)%nat /\ size (evaluations db') = size (evaluations db).

Lemma sweepable_step db ds n db1 ds1 m db' rest :
  sweepable db ds n db1 ds1 -> sweepable db1 ds1 m db' rest -> sweepable db ds (n + m) db' rest.
Proof.
  intros (_ & He & _ & Hl & Hs) (Hi & He' & Hf & Hl' & Hs').
  split; [done|]. split; [by etrans|]. split; [done|]. split; [lia|congruence].
Qed.

(** The next attempt an iteration makes of two draws. *)
Definition next_with (r : EvaluationRequest) (d1 d2 : string) : EvaluationRequest :=
  next_attempt_of r (MkId ("attempt_" +:+ d1)) (MkKey ("idem_retry_" +:+ d2)).

(** An expired attempt of [db] is replaced. *)
Inductive retries (now : Z) (d1 d2 : string) (db : Db) : Db -> Prop :=
  | retries_expired a r payload e t :
      (e_current_attempt e, a) ∈ expired_leases now db -> decode_evaluation_request (a_payload a) = Ok r ->
      encode_evaluation_request (next_with r d1 d2) = Ok payload ->
      evaluations db !! id_str (er_evaluation_id r) = Some e ->
      attempts db !! e_current_attempt e = Some a -> tasks db !! e_current_attempt e = Some t ->
      attempts db !! ("attempt_" +:+ d1) = None ->
      retries now d1 d2 db (retried_db (next_with r d1 d2) payload now db e a t).

(** A stored request that admits no next attempt. *)
Definition unretriable (now : Z) (d1 d2 : string) (db : Db) : Prop :=
  exists aid a r, (aid, a) ∈ expired_leases now db /\ decode_evaluation_request (a_payload a) = Ok r /\
    ~ ((er_attempt_number r < u32_max)%Z /\ is_ok (encode_evaluation_request (next_with r d1 d2)) = true).

(** The loop without an expired lease returns its count. *)
Lemma recover_loop_done fuel now recovered db draws :
  expired_leases (um_value now) db = [] ->
  run_op (recover_loop (S fuel) now (um_value now) recovered) draws db = (Some (Ok recovered), draws, db).
Proof.
  intros Hnil. cbn [recover_loop]. rewrite run_tx. unfold expired_query, sql_bind, sql_get, sql_ret.
  by rewrite Hnil.
Qed.

(** With one, it replaces it and goes on, or stops at a request without a next
    attempt. *)
Lemma recover_loop_step fuel now recovered db d1 d2 ds :
  Inv db -> valid now -> expired_leases (um_value now) db <> [] -> fresh_draws db (d1 :: d2 :: ds) ->
  let run := run_op (recover_loop (S fuel) now (um_value now) recovered) (map Some (d1 :: d2 :: ds)) db in
  (unretriable (um_value now) d1 d2 db /\ run = (Some (Err StoreError.CorruptData), map Some ds, db)) \/
  exists db1, retries (um_value now) d1 d2 db db1 /\ Inv db1 /\ Evolves db db1 /\ fresh_draws db1 ds /\
    length (expired_leases (um_value now) db) = S (length (expired_leases (um_value now) db1)) /\
    size (evaluations db1) = size (evaluations db) /\
    run = run_op (recover_loop fuel now (um_value now) (u32_saturating_add recovered 1)) (map Some ds) db1.
Proof.
  intros Hi Hnow Hne Hf run. pose proof (eq_refl run) as Hrun. unfold run at 2 in Hrun. clearbody run.
  cbn [recover_loop] in Hrun. rewrite run_tx in Hrun.
  unfold expired_query at 1, sql_bind at 1, sql_get at 1, sql_ret at 1 in Hrun.
  destruct (first_by expired_key (expired_leases (um_value now) db)) as [[aid a]|] eqn:Hfst;
    [|by apply first_by_None in Hfst].
  apply first_by_Some in Hfst as [Hin _].
  destruct (recover_iteration now db aid a d1 d2 ds Hi Hnow Hin Hf) as (r & Hd & Hr & Hnext).
  destruct Hf as [_ [(Hunused & _ & Ho1 & _) [(_ & _ & _ & Ho2) _]%Forall_cons]%Forall_cons].
  destruct (next_attempt_id_Ok d1 Ho1) as [Hid1 Hv1]. destruct (next_key_Ok d2 Ho2) as [Hid2 Hv2].
  cbn [option_map op_try snd] in Hrun. unfold corrupt at 1 in Hrun. rewrite Hd in Hrun.
  cbn [map_err op_try map run_op] in Hrun. rewrite Hid1 in Hrun. cbn [op_try run_op] in Hrun.
  rewrite Hid2 in Hrun. cbn [op_try] in Hrun. rewrite with_next_attempt_spec in Hnext, Hrun by done.
  destruct (Z.ltb_spec (er_attempt_number r) u32_max) as [Hlt|Hge]; cbn [corrupt map_err op_try] in Hrun.
  2: { left. split; [|done]. exists aid, a, r. split; [done|]. split; [done|]. lia. }
  destruct Hnext as [_ Hnext]. rewrite run_op_then in Hrun. fold (next_with r d1 d2) in Hnext, Hrun.
  destruct (encode_evaluation_request (next_with r d1 d2)) as [payload|x] eqn:Henc.
  - right. destruct Hnext as (s & e & t & db1 & (He & <- & Ha & Ht & ->) & Hretry & Hi1 & Hev & Hf1 & Hlen1).
    eexists. split; [by apply retries_expired|]. split; [done|]. split; [done|]. split; [done|]. split; [done|].
    split; [by apply retried_evaluations|]. rewrite Hrun. cbn [map] in Hretry. by rewrite Hretry.
  - left. split.
    { exists aid, a, r. split; [done|]. split; [done|]. rewrite Henc. by intros []. }
    rewrite Hrun. unfold retry_expired. cbn [re_now re_request]. rewrite i64_millis by done.
    cbn [op_try]. by rewrite Henc.
Qed.

(** With fuel for every expired lease and fresh entropy the loop returns: all
    leases recovered and counted, or [CorruptData]. *)
Lemma recover_loop_run n : forall fuel ds db recovered now,
  Inv db -> valid now -> length (expired_leases (um_value now) db) = n ->
  (n < fuel)%nat -> fresh_draws db ds -> (2 * n <= length ds)%nat ->
  (0 <= recovered <= u32_max)%Z ->
  exists r rest db',
    run_op (recover_loop fuel now (um_value now) recovered) (map Some ds) db
      = (Some r, map Some rest, db') /\
    sweepable db ds n db' rest /\
    match r with
    | Ok m => expired_leases (um_value now) db' = [] /\
              m = Z.min (recovered + Z.of_nat n) u32_max
    | Err x => x = StoreError.CorruptData
    end.
Proof.
  induction n as [|n IH]; intros fuel ds db recovered now Hi Hnow Hlen Hfuel Hf Hds Hrec;
    (destruct fuel as [|fuel]; [lia|]).
  { apply nil_length_inv in Hlen. rewrite recover_loop_done by done. exists (Ok recovered), ds, db.
    split; [done|]. split; [split_and!; [done|apply rtc_refl|done|lia|done]|]. split; [done|lia]. }
  destruct ds as [|d1 [|d2 ds]]; simpl in Hds; [lia|lia|].
  destruct (recover_loop_step fuel now recovered db d1 d2 ds Hi Hnow) as
    [[_ Hrun]|(db1 & _ & Hi1 & Hev & Hf1 & Hlen1 & Hsize & Hrun)]; [by destruct (expired_leases _ db)|done| |].
  - exists (Err StoreError.CorruptData), ds, db. split; [exact Hrun|]. split; [|done].
    split_and!; [done|apply rtc_refl|by do 2 eapply fresh_draws_skip|simpl; lia|done].
  - destruct (IH fuel ds db1 (u32_saturating_add recovered 1) now) as
      (r' & rest & db' & Hrun' & Hsw & Hres); try done; try lia.
    { unfold u32_saturating_add, u32_max in *. lia. }
    exists r', rest, db'. split; [by rewrite Hrun|]. split.
    { apply (sweepable_step db (d1 :: d2 :: ds) 1 db1 ds n); [|done].
      split_and!; [done|by apply rtc_once|done|simpl; lia|done]. }
    destruct r' as [m|x]; [|done]. destruct Hres as [Hnil ->]. split; [done|].
    unfold u32_saturating_add, u32_max in *. lia.
Qed.

(** The sweep of a single expired lease. *)
Lemma recover_single_run fuel now db aid a d1 d2 r payload :
  Inv db -> valid now -> (aid, a) ∈ expired_leases (um_value now) db ->
  length (expired_leases (um_value now) db) = 1%nat -> (1 < fuel)%nat -> fresh_draws db [d1; d2] ->
  decode_evaluation_request (a_payload a) = Ok r -> (er_attempt_number r < u32_max)%Z ->
  let next := next_attempt_of r (MkId ("attempt_" +:+ d1)) (MkKey ("idem_retry_" +:+ d2)) in
  encode_evaluation_request next = Ok payload ->
  exists e t db',
    (evaluations db !! id_str (er_evaluation_id r) = Some e /\ e_current_attempt e = aid /\
     attempts db !! aid = Some a /\ tasks db !! aid = Some t /\
     db' = retried_db next payload (um_value now) db e a t) /\
    run_op (recover_expired fuel now) [Some d1; Some d2] db = (Some (Ok 1%Z), [], db') /\ Inv db'.
Proof.
  intros Hi Hnow Hin Hlen Hfuel Hf Hd Hlt next Henc. destruct fuel as [|[|fuel]]; [lia|lia|].
  assert (Honly : forall y, y ∈ expired_leases (um_value now) db -> y = (aid, a)).
  { destruct (expired_leases (um_value now) db) as [|y [|? ?]]; try done.
    apply list_elem_of_singleton in Hin as <-. by intros z ->%list_elem_of_singleton. }
  unfold recover_expired. rewrite i64_millis by done. cbn [op_try].
  destruct (recover_loop_step (S fuel) now 0 db d1 d2 [] Hi Hnow) as
    [[(aid' & a' & r' & Hin' & Hd' & Hno) _]|(db1 & Hretry & Hi1 & _ & _ & Hlen1 & _ & Hrun)]; [by intros Hnil; rewrite Hnil in Hlen|done| |].
  - apply Honly in Hin' as [= -> ->]. assert (r' = r) as -> by congruence. destruct Hno. split; [done|].
    unfold next_with. fold next. by rewrite Henc.
  - destruct Hretry as [a' r' payload' e t Hin' Hd' Henc' He Ha Ht _]. apply Honly in Hin' as [= Haid ->].
    assert (r' = r) as -> by congruence. unfold next_with in *. fold next in Henc', Hrun, Hlen1, Hi1 |- *.
    assert (payload' = payload) as -> by congruence. rewrite Haid in *.
    exists e, t, (retried_db next payload (um_value now) db e a t). split; [done|]. split; [|done].
    cbn [map] in Hrun. rewrite Hrun. apply recover_loop_done, nil_length_inv. lia.
Qed.
End Recover.
