(* ===== verification/StoreRequeue.v ===== *)
(** * What a recovery does to the evaluations

    The view of an evaluation with its current attempt and task, and what a
    recovery that is not stopped makes of each: the next attempt, queued, where the
    lease ran out, and the same rows everywhere else. *)

From S2P Require Import Prelude Value Control Evaluation EvalResult Codec Policy Schema Store Lease StoreLemmas StoreInv StoreSteps StoreWrites StoreSystem StoreRuns StoreRecover.

Section Requeue.
Context `{Collation, RequestCodecLaws}.

Notation rows := (EvaluationRow * AttemptRow * TaskRow)%type.

(** ** The rows of an evaluation *)

Definition bundle (db : Db) (eid : string) : option rows :=
  e ← evaluations db !! eid;
  a ← attempts db !! e_current_attempt e;
  t ← tasks db !! e_current_attempt e;
  Some (e, a, t).

Lemma bundle_Some db eid e a t :
  bundle db eid = Some (e, a, t) <->
  evaluations db !! eid = Some e /\ attempts db !! e_current_attempt e = Some a /\
  tasks db !! e_current_attempt e = Some t.
Proof.
  unfold bundle. destruct (evaluations db !! eid) as [e'|] eqn:He; simpl; [|by split; [|intros []]].
  destruct (attempts db !! e_current_attempt e') as [a'|] eqn:Ha; simpl.
  2: { split; [done|]. intros ([= ->] & Ha' & _). congruence. }
  destruct (tasks db !! e_current_attempt e') as [t'|] eqn:Ht; simpl.
  2: { split; [done|]. intros ([= ->] & _ & Ht'). congruence. }
  split; [intros [= -> -> ->]; done|]. intros ([= ->] & Ha' & Ht'). congruence.
Qed.

Lemma bundle_total db eid e :
  Inv db -> evaluations db !! eid = Some e -> exists a t, bundle db eid = Some (e, a, t).
Proof.
  intros Hi He. destruct (Inv_bundle db eid e Hi He) as (a & t & Ha & Ht & _).
  exists a, t. by apply bundle_Some.
Qed.

(** The request of an evaluation's current attempt. *)
Lemma bundle_request db eid e a t :
  Inv db -> bundle db eid = Some (e, a, t) ->
  exists r, decode_evaluation_request (a_payload a) = Ok r /\ valid r /\
    id_str (er_evaluation_id r) = eid /\ id_str (er_attempt_id r) = e_current_attempt e /\
    t_capabilities t = map cap_str (er_required_capabilities r).
Proof.
  intros Hi (He & Ha & Ht)%bundle_Some.
  destruct (Inv_bundle db eid e Hi He) as (a' & t' & Ha' & Ht' & (Hid & _) & _ & Hp).
  assert (a' = a) as -> by congruence. assert (t' = t) as -> by congruence.
  destruct Hp as (r & Hr & Hv & Haid & Heid & _ & _ & Hc). exists r. by rewrite Heid, Hid.
Qed.

(** Its lease ran out. *)
Definition ran_out (now : Z) (e : EvaluationRow) (a : AttemptRow) : bool :=
  String.eqb (e_state e) "leased" && String.eqb (a_state a) "leased" && lease_expired now a.

Lemma expired_leases_bundle now db aid a :
  Inv db -> (aid, a) ∈ expired_leases now db <->
  exists eid e t, bundle db eid = Some (e, a, t) /\ e_current_attempt e = aid /\ ran_out now e a = true.
Proof.
  intros Hi. rewrite expired_leases_spec. unfold ran_out. setoid_rewrite andb_true_iff.
  setoid_rewrite andb_true_iff. setoid_rewrite String.eqb_eq. split.
  - intros (eid & e & He & Hcur & Ha & Hs). destruct (bundle_total db eid e Hi He) as (a' & t & Hb).
    pose proof Hb as (_ & Ha' & _)%bundle_Some. assert (a' = a) as -> by congruence.
    exists eid, e, t. tauto.
  - intros (eid & e & t & (He & Ha & _)%bundle_Some & <- & Hs). exists eid, e. tauto.
Qed.

(** ** One retry *)

(** The rows of an evaluation whose next attempt waits. *)
Definition requeued_rows (next : EvaluationRequest) (payload : string) (now : Z) (e : EvaluationRow) : rows :=
  (requeue_evaluation (id_str (er_attempt_id next)) now e,
   queued_attempt next payload (er_attempt_number next) now, ready_task next now).

Lemma retried_bundle next payload now db e a t j :
  Inv db -> bundle db (id_str (er_evaluation_id next)) = Some (e, a, t) ->
  attempts db !! id_str (er_attempt_id next) = None ->
  bundle (retried_db next payload now db e a t) j =
  if decide (j = id_str (er_evaluation_id next)) then Some (requeued_rows next payload now e) else bundle db j.
Proof.
  intros Hi (He & Ha & Ht)%bundle_Some Hnew. destruct (decide _) as [->|Hne].
  - apply bundle_Some. simpl. by rewrite !lookup_insert_eq.
  - unfold bundle. simpl. rewrite lookup_insert_ne by done.
    destruct (evaluations db !! j) as [x|] eqn:Hx; [|done]. simpl.
    destruct (inv_current db Hi j x Hx) as (c & Hc & Hid & _).
    destruct (inv_current db Hi _ e He) as (c' & Hc' & Hid' & _).
    assert (e_current_attempt x <> id_str (er_attempt_id next)) by congruence.
    assert (e_current_attempt x <> e_current_attempt e) by congruence.
    by rewrite !lookup_insert_ne by done.
Qed.

(** ** A whole recovery *)

Record Requeued (now : Z) (ds : list string) (db db' : Db) : Prop := {
  rq_bundle : forall j e a t, bundle db j = Some (e, a, t) ->
    if ran_out now e a
    then exists r d1 d2 payload, decode_evaluation_request (a_payload a) = Ok r /\ d1 ∈ ds /\ d2 ∈ ds /\
           encode_evaluation_request (next_with r d1 d2) = Ok payload /\
           bundle db' j = Some (requeued_rows (next_with r d1 d2) payload now e)
    else bundle db' j = Some (e, a, t);
  rq_evaluations : forall j e', evaluations db' !! j = Some e' ->
    exists e, evaluations db !! j = Some e /\ e_result_key e' = e_result_key e;
  rq_attempts : forall aid a', attempts db' !! aid = Some a' ->
    a_claim_operation a' = None \/
    exists a, attempts db !! aid = Some a /\ a_claim_operation a' = a_claim_operation a
}.

(** Without expired leases nothing changes. *)
Lemma Requeued_none now ds db : Inv db -> expired_leases now db = [] -> Requeued now ds db db.
Proof.
  intros Hi Hnil. split; [|by eauto|by eauto]. intros j e a t Hb.
  destruct (ran_out now e a) eqn:Hr; [|done].
  exfalso. apply (elem_of_nil (A := string * AttemptRow) (e_current_attempt e, a)). rewrite <- Hnil.
  apply expired_leases_bundle; [done|]. by exists j, e, t.
Qed.

Lemma retries_rows now d1 d2 db db1 :
  Inv db -> retries now d1 d2 db db1 ->
  exists eid e a t r payload, bundle db eid = Some (e, a, t) /\ ran_out now e a = true /\
    decode_evaluation_request (a_payload a) = Ok r /\ eid = id_str (er_evaluation_id r) /\
    encode_evaluation_request (next_with r d1 d2) = Ok payload /\
    (forall j, bundle db1 j =
       if decide (j = eid) then Some (requeued_rows (next_with r d1 d2) payload now e) else bundle db j) /\
    db1 = retried_db (next_with r d1 d2) payload now db e a t.
Proof.
  intros Hi [a r payload e t Hin Hr Henc He Ha Ht Hnew].
  assert (Hb : bundle db (id_str (er_evaluation_id r)) = Some (e, a, t)) by by apply bundle_Some.
  apply expired_leases_spec in Hin as (eid & e' & He' & Hcur & _ & Hs & Hsa & Hl).
  assert (eid = id_str (er_evaluation_id r)) as ->.
  { destruct (inv_current db Hi eid e' He') as (c & Hc & Hid & _).
    destruct (inv_current db Hi _ e He) as (c' & Hc' & Hid' & _). congruence. }
  assert (e' = e) as -> by congruence.
  exists (id_str (er_evaluation_id r)), e, a, t, r, payload. split; [done|].
  split; [unfold ran_out; by rewrite Hs, Hsa, Hl|]. do 3 (split; [done|]). split; [|done].
  intros j. exact (retried_bundle (next_with r d1 d2) payload now db e a t j Hi Hb Hnew).
Qed.

Lemma Requeued_step now d1 d2 ds db db1 db' :
  Inv db -> retries now d1 d2 db db1 -> Requeued now ds db1 db' -> Requeued now (d1 :: d2 :: ds) db db'.
Proof.
  intros Hi Hretry [Hb He Ha].
  destruct (retries_rows now d1 d2 db db1 Hi Hretry) as
    (eid & e & a & t & r & payload & Heb & Hout & Hr & Heid & Henc & Hb1 & Hdb1). split.
  - intros j x y z Hx. specialize (Hb1 j). destruct (decide (j = eid)) as [->|Hne].
    + assert ((x, y, z) = (e, a, t)) as [= -> -> ->] by congruence. rewrite Hout.
      pose proof (Hb eid _ _ _ Hb1) as Hq. simpl in Hq. exists r, d1, d2, payload.
      split; [done|]. split; [by left|]. split; [right; by left|]. by split.
    + rewrite Hx in Hb1. specialize (Hb j _ _ _ Hb1). destruct (ran_out now x y); [|done].
      destruct Hb as (r' & c1 & c2 & p' & Hr' & Hc1 & Hc2 & Hrest). exists r', c1, c2, p'.
      split; [done|]. split; [by right; right|]. split; [by right; right|]. done.
  - intros j x (y & Hy & Hk)%He. rewrite Hdb1 in Hy. simpl in Hy. insert_cases Hy; [|by eauto].
    apply bundle_Some in Heb as (Heb & _). rewrite <- Heid. by exists e.
  - intros aid x [Hnone|(y & Hy & Hk)]%Ha; [by left|]. rewrite Hdb1 in Hy. simpl in Hy.
    insert_cases Hy; [by left|]. insert_cases Hy; [|by eauto]. right. exists a.
    by apply bundle_Some in Heb as (_ & ? & _).
Qed.

(** Every expired attempt admits the attempts that [ds] can make. *)
Definition retriable (now : Z) (ds : list string) (db : Db) : Prop :=
  forall aid a r, (aid, a) ∈ expired_leases now db -> decode_evaluation_request (a_payload a) = Ok r ->
    (er_attempt_number r < u32_max)%Z /\
    forall d1 d2, d1 ∈ ds -> d2 ∈ ds -> is_ok (encode_evaluation_request (next_with r d1 d2)) = true.

Lemma retriable_step now d1 d2 ds db db1 :
  Inv db -> Inv db1 -> retries now d1 d2 db db1 -> retriable now (d1 :: d2 :: ds) db -> retriable now ds db1.
Proof.
  intros Hi Hi1 Hretry Hall aid x r' Hin Hr'.
  destruct (retries_rows now d1 d2 db db1 Hi Hretry) as (eid & e & a & t & r & payload & _ & _ & _ & _ & _ & Hb1 & _).
  apply expired_leases_bundle in Hin as (j & y & z & Hy & <- & Hout); [|done]. rewrite Hb1 in Hy.
  destruct (decide (j = eid)) as [->|Hne].
  { injection Hy as <- _ _. done. }
  destruct (Hall (e_current_attempt y) x r') as [Hlt Henc]; [|done|].
  { apply expired_leases_bundle; [done|]. by exists j, y, z. }
  split; [done|]. intros c1 c2 Hc1 Hc2. apply Henc; by do 2 right.
Qed.

(** A recovery with entropy and fuel replaces every expired attempt. *)
Lemma recover_requeues n : forall fuel ds db recovered now,
  Inv db -> valid now -> length (expired_leases (um_value now) db) = n -> (n < fuel)%nat ->
  fresh_draws db ds -> (2 * n <= length ds)%nat -> (0 <= recovered <= u32_max)%Z ->
  retriable (um_value now) ds db ->
  exists rest db',
    run_op (recover_loop fuel now (um_value now) recovered) (map Some ds) db
      = (Some (Ok (Z.min (recovered + Z.of_nat n) u32_max)), map Some rest, db') /\
    Inv db' /\ rtc Evolves db db' /\ expired_leases (um_value now) db' = [] /\
    Requeued (um_value now) ds db db'.
Proof.
  induction n as [|n IH]; intros fuel ds db recovered now Hi Hnow Hlen Hfuel Hf Hds Hrec Hall;
    (destruct fuel as [|fuel]; [lia|]).
  { apply nil_length_inv in Hlen. rewrite recover_loop_done by done.
    exists ds, db. rewrite Z.add_0_r, Z.min_l by lia. split_and!; [done..|by apply Requeued_none]. }
  destruct ds as [|d1 [|d2 ds]]; simpl in Hds; [lia|lia|].
  destruct (recover_loop_step fuel now recovered db d1 d2 ds Hi Hnow) as
    [[(aid & a & r & Hin & Hr & Hno) _]|(db1 & Hretry & Hi1 & Hev & Hf1 & Hlen1 & _ & Hrun)];
    [by intros Hnil; rewrite Hnil in Hlen|done| |].
  - destruct (Hall aid a r Hin Hr) as [Hlt Henc]. destruct Hno. split; [done|].
    apply Henc; [by left | right; by left].
  - destruct (IH fuel ds db1 (u32_saturating_add recovered 1) now) as
      (rest & db' & Hrun' & Hi' & Hev' & Hnil & Hq); try done; try lia.
    { unfold u32_saturating_add, u32_max in *. lia. }
    { exact (retriable_step _ d1 d2 ds db db1 Hi Hi1 Hretry Hall). }
    exists rest, db'. rewrite Hrun, Hrun'. split.
    { do 4 f_equal. unfold u32_saturating_add, u32_max in *. lia. }
    split; [done|]. split; [by eapply rtc_l|]. split; [done|]. by eapply Requeued_step.
Qed.
End Requeue.
