(* ===== verification/ProtocolLaws.v ===== *)
(** * Laws of the canonical wire protocol

    Round trips of every document of [Protocol] through its JSON form, validity
    of what the decoders return, the equivalence of the cross-field checks on
    JSON with the domain's contract of a result, and the codec laws the store is
    verified against. *)

From S2P Require Import Prelude Value Control Evaluation EvalResult Application Pipeline Json Codec Protocol.

(** ** Reading an object literal back *)

Create HintDb protocol.

Lemma rbind_step {E A B} (m : result E A) (k : A -> result E B) (a : A) (r : result E B) :
  m = Ok a -> k a = r -> rbind m k = r.
Proof. by intros -> <-. Qed.

Lemma as_object_json fs : as_object (json_object fs) = Ok (map_of fs).
Proof. done. Qed.

Lemma field_of fs name v : map_get name fs = Some v -> field (map_of fs) name = Ok v.
Proof. unfold field. by rewrite map_get_of; intros ->. Qed.

Lemma string_field_of fs name s :
  map_get name fs = Some (JString s) -> string_field (map_of fs) name = Ok s.
Proof. intros H. unfold string_field. by rewrite (field_of _ _ _ H). Qed.

Lemma u64_field_of fs name z :
  map_get name fs = Some (JInt z) -> is_u64 z -> u64_field (map_of fs) name = Ok z.
Proof.
  intros H Hz. unfold u64_field. rewrite (field_of _ _ _ H). cbn [rbind].
  by rewrite json_as_u64_int.
Qed.

Lemma bool_field_of e fs name b :
  map_get name fs = Some (JBool b) -> bool_field e (map_of fs) name = Ok b.
Proof. intros H. unfold bool_field. by rewrite (field_of _ _ _ H). Qed.

Lemma parse_field_of {A} (parse : string -> result DomainError A) fs name s a :
  map_get name fs = Some (JString s) -> parse s = Ok a ->
  parse_field parse (map_of fs) name = Ok a.
Proof. intros H Hp. unfold parse_field. by rewrite (string_field_of _ _ _ H); simpl; rewrite Hp. Qed.

Lemma array_field_of {A} (f : Json -> result ProtocolError A) fs name l xs :
  map_get name fs = Some (JArray l) -> traverse f l = Ok xs ->
  array_field f (map_of fs) name = Ok xs.
Proof. intros H Hl. unfold array_field. by rewrite (field_of _ _ _ H). Qed.

Lemma optional_field_of {A} (f : Json -> result ProtocolError A) fs name v a :
  map_get name fs = Some v -> f v = Ok a ->
  optional_field (map_of fs) name f = Ok (Some a).
Proof. intros H Hf. unfold optional_field. by rewrite map_get_of, H, Hf. Qed.

Lemma optional_field_none {A} (f : Json -> result ProtocolError A) fs name :
  map_get name fs = None -> optional_field (map_of fs) name f = Ok None.
Proof. intros H. unfold optional_field. by rewrite map_get_of, H. Qed.

Lemma as_array_json l : as_array (JArray l) = Ok l.
Proof. done. Qed.

Lemma traverse_map {A B E} (f : B -> result E A) (g : A -> B) (l : list A) :
  Forall (fun a => f (g a) = Ok a) l -> traverse f (map g l) = Ok l.
Proof. induction 1 as [|a l Ha _ IH]; simpl; [done|]. by rewrite Ha; simpl; rewrite IH. Qed.

Lemma domain_Ok {A} (r : result DomainError A) a : r = Ok a -> domain r = Ok a.
Proof. by intros ->. Qed.

Lemma domain_Ok_inv {A} (r : result DomainError A) a : domain r = Ok a -> r = Ok a.
Proof. apply map_err_Ok_inv. Qed.

Lemma u32_try_from_ok {E} (e : E) z : is_u32 z -> u32_try_from e z = Ok z.
Proof.
  unfold is_u32, u32_try_from. intros H.
  by rewrite (proj2 (Z.leb_le _ _)), (proj2 (Z.leb_le _ _)) by lia.
Qed.

(** *** Parsing what a valid value holds *)

Lemma id_parse_str {k} (i : OpaqueId k) : valid i -> id_parse (id_str i) = Ok i.
Proof. intros H. apply id_parse_iff. by destruct i. Qed.
Lemma key_parse_str k : valid k -> IdempotencyKey_parse (key_str k) = Ok k.
Proof. intros H. apply IdempotencyKey_parse_iff. by destruct k. Qed.
Lemma digest_parse_str d : valid d -> ContentDigest_parse (digest_str d) = Ok d.
Proof. intros H. apply ContentDigest_parse_iff. by destruct d. Qed.
Lemma media_parse_str m : valid m -> MediaType_parse (media_str m) = Ok m.
Proof. done. Qed.
Lemma capability_parse_str c : valid c -> Capability_parse (cap_str c) = Ok c.
Proof. intros H. apply Capability_parse_iff. by destruct c. Qed.
Lemma evidence_kind_parse_str k : valid k -> EvidenceKind_parse (evk_str k) = Ok k.
Proof. intros H. apply EvidenceKind_parse_iff. by destruct k. Qed.
Lemma code_parse_str c : valid c -> DiagnosticCode_parse (code_str c) = Ok c.
Proof. intros H. apply DiagnosticCode_parse_iff. by destruct c. Qed.

#[export] Hint Resolve id_parse_str key_parse_str digest_parse_str media_parse_str
  capability_parse_str evidence_kind_parse_str code_parse_str domain_Ok
  as_object_json as_array_json : protocol.
#[export] Hint Extern 3 (field _ _ = _) => (eapply field_of; reflexivity) : protocol.
#[export] Hint Extern 3 (string_field _ _ = _) => (eapply string_field_of; reflexivity) : protocol.
#[export] Hint Extern 3 (u64_field _ _ = _) =>
  (eapply u64_field_of; [reflexivity | ]) : protocol.
#[export] Hint Extern 3 (bool_field _ _ _ = _) => (eapply bool_field_of; reflexivity) : protocol.
#[export] Hint Extern 3 (parse_field _ _ _ = _) =>
  (eapply parse_field_of; [reflexivity | ]) : protocol.
#[export] Hint Extern 3 (array_field _ _ _ = _) =>
  (eapply array_field_of; [reflexivity | ]) : protocol.
#[export] Hint Extern 4 (optional_field _ _ _ = _) =>
  (eapply optional_field_none; reflexivity) : protocol.
#[export] Hint Extern 3 (traverse _ (map _ _) = _) => apply traverse_map : protocol.

(** One [?] of a reader applied to the matching writer. *)
Ltac read_step := eapply rbind_step; [solve [eauto 6 with protocol] | cbn [fst snd]].
Ltac read_all := repeat read_step.

Lemma sensitivity_match s :
  match_str [("public", Public); ("private", Private); ("hidden", Hidden)] (sensitivity_str s)
  = Ok s.
Proof. by destruct s. Qed.

Lemma valid_artifact_u64 a : valid a -> is_u64 (art_size_bytes a).
Proof. intros (_ & _ & _ & H). unfold is_u64, u64_max, MAX_ARTIFACT_BYTES in *. lia. Qed.

#[export] Hint Resolve sensitivity_match valid_artifact_u64 ArtifactRef_new_Ok : protocol.

Lemma artifact_roundtrip a : valid a -> artifact_from_value (artifact_to_value a) = Ok a.
Proof.
  intros Ha. pose proof Ha as (Hi & Hd & Hm & Hs).
  unfold artifact_from_value, artifact_to_value. read_all. eauto with protocol.
Qed.

#[export] Hint Resolve artifact_roundtrip : protocol.

(** ** Requests *)

Lemma stage_kind_roundtrip s : stage_kind_from_value (JString (StageKind.as_str s)) = Ok s.
Proof. by destruct s. Qed.

Lemma stages_roundtrip l :
  traverse stage_kind_from_value (map JString (map StageKind.as_str l)) = Ok l.
Proof.
  rewrite map_map. apply traverse_map, Forall_true. apply stage_kind_roundtrip.
Qed.

Lemma capabilities_roundtrip l :
  valid l ->
  traverse (fun value => let* s := as_str value in domain (Capability_parse s))
    (map JString (map cap_str l)) = Ok l.
Proof.
  intros Hl. rewrite map_map. apply traverse_map.
  eapply Forall_impl; [exact Hl|]. intros c Hc. simpl. by rewrite capability_parse_str.
Qed.

Lemma valid_policy_widths p :
  valid p ->
  is_u64 (rp_cpu_time_ms p) /\ is_u64 (rp_wall_time_ms p) /\ is_u64 (rp_memory_bytes p) /\
  is_u64 (rp_output_bytes p) /\ is_u64 (rp_process_limit p) /\ is_u32 (rp_process_limit p).
Proof.
  unfold valid, valid_policy, is_u64, is_u32, u64_max, u32_max, MAX_CPU_TIME_MS,
    MAX_WALL_TIME_MS, MAX_MEMORY_BYTES, MAX_OUTPUT_BYTES, MAX_PROCESS_LIMIT. lia.
Qed.

Lemma attempt_number_widths n : (1 <= n <= u32_max)%Z -> is_u64 n /\ is_u32 n.
Proof. unfold is_u64, is_u32, u64_max, u32_max. lia. Qed.

#[export] Hint Resolve stages_roundtrip capabilities_roundtrip u32_try_from_ok : protocol.

(** Writing a valid request and reading it back gives it again. *)
Lemma request_value_roundtrip r : valid r -> request_from_value (request_to_value r) = Ok r.
Proof.
  intros ((Hrid & Hkey & Heid & Haid) & (Hpv & Hsub & Hrt & Hplan & Hpol) & Hcaps & Hn & Hb).
  pose proof Hpv as (? & ? & ?). pose proof Hsub as (? & ?). pose proof Hrt as (? & ?).
  destruct (valid_policy_widths _ Hpol) as (? & ? & ? & ? & ? & ?).
  destruct (attempt_number_widths _ Hn) as [? ?].
  unfold request_from_value, request_to_value, strings. read_all.
  destruct (plan_profile (er_plan r)) eqn:Hprof. cbn [EvaluationProfile_as_str].
  rewrite String.eqb_refl. cbn [negb]. read_all.
  destruct (rp_network (er_policy r)) eqn:Hnet. cbn [NetworkPolicy_as_str].
  rewrite String.eqb_refl. cbn [negb]. read_all.
  eapply rbind_step; [apply domain_Ok, try_algorithm_batch_iff; split;
    [by rewrite Hplan | exact Hplan] | cbn [fst snd]].
  read_all.
  eapply rbind_step; [apply domain_Ok, ResourcePolicy_new_iff; split; [|exact Hpol];
    rewrite <- Hnet; by destruct (er_policy r) | cbn [fst snd]].
  apply domain_Ok, EvaluationRequest_new_iff. split; [|by split].
  by destruct r as [? ? ? ? ? [] [] [] ? ? ?].
Qed.

(** ** Results *)

Lemma valid_usage_u64 u :
  valid u ->
  is_u64 (ru_cpu_time_ms u) /\ is_u64 (ru_wall_time_ms u) /\
  is_u64 (ru_memory_peak_bytes u) /\ is_u64 (ru_output_bytes u).
Proof.
  unfold valid, valid_usage, is_u64, u64_max, MAX_CPU_TIME_MS,
    MAX_WALL_TIME_MS, MAX_MEMORY_BYTES, MAX_OUTPUT_BYTES. lia.
Qed.

Lemma usage_roundtrip u : valid u -> usage_from_value (usage_to_value u) = Ok u.
Proof.
  intros Hu. destruct (valid_usage_u64 _ Hu) as (? & ? & ? & ?).
  unfold usage_from_value, usage_to_value. read_all.
  apply domain_Ok, ResourceUsage_new_iff. by destruct u.
Qed.

Lemma diagnostic_roundtrip d : valid d -> diagnostic_from_value (diagnostic_to_value d) = Ok d.
Proof.
  intros [Hc Hm]. unfold diagnostic_from_value, diagnostic_to_value. read_all.
  apply domain_Ok, Diagnostic_new_iff. by destruct d.
Qed.

(** The writers that insert an optional member write an object literal. *)
Lemma evidence_to_value_literal e :
  evidence_to_value e =
    json_object (match ev_artifact e with
                 | Some a => [("artifact", artifact_to_value a)] | None => [] end
      ++ [("evidence_id", JString (id_str (ev_evidence_id e)));
          ("kind", JString (evk_str (ev_kind e)))]).
Proof. unfold evidence_to_value. by destruct (ev_artifact e). Qed.

Lemma provenance_to_value_literal p :
  provenance_to_value p =
    json_object (match pr_node_id p with
                 | Some n => [("node_id", JString (id_str n))] | None => [] end
      ++ [("executor_kind", JString (ExecutorKind.as_str (pr_executor_kind p)));
          ("production_eligible", JBool (pr_production_eligible p));
          ("runtime_digest", JString (digest_str (pr_runtime_digest p)))]).
Proof. unfold provenance_to_value. by destruct (pr_node_id p). Qed.

Lemma evidence_roundtrip e : valid e -> evidence_from_value (evidence_to_value e) = Ok e.
Proof.
  intros (Hi & Hk & Ha). rewrite evidence_to_value_literal. unfold evidence_from_value.
  destruct e as [i k [a|]]; cbn [ev_artifact ev_evidence_id ev_kind app] in *; read_step.
  - eapply rbind_step; [eapply optional_field_of; [reflexivity | by apply artifact_roundtrip]|].
    cbn beta. by read_all.
  - by read_all.
Qed.

#[export] Hint Resolve usage_roundtrip diagnostic_roundtrip evidence_roundtrip : protocol.

Lemma diagnostics_roundtrip (l : list Diagnostic) :
  valid l -> traverse diagnostic_from_value (map diagnostic_to_value l) = Ok l.
Proof. intros Hl. apply traverse_map. by eapply Forall_impl; [exact Hl|]; eauto with protocol. Qed.

Lemma evidences_roundtrip (l : list EvidenceRef) :
  valid l -> traverse evidence_from_value (map evidence_to_value l) = Ok l.
Proof. intros Hl. apply traverse_map. by eapply Forall_impl; [exact Hl|]; eauto with protocol. Qed.

Lemma stage_status_roundtrip s : stage_status_from_value (StageStatus.as_str s) = Ok s.
Proof. by destruct s. Qed.
Lemma evaluation_status_roundtrip s :
  evaluation_status_from_value (EvaluationStatus.as_str s) = Ok s.
Proof. by destruct s. Qed.
Lemma verdict_roundtrip v : verdict_from_value (Verdict.as_str v) = Ok v.
Proof. by destruct v. Qed.
Lemma executor_kind_roundtrip k : executor_kind_from_value (ExecutorKind.as_str k) = Ok k.
Proof. by destruct k. Qed.

#[export] Hint Resolve diagnostics_roundtrip evidences_roundtrip stage_kind_roundtrip
  stage_status_roundtrip evaluation_status_roundtrip verdict_roundtrip
  executor_kind_roundtrip : protocol.

Lemma stage_report_roundtrip s :
  valid s -> stage_report_from_value (stage_report_to_value s) = Ok s.
Proof.
  intros (Hu & Hd & He & Hld & Hle).
  unfold stage_report_from_value, stage_report_to_value. read_all.
  apply domain_Ok, StageReport_new_iff. by destruct s.
Qed.

Lemma stage_reports_roundtrip (l : list StageReport) :
  valid l -> traverse stage_report_from_value (map stage_report_to_value l) = Ok l.
Proof.
  intros Hl. apply traverse_map. by eapply Forall_impl; [exact Hl|]; apply stage_report_roundtrip.
Qed.

#[export] Hint Resolve stage_reports_roundtrip : protocol.

Lemma valid_score_widths s :
  valid s ->
  is_u64 (sc_earned s) /\ is_u64 (sc_possible s) /\ is_u32 (sc_earned s) /\ is_u32 (sc_possible s).
Proof. unfold valid, valid_score, is_u64, is_u32, u64_max, u32_max. lia. Qed.

Lemma node_id_roundtrip (n : NodeId) :
  valid n -> (let* s := as_str (JString (id_str n)) in domain (id_parse s)) = Ok n.
Proof. intros H. cbn. by rewrite id_parse_str. Qed.

Lemma score_parse s : valid s -> Score_new (sc_earned s) (sc_possible s) = Ok s.
Proof.
  intros Hs. destruct (valid_score_widths _ Hs) as (_ & _ & He & Hp).
  apply Score_new_iff; [done..|]. by destruct s.
Qed.

Lemma provenance_parse k e d n :
  provenance_ok k e n -> ExecutionProvenance_new k e d n = Ok (MkProvenance k e d n).
Proof. intros H. by apply ExecutionProvenance_new_iff. Qed.

#[export] Hint Resolve score_parse provenance_parse : protocol.
#[export] Hint Extern 3 (optional_field _ _ _ = _) =>
  (eapply optional_field_of; [reflexivity | apply node_id_roundtrip; assumption]) : protocol.

(** The runtime digest is written once, in the provenance: reading it back into
    the identity relies on the two agreeing, which every valid result ensures. *)
Lemma result_value_roundtrip r : valid r -> result_from_value (result_to_value r) = Ok r.
Proof.
  intros ((?&?&?&?&?&?&?) & Hs & Hst & Hu & Hd & He & (Hpd & Hpn & Hpr) & Hspec).
  destruct (valid_score_widths _ Hs) as (? & ? & ? & ?).
  assert (Hdig := rs_digest _ Hspec). cbn in Hdig.
  unfold result_from_value, result_to_value. rewrite provenance_to_value_literal.
  unfold score_to_value.
  destruct r as [[i1 i2 i3 i4 i5 i6 i7] st vd sc stages us dg ev [k e d [n|]]].
  all: cbn [res_identity res_status res_verdict res_score res_stages res_usage res_diagnostics
    res_evidence res_provenance pr_node_id pr_executor_kind pr_production_eligible
    pr_runtime_digest ei_request_id ei_evaluation_id ei_attempt_id ei_problem_version_id
    ei_submission_id ei_runtime_id ei_runtime_digest app] in *; subst; read_all.
  all: by apply domain_Ok, EvaluationResult_new_spec.
Qed.

(** ** Validity of what the readers return *)

Lemma parse_field_inv {A} (parse : string -> result DomainError A) o name a :
  parse_field parse o name = Ok a -> exists s, parse s = Ok a.
Proof. unfold parse_field. intros H. inv_ok. apply domain_Ok_inv in H. eauto. Qed.

Lemma u64_field_inv o name z : u64_field o name = Ok z -> is_u64 z.
Proof. unfold u64_field. intros H. inv_ok. by apply json_as_u64_Some in H as [_ ?]. Qed.

Lemma u32_try_from_inv {E} (e : E) z n : u32_try_from e z = Ok n -> n = z /\ is_u32 n.
Proof. unfold u32_try_from, is_u32. intros H. inv_ok. by split_bools. Qed.

Lemma id_parse_valid {k} s (i : OpaqueId k) : id_parse s = Ok i -> valid i.
Proof. by intros [_ ?]%id_parse_iff. Qed.
Lemma key_parse_valid s k : IdempotencyKey_parse s = Ok k -> valid k.
Proof. by intros [_ ?]%IdempotencyKey_parse_iff. Qed.
Lemma digest_parse_valid s d : ContentDigest_parse s = Ok d -> valid d.
Proof. by intros [_ ?]%ContentDigest_parse_iff. Qed.
Lemma media_parse_valid s m : MediaType_parse s = Ok m -> valid m.
Proof. by intros [_ ?]%MediaType_parse_iff. Qed.
Lemma capability_parse_valid s c : Capability_parse s = Ok c -> valid c.
Proof. by intros [_ ?]%Capability_parse_iff. Qed.
Lemma evidence_kind_parse_valid s k : EvidenceKind_parse s = Ok k -> valid k.
Proof. by intros [_ ?]%EvidenceKind_parse_iff. Qed.
Lemma code_parse_valid s c : DiagnosticCode_parse s = Ok c -> valid c.
Proof. by intros [_ ?]%DiagnosticCode_parse_iff. Qed.

(** Turning the equations of a reader into validity facts. *)
Ltac parsed_step :=
  match goal with
  | H : domain _ = Ok _ |- _ => apply domain_Ok_inv in H
  | H : parse_field _ _ _ = Ok _ |- _ => apply parse_field_inv in H as [? H]
  | H : id_parse _ = Ok _ |- _ => apply id_parse_valid in H
  | H : IdempotencyKey_parse _ = Ok _ |- _ => apply key_parse_valid in H
  | H : ContentDigest_parse _ = Ok _ |- _ => apply digest_parse_valid in H
  | H : MediaType_parse _ = Ok _ |- _ => apply media_parse_valid in H
  | H : Capability_parse _ = Ok _ |- _ => apply capability_parse_valid in H
  | H : EvidenceKind_parse _ = Ok _ |- _ => apply evidence_kind_parse_valid in H
  | H : DiagnosticCode_parse _ = Ok _ |- _ => apply code_parse_valid in H
  | H : u64_field _ _ = Ok _ |- _ => apply u64_field_inv in H
  | H : u32_try_from _ _ = Ok _ |- _ => apply u32_try_from_inv in H as [-> H]
  end.
Ltac parsed := inv_ok; repeat parsed_step.

Lemma artifact_from_value_valid v a : artifact_from_value v = Ok a -> valid a.
Proof. unfold artifact_from_value. intros H. parsed. by eapply ArtifactRef_new_valid. Qed.

Lemma traverse_valid {A B} `{Valid B} (f : A -> result ProtocolError B) l bs :
  (forall a b, f a = Ok b -> valid b) -> traverse f l = Ok bs -> valid bs.
Proof.
  intros Hf Hl%traverse_Ok. unfold valid, valid_list.
  induction Hl; constructor; eauto.
Qed.

Lemma array_field_valid {B} `{Valid B} (f : Json -> result ProtocolError B) o name bs :
  (forall a b, f a = Ok b -> valid b) -> array_field f o name = Ok bs -> valid bs.
Proof. unfold array_field. intros Hf Hl. inv_ok. by eapply traverse_valid. Qed.

Lemma optional_field_valid {B} `{Valid B} (f : Json -> result ProtocolError B) o name b :
  (forall a b, f a = Ok b -> valid b) -> optional_field o name f = Ok b -> valid b.
Proof.
  unfold optional_field. intros Hf. destruct (map_get name o) as [v|]; intros Hb; inv_ok; [|done].
  by eapply Hf.
Qed.

(** Whatever the reader accepts is a valid request. *)
Lemma request_from_value_valid v r : request_from_value v = Ok r -> valid r.
Proof.
  unfold request_from_value. intros H. parsed.
  match goal with H : artifact_from_value _ = Ok _ |- _ => apply artifact_from_value_valid in H end.
  match goal with H : EvaluationPlan_try_algorithm_batch _ = Ok _ |- _ =>
    apply try_algorithm_batch_iff in H as [_ ?] end.
  match goal with H : ResourcePolicy_new _ _ _ _ _ _ = Ok _ |- _ =>
    apply ResourcePolicy_new_iff in H as [_ ?] end.
  eapply EvaluationRequest_new_valid; [| | |exact H]; cbn; try by split_and!.
  eapply traverse_valid; [|eassumption]. cbn. intros a b Hb. by parsed.
Qed.

Lemma usage_from_value_valid v u : usage_from_value v = Ok u -> valid u.
Proof. unfold usage_from_value. intros H. parsed. by apply ResourceUsage_new_iff in H as [_ ?]. Qed.

Lemma diagnostic_from_value_valid v d : diagnostic_from_value v = Ok d -> valid d.
Proof.
  unfold diagnostic_from_value. intros H. parsed. apply Diagnostic_new_iff in H as [-> ?]. done.
Qed.

Lemma evidence_from_value_valid v e : evidence_from_value v = Ok e -> valid e.
Proof.
  unfold evidence_from_value. intros H. parsed. split_and!; [done..|].
  eapply optional_field_valid; [|eassumption]. apply artifact_from_value_valid.
Qed.

Lemma stage_report_from_value_valid v s : stage_report_from_value v = Ok s -> valid s.
Proof.
  unfold stage_report_from_value. intros H. parsed. apply StageReport_new_iff in H as (-> & ? & ?).
  split_and!; cbn; try done.
  - by eapply usage_from_value_valid.
  - eapply array_field_valid; [|eassumption]. apply diagnostic_from_value_valid.
  - eapply array_field_valid; [|eassumption]. apply evidence_from_value_valid.
Qed.

(** Whatever the reader accepts is a valid result. *)
Lemma result_from_value_valid v r : result_from_value v = Ok r -> valid r.
Proof.
  unfold result_from_value. intros H. parsed.
  match goal with H : Score_new _ _ = Ok _ |- _ =>
    apply Score_new_iff in H as [_ ?]; [|done..] end.
  match goal with H : usage_from_value _ = Ok _ |- _ => apply usage_from_value_valid in H end.
  match goal with H : ExecutionProvenance_new _ _ _ _ = Ok _ |- _ =>
    apply ExecutionProvenance_new_iff in H as [-> ?] end.
  eapply EvaluationResult_new_valid; [..|exact H]; cbn [rsp_identity rsp_score rsp_stages rsp_usage rsp_diagnostics rsp_evidence rsp_provenance]; try done.
  - eapply array_field_valid; [|eassumption]. apply stage_report_from_value_valid.
  - eapply array_field_valid; [|eassumption]. apply diagnostic_from_value_valid.
  - eapply array_field_valid; [|eassumption]. apply evidence_from_value_valid.
  - split_and!; [done| |done]. eapply optional_field_valid; [|eassumption].
    cbn. intros a b Hb. by parsed.
Qed.

(** ** The cross-field checks agree with the domain's contract *)

Definition status_strings (stages : list StageReport) : list string :=
  map (fun s => StageStatus.as_str (sr_status s)) stages.

Lemma status_eqb a b :
  String.eqb (StageStatus.as_str a) (StageStatus.as_str b) = bool_decide (a = b).
Proof. by destruct a, b. Qed.

Lemma status_as_str_inj a b : StageStatus.as_str a = StageStatus.as_str b -> a = b.
Proof. by destruct a, b. Qed.

Lemma stage_eqb a b :
  String.eqb (StageKind.as_str a) (StageKind.as_str b) = bool_decide (a = b).
Proof. by destruct a, b. Qed.

Lemma any_not_statuses s stages :
  any_not (StageStatus.as_str s) (status_strings stages) = any_status_not s stages.
Proof.
  unfold any_not, any_status_not, status_strings.
  induction stages as [|r l IH]; simpl; [done|]. by rewrite status_eqb, IH.
Qed.

Lemma position_statuses s stages :
  position (fun x => String.eqb x (StageStatus.as_str s)) (status_strings stages)
  = position (fun r => bool_decide (sr_status r = s)) stages.
Proof.
  unfold status_strings. induction stages as [|r l IH]; simpl; [done|]. by rewrite status_eqb, IH.
Qed.

(** The body of both patterns: the deciding stage, the stages before it and the
    stages after it. *)
Lemma validate_terminal_pattern_spec stages i s :
  validate_terminal_pattern (status_strings stages) i (StageStatus.as_str s) =
    if negb (bool_decide (sr_status <$> stages !! i = Some s))
       || any_status_not StageStatus.Succeeded (take i stages)
       || any_status_not StageStatus.Skipped (drop (i + 1) stages)
    then Err SemanticViolation else Ok tt.
Proof.
  unfold validate_terminal_pattern.
  rewrite <- (any_not_statuses StageStatus.Succeeded), <- (any_not_statuses StageStatus.Skipped).
  unfold status_strings. rewrite firstn_map, skipn_map.
  replace (bool_decide (map _ stages !! i = Some _))
    with (bool_decide (sr_status <$> stages !! i = Some s)); [done|].
  apply bool_decide_ext.
  change (map ?f ?l) with (f <$> l). rewrite list_lookup_fmap.
  destruct (stages !! i) as [r|]; simpl; [|done].
  split; [by intros [= ->] | by intros [= ->%status_as_str_inj]].
Qed.

Lemma any_terminal_pattern_agrees stages s :
  validate_any_terminal_pattern (status_strings stages) (StageStatus.as_str s) = Ok tt <->
  validate_terminal_stage_pattern stages s = Ok tt.
Proof.
  unfold validate_any_terminal_pattern, validate_terminal_stage_pattern.
  rewrite position_statuses. destruct (position _ stages) as [i|] eqn:Hp; [|done].
  rewrite validate_terminal_pattern_spec.
  apply position_Some in Hp as (pre & x & post & -> & <- & Hx & _).
  rewrite list_lookup_middle by done. simpl. apply bool_decide_eq_true in Hx as ->.
  rewrite bool_decide_true by done. cbn [negb orb].
  by destruct (_ || _).
Qed.

Lemma rejected_pattern_agrees stages k :
  map sr_stage stages = ALGORITHM_BATCH_STAGES ->
  validate_terminal_pattern (status_strings stages) (stage_index k) "failed" = Ok tt <->
  validate_rejected_stage stages k = Ok tt.
Proof.
  intros Ho. change "failed" with (StageStatus.as_str StageStatus.Failed).
  rewrite validate_terminal_pattern_spec. unfold validate_rejected_stage.
  rewrite position_canonical by done.
  destruct (stages !! stage_index k) as [x|] eqn:Hx; simpl.
  - replace (bool_decide (Some (sr_status x) = Some StageStatus.Failed))
      with (bool_decide (sr_status x = StageStatus.Failed))
      by (apply bool_decide_ext; split; congruence).
    by destruct (_ || _ || _).
  - split; done.
Qed.

Lemma stage_statuses_reports stages kinds :
  length stages = length kinds ->
  stage_statuses (map stage_report_to_value stages) (map StageKind.as_str kinds) =
    if bool_decide (map sr_stage stages = kinds) then Ok (status_strings stages)
    else Err SemanticViolation.
Proof.
  revert kinds; induction stages as [|r l IH]; intros [|k kinds] Hlen; try done.
  injection Hlen as Hlen. cbn [map stage_statuses].
  eapply rbind_step; [apply as_object_json|]. cbn beta.
  eapply rbind_step; [eapply string_field_of; reflexivity|]. cbn beta.
  rewrite stage_eqb. destruct (decide (sr_stage r = k)) as [<-|Hne].
  - rewrite bool_decide_true by done. cbn [negb].
    eapply rbind_step; [eapply string_field_of; reflexivity|]. cbn beta.
    rewrite IH by done. destruct (decide (map sr_stage l = kinds)) as [<-|Hne].
    + by rewrite !bool_decide_true.
    + rewrite !bool_decide_false by congruence. done.
  - rewrite !bool_decide_false by congruence. done.
Qed.

Lemma result_stages_agree stages st vd :
  validate_result_stages (map stage_report_to_value stages)
    (EvaluationStatus.as_str st) (Verdict.as_str vd) = Ok tt <->
  map sr_stage stages = ALGORITHM_BATCH_STAGES /\ verdict_row st vd (map sr_status stages).
Proof.
  unfold validate_result_stages. rewrite length_map.
  destruct (Nat.eqb_spec (length stages) (length EXPECTED_STAGES)) as [Hl|Hl]; cbn [negb].
  2: { split; [done|]. intros [Ho _]. by apply canonical_length in Ho. }
  change EXPECTED_STAGES with (map StageKind.as_str ALGORITHM_BATCH_STAGES).
  rewrite stage_statuses_reports by done.
  destruct (decide (map sr_stage stages = ALGORITHM_BATCH_STAGES)) as [Ho|Ho].
  2: { rewrite bool_decide_false by done. split; [done | by intros [? _]]. }
  rewrite bool_decide_true by done. cbn [rbind].
  assert (Hrej := fun k => rejected_stage_iff stages k Ho).
  assert (Hpat := fun k => rejected_pattern_agrees stages k Ho).
  assert (Hterm : forall s, s <> StageStatus.Succeeded ->
    validate_any_terminal_pattern (status_strings stages) (StageStatus.as_str s) = Ok tt <->
    exists k, (k < 5)%nat /\ map sr_status stages = decided_at s k).
  { intros s Hs. rewrite any_terminal_pattern_agrees, terminal_stage_pattern_iff, Hl by done. done. }
  assert (Hall : (if any_not "succeeded" (status_strings stages)
                  then Err SemanticViolation else Ok tt) = Ok tt <->
                 map sr_status stages = replicate 5 StageStatus.Succeeded).
  { change "succeeded" with (StageStatus.as_str StageStatus.Succeeded).
    rewrite any_not_statuses. change 5 with (length EXPECTED_STAGES).
    rewrite <- Hl, <- any_status_not_false. by destruct (any_status_not _ _). }
  assert (Hback : forall (P Q : Prop), (P <-> Q) -> (P <-> map sr_stage stages = ALGORITHM_BATCH_STAGES /\ Q))
    by tauto.
  apply Hback. destruct st, vd; cbn; first
    [ exact Hall
    | rewrite (Hpat StageKind.Build); apply (Hrej StageKind.Build)
    | rewrite (Hpat StageKind.Run); apply (Hrej StageKind.Run)
    | apply (Hterm StageStatus.Failed); done
    | apply (Hterm StageStatus.Cancelled); done
    | split; done ].
Qed.

(** *** The aggregate usage *)

(** Sums and peak over the reports, from [acc]. *)
Definition usage_total (acc : ResourceUsage) (stages : list StageReport) : ResourceUsage :=
  fold_left (fun u s => usage_join u (sr_usage s)) stages acc.

(** Room left for [n] more stages below the width of the counters. *)
Definition room_for (n : nat) (u : ResourceUsage) : Prop :=
  (ru_cpu_time_ms u + Z.of_nat n * MAX_MEMORY_BYTES <= u64_max)%Z /\
  (ru_wall_time_ms u + Z.of_nat n * MAX_MEMORY_BYTES <= u64_max)%Z /\
  (ru_output_bytes u + Z.of_nat n * MAX_MEMORY_BYTES <= u64_max)%Z.

Lemma room_for_join n u v : room_for (S n) u -> valid v -> room_for n (usage_join u v).
Proof.
  unfold room_for, valid, valid_usage, usage_join, MAX_MEMORY_BYTES, MAX_CPU_TIME_MS,
    MAX_WALL_TIME_MS, MAX_OUTPUT_BYTES. simpl. lia.
Qed.

Lemma sum_usage_reports (stages : list StageReport) acc :
  valid stages -> room_for (length stages) acc ->
  sum_usage acc (map stage_report_to_value stages) = Ok (usage_total acc stages).
Proof.
  intros Hst; revert acc; induction Hst as [|r l Hr Hl IH]; intros acc Hroom; [done|].
  destruct Hr as [Hu _]. destruct (valid_usage_u64 _ Hu) as (? & ? & ? & ?).
  assert (Hj := room_for_join _ _ _ Hroom Hu).
  assert (Hadd : forall a b, (a + b <= u64_max)%Z -> u64_checked_add a b = Some (a + b)%Z).
  { intros a b Hab. unfold u64_checked_add. by rewrite (proj2 (Z.leb_le _ _) Hab). }
  destruct Hj as (Hc & Hw & Ho). unfold usage_join, MAX_MEMORY_BYTES in Hc, Hw, Ho. simpl in Hc, Hw, Ho.
  cbn [map sum_usage]. unfold stage_report_to_value at 1. read_step. read_step.
  unfold usage_to_value at 1. do 2 read_step. rewrite Hadd by lia. read_step. read_step.
  rewrite Hadd by lia. read_step. read_step. read_step. rewrite Hadd by lia. read_step.
  rewrite IH by by apply room_for_join. done.
Qed.

Lemma aggregate_usage_agrees r fs :
  valid (res_stages r) -> length (res_stages r) = 5 -> valid (res_usage r) ->
  map_get "usage" fs = Some (usage_to_value (res_usage r)) ->
  validate_aggregate_usage (map_of fs) (map stage_report_to_value (res_stages r)) = Ok tt <->
  res_usage r = usage_total ResourceUsage_default (res_stages r).
Proof.
  intros Hst Hlen Hu Hf. destruct (valid_usage_u64 _ Hu) as (? & ? & ? & ?).
  unfold validate_aggregate_usage.
  rewrite sum_usage_reports; [|done|by rewrite Hlen; vm_compute]. cbn [rbind].
  rewrite (field_of _ _ _ Hf). cbn [rbind]. unfold usage_to_value. rewrite as_object_json.
  cbn [rbind]. rewrite (u64_field_of _ "cpu_time_ms" (ru_cpu_time_ms (res_usage r))) by done.
  rewrite (u64_field_of _ "wall_time_ms" (ru_wall_time_ms (res_usage r))) by done.
  rewrite (u64_field_of _ "memory_peak_bytes" (ru_memory_peak_bytes (res_usage r))) by done.
  rewrite (u64_field_of _ "output_bytes" (ru_output_bytes (res_usage r))) by done.
  cbn [rbind]. change (MkUsage 0 0 0 0) with ResourceUsage_default.
  destruct (usage_total _ _) as [c w m o], (res_usage r) as [c' w' m' o']. simpl.
  destruct (Z.eqb_spec c' c), (Z.eqb_spec w' w), (Z.eqb_spec m' m), (Z.eqb_spec o' o);
    simpl; (split; [done || by intros _; subst | by intros [= -> -> -> ->]]).
Qed.

(** *** The whole check *)

(** Reading the executor kind and the two eligibility members of a written
    provenance. *)
Lemma provenance_members p :
  exists fs, provenance_to_value p = json_object fs /\
    string_field (map_of fs) "executor_kind" = Ok (ExecutorKind.as_str (pr_executor_kind p)) /\
    bool_field SemanticViolation (map_of fs) "production_eligible"
      = Ok (pr_production_eligible p) /\
    map_contains_key "node_id" (map_of fs) = negb (is_none (pr_node_id p)).
Proof.
  eexists. split; [apply provenance_to_value_literal|].
  unfold map_contains_key. rewrite map_get_of.
  destruct (pr_node_id p) as [n|]; cbn [app is_none negb];
    (split; [eapply string_field_of; reflexivity|]);
    (split; [eapply bool_field_of; reflexivity|]); done.
Qed.

Lemma eligible_check k (e : bool) (node : option NodeId) :
  e && (String.eqb (ExecutorKind.as_str k) "development_mock" || negb (negb (is_none node)))
    = false <-> provenance_ok k e node.
Proof.
  unfold provenance_ok. destruct k, e, node as [n|]; simpl; split; try done;
    try (by intros _ _; eauto); intros H; by destruct (H eq_refl) as [? [? ?]].
Qed.

(** The guards on status, verdict and score that precede the stage check,
    against the rows of the domain. *)
Definition guards_ok (st : EvaluationStatus.t) (vd : Verdict.t) (earned : Z) : bool :=
  let status := EvaluationStatus.as_str st in
  let verdict := Verdict.as_str vd in
  negb (String.eqb status "completed" && str_in ["cancelled"; "system_error"] verdict)
  && negb (String.eqb status "failed"
           && (negb (String.eqb verdict "system_error") || negb (earned =? 0)%Z))
  && negb (String.eqb status "cancelled"
           && (negb (String.eqb verdict "cancelled") || negb (earned =? 0)%Z))
  && str_in ["completed"; "failed"; "cancelled"] status
  && negb (String.eqb status "completed"
           && str_in ("compile_error" :: run_rejections) verdict && negb (earned =? 0)%Z).

Lemma guards_agree st vd earned row :
  guards_ok st vd earned = true /\ verdict_row st vd row <->
  verdict_row st vd row /\ (scored st vd = false -> earned = 0%Z).
Proof.
  destruct (Z.eqb_spec earned 0) as [->|Hne].
  - assert (Ht : forall P : Prop, (P -> 0%Z = 0%Z) <-> True) by done.
    destruct st, vd; cbn; tauto.
  - assert (Hf : (false = false -> earned = 0%Z) <-> False)
      by (split; [intros H; by apply Hne, H | done]).
    assert (Ht : true = false -> False) by done.
    unfold guards_ok. rewrite (proj2 (Z.eqb_neq _ _) Hne).
    destruct st, vd; cbn; intuition congruence.
Qed.

Lemma result_semantics_agree r :
  valid (res_score r) -> valid (res_stages r) -> valid (res_usage r) ->
  validate_result_semantics (result_to_value r) = Ok tt <->
  terminal_spec (res_status r) (res_verdict r) (res_score r) (res_stages r) /\
  provenance_ok (pr_executor_kind (res_provenance r))
    (pr_production_eligible (res_provenance r)) (pr_node_id (res_provenance r)) /\
  res_usage r = usage_total ResourceUsage_default (res_stages r).
Proof.
  intros Hs Hst Hu. destruct (valid_score_widths _ Hs) as (? & ? & _ & _).
  destruct (provenance_members (res_provenance r)) as (fs & Hpv & Hkind & Helig & Hnode).
  rewrite <- eligible_check.
  transitivity (guards_ok (res_status r) (res_verdict r) (sc_earned (res_score r)) = true /\
    validate_result_stages (map stage_report_to_value (res_stages r))
      (EvaluationStatus.as_str (res_status r)) (Verdict.as_str (res_verdict r)) = Ok tt /\
    res_usage r = usage_total ResourceUsage_default (res_stages r) /\
    pr_production_eligible (res_provenance r) &&
      (String.eqb (ExecutorKind.as_str (pr_executor_kind (res_provenance r))) "development_mock"
       || negb (negb (is_none (pr_node_id (res_provenance r))))) = false).
  - unfold validate_result_semantics, result_to_value, score_to_value. rewrite Hpv.
    rewrite as_object_json. cbn [rbind].
    erewrite (string_field_of _ "status"), (string_field_of _ "verdict") by reflexivity.
    erewrite !field_of by reflexivity. cbn [rbind]. rewrite !as_object_json. cbn [rbind].
    rewrite (u64_field_of _ "earned" (sc_earned (res_score r))) by done.
    rewrite (u64_field_of _ "possible" (sc_possible (res_score r))) by done.
    rewrite Hkind, Helig, Hnode. cbn [rbind]. rewrite as_array_json. cbn [rbind].
    rewrite (proj2 (Z.ltb_ge _ _)) by apply Hs. unfold guards_ok.
    destruct (_ && str_in ["cancelled"; "system_error"] _); [by split; [|intros []]|].
    destruct (_ && (_ || _)); [by split; [|intros []]|].
    destruct (_ && (_ || _)) in |- *; [by split; [|intros []]|].
    destruct (str_in ["completed"; "failed"; "cancelled"] _); [|by split; [|intros []]].
    destruct (_ && _ && _); [by split; [|intros []]|]. cbn [negb andb].
    destruct (validate_result_stages _ _ _) as [[]|] eqn:Hrow; [|by split; [|intros (_ & ? & _)]].
    apply result_stages_agree in Hrow as [Ho%canonical_length _]. cbn [rbind].
    match goal with |- context [validate_aggregate_usage (map_of ?o) _] =>
      rewrite <- (aggregate_usage_agrees r o) by done end.
    destruct (validate_aggregate_usage _ _) as [[]|]; [|by split; [|intros (_ & _ & ? & _)]].
    cbn [rbind]. destruct (_ && _); [by split; [|intros (_ & _ & _ & ?)] | done].
  - rewrite result_stages_agree. split.
    + intros (Hg & (Ho & Hr) & Hus & Hp). split_and!; [|done|done].
      destruct (proj1 (guards_agree _ _ _ _) (conj Hg Hr)). by split.
    + intros ([Ho Hr Hsc] & Hp & Hus).
      destruct (proj2 (guards_agree _ _ _ _) (conj Hr Hsc)). by split_and!.
Qed.

(** ** Documents contain neither [null] nor floats *)

Lemma plain_strings l : plain (JArray (map JString l)) = true.
Proof. apply json_array_plain. rewrite forallb_map. by apply forallb_forall. Qed.

Lemma plain_array {A} (f : A -> Json) (l : list A) :
  (forall a, plain (f a) = true) -> plain (JArray (map f l)) = true.
Proof. intros Hf. apply json_array_plain. rewrite forallb_map. by apply forallb_forall. Qed.

Lemma plain_object_cons k v fs :
  plain v = true -> plain (json_object fs) = true -> plain (json_object ((k, v) :: fs)) = true.
Proof.
  unfold plain, json_object. cbn [float_free null_free map_of foldr fst snd].
  fold (map_of fs).
  intros [Hv1 Hv2]%andb_true_iff [Hf Hn]%andb_true_iff.
  apply andb_true_iff. split; by apply map_insert_forallb.
Qed.

#[export] Hint Resolve plain_strings plain_array plain_object_cons : protocol.
#[export] Hint Extern 1 (plain (json_object []) = true) => reflexivity : protocol.
#[export] Hint Extern 1 (plain (JString _) = true) => reflexivity : protocol.
#[export] Hint Extern 1 (plain (JInt _) = true) => reflexivity : protocol.
#[export] Hint Extern 1 (plain (JBool _) = true) => reflexivity : protocol.

Lemma artifact_plain a : plain (artifact_to_value a) = true.
Proof. unfold artifact_to_value. auto 20 with protocol. Qed.
Lemma usage_plain u : plain (usage_to_value u) = true.
Proof. unfold usage_to_value. auto 20 with protocol. Qed.
Lemma diagnostic_plain d : plain (diagnostic_to_value d) = true.
Proof. unfold diagnostic_to_value. auto 20 with protocol. Qed.
#[export] Hint Resolve artifact_plain usage_plain diagnostic_plain : protocol.
Lemma evidence_plain e : plain (evidence_to_value e) = true.
Proof. rewrite evidence_to_value_literal. destruct (ev_artifact e); cbn [app]; auto 20 with protocol. Qed.
Lemma provenance_plain p : plain (provenance_to_value p) = true.
Proof. rewrite provenance_to_value_literal. destruct (pr_node_id p); cbn [app]; auto 20 with protocol. Qed.
#[export] Hint Resolve evidence_plain provenance_plain : protocol.
Lemma stage_report_plain s : plain (stage_report_to_value s) = true.
Proof. unfold stage_report_to_value. auto 20 with protocol. Qed.
#[export] Hint Resolve stage_report_plain : protocol.
Lemma request_plain r : plain (request_to_value r) = true.
Proof. unfold request_to_value, strings. auto 40 with protocol. Qed.
Lemma result_plain r : plain (result_to_value r) = true.
Proof. unfold result_to_value, score_to_value. auto 40 with protocol. Qed.

(** ** The bounded codec *)

Lemma ensure_size_iff actual maximum u :
  ensure_size actual maximum = Ok u <-> (actual <= maximum)%Z.
Proof.
  unfold ensure_size. destruct u, (Z.ltb_spec maximum actual); split; (done || lia).
Qed.

Section Laws.
Context `{CanonicalSchemaLaws}.

(** What an encoding is: a schema-valid document's text within the bound. *)
Lemma encode_wire_iff w v maximum p :
  encode_wire w v maximum = Ok p <->
  exists accepts typed, schema_validator = Some accepts /\ accepts v = true /\
    wire_from_value w v = Some typed /\ wire_to_vec w typed = Some p /\
    (str_len p <= maximum)%Z.
Proof.
  unfold encode_wire, validate. split.
  - intros Hp. inv_ok.
    repeat match goal with H : ensure_size _ _ = Ok _ |- _ => apply ensure_size_iff in H end.
    eauto 10.
  - intros (accepts & typed & -> & Ha & Hf & Ht & Hl). simpl. rewrite Ha. simpl.
    rewrite Hf. simpl. rewrite Ht. simpl. by rewrite (proj2 (ensure_size_iff _ _ tt) Hl).
Qed.

(** Decoding an encoding gives the document that was encoded. *)
Lemma decode_encode_wire w v maximum p :
  WireLaws w -> plain v = true ->
  encode_wire w v maximum = Ok p -> decode_wire w p maximum = Ok v.
Proof.
  intros [Htext Hvalue] Hpl (accepts & typed & Hs & Ha & Hf & Ht & Hl)%encode_wire_iff.
  unfold decode_wire, validate. rewrite (proj2 (ensure_size_iff _ _ tt) Hl). simpl.
  destruct (Htext _ _ Ht) as [-> _]. simpl. rewrite (Hvalue _ _ Hpl Hf). simpl.
  by rewrite Hs; simpl; rewrite Ha.
Qed.

Lemma encode_wire_bound w v maximum p :
  WireLaws w -> encode_wire w v maximum = Ok p -> (1 <= str_len p <= maximum)%Z.
Proof.
  intros [Htext _] (accepts & typed & _ & _ & _ & Ht & Hl)%encode_wire_iff.
  by destruct (Htext _ _ Ht).
Qed.

Lemma decode_encode_request r p :
  valid r -> encode_request r = Ok p -> decode_request p = Ok r.
Proof.
  intros Hr Hp. unfold decode_request.
  rewrite (decode_encode_wire _ _ _ _ request_wire_laws (request_plain r) Hp). simpl.
  by apply request_value_roundtrip.
Qed.

Lemma decode_request_valid p r : decode_request p = Ok r -> valid r.
Proof. unfold decode_request. intros Hp. inv_ok. by eapply request_from_value_valid. Qed.

Lemma encode_result_iff r p :
  encode_result r = Ok p <->
  validate_result_semantics (result_to_value r) = Ok tt /\
  encode_wire result_wire (result_to_value r) MAX_EVALUATION_RESULT_BYTES = Ok p.
Proof.
  unfold encode_result. destruct (validate_result_semantics _) as [[]|]; simpl; [tauto|].
  split; [done | by intros []].
Qed.

Lemma decode_encode_result r p :
  valid r -> encode_result r = Ok p -> decode_evaluation_result_domain p = Ok r.
Proof.
  intros Hr [Hsem Hp]%encode_result_iff.
  apply encode_wire_iff in Hp as (accepts & typed & Hs & Ha & Hf & Ht & Hl).
  destruct result_wire_laws as [Htext Hvalue].
  assert (Hto := Hvalue _ _ (result_plain r) Hf). destruct (Htext _ _ Ht) as [Hfrom _].
  unfold decode_evaluation_result_domain, decode_evaluation_result, validate.
  rewrite (proj2 (ensure_size_iff _ _ tt) Hl). simpl. rewrite Hfrom. simpl.
  rewrite Hto. simpl. rewrite Hs. simpl. rewrite Ha, Hsem. simpl.
  rewrite Hto. simpl. by apply result_value_roundtrip.
Qed.

(** Whatever the result decoder accepts is a valid result whose document
    passed the cross-field checks. *)
Lemma decode_result_valid p r :
  decode_evaluation_result_domain p = Ok r ->
  valid r /\ exists v, result_from_value v = Ok r /\ validate_result_semantics v = Ok tt.
Proof.
  unfold decode_evaluation_result_domain, decode_evaluation_result. intros Hp. inv_ok.
  split; [by eapply result_from_value_valid|]. simplify_eq.
  match goal with H : validate_result_semantics _ = Ok ?u |- _ => destruct u end. eauto.
Qed.

#[export] Instance canonical_codec_laws : RequestCodecLaws.
Proof.
  split; simpl.
  - apply decode_encode_request.
  - apply decode_request_valid.
  - intros r p. apply encode_wire_bound, request_wire_laws.
  - intros r p [_ Hp]%encode_result_iff. revert Hp. apply encode_wire_bound, result_wire_laws.
Qed.
End Laws.

(** ** The totals of the pipeline *)

Lemma usage_total_skipped u ks :
  (0 <= ru_memory_peak_bytes u)%Z -> usage_total u (trace_reports ks []) = u.
Proof.
  intros Hm. induction ks as [|k ks IH]; simpl; [done|].
  replace (usage_join u ResourceUsage_default) with u; [done|].
  destruct u; unfold usage_join; simpl in *. f_equal; lia.
Qed.

(** The aggregate over the reports of an execution is the total of its outcomes:
    skipped stages use nothing. *)
Lemma usage_total_trace_from u ks os :
  (0 <= ru_memory_peak_bytes u)%Z -> (length os <= length ks)%nat -> Forall valid os ->
  usage_total u (trace_reports ks os) = trace_usage u os.
Proof.
  revert u ks; induction os as [|o os IH]; intros u ks Hm Hl Hv.
  - destruct ks; [done|]. by rewrite usage_total_skipped.
  - destruct ks as [|k ks]; simpl in Hl; [lia|]. inversion Hv as [|? ? [Ho _] Hos]; subst.
    simpl. rewrite IH; [done| |lia|done]. unfold usage_join. simpl. lia.
Qed.

Lemma usage_total_trace os :
  Forall valid os -> (length os <= 5)%nat ->
  usage_total ResourceUsage_default (trace_reports ALGORITHM_BATCH_STAGES os)
  = trace_usage ResourceUsage_default os.
Proof. intros Hv Hl. by apply usage_total_trace_from. Qed.

Lemma Executes_length {S : Type} `{StageExecutor S} request ks s os s' :
  Executes request ks s os s' -> (length os <= length ks)%nat.
Proof. induction 1; simpl; lia. Qed.
