(* ===== verification/StoreProgress.v ===== *)
(** * Progress of the store's writes

    When its preconditions hold a write commits: a claim of a claimable attempt,
    a submission under a live lease, a creation with fresh identities. Together
    with the exact effect of a successful run ([StoreSteps], [StoreWrites]) this
    is the functional behaviour of the three operations. *)

From S2P Require Import Prelude Value Control Evaluation EvalResult Codec Policy Schema Store Lease StoreLemmas StoreInv StoreSteps StoreWrites StoreSystem StoreRuns StoreRecover.

(** ** CHECK constraints of the rows written *)

Lemma evaluation_check_state eid e s now :
  evaluation_check eid e = true -> s ∈ evaluation_states ->
  (e_created_at e <= now <= MAX_UNIX_MILLIS)%Z ->
  evaluation_check eid (set_evaluation_state s now e) = true.
Proof.
  intros Hc Hs Hn. assert (varchar 16 s = true /\ one_of_strings evaluation_states s = true) as [? ?].
  { unfold evaluation_states in Hs. set_unfold in Hs. by destruct_or! Hs; subst. }
  revert Hc. unfold evaluation_check. simpl. rewrite !andb_true_iff, !time_bound_true.
  intuition lia.
Qed.

Lemma evaluation_check_finish eid e w :
  evaluation_check eid e = true -> tw_state w ∈ evaluation_states ->
  (1 <= str_len (tw_payload w) <= 1048576)%Z -> id_column 128 (tw_idempotency_key w) = true ->
  (e_created_at e <= tw_now w <= MAX_UNIX_MILLIS)%Z ->
  evaluation_check eid (finish_evaluation w e) = true.
Proof.
  intros Hc Hs Hp Hk Hn.
  assert (varchar 16 (tw_state w) = true /\ one_of_strings evaluation_states (tw_state w) = true)
    as [? ?].
  { unfold evaluation_states in Hs. set_unfold in Hs. destruct_or! Hs; by rewrite Hs. }
  apply in_range_true in Hp.
  revert Hc. unfold evaluation_check. simpl. unfold octet_length_between.
  rewrite !andb_true_iff, !time_bound_true. intuition lia.
Qed.

Lemma attempt_check_state aid a s now :
  attempt_check aid a = true -> s ∈ attempt_states ->
  (a_created_at a <= now <= MAX_UNIX_MILLIS)%Z ->
  attempt_check aid (set_attempt_state s now a) = true.
Proof.
  intros Hc Hs Hn. assert (varchar 16 s = true /\ one_of_strings attempt_states s = true) as [? ?].
  { unfold attempt_states in Hs. set_unfold in Hs. by destruct_or! Hs; subst. }
  revert Hc. unfold attempt_check. simpl. rewrite !andb_true_iff, !time_bound_true.
  intuition lia.
Qed.

Lemma attempt_check_lease aid a node token op now expiry :
  attempt_check aid a = true -> id_column 64 node = true -> id_column 64 token = true ->
  nullable (id_column 64) op = true ->
  (a_created_at a <= now <= MAX_UNIX_MILLIS)%Z -> (0 <= expiry <= MAX_UNIX_MILLIS)%Z ->
  attempt_check aid (lease_attempt node token expiry op now a) = true.
Proof.
  intros Hc Hn Ht Ho Hnow He. apply in_range_true in He.
  revert Hc. unfold attempt_check. simpl. rewrite !andb_true_iff, !time_bound_true.
  intuition lia.
Qed.

Section Progress.
Context `{Collation, RequestCodecLaws}.

Lemma task_check_state aid t s now :
  task_check aid t = true -> s ∈ task_states ->
  (t_created_at t <= now <= MAX_UNIX_MILLIS)%Z ->
  task_check aid (set_task_state s now t) = true.
Proof.
  intros Hc Hs Hn. assert (varchar 16 s = true /\ one_of_strings task_states s = true) as [? ?].
  { unfold task_states in Hs. set_unfold in Hs. by destruct_or! Hs; subst. }
  revert Hc. unfold task_check. simpl. rewrite !andb_true_iff, !time_bound_true.
  intuition lia.
Qed.

(** The creation times of a bundle. *)
Lemma bundle_times db eid e a t :
  Inv db -> evaluations db !! eid = Some e -> attempts db !! e_current_attempt e = Some a ->
  tasks db !! e_current_attempt e = Some t ->
  (0 <= e_created_at e <= a_created_at a)%Z /\ t_created_at t = a_created_at a.
Proof.
  intros Hi He Ha Ht. destruct (Inv_bundle db _ e Hi He) as (a0 & t0 & Ha0 & Ht0 & Hec & Hat & _).
  assert (a0 = a) as -> by congruence. assert (t0 = t) as -> by congruence.
  destruct Hec as (_ & _ & _ & Hcr & _). destruct Hat as (_ & Htc & _).
  pose proof (inv_evaluation_check db Hi _ e He) as Hce. unfold evaluation_check in Hce.
  split_eqs. repeat match goal with Hx : time_bound _ _ = true |- _ => apply time_bound_true in Hx end.
  split; [lia | done].
Qed.

Lemma exec_succeeds {A} map stmt (k : Sql A) db db1 r :
  stmt db = Ok db1 -> k db1 = r -> (exec* sql_exec map stmt in k) db = r.
Proof. intros Hs <-. unfold sql_bind, sql_exec. by rewrite Hs. Qed.

(** Rewriting a bundle keeps the deferred constraint. *)
Lemma commit_bundle db eid e e' a' t' :
  Inv db -> evaluations db !! eid = Some e -> e_current_attempt e' = e_current_attempt e ->
  commit_check (put_bundle db eid e' (e_current_attempt e) a' t') = Ok tt.
Proof.
  intros Hi He Hcur. apply commit_check_Ok. intros eid1 e1 He1. simpl in He1. simpl.
  insert_cases He1; [rewrite Hcur, lookup_insert_eq; eauto|].
  destruct (inv_current db Hi eid1 e1 He1) as (a1 & Ha1 & _).
  destruct (decide (e_current_attempt e = e_current_attempt e1)) as [<-|Hne];
    [rewrite lookup_insert_eq | rewrite lookup_insert_ne by done]; eauto.
Qed.

Lemma transaction_succeeds {A} (body : Sql A) db a db1 :
  body db = Ok (a, db1) -> commit_check db1 = Ok tt -> transaction body db = Ok (a, db1).
Proof. intros. by apply transaction_Ok. Qed.

Lemma lift_succeeds {A B} (r : result StoreError.t B) (b : B) (k : B -> Sql A) db x :
  r = Ok b -> k b db = x -> (sql* b := sql_lift r in k b) db = x.
Proof. by intros -> <-. Qed.

(** ** Claims *)

(** No attempt was leased by this operation of this node before. *)
Definition claim_fresh (db : Db) (node : string) (op : option string) : Prop :=
  forall aid a o, op = Some o -> attempts db !! aid = Some a -> claim_key a <> Some (node, o).

Lemma lease_conflict db aid a node token op now expiry :
  Inv db -> attempts db !! aid = Some a -> claim_fresh db node op ->
  attempt_conflict (attempts db) aid (lease_attempt node token expiry op now a) = false.
Proof.
  intros Hi Ha Hfresh.
  pose proof (attempt_conflict_frame db _ a a Hi Ha ltac:(by split_and!) ltac:(done)) as Hc.
  apply attempt_conflict_false in Hc as (Hc1 & Hc2 & _).
  apply attempt_conflict_false. split_and!; [done|done|].
  intros j r' k Hj Hne Hk Hnew. unfold claim_key in Hnew. simpl in Hnew.
  destruct op as [o|]; simpl in Hnew; [|done]. injection Hnew as <-.
  by apply (Hfresh j r' o).
Qed.

(** The three statements of a claim. *)
Lemma lease_bundle_succeeds {A} (k : Sql A) command op now expiry db eid e a t :
  Inv db -> evaluations db !! eid = Some e -> attempts db !! e_current_attempt e = Some a ->
  tasks db !! e_current_attempt e = Some t ->
  valid (ct_node_id command) -> valid (ct_lease_token command) ->
  nullable (id_column 64) op = true -> claim_fresh db (id_str (ct_node_id command)) op ->
  (a_created_at a <= now <= expiry)%Z -> (expiry <= MAX_UNIX_MILLIS)%Z ->
  (exec* sql_exec unavailable (update_attempt (e_current_attempt e)
           (lease_attempt (id_str (ct_node_id command))
              (id_str (ct_lease_token command)) expiry op now)) in
   exec* sql_exec unavailable (update_evaluation eid (set_evaluation_state "leased" now)) in
   exec* sql_exec unavailable (update_task (e_current_attempt e) (set_task_state "leased" now)) in
   k) db
  = k (claimed_db command op now expiry db eid e a t).
Proof.
  intros Hi He Ha Ht Hn Htok Hop Hfresh Hnow Hexp.
  destruct (bundle_times db eid e a t Hi He Ha Ht) as [Hte Htt].
  eapply exec_succeeds.
  { eapply update_attempt_Ok; [done|]. split; [|split; [|done]].
    - apply attempt_check_lease; [by eapply inv_attempt_check| | |done|lia|lia];
        by eapply (opaque_id_column 64).
    - by apply lease_conflict. }
  eapply exec_succeeds.
  { eapply update_evaluation_Ok; [done|]. split; [|split; [|done]].
    - apply evaluation_check_state; [by eapply inv_evaluation_check|by vm_compute; set_solver|lia].
    - simpl. apply evaluation_conflict_false. simpl.
      by apply evaluation_conflict_false, evaluation_conflict_self. }
  eapply exec_succeeds; [|done].
  eapply update_task_Ok; [done|]. split; [|done].
  apply task_check_state; [by eapply inv_task_check|by vm_compute; set_solver|lia].
Qed.

Lemma claim_succeeds command op caps now expiry locked db aid t a :
  Inv db -> first_by queue_key (claimable locked caps db) = Some (aid, t, a) ->
  valid (ct_node_id command) -> valid (ct_lease_token command) ->
  nullable (id_column 64) op = true -> claim_fresh db (id_str (ct_node_id command)) op ->
  (a_created_at a <= now <= expiry)%Z -> (expiry <= MAX_UNIX_MILLIS)%Z ->
  exists r e, decode_evaluation_request (a_payload a) = Ok r /\
    evaluations db !! a_evaluation_id a = Some e /\
    claim_transaction command op caps now expiry locked db
      = Ok (r, claimed_db command op now expiry db (a_evaluation_id a) e a t).
Proof.
  intros Hi Hf Hn Htok Hop Hfresh Hnow Hexp.
  pose proof Hf as [Hin _]%first_by_Some. apply claimable_spec in Hin as
    (Ht & Ha & Hts & Has & (eid & e & He & <- & Hes) & _ & _).
  destruct (Inv_bundle db _ e Hi He) as (a0 & t0 & Ha0 & Ht0 & (Hid & _) & _ & Hp).
  assert (a0 = a) as -> by congruence. assert (t0 = t) as -> by congruence.
  destruct Hp as (r & Hr & _ & Hra & Hre & Hrn & _).
  exists r, e. split; [done|]. rewrite Hid. split; [done|].
  unfold claim_transaction. apply transaction_succeeds; [|by apply commit_bundle].
  apply sql_bind_Ok. exists db, db. split; [done|].
  eapply lift_succeeds; [by rewrite Hf|]. cbn beta iota.
  eapply lift_succeeds; [by rewrite Hr|].
  rewrite Hra, Hre, Hrn, Hid, !String.eqb_refl, Z.eqb_refl. cbn [negb orb].
  by erewrite lease_bundle_succeeds.
Qed.

(** ** Terminal writes *)

(** No other evaluation was finished under this key. *)
Definition result_key_fresh (db : Db) (eid key : string) : Prop :=
  forall j e, evaluations db !! j = Some e -> j <> eid -> e_result_key e <> Some key.

Lemma terminal_state_rows s :
  s ∈ terminal_states ->
  s ∈ evaluation_states /\ s ∈ attempt_states /\ task_state_of s ∈ task_states.
Proof.
  unfold terminal_states, evaluation_states, attempt_states, task_states. intros Hs.
  set_unfold in Hs. destruct_or! Hs; subst; simpl; set_solver.
Qed.

Lemma write_terminal_succeeds w db e a t :
  Inv db -> evaluations db !! tw_evaluation_id w = Some e ->
  tw_attempt_id w = e_current_attempt e ->
  attempts db !! e_current_attempt e = Some a -> tasks db !! e_current_attempt e = Some t ->
  tw_state w ∈ terminal_states -> tw_task_state w = task_state_of (tw_state w) ->
  (1 <= str_len (tw_payload w) <= 1048576)%Z -> id_column 128 (tw_idempotency_key w) = true ->
  result_key_fresh db (tw_evaluation_id w) (tw_idempotency_key w) ->
  (a_created_at a <= tw_now w <= MAX_UNIX_MILLIS)%Z ->
  write_terminal w db = Ok (tt, terminal_db w db e a t).
Proof.
  intros Hi He Haid Ha Ht Hs Hts Hp Hk Hfresh Hnow.
  destruct (bundle_times db _ e a t Hi He Ha Ht) as [Hte Htt].
  destruct (terminal_state_rows _ Hs) as (Hes & Has & Htks).
  unfold write_terminal, terminal_db. rewrite Haid, Hts.
  eapply exec_succeeds.
  { eapply update_evaluation_Ok; [done|]. split; [|split; [|done]].
    - apply evaluation_check_finish; [by eapply inv_evaluation_check|done..|lia].
    - apply evaluation_conflict_false. simpl. split.
      + by apply evaluation_conflict_false, evaluation_conflict_self.
      + intros j r' k Hj Hne Hk' [= <-]. by eapply Hfresh. }
  eapply exec_succeeds.
  { eapply update_attempt_Ok; [done|]. split; [|split; [|done]].
    - apply attempt_check_state; [by eapply inv_attempt_check|done|lia].
    - apply (attempt_conflict_frame db _ a); [done|done|by split_and!|done]. }
  apply sql_exec_Ok. eapply update_task_Ok; [done|]. split; [|done].
  apply task_check_state; [by eapply inv_task_check|done|lia].
Qed.

Lemma submit_succeeds command payload now db e a t :
  Inv db -> encode_evaluation_result (sr_result command) = Ok payload ->
  valid (sr_idempotency_key command) ->
  current_attempt db (id_str (ei_evaluation_id (res_identity (sr_result command))))
    = Some (e, a) ->
  tasks db !! e_current_attempt e = Some t ->
  e_terminal_result e = None -> submit_fence command now e a ->
  result_key_fresh db (id_str (ei_evaluation_id (res_identity (sr_result command))))
    (key_str (sr_idempotency_key command)) ->
  (a_created_at a <= now <= MAX_UNIX_MILLIS)%Z ->
  submit_transaction command payload now db
    = Ok (tt, terminal_db (submit_write command payload now) db e a t).
Proof.
  intros Hi Henc Hkey Hcur Ht Hnone (Hs & Has & Hc & Htok & (expiry & Hexp & Hle) & r & Hr & Hid)
    Hfresh Hnow.
  destruct (Inv_current_attempt db _ e a Hi Hcur) as (He & Ha & _).
  unfold submit_transaction. apply transaction_succeeds.
  2: { unfold terminal_db, submit_write. simpl. rewrite <- Hc. by apply commit_bundle. }
  apply sql_bind_Ok. exists db, db. split; [done|].
  eapply lift_succeeds; [by rewrite Hcur|]. cbn beta iota.
  rewrite Hnone, Hs, Has, Hc, !String.eqb_refl. cbn [negb orb].
  eapply lift_succeeds; [by rewrite Htok|]. rewrite String.eqb_refl. cbn [negb].
  eapply lift_succeeds; [by rewrite Hexp|]. rewrite (proj2 (Z.ltb_ge _ _)) by done.
  eapply lift_succeeds; [by rewrite Hr|]. rewrite (bool_decide_true _ Hid). cbn [negb].
  change (write_terminal _ db) with (write_terminal (submit_write command payload now) db).
  apply write_terminal_succeeds; simpl; try done.
  - destruct (res_status (sr_result command)); vm_compute; set_solver.
  - by destruct (res_status (sr_result command)).
  - by eapply codec_result_bound.
  - by eapply (opaque_id_column 128).
Qed.

(** ** Creations *)

(** The reference rows of a request. *)
Definition artifact_row (r : EvaluationRequest) : ArtifactRow :=
  let source := sub_source (er_submission r) in
  {| ar_digest := digest_str (art_digest source);
     ar_media_type := media_str (art_media_type source);
     ar_size_bytes := art_size_bytes source;
     ar_sensitivity := sensitivity_as_str (art_sensitivity source) |}.
Definition problem_version_row (r : EvaluationRequest) : ProblemVersionRow :=
  {| pvr_problem_id := id_str (pv_problem_id (er_problem_version r));
     pvr_digest := digest_str (pv_digest (er_problem_version r)) |}.
Definition submission_row (r : EvaluationRequest) : SubmissionRow :=
  {| sbr_source_artifact_id := id_str (art_artifact_id (sub_source (er_submission r))) |}.
Definition runtime_row (r : EvaluationRequest) : RuntimeRow :=
  {| rtr_digest := digest_str (rt_digest (er_runtime r)) |}.

(** The reference tables with the rows of [r] in them. *)
Definition registered (r : EvaluationRequest) (db : Db) : Db :=
  {| artifacts := <[id_str (art_artifact_id (sub_source (er_submission r))) := artifact_row r]>
                    (artifacts db);
     problem_versions :=
       <[id_str (pv_problem_version_id (er_problem_version r)) := problem_version_row r]>
         (problem_versions db);
     submissions := <[id_str (sub_submission_id (er_submission r)) := submission_row r]>
                      (submissions db);
     runtimes := <[id_str (rt_runtime_id (er_runtime r)) := runtime_row r]> (runtimes db);
     evaluations := evaluations db; attempts := attempts db; tasks := tasks db |}.

Definition absent_or {R} (m : gmap string R) (id : string) (row : R) : Prop :=
  m !! id = None \/ m !! id = Some row.

(** No reference of the request was registered with another content. *)
Definition references_compatible (r : EvaluationRequest) (db : Db) : Prop :=
  absent_or (artifacts db) (id_str (art_artifact_id (sub_source (er_submission r))))
    (artifact_row r) /\
  absent_or (problem_versions db) (id_str (pv_problem_version_id (er_problem_version r)))
    (problem_version_row r) /\
  absent_or (submissions db) (id_str (sub_submission_id (er_submission r)))
    (submission_row r) /\
  absent_or (runtimes db) (id_str (rt_runtime_id (er_runtime r))) (runtime_row r).

Lemma valid_digest_column d : valid d -> digest_column (digest_str d) = true.
Proof.
  intros (hex & -> & Hok). unfold digest_column, varchar.
  rewrite (proj2 (strip_prefix_Some _ _ hex) eq_refl), Hok, andb_true_r.
  unfold digest_hex_ok in Hok. split_bools. apply Z.leb_le.
  pose proof (char_count_bounds ("sha256:" +:+ hex)) as Hc. rewrite str_len_app in Hc.
  change (str_len "sha256:") with 7%Z in Hc. lia.
Qed.

Lemma valid_media_column m :
  valid m -> varchar 129 (media_str m) = true /\ octet_length_between 1 129 (media_str m) = true.
Proof.
  intros Hm. destruct (media_type_tokens m Hm) as (a & b & He & Ha & Hb & _).
  pose proof (char_count_bounds (media_str m)) as Hc. unfold varchar, octet_length_between.
  assert (Hl : str_len (media_str m) = (str_len a + str_len b + 1)%Z).
  { rewrite He, str_len_app. unfold str_len. simpl. lia. }
  rewrite (proj2 (Z.leb_le _ _)) by lia. split; [done|]. apply in_range_true. lia.
Qed.

Lemma valid_id_column {k} (i : OpaqueId k) : valid i -> id_column 64 (id_str i) = true.
Proof. intros Hi. by apply (opaque_id_column 64). Qed.

(** [INSERT .. ON CONFLICT DO NOTHING] of a row that is absent or the same. *)
Ltac insert_row Hc Hor :=
  rewrite Hc; cbn [guard rbind]; unfold has_key; destruct Hor as [->| Hs];
    [done | rewrite Hs; f_equal; match goal with db : Db |- _ => destruct db end;
            simpl in *; by rewrite insert_id].

Lemma insert_artifact_new id row db :
  artifact_check id row = true -> absent_or (artifacts db) id row ->
  insert_artifact id row db =
    Ok {| artifacts := <[id := row]> (artifacts db); problem_versions := problem_versions db;
          submissions := submissions db; runtimes := runtimes db;
          evaluations := evaluations db; attempts := attempts db; tasks := tasks db |}.
Proof. intros Hc Hor. unfold insert_artifact. insert_row Hc Hor. Qed.

Lemma insert_problem_version_new id row db :
  problem_version_check id row = true -> absent_or (problem_versions db) id row ->
  insert_problem_version id row db =
    Ok {| artifacts := artifacts db; problem_versions := <[id := row]> (problem_versions db);
          submissions := submissions db; runtimes := runtimes db;
          evaluations := evaluations db; attempts := attempts db; tasks := tasks db |}.
Proof. intros Hc Hor. unfold insert_problem_version. insert_row Hc Hor. Qed.

Lemma insert_submission_new id row db :
  submission_check id row = true -> absent_or (submissions db) id row ->
  has_key (artifacts db) (sbr_source_artifact_id row) = true ->
  insert_submission id row db =
    Ok {| artifacts := artifacts db; problem_versions := problem_versions db;
          submissions := <[id := row]> (submissions db); runtimes := runtimes db;
          evaluations := evaluations db; attempts := attempts db; tasks := tasks db |}.
Proof.
  intros Hc Hor Hk. unfold insert_submission. rewrite Hk, Hc. cbn [guard rbind].
  unfold has_key. destruct Hor as [->| Hs]; [done|]. rewrite Hs. f_equal.
  destruct db; simpl in *. by rewrite insert_id.
Qed.

Lemma insert_runtime_new id row db :
  runtime_check id row = true -> absent_or (runtimes db) id row ->
  insert_runtime id row db =
    Ok {| artifacts := artifacts db; problem_versions := problem_versions db;
          submissions := submissions db; runtimes := <[id := row]> (runtimes db);
          evaluations := evaluations db; attempts := attempts db; tasks := tasks db |}.
Proof. intros Hc Hor. unfold insert_runtime. insert_row Hc Hor. Qed.

Lemma artifact_row_check r :
  valid r ->
  artifact_check (id_str (art_artifact_id (sub_source (er_submission r)))) (artifact_row r) = true.
Proof.
  intros (_ & (_ & (_ & Hsrc) & _) & _). destruct Hsrc as (Hid & Hd & Hm & Hsz).
  destruct (valid_media_column _ Hm) as [Hmv Hmo]. unfold artifact_check, artifact_row. simpl.
  rewrite (valid_id_column _ Hid), (valid_digest_column _ Hd), Hmv, Hmo. simpl.
  rewrite (proj2 (in_range_true _ _ _)) by exact Hsz. simpl. by destruct (art_sensitivity _).
Qed.

(** The four registrations of a creation. *)
Lemma registrations_succeed {A} (k : Sql A) r db :
  valid r -> references_compatible r db ->
  (exec* register_artifact r in exec* register_problem_version r in
   exec* register_submission r in exec* register_runtime r in k) db = k (registered r db).
Proof.
  intros Hv (Ha & Hp & Hs & Hr). pose proof (artifact_row_check r Hv) as Hac.
  destruct Hv as (_ & ((Hpi & Hpvi & Hpd) & (Hsi & (Hai & _ & _ & Hsz)) & (Hri & Hrd) & _) & _).
  assert (Hstep : forall (m : Sql unit) (k' : Sql A) db1 db2,
    m db1 = Ok (tt, db2) -> (exec* m in k') db1 = k' db2).
  { intros m k' db1 db2 Hm. unfold sql_bind. by rewrite Hm. }
  erewrite Hstep.
  2: { unfold register_artifact. eapply lift_succeeds.
       { unfold i64_try_from. rewrite (proj2 (Z.leb_le _ _)); [done|].
         unfold MAX_ARTIFACT_BYTES, i64_max in *. lia. }
       eapply exec_succeeds; [by apply insert_artifact_new|]. unfold sql_bind, sql_get. simpl.
       rewrite lookup_insert_eq. simpl. by rewrite bool_decide_true. }
  erewrite Hstep.
  2: { unfold register_problem_version.
       eapply exec_succeeds; [apply insert_problem_version_new; [|exact Hp]|].
       - unfold problem_version_check. simpl.
         by rewrite (valid_id_column _ Hpvi), (valid_id_column _ Hpi), (valid_digest_column _ Hpd).
       - unfold sql_bind, sql_get. simpl. rewrite lookup_insert_eq. simpl.
         by rewrite bool_decide_true. }
  erewrite Hstep.
  2: { unfold register_submission.
       eapply exec_succeeds; [apply insert_submission_new; [|exact Hs|]|].
       - unfold submission_check. simpl.
         by rewrite (valid_id_column _ Hsi), (id_column_varchar _ _ (valid_id_column _ Hai)).
       - apply has_key_true. eexists. apply lookup_insert_eq.
       - unfold sql_bind, sql_get. simpl. rewrite lookup_insert_eq. simpl.
         by rewrite String.eqb_refl. }
  erewrite Hstep.
  2: { unfold register_runtime.
       eapply exec_succeeds; [apply insert_runtime_new; [|exact Hr]|].
       - unfold runtime_check. simpl.
         by rewrite (valid_id_column _ Hri), (valid_digest_column _ Hrd).
       - unfold sql_bind, sql_get. simpl. rewrite lookup_insert_eq. simpl.
         by rewrite String.eqb_refl. }
  done.
Qed.

(** The identities of a request are new to the tables. *)
Definition creation_fresh (r : EvaluationRequest) (db : Db) : Prop :=
  evaluations db !! id_str (er_evaluation_id r) = None /\
  attempts db !! id_str (er_attempt_id r) = None /\
  (forall eid e, evaluations db !! eid = Some e ->
     e_creation_key e <> key_str (er_idempotency_key r)) /\
  (forall aid a, attempts db !! aid = Some a ->
     a_idempotency_key a <> key_str (er_idempotency_key r)).

Lemma initial_evaluation_check r payload now :
  valid r -> encode_evaluation_request r = Ok payload -> (0 <= now <= MAX_UNIX_MILLIS)%Z ->
  evaluation_check (id_str (er_evaluation_id r)) (initial_evaluation r payload now) = true.
Proof.
  intros ((Hri & Hki & Hei & Hai) & ((_ & Hpvi & _) & (Hsi & _) & (Hti & _) & _) & _) Henc Hb.
  pose proof (codec_request_bound _ _ Henc) as Hlen. unfold evaluation_check. simpl.
  rewrite (valid_id_column _ Hei), (valid_id_column _ Hri), (valid_id_column _ Hai),
    (opaque_id_column 128 128 _ Hki), (id_column_varchar _ _ (valid_id_column _ Hpvi)),
    (id_column_varchar _ _ (valid_id_column _ Hsi)),
    (id_column_varchar _ _ (valid_id_column _ Hti)) by done.
  unfold octet_length_between. rewrite (proj2 (in_range_true _ _ _)) by exact Hlen. simpl.
  apply time_bound_true. lia.
Qed.

(** The evaluation and attempt rows of a creation, before its task. *)
Definition inserted_db (r : EvaluationRequest) (payload : bytes) (now : Z) (db : Db) : Db :=
  set_attempts
    (set_evaluations (registered r db)
       (<[id_str (er_evaluation_id r) := initial_evaluation r payload now]> (evaluations db)))
    (<[id_str (er_attempt_id r) := queued_attempt r payload (er_attempt_number r) now]>
       (attempts db)).

Lemma insert_rows_succeed {A} (k : Sql A) r payload now db :
  Inv db -> valid r -> encode_evaluation_request r = Ok payload ->
  (0 <= now <= MAX_UNIX_MILLIS)%Z -> creation_fresh r db ->
  (exec* insert_evaluation r payload now in
   exec* insert_attempt r payload (er_attempt_number r) now in k) (registered r db)
  = k (inserted_db r payload now db).
Proof.
  intros Hi Hv Henc Hb (Hef & Haf & Hck & Hak).
  unfold insert_evaluation, insert_attempt. fold (initial_evaluation r payload now).
  eapply exec_succeeds.
  { apply insert_evaluation_Ok. split; [|split; [done|split; [|split; [|done]]]].
    - by apply initial_evaluation_check.
    - apply evaluation_conflict_false. simpl. split; [by intros; eapply Hck|done].
    - simpl. split_and!; apply has_key_true; eexists; apply lookup_insert_eq. }
  eapply exec_succeeds; [|done].
  apply insert_attempt_Ok. split; [by apply queued_attempt_check|].
  split; [done|split; [|split; [|done]]].
  - apply attempt_conflict_false. simpl. split_and!; [by intros; eapply Hak| |done].
    intros j a Ha _ [= He _]. destruct (inv_attempt db Hi j a Ha) as (e & _ & Hee & _). congruence.
  - apply has_key_true. eexists. apply lookup_insert_eq.
Qed.

(** The task insert decides: its capability check is the only one a valid
    request with fresh identities can fail. *)
Lemma insert_task_spec r payload now db :
  Inv db -> (0 <= now <= MAX_UNIX_MILLIS)%Z -> attempts db !! id_str (er_attempt_id r) = None ->
  insert_task r now (inserted_db r payload now db) =
    if valid_required_capabilities (map cap_str (er_required_capabilities r))
    then Ok (tt, created_db r payload now (registered r db))
    else Err StoreError.Unavailable.
Proof.
  intros Hi Hb Haf. unfold insert_task, sql_exec, insert_task_row. fold (ready_task r now).
  unfold task_check. simpl. rewrite (proj2 (time_bound_true now now)) by lia. simpl.
  destruct (valid_required_capabilities _); [|done]. simpl.
  rewrite (proj2 (has_key_false _ _)) by by apply tasks_fresh. simpl.
  unfold has_key. by rewrite lookup_insert_eq.
Qed.

Lemma commit_created r payload now db :
  Inv db -> attempts db !! id_str (er_attempt_id r) = None ->
  commit_check (created_db r payload now (registered r db)) = Ok tt.
Proof.
  intros Hi Haf. apply commit_check_Ok. intros eid e He. simpl in He. simpl. insert_cases He.
  - simpl. rewrite lookup_insert_eq. eauto.
  - destruct (inv_current db Hi eid e He) as (a & Ha & _).
    rewrite lookup_insert_ne by (intros Heq; rewrite <- Heq in Ha; congruence). eauto.
Qed.

Lemma create_transaction_spec command payload db :
  Inv db -> valid (ce_request command) -> valid (ce_created_at command) ->
  encode_evaluation_request (ce_request command) = Ok payload ->
  creation_fresh (ce_request command) db -> references_compatible (ce_request command) db ->
  create_transaction command payload db =
    if valid_required_capabilities (map cap_str (er_required_capabilities (ce_request command)))
    then Ok (None, created_db (ce_request command) payload (um_value (ce_created_at command))
                     (registered (ce_request command) db))
    else Err StoreError.Unavailable.
Proof.
  intros Hi Hv Hnow Henc Hfresh Hrefs. pose proof Hfresh as (_ & Haf & Hck & _).
  set (r := ce_request command) in *. set (now := um_value (ce_created_at command)).
  assert (Hb : (0 <= now <= MAX_UNIX_MILLIS)%Z) by exact Hnow.
  unfold create_transaction. fold r. unfold transaction at 1, sql_bind at 1.
  match goal with |- match ?body db with _ => _ end = _ =>
    assert (Hbody : body db = sql_bind (insert_task r now) (fun _ => sql_ret None)
                                (inserted_db r payload now db)) end.
  { unfold sql_bind at 1, sql_get. rewrite (proj2 (select_first_None _ _)).
    2: { intros eid e He. apply String.eqb_neq. by eapply Hck. }
    rewrite registrations_succeed by done.
    eapply lift_succeeds.
    { unfold i64_try_from. rewrite (proj2 (Z.leb_le _ _)); [reflexivity|].
      fold now. unfold MAX_UNIX_MILLIS, i64_max in *. lia. }
    fold now. by rewrite insert_rows_succeed. }
  rewrite Hbody. unfold sql_bind at 1. rewrite insert_task_spec by done.
  destruct (valid_required_capabilities _); [|done].
  unfold sql_bind, sql_get, sql_ret, sql_lift. by rewrite commit_created.
Qed.

(** ** Whole operations *)

Lemma create_fresh_run command payload db draws :
  Inv db -> valid (ce_request command) -> valid (ce_created_at command) ->
  encode_evaluation_request (ce_request command) = Ok payload ->
  creation_fresh (ce_request command) db -> references_compatible (ce_request command) db ->
  let db' := created_db (ce_request command) payload (um_value (ce_created_at command))
               (registered (ce_request command) db) in
  if valid_required_capabilities (map cap_str (er_required_capabilities (ce_request command)))
  then exists s, run_op (create_evaluation command) draws db = (Some (Ok s), draws, db') /\
    shows s (er_evaluation_id (ce_request command))
      (initial_evaluation (ce_request command) payload (um_value (ce_created_at command)))
      (queued_attempt (ce_request command) payload (er_attempt_number (ce_request command))
         (um_value (ce_created_at command)))
  else run_op (create_evaluation command) draws db
         = (Some (Err StoreError.Unavailable), draws, db).
Proof.
  intros Hi Hv Hn Henc Hfresh Hrefs db'.
  pose proof (create_transaction_spec command payload db Hi Hv Hn Henc Hfresh Hrefs) as Hc.
  fold db' in Hc. unfold create_evaluation. rewrite Henc. cbn [corrupt map_err op_try].
  destruct (valid_required_capabilities _); [|by rewrite run_tx, Hc].
  pose proof (create_Ok command payload db None _ Hi Hv Henc Hc) as [_ [Hi' _]].
  rewrite run_tx, Hc. cbn [op_try].
  edestruct (run_status_row db' (er_evaluation_id (ce_request command))) as (s & a & Hrun & Ha & Hs).
  { done. }
  { apply lookup_insert_eq. }
  exists s. split; [exact Hrun|].
  simpl in Ha. rewrite lookup_insert_eq in Ha. by injection Ha as <-.
Qed.

Lemma submit_fresh_run command payload now db e a t draws :
  Inv db -> encode_evaluation_result (sr_result command) = Ok payload ->
  i64_try_from StoreError.InvalidTime (um_value (sr_now command)) = Ok now ->
  valid (sr_idempotency_key command) ->
  current_attempt db (id_str (ei_evaluation_id (res_identity (sr_result command))))
    = Some (e, a) ->
  tasks db !! e_current_attempt e = Some t ->
  e_terminal_result e = None -> submit_fence command now e a ->
  result_key_fresh db (id_str (ei_evaluation_id (res_identity (sr_result command))))
    (key_str (sr_idempotency_key command)) ->
  (a_created_at a <= now <= MAX_UNIX_MILLIS)%Z ->
  let write := submit_write command payload now in
  let db' := terminal_db write db e a t in
  exists s, run_op (submit_result command) draws db = (Some (Ok s), draws, db') /\
    shows s (ei_evaluation_id (res_identity (sr_result command)))
      (finish_evaluation write e) (set_attempt_state (tw_state write) now a).
Proof.
  intros Hi Henc Hnow Hkey Hcur Ht Hnone Hfence Hfresh Hb write db'.
  pose proof (submit_succeeds command payload now db e a t Hi Henc Hkey Hcur Ht Hnone Hfence
    Hfresh Hb) as Hs.
  pose proof (submit_Ok command payload now db tt _ Hi Hs) as (_ & _ & _ & _ & _ & _ & Hi' & _).
  fold write db' in Hs, Hi'. unfold submit_result. rewrite Henc. cbn [corrupt map_err op_try].
  rewrite Hnow. cbn [op_try]. rewrite run_tx, Hs. cbn [op_try].
  edestruct (run_status_row db' (ei_evaluation_id (res_identity (sr_result command))))
    as (s & a' & Hrun & Ha & Hsh).
  { done. }
  { apply lookup_insert_eq. }
  exists s. split; [exact Hrun|]. destruct Hfence as (_ & _ & Hc & _).
  simpl in Ha. rewrite Hc, lookup_insert_eq in Ha. by injection Ha as <-.
Qed.

Lemma claim_fresh_run command op caps expires_at now expiry db aid t a draws :
  Inv db ->
  UnixMillis_checked_add (ct_now command) (ct_lease_duration command) = Ok expires_at ->
  i64_try_from StoreError.InvalidTime (um_value (ct_now command)) = Ok now ->
  i64_try_from StoreError.InvalidTime (um_value expires_at) = Ok expiry ->
  first_by queue_key (claimable ∅ caps db) = Some (aid, t, a) ->
  valid (ct_node_id command) -> valid (ct_lease_token command) ->
  nullable (id_column 64) op = true -> claim_fresh db (id_str (ct_node_id command)) op ->
  (a_created_at a <= now <= expiry)%Z -> (expiry <= MAX_UNIX_MILLIS)%Z ->
  exists r e, decode_evaluation_request (a_payload a) = Ok r /\
    evaluations db !! a_evaluation_id a = Some e /\
    run_op (claim_task_with_capabilities command op caps) draws db =
      (Some (Ok {| tl_request := r; tl_node_id := ct_node_id command;
                   tl_lease_token := ct_lease_token command; tl_expires_at := expires_at |}),
       draws, claimed_db command op now expiry db (a_evaluation_id a) e a t).
Proof.
  intros Hi Hadd Hn He Hf Hnode Htok Hop Hfresh Hb Hmax.
  destruct (claim_succeeds command op caps now expiry ∅ db aid t a) as (r & e & Hr & Hev & Hc);
    try done.
  exists r, e. split; [done|]. split; [done|]. unfold claim_task_with_capabilities.
  rewrite Hadd. cbn [invalid_time map_err op_try]. rewrite Hn. cbn [op_try]. rewrite He.
  cbn [op_try run_op]. by rewrite Hc.
Qed.

(** ** Replayed claims *)

Lemma opaque_char_count s : str_all opaque_byte s = true -> char_count s = str_len s.
Proof.
  unfold str_len. induction s as [|c s IH]; simpl; [done|]. intros [Hc Hs]%andb_true_iff.
  rewrite IH by done. replace (is_continuation c) with false; [lia|].
  destruct c as [[] [] [] [] [] [] [] []]; vm_compute in Hc |- *; congruence.
Qed.

Lemma alphanumeric_opaque c : is_ascii_alphanumeric c = true -> opaque_byte c = true.
Proof. unfold opaque_byte. by intros ->. Qed.

(** A stored identifier is a valid one. *)
Lemma id_column_parse {k} s : id_column 64 s = true -> id_parse s = Ok (MkId s : OpaqueId k).
Proof.
  intros Hc. apply id_parse_iff. split; [done|]. unfold valid, valid_id, opaque_ok. simpl.
  unfold id_column, varchar in Hc. apply andb_true_iff in Hc as [Hl Hf]. rewrite Hf. simpl.
  rewrite opaque_char_count in Hl; [done|]. unfold opaque_format in Hf.
  destruct s as [|c s]; [done|]. simpl. apply andb_true_iff in Hf as [Hc ->].
  by rewrite alphanumeric_opaque.
Qed.

Lemma stored_millis_valid z :
  (0 <= z <= MAX_UNIX_MILLIS)%Z -> stored_millis z = Ok (MkMillis z).
Proof.
  intros Hz. unfold stored_millis, UnixMillis_new. rewrite (proj2 (Z.leb_le _ _)) by lia.
  by rewrite (proj2 (Z.ltb_ge _ _)) by lia.
Qed.

(** The answer of the replay query on the row of the operation. *)
Definition replay_answer (c : JudgeClaim) (a : AttemptRow)
    : result StoreError.t (option TaskLease) :=
  if negb (bool_decide (a_node_id a = Some (id_str (jc_node_id c))))
  then Err StoreError.IdempotencyConflict
  else if negb (bool_decide (a_state a = "leased")) then Err StoreError.LeaseConflict
  else
    match decode_evaluation_request (a_payload a), a_lease_token a, a_lease_expires_at a with
    | Ok r, Some token, Some expiry =>
        Ok (Some {| tl_request := r; tl_node_id := jc_node_id c;
                    tl_lease_token := MkId token; tl_expires_at := MkMillis expiry |})
    | _, _, _ => Err StoreError.CorruptData
    end.

(** What a leased attempt of a reachable state holds. *)
Lemma leased_columns db aid a :
  Inv db -> attempts db !! aid = Some a -> a_state a = "leased" ->
  exists r node token expiry, decode_evaluation_request (a_payload a) = Ok r /\
    a_node_id a = Some node /\ a_lease_token a = Some token /\
    a_lease_expires_at a = Some expiry /\ id_column 64 token = true /\
    (0 <= expiry <= MAX_UNIX_MILLIS)%Z.
Proof.
  intros Hi Ha Hs.
  destruct (inv_attempt db Hi aid a Ha) as (e & t & _ & _ & (_ & _ & _ & Hl) & (r & Hr & _) & _).
  destruct (Hl Hs) as (node & token & expiry & Hnode & Htok & Hexp & _).
  pose proof (inv_attempt_check db Hi aid a Ha) as Hc. unfold attempt_check in Hc. split_eqs.
  rewrite Htok, Hexp in *. cbn [nullable] in *. exists r, node, token, expiry.
  do 5 (split; [done|]). by apply in_range_true.
Qed.

Lemma claim_replay_query_spec c db aid a :
  Inv db -> attempts db !! aid = Some a ->
  a_claim_operation a = Some (id_str (jc_operation_id c)) -> a_node_id a <> None ->
  (forall j x, attempts db !! j = Some x ->
     a_claim_operation x = Some (id_str (jc_operation_id c)) -> j = aid) ->
  claim_replay_query c db = rmap (fun l => (l, db)) (replay_answer c a).
Proof.
  intros Hi Ha Hop Hnode Huniq. unfold claim_replay_query, replay_answer.
  assert (Hget : forall A (k : Db -> Sql A), sql_bind sql_get k db = k db db) by done.
  rewrite Hget, (select_first_unique _ _ aid a); [|done|by apply bool_decide_eq_true|].
  2: { intros j x Hj Hx%bool_decide_eq_true. by eapply Huniq. }
  destruct (a_node_id a) as [node|] eqn:Hn; [|done].
  eapply lift_succeeds; [done|]. cbn beta.
  destruct (String.eqb_spec node (id_str (jc_node_id c))) as [->|Hne]; cbn [negb].
  2: { by rewrite bool_decide_false by congruence. }
  rewrite (bool_decide_true (Some _ = Some _)) by done. cbn [negb].
  destruct (String.eqb_spec (a_state a) "leased") as [Hs|Hs]; cbn [negb].
  2: { by rewrite bool_decide_false by congruence. }
  rewrite bool_decide_true by done. cbn [negb].
  destruct (leased_columns db aid a Hi Ha Hs) as (r & _ & token & expiry & Hr & _ & -> & -> & Hc & Hb).
  rewrite Hr. do 2 (eapply lift_succeeds; [done|]; cbn beta).
  eapply lift_succeeds; [done|]. cbn beta.
  eapply lift_succeeds; [by rewrite (id_column_parse _ Hc)|]. cbn beta.
  eapply lift_succeeds; [by apply stored_millis_valid|]. done.
Qed.

(** While the attempt a node claimed is leased, repeating the claim returns
    the same lease; from another node it is a conflict, and so it is once the
    lease ended. *)
Lemma claim_replay_run c db aid a draws :
  Inv db -> attempts db !! aid = Some a ->
  a_claim_operation a = Some (id_str (jc_operation_id c)) -> a_node_id a <> None ->
  (forall j x, attempts db !! j = Some x ->
     a_claim_operation x = Some (id_str (jc_operation_id c)) -> j = aid) ->
  exists l, replay_answer c a = rmap Some l /\
    run_op (judge_claim_task c) draws db = (Some l, draws, db).
Proof.
  intros Hi Ha Hop Hnode Huniq.
  pose proof (claim_replay_query_spec c db aid a Hi Ha Hop Hnode Huniq) as Hq.
  assert (Hnn : replay_answer c a <> Ok None).
  { unfold replay_answer. repeat case_match; congruence. }
  destruct (replay_answer c a) as [[l|]|e]; [exists (Ok l)|done|exists (Err e)];
    (split; [done|]); unfold judge_claim_task; by rewrite run_tx, Hq.
Qed.

(** ** Renewals *)

#[export] Instance renew_matches_dec c e a : Decision (renew_matches c e a).
Proof. unfold renew_matches. apply _. Defined.

Lemma attempt_check_renew aid a expiry now :
  attempt_check aid a = true -> a_lease_token a <> None ->
  (a_created_at a <= now <= MAX_UNIX_MILLIS)%Z -> (0 <= expiry <= MAX_UNIX_MILLIS)%Z ->
  attempt_check aid (renew_attempt expiry now a) = true.
Proof.
  intros Hc Ht Hn He%in_range_true. revert Hc. unfold attempt_check. simpl.
  rewrite !andb_true_iff, !time_bound_true. destruct (a_lease_token a); [|done]. simpl.
  intuition lia.
Qed.

(** A renewal of a leased evaluation: the live owner's lease is extended, and
    nothing but its expiry changes; anybody else is told the lease is stale. *)
Lemma renew_leased_run c expires_at now expiry db e a draws :
  Inv db ->
  UnixMillis_checked_add (jr_now c) (lp_lease_duration (jr_lease_policy c)) = Ok expires_at ->
  i64_try_from StoreError.InvalidTime (um_value (jr_now c)) = Ok now ->
  i64_try_from StoreError.InvalidTime (um_value expires_at) = Ok expiry ->
  current_attempt db (id_str (jr_evaluation_id c)) = Some (e, a) ->
  e_state e = "leased" ->
  (a_created_at a <= now <= expiry)%Z -> (expiry <= MAX_UNIX_MILLIS)%Z ->
  run_op (judge_renew_lease c) draws db =
    if bool_decide (renew_matches c e a)
    then (Some (Ok (Continue expires_at)), draws,
          set_attempts db (<[e_current_attempt e := renew_attempt expiry now a]> (attempts db)))
    else (Some (Err StoreError.StaleLease), draws, db).
Proof.
  intros Hi Hadd Hn Hx Hc Hs Hb Hmax.
  destruct (Inv_current_attempt db _ e a Hi Hc) as (He & Ha & (Hid & Hst & _) & t & Ht & _).
  assert (Has : a_state a = "leased") by congruence.
  destruct (leased_columns db _ a Hi Ha Has) as (r & node & token & x & _ & Hnode & Htok & _).
  unfold judge_renew_lease. rewrite Hadd. cbn [invalid_time map_err op_try]. rewrite Hn.
  cbn [op_try]. rewrite Hx. cbn [op_try]. rewrite run_tx.
  assert (Htx : renew_transaction c expires_at now expiry db =
    if bool_decide (renew_matches c e a)
    then Ok (Continue expires_at,
             set_attempts db (<[e_current_attempt e := renew_attempt expiry now a]> (attempts db)))
    else Err StoreError.StaleLease); [|rewrite Htx; by case_bool_decide].
  assert (Hguard : negb (String.eqb (e_state e) "leased") || negb (String.eqb (a_state a) "leased")
         || negb (String.eqb (e_current_attempt e) (id_str (jr_attempt_id c)))
         || negb (String.eqb node (id_str (jr_node_id c)))
         || negb (String.eqb token (id_str (jr_lease_token c)))
    = negb (bool_decide (renew_matches c e a))).
  { case_bool_decide as Hm.
    - destruct Hm as (_ & _ & -> & Hn' & Ht'). rewrite Hnode in Hn'. rewrite Htok in Ht'.
      injection Hn' as ->. injection Ht' as ->. by rewrite Hs, Has, !String.eqb_refl.
    - rewrite Hs, Has, !String.eqb_refl.
      destruct (String.eqb_spec (e_current_attempt e) (id_str (jr_attempt_id c))),
        (String.eqb_spec node (id_str (jr_node_id c))),
        (String.eqb_spec token (id_str (jr_lease_token c))); try done.
      destruct Hm. split_and!; congruence. }
  unfold renew_transaction.
  case_bool_decide as Hm; cbn [negb] in Hguard.
  - apply transaction_succeeds.
    + apply sql_bind_Ok. exists db, db. split; [done|].
      eapply lift_succeeds; [by rewrite Hc|]. cbn beta iota.
      rewrite (proj2 (String.eqb_neq _ "cancelled")) by congruence.
      rewrite (proj2 (String.eqb_neq (a_state a) "cancelled")) by congruence. cbn [orb].
      eapply lift_succeeds; [by rewrite Hnode|]. eapply lift_succeeds; [by rewrite Htok|].
      cbn beta. rewrite Hguard. destruct Hm as (_ & _ & Hcur & _). rewrite <- Hcur.
      eapply exec_succeeds; [|done].
      eapply update_attempt_Ok; [done|]. split; [|split; [|done]].
      * apply attempt_check_renew; [by eapply inv_attempt_check|congruence|lia|].
        destruct (bundle_times db _ e a t Hi He Ha Ht). lia.
      * apply (attempt_conflict_frame db _ a); [done|done|by split_and!|done].
    + rewrite (put_bundle_attempt db _ e _ _ t He Ht). by apply commit_bundle.
  - apply transaction_Err. unfold sql_bind at 1, sql_get. 
    eapply lift_succeeds; [by rewrite Hc|]. cbn beta iota.
    rewrite (proj2 (String.eqb_neq _ "cancelled")) by congruence.
    rewrite (proj2 (String.eqb_neq (a_state a) "cancelled")) by congruence. cbn [orb].
    eapply lift_succeeds; [by rewrite Hnode|]. eapply lift_succeeds; [by rewrite Htok|].
    cbn beta. by rewrite Hguard.
Qed.

(** A renewal of a cancelled evaluation tells its owner to stop. *)
Lemma renew_cancelled_run c expires_at now expiry db e a draws :
  Inv db ->
  UnixMillis_checked_add (jr_now c) (lp_lease_duration (jr_lease_policy c)) = Ok expires_at ->
  i64_try_from StoreError.InvalidTime (um_value (jr_now c)) = Ok now ->
  i64_try_from StoreError.InvalidTime (um_value expires_at) = Ok expiry ->
  current_attempt db (id_str (jr_evaluation_id c)) = Some (e, a) ->
  e_state e = "cancelled" ->
  run_op (judge_renew_lease c) draws db = (Some (Ok Cancel), draws, db).
Proof.
  intros Hi Hadd Hn Hx Hc Hs. unfold judge_renew_lease. rewrite Hadd.
  cbn [invalid_time map_err op_try]. rewrite Hn. cbn [op_try]. rewrite Hx. cbn [op_try].
  rewrite run_tx. unfold renew_transaction. rewrite (transaction_read _ db Cancel); [done|done|].
  apply sql_bind_Ok. exists db, db. split; [done|].
  eapply lift_succeeds; [by rewrite Hc|]. cbn beta iota. by rewrite Hs.
Qed.
End Progress.

(** ** Frozen and fenced attempts *)

Lemma evolves_attempt_frozen db db' aid a :
  rtc Evolves db db' -> attempts db !! aid = Some a ->
  a_state a <> "queued" -> a_state a <> "leased" -> attempts db' !! aid = Some a.
Proof.
  induction 1 as [|x y z Hev _ IH]; intros Ha Hq Hl; [done|].
  destruct (ev_attempts _ _ Hev aid a Ha) as (a' & Ha' & Hs).
  rewrite (as_frozen _ _ Hs Hq Hl) in Ha'. auto.
Qed.

(** While an attempt stays leased its owner, token and operation are fixed. *)
Lemma evolves_attempt_fenced db db' aid a a' :
  rtc Evolves db db' -> attempts db !! aid = Some a -> a_state a = "leased" ->
  attempts db' !! aid = Some a' -> a_state a' = "leased" ->
  a_node_id a' = a_node_id a /\ a_lease_token a' = a_lease_token a /\
  a_claim_operation a' = a_claim_operation a.
Proof.
  intros Hr; revert a; induction Hr as [|x y z Hev Hr IH]; intros a Ha Hl Ha' Hl'; [by simplify_eq|].
  destruct (ev_attempts _ _ Hev aid a Ha) as (a1 & Ha1 & Hs).
  assert (Hl1 : a_state a1 = "leased").
  { destruct (decide (a_state a1 = "leased")) as [|Hn1]; [done|].
    destruct (decide (a_state a1 = "queued")) as [Hq|Hq].
    - destruct (as_moves _ _ Hs) as [He|(u & v & Hu & Hv & Hst)]; [congruence|].
      rewrite Hl in Hu. rewrite Hq in Hv. by destruct u, v.
    - rewrite (evolves_attempt_frozen _ _ aid a1 Hr Ha1 Hq Hn1) in Ha'. congruence. }
  destruct (as_fenced _ _ Hs Hl Hl1) as (E1 & E2 & E3). rewrite <- E1, <- E2, <- E3. eauto.
Qed.
