(* ===== verification/Fixtures.v ===== *)
(** * Concrete instances

    The closed world the examples and witnesses of the development evaluate in:
    the byte order as collation, a canonical schema that accepts every document
    with [binary_serde] as its text form, a request, a small executor and the
    tables a few operations leave behind. *)

From S2P Require Import Prelude Value Control Evaluation EvalResult Application Pipeline Json Codec Protocol ProtocolLaws Policy Schema Store Lease StoreLemmas StoreInv StoreSteps StoreWrites StoreSystem StoreRuns StoreRecover StoreProgress.
From stdpp Require Import relations.

(** ** Byte order *)

Lemma ascii_compare_code a b : Ascii.compare a b = Z.compare (byte_code a) (byte_code b).
Proof. unfold Ascii.compare, byte_code. by rewrite N2Z.inj_compare. Qed.

Lemma byte_code_inj a b : byte_code a = byte_code b -> a = b.
Proof.
  unfold byte_code. intros H%N2Z.inj.
  by rewrite <- (Ascii.ascii_N_embedding a), H, Ascii.ascii_N_embedding.
Qed.

Lemma byte_leb_trans s t u :
  String.compare s t <> Gt -> String.compare t u <> Gt -> String.compare s u <> Gt.
Proof.
  revert t u; induction s as [|c s IH]; intros [|d t] [|f u]; simpl; try done.
  rewrite !ascii_compare_code.
  destruct (Z.compare_spec (byte_code c) (byte_code d)) as [Hcd|Hcd|Hcd]; [|intros _|done];
    destruct (Z.compare_spec (byte_code d) (byte_code f)) as [Hdf|Hdf|Hdf]; try done;
    destruct (Z.compare_spec (byte_code c) (byte_code f)) as [Hcf|Hcf|Hcf]; try done; try lia.
  by apply IH.
Qed.

#[export] Instance byte_collation : Collation.
Proof.
  refine {| text_leb := fun s t => match String.compare s t with Gt => false | _ => true end |}.
  - intros s t. pose proof (String.compare_antisym s t) as Ha.
    destruct (String.compare s t), (String.compare t s); auto; done.
  - intros s t u Hs Ht. pose proof (byte_leb_trans s t u).
    destruct (String.compare s t), (String.compare t u), (String.compare s u); naive_solver.
  - intros s t Hs Ht. pose proof (String.compare_antisym s t) as Ha.
    destruct (String.compare s t) eqn:E; [by apply String.compare_eq_iff| |done].
    by destruct (String.compare t s).
Defined.

(** ** Schema and codec *)

Definition json_wire : Wire := {|
  wire_t := Json;
  wire_from_slice := @json_from_slice binary_serde;
  wire_to_vec := fun v => if plain v then @json_to_vec binary_serde v else None;
  wire_from_value := Some;
  wire_to_value := Some
|}.

#[export] Instance open_schema : CanonicalSchema := {|
  request_wire := json_wire;
  result_wire := json_wire;
  schema_validator := Some (fun _ => true)
|}.

Lemma json_wire_laws : WireLaws json_wire.
Proof.
  split; simpl.
  - intros v s. destruct (plain v) eqn:Hp; [|done]. intros Hs. split.
    + apply (@serde_text_roundtrip binary_serde binary_serde_laws); [|done].
      unfold plain in Hp. by apply andb_true_iff in Hp as [? _].
    + exact (@serde_text_nonempty binary_serde binary_serde_laws v s Hs).
  - congruence.
Qed.

#[export] Instance open_schema_laws : CanonicalSchemaLaws.
Proof. split; apply json_wire_laws. Qed.

(** ** A request *)

Definition sample_digest : ContentDigest :=
  MkDigest "sha256:0123456789abcdef0123456789abcdef0123456789abcdef0123456789abcdef".

Definition sample_policy : ResourcePolicy := MkPolicy 1000 2000 268435456 65536 32 Denied.

Definition sample_request (evaluation attempt key : string) (caps : list Capability)
    : EvaluationRequest := {|
  er_request_id := MkId ("request." +:+ evaluation);
  er_idempotency_key := MkKey key;
  er_evaluation_id := MkId evaluation;
  er_attempt_id := MkId attempt;
  er_attempt_number := 1;
  er_problem_version := MkProblemVersionRef (MkId "sum") (MkId "sum.v1") sample_digest;
  er_submission :=
    MkSubmissionRef (MkId "submission-1")
      (MkArtifactRef (MkId "source-1") sample_digest (MkMediaType "text/x-c++src") 512 Private);
  er_runtime := MkRuntimeRef (MkId "cpp20") sample_digest;
  er_plan := EvaluationPlan_algorithm_batch;
  er_policy := sample_policy;
  er_required_capabilities := caps
|}.

Definition cpp : Capability := MkCapability "language.cpp".

Definition request_1 : EvaluationRequest := sample_request "evaluation-1" "attempt-1" "create-1" [cpp].

Lemma cpp_valid : valid cpp.
Proof. apply (Capability_parse_iff "language.cpp"). by vm_compute. Qed.

Lemma sample_digest_valid : valid sample_digest.
Proof. apply (ContentDigest_parse_iff (digest_str sample_digest)). by vm_compute. Qed.

Lemma sample_request_valid evaluation attempt key caps :
  opaque_ok MAX_OPAQUE_ID_LENGTH ("request." +:+ evaluation) = true ->
  opaque_ok MAX_OPAQUE_ID_LENGTH evaluation = true ->
  opaque_ok MAX_OPAQUE_ID_LENGTH attempt = true ->
  opaque_ok MAX_IDEMPOTENCY_KEY_LENGTH key = true ->
  valid caps -> NoDup caps -> (len caps <= MAX_CAPABILITIES)%Z ->
  valid (sample_request evaluation attempt key caps).
Proof.
  intros Hr He Ha Hk Hc Hnd Hl. pose proof sample_digest_valid.
  split; [by split_and!|]. split; [|split; [done|by split_and!]].
  split_and!; try done; split_and!; try done; by vm_compute.
Qed.

Lemma request_1_valid : valid request_1.
Proof.
  apply sample_request_valid; try by vm_compute.
  - constructor; [apply cpp_valid|constructor].
  - apply NoDup_singleton.
Qed.

(** ** An executor *)

(** Each state of the bench decides the outcome of every stage. *)
Inductive Bench : Type := Accepting | CompileFails | WorkerBreaks | Stopped | Unmeasured.

Definition stage_cost : ResourceUsage := MkUsage 10 12 4096 64.
Definition note : Diagnostic := MkDiagnostic (MkCode "NOTE") "ok" false.

#[export] Instance bench_executor : StageExecutor Bench := {|
  se_kind := fun _ => ExecutorKind.Firecracker;
  se_production_eligible := fun _ => true;
  se_node_id := fun _ => Some (MkId "node-1");
  se_supports := fun _ c => bool_decide (c = cpp);
  se_execute := fun ctx s =>
    let success := ExSucceeded stage_cost [note] []
      (match sc_stage ctx with
       | StageKind.Check => Some (MkDecision Verdict.Accepted (MkScore 1 1))
       | _ => None
       end) in
    (match s, sc_stage ctx with
     | CompileFails, StageKind.Build => ExRejected Verdict.CompileError stage_cost [note] []
     | WorkerBreaks, StageKind.Run => ExFailed stage_cost [] []
     | Stopped, StageKind.Build => ExCancelled stage_cost [] []
     | Unmeasured, StageKind.Run =>
         ExSucceeded (MkUsage MAX_CPU_TIME_MS 0 0 0) [] [] None
     | _, _ => success
     end, s)
|}.

#[export] Instance bench_laws : ExecutorLaws Bench.
Proof.
  split; [|by intros s; vm_compute].
  intros [r k] s.
  assert (Hn : Forall valid [note]) by (constructor; [by vm_compute|constructor]).
  assert (H0 : Forall valid ([] : list EvidenceRef)) by constructor.
  assert (H1 : Forall valid ([] : list Diagnostic)) by constructor.
  destruct s, k; simpl; split_and!; try done; try (by vm_compute);
    (split; [by left | by vm_compute]).
Qed.

Definition dummy_result : EvaluationResult :=
  expected_result request_1 (trace_provenance request_1 Accepting) []
    (MkTerminal EvaluationStatus.Failed Verdict.SystemError score_0_1).

Definition result_of (r : EvaluationRequest) (b : Bench) : EvaluationResult :=
  match fst (evaluate r b) with Ok x => x | Err _ => dummy_result end.

Lemma result_1_evaluated b : b <> Unmeasured -> evaluate request_1 b = (Ok (result_of request_1 b), b).
Proof. by destruct b; [vm_compute..|]. Qed.

(** ** Tables *)

Lemma run_op_steps {A} (op : Op A) : forall draws db r ds db',
  run_op op draws db = (Some r, ds, db') -> rtc op_step (op, db) (Done r, db').
Proof.
  induction op as [r0|B t k IH|k IH|]; intros draws db r ds db' Hrun; simpl in Hrun.
  - injection Hrun as <- <- <-. constructor.
  - destruct (t ∅ db) as [[b db1]|e] eqn:Ht.
    + eapply rtc_l; [by eapply step_commit|]. by eapply IH.
    + eapply rtc_l; [by eapply step_rollback|]. by eapply IH.
  - destruct draws as [|d draws].
    + eapply rtc_l; [apply (step_draw k None)|]. by eapply IH.
    + eapply rtc_l; [apply (step_draw k d)|]. by eapply IH.
  - done.
Qed.

Lemma system_lift pre post A (op op' : Op A) db db' :
  rtc op_step (op, db) (op', db') ->
  rtc system_step (pre ++ existT A op :: post, db) (pre ++ existT A op' :: post, db').
Proof.
  intros Hs. remember (op, db) as x eqn:Ex. remember (op', db') as y eqn:Ey.
  revert op db Ex. induction Hs as [x|x [o1 d1] y Hstep _ IH]; intros op db Ex; subst.
  - injection Ex as -> ->. constructor.
  - eapply rtc_l; [by apply system_op|]. by apply IH.
Qed.

(** The tables after a caller ran an operation alone. *)
Definition after {A} (op : Op A) (draws : list (option string)) (db : Db) : Db :=
  snd (run_op op draws db).

Definition answered {A} (x : option (result StoreError.t A) * list (option string) * Db) : bool :=
  match x with (Some _, _, _) => true | _ => false end.

Lemma reachable_run {A} (op : Op A) draws ops db :
  reachable ops db -> StoreCall A op -> answered (run_op op draws db) = true ->
  exists ops', reachable ops' (after op draws db).
Proof.
  intros Hr Hc Ha. unfold after. destruct (run_op op draws db) as [[[r|] ds] db'] eqn:E; [|done].
  exists (ops ++ [existT A (Done r)]). apply (transitivity Hr).
  eapply rtc_l; [by apply system_start|]. apply (system_lift ops []). by eapply run_op_steps.
Qed.

(** A small history: evaluation 1 is created, claimed by node 1, and finished;
    or it is claimed and its lease runs out. *)
Definition t0 : UnixMillis := MkMillis 1000.
Definition lease_10s : LeasePolicy := MkLeasePolicy (MkDuration 10000) (MkDuration 3000).

Definition create_1 : CreateEvaluation := MkCreateEvaluation request_1 t0.
Definition claim_1 : JudgeClaim :=
  MkJudgeClaim (MkId "node-1") [cpp] (MkId "claim-op-1") (MkId "token-1") (MkMillis 2000) lease_10s.
Definition submit_1 : JudgeSubmitResult :=
  MkJudgeSubmitResult (MkId "node-1") (MkId "result-op-1") (MkId "token-1")
    (result_of request_1 Accepting) (MkMillis 3000).
Definition cancel_1 : CancelEvaluation :=
  MkCancelEvaluation (MkKey "cancel-1") (MkId "evaluation-1") (result_of request_1 Stopped)
    (MkMillis 3000).
Definition late : UnixMillis := MkMillis 20000.

Definition db_created : Db := after (create_evaluation create_1) [] empty_db.
Definition db_leased : Db := after (judge_claim_task claim_1) [] db_created.
Definition db_finished : Db := after (judge_submit_result submit_1) [] db_leased.
Definition db_recovered : Db := after (recover_expired 2 late) [Some "aa"; Some "bb"] db_leased.

Lemma empty_reachable : reachable [] empty_db.
Proof. constructor. Qed.

Lemma lease_10s_valid : valid lease_10s.
Proof. by vm_compute. Qed.

Lemma db_created_reachable : exists ops, reachable ops db_created.
Proof.
  eapply reachable_run; [apply empty_reachable| |by vm_compute].
  constructor. apply request_1_valid.
Qed.

Lemma db_leased_reachable : exists ops, reachable ops db_leased.
Proof.
  destruct db_created_reachable as [ops Hr].
  eapply reachable_run; [exact Hr| |by vm_compute].
  constructor; [by vm_compute|apply lease_10s_valid].
Qed.

Lemma db_finished_reachable : exists ops, reachable ops db_finished.
Proof.
  destruct db_leased_reachable as [ops Hr].
  eapply reachable_run; [exact Hr|constructor|by vm_compute].
Qed.

Lemma db_recovered_reachable : exists ops, reachable ops db_recovered.
Proof.
  destruct db_leased_reachable as [ops Hr].
  eapply reachable_run; [exact Hr|constructor|by vm_compute].
Qed.

(** A row of a computed table, by evaluation of the test [P] on it. *)
Lemma some_with {A} (o : option A) (P : A -> bool) :
  match o with Some r => P r | None => false end = true -> exists r, o = Some r /\ P r = true.
Proof. destruct o as [r|]; [|done]. eauto. Qed.

Lemma ok_with {E A} (r : result E A) (P : A -> bool) :
  match r with Ok a => P a | Err _ => false end = true -> exists a, r = Ok a /\ P a = true.
Proof. destruct r as [a|]; [|done]. eauto. Qed.

Lemma row_with {R} (m : gmap string R) (k : string) (P : R -> bool) :
  match m !! k with Some r => P r | None => false end = true ->
  exists r, m !! k = Some r /\ P r = true.
Proof. apply some_with. Qed.

Lemma is_null_true {A} (o : option A) : is_null o = true -> o = None.
Proof. by destruct o. Qed.

Lemma not_null {A} (o : option A) : negb (is_null o) = true -> o <> None.
Proof. by destruct o. Qed.

Lemma creation_fresh_empty r : creation_fresh r empty_db.
Proof.
  split; [done|]. split; [done|].
  split; intros ? ? Hl; cbn in Hl; by rewrite lookup_empty in Hl.
Qed.

Lemma references_empty r : references_compatible r empty_db.
Proof. split_and!; by left. Qed.

(** A test that every row of a computed table passes. *)
Lemma table_with {R} (m : gmap string R) (P : string -> R -> bool) :
  forallb (fun kr => P (fst kr) (snd kr)) (map_to_list m) = true ->
  forall k r, m !! k = Some r -> P k r = true.
Proof.
  intros Hall k r Hk. rewrite forallb_forall in Hall.
  apply elem_of_map_to_list, list_elem_of_In in Hk. by apply Hall in Hk.
Qed.

(** Draws that collide with nothing in computed tables. *)
Lemma fresh_draws_with db ds :
  NoDup ds ->
  forallb (fun d => negb (has_key (attempts db) ("attempt_" +:+ d)) &&
    (forallb (fun kr => negb (String.eqb (a_idempotency_key (snd kr)) ("idem_retry_" +:+ d)))
       (map_to_list (attempts db)) &&
    (is_ok (next_attempt_id (Some d)) && is_ok (next_idempotency_key (Some d))))) ds = true ->
  fresh_draws db ds.
Proof.
  intros Hnd Hall. split; [done|]. apply Forall_forall. intros d Hd.
  rewrite forallb_forall in Hall. apply list_elem_of_In in Hd. specialize (Hall d Hd).
  apply andb_true_iff in Hall as [Hk [Hi [Ha Hb]%andb_true_iff]%andb_true_iff].
  split; [by apply has_key_false, negb_true_iff|]. split; [|done].
  intros aid a Hl. by apply String.eqb_neq, negb_true_iff,
    (table_with (attempts db) (fun _ a => negb (String.eqb (a_idempotency_key a) _)) Hi aid a).
Qed.

Lemma after_run {A} (op : Op A) draws db x ds db' :
  run_op op draws db = (x, ds, db') -> after op draws db = db'.
Proof. unfold after. by intros ->. Qed.

Lemma db_created_after : db_created = after (create_evaluation create_1) [] empty_db.
Proof. done. Qed.

(** The computed values are evaluated by [vm_compute] only. *)
#[global] Opaque db_created db_leased db_finished db_recovered after result_of.
