(* ===== verification/PropStore.v ===== *)
(** * Properties of the evaluation store

    The theorems about [crates/openoj-storage]: what holds in every reachable
    state of concurrent callers, what a run of each operation answers and
    writes, and where the code's error answers differ from the contract. Every
    theorem that has hypotheses is followed by its instance on the tables of
    [Fixtures]. *)

From S2P Require Import Prelude Value Control Evaluation EvalResult Application Pipeline Json Codec Protocol ProtocolLaws Policy Schema Store Lease StoreLemmas StoreInv StoreSteps StoreWrites StoreSystem StoreRuns StoreRecover StoreProgress Fixtures.
From stdpp Require Import relations.

(** ** Every interleaving *)

(** C4: the invariant of the tables (schema constraints, one current attempt per
    evaluation with matching states, lease columns exactly while leased, stored
    payloads that decode to the request of their row) holds in every state that
    concurrent callers of the store can reach, whatever the interleaving of
    their transactions, lost connections and entropy. *)
Theorem store_invariant `{Collation, RequestCodecLaws} (ops : list Caller) (db : Db) :
  reachable ops db -> Inv db.
Proof. apply reachable_Inv. Qed.

Lemma store_invariant_witness : exists ops, reachable ops db_recovered /\ Inv db_recovered.
Proof.
  destruct db_recovered_reachable as [ops Hr]. exists ops. split; [exact Hr|].
  exact (store_invariant ops db_recovered Hr).
Defined.

(** C5: first terminal wins: once an evaluation has a terminal result, its row
    and the row of its current attempt never change again. *)
Theorem terminal_is_final `{Collation, RequestCodecLaws} (ops ops' : list Caller) (db db' : Db)
    (eid : string) (e : EvaluationRow) :
  reachable ops db -> rtc system_step (ops, db) (ops', db') ->
  evaluations db !! eid = Some e -> e_terminal_result e <> None ->
  evaluations db' !! eid = Some e /\
  attempts db' !! e_current_attempt e = attempts db !! e_current_attempt e.
Proof.
  intros Hr Hs He Ht. pose proof (reachable_Inv _ _ Hr) as Hi.
  destruct (reachable_evolves _ _ _ _ Hr Hs) as [_ Hev].
  split; [by eapply evolves_terminal|].
  destruct (inv_current db Hi eid e He) as (a & Ha & _ & Hst & _ & _ & Hterm).
  rewrite Ha. apply Hterm in Ht. rewrite <- Hst in Ht.
  eapply evolves_attempt_frozen; [done..| |]; intros Heq; rewrite Heq in Ht;
    unfold terminal_states in Ht; set_solver.
Qed.

Lemma terminal_is_final_witness :
  exists ops e, reachable ops db_finished /\ evaluations db_finished !! "evaluation-1" = Some e /\
    e_terminal_result e <> None /\ evaluations db_finished !! "evaluation-1" = Some e.
Proof.
  destruct db_finished_reachable as [ops Hr].
  destruct (row_with (evaluations db_finished) "evaluation-1"
    (fun e => negb (is_null (e_terminal_result e))))
    as (e & He & Ht%not_null); [vm_compute; reflexivity|].
  exists ops, e. split; [exact Hr|]. split; [done|]. split; [exact Ht|].
  exact (proj1 (terminal_is_final ops ops db_finished db_finished "evaluation-1" e Hr
    (rtc_refl _ _) He Ht)).
Defined.

(** C14: the rows refine the domain's state machines: over any run an evaluation
    and an attempt keep their identity columns and move along
    [EvaluationState::transition_to] and [AttemptState::transition_to], so an
    attempt that left the queue never re-enters it. *)
Theorem rows_follow_lifecycles `{Collation, RequestCodecLaws} (ops ops' : list Caller)
    (db db' : Db) :
  reachable ops db -> rtc system_step (ops, db) (ops', db') ->
  (forall eid e, evaluations db !! eid = Some e ->
     exists e' x y, evaluations db' !! eid = Some e' /\ evaluation_frame e e' /\
       e_state e = EvaluationState.as_str x /\ e_state e' = EvaluationState.as_str y /\
       rtc (fun s t => EvaluationState.transition_to s t = Ok t) x y) /\
  (forall aid a, attempts db !! aid = Some a ->
     exists a' x y, attempts db' !! aid = Some a' /\ attempt_frame a a' /\
       a_state a = AttemptState.as_str x /\ a_state a' = AttemptState.as_str y /\
       rtc (fun s t => AttemptState.transition_to s t = Ok t) x y /\
       (x <> AttemptState.Queued -> y <> AttemptState.Queued)).
Proof.
  intros Hr Hs. pose proof (reachable_Inv _ _ Hr) as Hi.
  destruct (reachable_evolves _ _ _ _ Hr Hs) as [_ Hev]. split.
  - intros eid e He. destruct (evolves_evaluation _ _ eid e Hev He) as (e' & He' & Hf & Hm).
    destruct (evaluation_state_typed eid e) as [x Hx]; [by apply (inv_evaluation_check db)|].
    rewrite Hx in Hm. apply moves_typed in Hm as (y & Hy & Hm); [|intros [] []; by vm_compute].
    exists e', x, y. split_and!; try done. eapply rtc_congruence with (f := id); [|exact Hm].
    intros u v Huv. unfold EvaluationState.transition_to. simpl. by rewrite Huv.
  - intros aid a Ha. destruct (evolves_attempt _ _ aid a Hev Ha) as (a' & Ha' & Hf & Hm).
    destruct (attempt_state_typed aid a) as [x Hx]; [by apply (inv_attempt_check db)|].
    rewrite Hx in Hm. apply moves_typed in Hm as (y & Hy & Hm); [|intros [] []; by vm_compute].
    exists a', x, y. split_and!; try done; [|by intros; eapply attempt_not_requeued].
    eapply rtc_congruence with (f := id); [|exact Hm].
    intros u v Huv. unfold AttemptState.transition_to. simpl. by rewrite Huv.
Qed.

Lemma rows_follow_lifecycles_witness :
  exists ops a', reachable ops db_leased /\ attempts db_leased !! "attempt-1" = Some a' /\
    a_state a' = "leased".
Proof.
  destruct db_leased_reachable as [ops Hr].
  destruct (row_with (attempts db_leased) "attempt-1"
    (fun a => String.eqb (a_state a) "leased"))
    as (a & Ha & Hl%String.eqb_eq); [vm_compute; reflexivity|].
  destruct (proj2 (rows_follow_lifecycles ops ops db_leased db_leased Hr (rtc_refl _ _))
    "attempt-1" a Ha) as (a' & x & y & Ha' & _ & _ & Hy & _).
  exists ops, a'. split; [exact Hr|]. split; [done|].
  congruence.
Defined.

(** C15: a task is given out at most once: after an attempt left the queue no
    claim of any caller can select it again, and while it stays leased its node,
    token and claim operation do not change. *)
Theorem leased_exclusively `{Collation, RequestCodecLaws} (ops ops' : list Caller) (db db' : Db)
    (aid : string) (a : AttemptRow) :
  reachable ops db -> rtc system_step (ops, db) (ops', db') ->
  attempts db !! aid = Some a -> a_state a = "leased" ->
  (forall locked caps t a', (aid, t, a') ∉ claimable locked caps db') /\
  (forall a', attempts db' !! aid = Some a' -> a_state a' = "leased" ->
     a_node_id a' = a_node_id a /\ a_lease_token a' = a_lease_token a /\
     a_claim_operation a' = a_claim_operation a).
Proof.
  intros Hr Hs Ha Hl. destruct (reachable_evolves _ _ _ _ Hr Hs) as [_ Hev]. split.
  - intros locked caps t a' (_ & Ha' & _ & Hq & _)%claimable_spec.
    destruct (evolves_attempt _ _ aid a Hev Ha) as (a1 & Ha1 & _ & Hm). simplify_eq.
    rewrite Hl, Hq in Hm.
    change "leased" with (AttemptState.as_str AttemptState.Leased) in Hm.
    apply moves_typed in Hm as (y & Hy & Hm); [|intros [] []; by vm_compute].
    apply attempt_not_requeued in Hm; [|done]. by destruct y.
  - intros a' Ha' Hl'. by eapply evolves_attempt_fenced.
Qed.

Lemma leased_exclusively_witness :
  exists ops a, reachable ops db_leased /\ attempts db_leased !! "attempt-1" = Some a /\
    forall locked caps t a', ("attempt-1", t, a') ∉ claimable locked caps db_leased.
Proof.
  destruct db_leased_reachable as [ops Hr].
  destruct (row_with (attempts db_leased) "attempt-1"
    (fun a => String.eqb (a_state a) "leased"))
    as (a & Ha & Hl%String.eqb_eq); [vm_compute; reflexivity|].
  exists ops, a. split; [exact Hr|]. split; [done|].
  exact (proj1 (leased_exclusively ops ops db_leased db_leased "attempt-1" a Hr
    (rtc_refl _ _) Ha Hl)).
Defined.

(** ** Creation *)

(** C28: creating an evaluation with fresh identities writes exactly its
    reference rows, the queued evaluation, its first attempt and its ready task,
    and answers their snapshot; the only refusal left is the schema's check of
    the capability list, which undoes everything. *)
Theorem create_fresh `{Collation, RequestCodecLaws} (ops : list Caller) (db : Db)
    (c : CreateEvaluation) (payload : bytes) (draws : list (option string)) :
  reachable ops db -> valid (ce_request c) -> valid (ce_created_at c) ->
  encode_evaluation_request (ce_request c) = Ok payload ->
  creation_fresh (ce_request c) db -> references_compatible (ce_request c) db ->
  if valid_required_capabilities (map cap_str (er_required_capabilities (ce_request c)))
  then exists s,
    run_op (create_evaluation c) draws db =
      (Some (Ok s), draws, created_db (ce_request c) payload (um_value (ce_created_at c))
                             (registered (ce_request c) db)) /\
    es_state s = EvaluationState.Queued /\ es_attempt_state s = AttemptState.Queued /\
    es_current_attempt_id s = er_attempt_id (ce_request c) /\ es_terminal_result s = false
  else run_op (create_evaluation c) draws db = (Some (Err StoreError.Unavailable), draws, db).
Proof.
  intros Hr Hv Hn Henc Hfresh Hrefs. pose proof (reachable_Inv _ _ Hr) as Hi.
  pose proof (create_fresh_run c payload db draws Hi Hv Hn Henc Hfresh Hrefs) as Hrun.
  destruct (valid_required_capabilities _); [|exact Hrun].
  destruct Hrun as (s & Hrun & (_ & Hs & Hcur & _ & Ha & Ht)). exists s. split; [exact Hrun|].
  split_and!.
  - by destruct (es_state s).
  - by destruct (es_attempt_state s).
  - by apply id_str_inj.
  - destruct (es_terminal_result s); [|done]. by destruct (proj1 Ht eq_refl).
Qed.

Lemma create_fresh_witness :
  exists s, run_op (create_evaluation create_1) [] empty_db
    = (Some (Ok s), [], db_created) /\ es_state s = EvaluationState.Queued.
Proof.
  destruct (ok_with (encode_evaluation_request request_1) (fun _ => true))
    as (payload & Hp & _); [vm_compute; reflexivity|].
  pose proof (create_fresh [] empty_db create_1 payload [] empty_reachable request_1_valid
    ltac:(by vm_compute) Hp (creation_fresh_empty _) (references_empty _)) as H.
  replace (valid_required_capabilities _) with true in H by by vm_compute.
  destruct H as (s & Hrun & Hs & _). exists s. split; [|exact Hs].
  by rewrite db_created_after, (after_run _ _ _ _ _ _ Hrun).
Defined.

(** C29: a capability list the domain accepts but the schema's CHECK constraint
    does not (empty, unsorted, or with [_] or [:]) makes every creation fail as
    [Unavailable], here for the empty list. *)
Theorem create_without_capabilities `{Collation, RequestCodecLaws} (ops : list Caller) (db : Db)
    (c : CreateEvaluation) (payload : bytes) (draws : list (option string)) :
  reachable ops db -> valid (ce_request c) -> valid (ce_created_at c) ->
  er_required_capabilities (ce_request c) = [] ->
  encode_evaluation_request (ce_request c) = Ok payload ->
  creation_fresh (ce_request c) db -> references_compatible (ce_request c) db ->
  run_op (create_evaluation c) draws db = (Some (Err StoreError.Unavailable), draws, db).
Proof.
  intros Hr Hv Hn Hnil Henc Hfresh Hrefs. pose proof (reachable_Inv _ _ Hr) as Hi.
  pose proof (create_fresh_run c payload db draws Hi Hv Hn Henc Hfresh Hrefs) as Hrun.
  by rewrite Hnil in Hrun.
Qed.

Definition request_bare : EvaluationRequest := sample_request "evaluation-2" "attempt-2" "create-2" [].

Lemma request_bare_valid : valid request_bare.
Proof. apply sample_request_valid; try by vm_compute. all: constructor. Qed.

Lemma create_without_capabilities_witness :
  valid request_bare /\
  run_op (create_evaluation (MkCreateEvaluation request_bare t0)) [] empty_db
    = (Some (Err StoreError.Unavailable), [], empty_db).
Proof.
  split; [exact request_bare_valid|].
  destruct (ok_with (encode_evaluation_request request_bare) (fun _ => true))
    as (payload & Hp & _); [vm_compute; reflexivity|].
  exact (create_without_capabilities [] empty_db (MkCreateEvaluation request_bare t0) payload []
    empty_reachable request_bare_valid ltac:(by vm_compute) eq_refl Hp
    (creation_fresh_empty _) (references_empty _)).
Defined.

(** Creation is idempotent: under a creation key already used, the same
    request answers the snapshot of the evaluation it created and a different
    one is an [IdempotencyConflict]; neither changes a row. *)
Theorem create_replay `{Collation, RequestCodecLaws} (ops : list Caller) (db : Db)
    (c : CreateEvaluation) (payload : bytes) (eid : string) (e : EvaluationRow)
    (draws : list (option string)) :
  reachable ops db -> encode_evaluation_request (ce_request c) = Ok payload ->
  evaluations db !! eid = Some e ->
  e_creation_key e = key_str (er_idempotency_key (ce_request c)) ->
  if bool_decide (e_initial_request e = payload)
  then exists s a, run_op (create_evaluation c) draws db = (Some (Ok s), draws, db) /\
         attempts db !! e_current_attempt e = Some a /\ shows s (MkId eid) e a
  else run_op (create_evaluation c) draws db
         = (Some (Err StoreError.IdempotencyConflict), draws, db).
Proof. intros Hr. by apply create_replay_run, (reachable_Inv ops). Qed.

Lemma create_replay_witness :
  exists ops s, reachable ops db_leased /\
    run_op (create_evaluation create_1) [] db_leased = (Some (Ok s), [], db_leased) /\
    es_state s = EvaluationState.Leased.
Proof.
  destruct db_leased_reachable as [ops Hr].
  destruct (ok_with (encode_evaluation_request request_1) (fun _ => true))
    as (payload & Hp & _); [vm_compute; reflexivity|].
  destruct (row_with (evaluations db_leased) "evaluation-1"
    (fun e => match encode_evaluation_request request_1 with
       | Ok p => String.eqb (e_initial_request e) p && String.eqb (e_creation_key e) "create-1"
                 && String.eqb (e_state e) "leased"
       | Err _ => false end))
    as (e & He & Hb); [vm_compute; reflexivity|].
  rewrite Hp in Hb. split_eqs.
  pose proof (create_replay ops db_leased create_1 payload "evaluation-1" e [] Hr Hp He
    ltac:(done)) as Hrep.
  rewrite bool_decide_true in Hrep by done. destruct Hrep as (s & a & Hrun & _ & (_ & Hst & _)).
  exists ops, s. split; [exact Hr|]. split; [exact Hrun|].
  apply (inj EvaluationState.as_str). etransitivity; [exact Hst|assumption].
Defined.

(** ** Claims *)

(** C18: a claim hands out the oldest task that is ready, unlocked and within the
    declared capabilities, writes exactly the lease columns and states of its
    bundle, and returns the stored request under the node's own token; when no
    task qualifies it answers [NoTaskAvailable]. *)
Theorem claim_oldest_compatible `{Collation, RequestCodecLaws} (ops : list Caller) (db : Db)
    (c : ClaimTask) (op : option string) (caps : option (list string)) (locked : gset string)
    (now expiry : Z) :
  reachable ops db -> valid (ct_node_id c) -> valid (ct_lease_token c) ->
  nullable (id_column 64) op = true -> claim_fresh db (id_str (ct_node_id c)) op ->
  (now <= expiry <= MAX_UNIX_MILLIS)%Z ->
  (forall aid a, attempts db !! aid = Some a -> (a_created_at a <= now)%Z) ->
  match claim_transaction c op caps now expiry locked db with
  | Ok (r, db') => exists eid e a t,
      evaluations db !! eid = Some e /\ attempts db !! e_current_attempt e = Some a /\
      tasks db !! e_current_attempt e = Some t /\
      e_state e = "queued" /\ t_state t = "ready" /\ e_current_attempt e ∉ locked /\
      (forall declared, caps = Some declared -> Forall (fun x => x ∈ declared) (t_capabilities t)) /\
      (forall x, x ∈ claimable locked caps db ->
         order_leb (queue_key (e_current_attempt e, t, a)) (queue_key x) = true) /\
      decode_evaluation_request (a_payload a) = Ok r /\
      id_str (er_attempt_id r) = e_current_attempt e /\
      db' = claimed_db c op now expiry db eid e a t
  | Err x => x = StoreError.NoTaskAvailable /\ claimable locked caps db = []
  end.
Proof.
  intros Hr Hn Ht Hop Hfresh [Hle Hmax] Htimes. pose proof (reachable_Inv _ _ Hr) as Hi.
  destruct (first_by queue_key (claimable locked caps db)) as [[[aid t] a]|] eqn:Hf.
  - pose proof Hf as [Hin Hmin]%first_by_Some. apply claimable_spec in Hin as Hs.
    destruct Hs as (Htk & Ha & Hts & Has & (eid & e & He & Hcur & Hes) & Hcaps & Hl). subst aid.
    destruct (claim_succeeds c op caps now expiry locked db _ t a Hi Hf Hn Ht Hop Hfresh)
      as (r & e' & Hr' & He' & ->); [by split; [by eapply Htimes|]|done|].
    destruct (Inv_bundle db _ e Hi He) as (a0 & t0 & Ha0 & Ht0 & (Hid & _) & _ & Hp).
    simplify_eq. destruct Hp as (r0 & Hr0 & _ & Hra & _). assert (r0 = r) as -> by congruence.
    exists (a_evaluation_id a), e, a, t. by split_and!.
  - apply first_by_None in Hf. by rewrite claim_none.
Qed.

Definition claim_cmd : ClaimTask :=
  MkClaimTask (MkId "node-1") (MkId "token-1") (MkMillis 2000) (MkDuration 10000).

Lemma claim_oldest_compatible_witness :
  exists ops r db', reachable ops db_created /\
    claim_transaction claim_cmd (Some "claim-op-1") (Some ["language.cpp"]) 2000 12000 ∅ db_created
      = Ok (r, db') /\ id_str (er_attempt_id r) = "attempt-1".
Proof.
  destruct db_created_reachable as [ops Hr].
  assert (Hall := table_with (attempts db_created)
    (fun _ a => is_null (a_claim_operation a) && (a_created_at a <=? 2000)%Z)).
  assert (Hcur := table_with (evaluations db_created)
    (fun _ e => String.eqb (e_current_attempt e) "attempt-1")).
  assert (Hok := ok_with (claim_transaction claim_cmd (Some "claim-op-1") (Some ["language.cpp"])
    2000 12000 ∅ db_created) (fun _ => true)).
  destruct Hok as ([r db'] & Htx & _); [vm_compute; reflexivity|].
  specialize (Hall ltac:(vm_compute; reflexivity)).
  specialize (Hcur ltac:(vm_compute; reflexivity)).
  pose proof (claim_oldest_compatible ops db_created claim_cmd (Some "claim-op-1")
    (Some ["language.cpp"]) ∅ 2000 12000 Hr ltac:(vm_compute; reflexivity)
    ltac:(vm_compute; reflexivity) ltac:(vm_compute; reflexivity)) as Hc.
  rewrite Htx in Hc. exists ops, r, db'. split; [exact Hr|]. split; [exact Htx|].
  destruct Hc as (eid & e & a & t & He & _ & _ & _ & _ & _ & _ & _ & _ & Hid & _).
  - intros aid a o _ Ha. specialize (Hall aid a Ha). apply andb_true_iff in Hall as [Ho _].
    clear -Ho. unfold claim_key. destruct (a_claim_operation a); [done|]. by destruct (a_node_id a).
  - clear. by vm_compute.
  - intros aid a Ha. specialize (Hall aid a Ha). apply andb_true_iff in Hall as [_ Ho].
    by apply Z.leb_le.
  - specialize (Hcur eid e He). apply String.eqb_eq in Hcur. by rewrite Hid.
Defined.

(** Repeating a claim under its operation is idempotent: the node that owns
    the lease gets the same request, token and expiry back without a write, any
    other node an [IdempotencyConflict], and after the lease ended the answer is
    [LeaseConflict]. *)
Theorem claim_replay `{Collation, RequestCodecLaws} (ops : list Caller) (db : Db)
    (c : JudgeClaim) (aid : string) (a : AttemptRow) (draws : list (option string)) :
  reachable ops db -> attempts db !! aid = Some a ->
  a_claim_operation a = Some (id_str (jc_operation_id c)) -> a_node_id a <> None ->
  (forall j x, attempts db !! j = Some x ->
     a_claim_operation x = Some (id_str (jc_operation_id c)) -> j = aid) ->
  exists answer, run_op (judge_claim_task c) draws db = (Some answer, draws, db) /\
    match answer with
    | Ok l => a_state a = "leased" /\ a_node_id a = Some (id_str (jc_node_id c)) /\
        decode_evaluation_request (a_payload a) = Ok (tl_request l) /\
        a_lease_token a = Some (id_str (tl_lease_token l)) /\
        a_lease_expires_at a = Some (um_value (tl_expires_at l))
    | Err StoreError.IdempotencyConflict => a_node_id a <> Some (id_str (jc_node_id c))
    | Err StoreError.LeaseConflict => a_state a <> "leased"
    | Err _ => False
    end.
Proof.
  intros Hr Ha Hop Hnode Huniq. pose proof (reachable_Inv _ _ Hr) as Hi.
  destruct (claim_replay_run c db aid a draws Hi Ha Hop Hnode Huniq) as (answer & Hans & Hrun).
  exists answer. split; [exact Hrun|]. revert Hans. unfold replay_answer.
  case_bool_decide as Hn; cbn [negb]; [|by destruct answer; intros [= <-]].
  case_bool_decide as Hs; cbn [negb]; [|by destruct answer; intros [= <-]].
  destruct (leased_columns db aid a Hi Ha Hs) as (r & _ & token & expiry & -> & _ & -> & -> & _).
  destruct answer; simpl; intros; simplify_eq. by split_and!.
Qed.

Lemma claim_replay_witness :
  exists ops l, reachable ops db_leased /\
    run_op (judge_claim_task claim_1) [] db_leased = (Some (Ok l), [], db_leased).
Proof.
  destruct db_leased_reachable as [ops Hr].
  destruct (row_with (attempts db_leased) "attempt-1"
    (fun a => bool_decide (a_claim_operation a = Some "claim-op-1") &&
              bool_decide (a_node_id a = Some "node-1") && String.eqb (a_state a) "leased"))
    as (a & Ha & Hb); [vm_compute; reflexivity|].
  split_eqs.
  assert (Hone := table_with (attempts db_leased) (fun k _ => String.eqb k "attempt-1")
    ltac:(vm_compute; reflexivity)).
  destruct (claim_replay ops db_leased claim_1 "attempt-1" a [] Hr Ha) as (answer & Hrun & Hans).
  - done.
  - congruence.
  - intros j x Hj _. by apply String.eqb_eq, (Hone j x).
  - destruct answer as [l|x]; [exists ops, l; split; [exact Hr|exact Hrun]|].
    exfalso. clear Hrun. destruct x; try exact Hans; apply Hans; assumption.
Defined.

(** ** Results *)

(** C17: a result submitted under the live lease of its own attempt is written
    atomically to the evaluation, the attempt and the task with the states its
    status stands for, and the answer shows it. *)
Theorem submit_under_lease `{Collation, RequestCodecLaws} (ops : list Caller) (db : Db)
    (c : SubmitResult) (payload : bytes) (now : Z) (e : EvaluationRow) (a : AttemptRow)
    (t : TaskRow) (draws : list (option string)) :
  reachable ops db -> encode_evaluation_result (sr_result c) = Ok payload ->
  i64_try_from StoreError.InvalidTime (um_value (sr_now c)) = Ok now ->
  valid (sr_idempotency_key c) ->
  current_attempt db (id_str (ei_evaluation_id (res_identity (sr_result c)))) = Some (e, a) ->
  tasks db !! e_current_attempt e = Some t ->
  e_terminal_result e = None -> submit_fence c now e a ->
  result_key_fresh db (id_str (ei_evaluation_id (res_identity (sr_result c))))
    (key_str (sr_idempotency_key c)) ->
  (a_created_at a <= now <= MAX_UNIX_MILLIS)%Z ->
  exists s, run_op (submit_result c) draws db
      = (Some (Ok s), draws, terminal_db (submit_write c payload now) db e a t) /\
    EvaluationState.as_str (es_state s) = EvaluationStatus.as_str (res_status (sr_result c)) /\
    AttemptState.as_str (es_attempt_state s) = EvaluationStatus.as_str (res_status (sr_result c)) /\
    es_terminal_result s = true.
Proof.
  intros Hr Henc Hnow Hkey Hcur Ht Hnone Hf Hfresh Hb. pose proof (reachable_Inv _ _ Hr) as Hi.
  destruct (submit_fresh_run c payload now db e a t draws Hi Henc Hnow Hkey Hcur Ht Hnone Hf
    Hfresh Hb) as (s & Hrun & (_ & Hs & _ & _ & Ha & Hterm)).
  exists s. split; [exact Hrun|]. split; [exact Hs|]. split; [exact Ha|]. by apply Hterm.
Qed.

Definition submit_cmd : SubmitResult :=
  MkSubmitResult (MkKey "result-op-1") (MkId "token-1") (result_of request_1 Accepting)
    (MkMillis 3000).

(** The leased bundle of the example, with what the submission compares. *)
Lemma leased_bundle :
  exists e a t, current_attempt db_leased "evaluation-1" = Some (e, a) /\
    tasks db_leased !! e_current_attempt e = Some t /\ e_terminal_result e = None /\
    e_state e = "leased" /\ a_state a = "leased" /\ e_current_attempt e = "attempt-1" /\
    a_node_id a = Some "node-1" /\ a_lease_token a = Some "token-1" /\
    a_lease_expires_at a = Some 12000%Z /\
    decode_evaluation_request (a_payload a) = Ok request_1 /\ a_created_at a = 1000%Z.
Proof.
  destruct (some_with (current_attempt db_leased "evaluation-1") (fun '(e, a) =>
    is_null (e_terminal_result e) && String.eqb (e_state e) "leased" &&
    String.eqb (a_state a) "leased" && String.eqb (e_current_attempt e) "attempt-1" &&
    bool_decide (a_node_id a = Some "node-1") && bool_decide (a_lease_token a = Some "token-1") &&
    bool_decide (a_lease_expires_at a = Some 12000%Z) &&
    bool_decide (decode_evaluation_request (a_payload a) = Ok request_1) &&
    (a_created_at a =? 1000)%Z)) as ([e a] & Hc & Hb); [vm_compute; reflexivity|].
  destruct (row_with (tasks db_leased) "attempt-1" (fun _ => true)) as (t & Ht & _);
    [vm_compute; reflexivity|].
  repeat match goal with H : (_ && _)%bool = true |- _ => apply andb_true_iff in H as [? ?] end.
  match goal with H : is_null _ = true |- _ => apply is_null_true in H as Hnone end.
  repeat match goal with
  | H : String.eqb _ _ = true |- _ => apply String.eqb_eq in H
  | H : bool_decide _ = true |- _ => apply bool_decide_eq_true in H
  | H : (_ =? _)%Z = true |- _ => apply Z.eqb_eq in H
  end.
  match goal with H : e_current_attempt e = _ |- _ => rewrite <- H in Ht end.
  exists e, a, t. split; [exact Hc|]. split; [exact Ht|]. split; [exact Hnone|]. tauto.
Qed.

Lemma submit_under_lease_witness :
  exists ops s db', reachable ops db_leased /\
    run_op (submit_result submit_cmd) [] db_leased = (Some (Ok s), [], db') /\
    EvaluationState.as_str (es_state s) = "completed".
Proof.
  destruct db_leased_reachable as [ops Hr].
  destruct leased_bundle as (e & a & t & Hc & Ht & Hnone & Hs & Has & Hcur & Hnode & Htok & Hexp &
    Hdec & Hcr).
  destruct (ok_with (encode_evaluation_result (sr_result submit_cmd)) (fun _ => true))
    as (payload & Hp & _); [vm_compute; reflexivity|].
  assert (Hkeys := table_with (evaluations db_leased) (fun _ e => is_null (e_result_key e))
    ltac:(vm_compute; reflexivity)).
  assert (Hid : res_identity (sr_result submit_cmd) = EvaluationIdentity_from_request request_1)
    by (vm_compute; reflexivity).
  assert (Hst : EvaluationStatus.as_str (res_status (sr_result submit_cmd)) = "completed")
    by (vm_compute; reflexivity).
  destruct (submit_under_lease ops db_leased submit_cmd payload 3000 e a t [] Hr Hp)
    as (s & Hrun & Hstate & _).
  - vm_compute; reflexivity.
  - vm_compute; reflexivity.
  - rewrite Hid. exact Hc.
  - exact Ht.
  - exact Hnone.
  - split; [exact Hs|]. split; [exact Has|]. rewrite Hid. split; [exact Hcur|].
    split; [exact Htok|]. split; [exists 12000%Z; split; [exact Hexp|vm_compute; discriminate]|].
    exists request_1. split; [exact Hdec|reflexivity].
  - intros j e' Hj _ Hk. specialize (Hkeys j e' Hj). apply is_null_true in Hkeys.
    clear -Hkeys Hk. congruence.
  - rewrite Hcr. split; vm_compute; discriminate.
  - eexists ops, s, _. split; [exact Hr|]. split; [exact Hrun|]. by rewrite Hstate.
Defined.

(** C30: fencing: a submission that does not hold the lease never writes. While the
    evaluation has no result, one whose attempt is not the current one, whose token
    is not the lease's, or that comes after the lease expired is refused as
    [StaleLease]. Once it has one, the first result wins: the stored key and
    document answer the snapshot, the same key with another document is an
    [IdempotencyConflict], any other key a [TerminalConflict]. *)
Theorem submit_fenced `{Collation, RequestCodecLaws} (ops : list Caller) (db : Db)
    (c : SubmitResult) (payload : bytes) (now : Z) (e : EvaluationRow) (a : AttemptRow)
    (draws : list (option string)) :
  reachable ops db -> encode_evaluation_result (sr_result c) = Ok payload ->
  i64_try_from StoreError.InvalidTime (um_value (sr_now c)) = Ok now ->
  current_attempt db (id_str (ei_evaluation_id (res_identity (sr_result c)))) = Some (e, a) ->
  match e_terminal_result e with
  | None => ~ lease_held c now e a ->
      run_op (submit_result c) draws db = (Some (Err StoreError.StaleLease), draws, db)
  | Some _ =>
      match terminal_answer e (key_str (sr_idempotency_key c)) payload with
      | Ok _ => exists s, run_op (submit_result c) draws db = (Some (Ok s), draws, db) /\
                  shows s (ei_evaluation_id (res_identity (sr_result c))) e a
      | Err x => run_op (submit_result c) draws db = (Some (Err x), draws, db)
      end
  end.
Proof.
  intros Hi%reachable_Inv Henc Hnow Hc.
  destruct (e_terminal_result e) as [p|] eqn:Hterm; [|by apply (submit_stale_run c payload now e a)].
  destruct (Inv_current_attempt db _ e a Hi Hc) as (He & Ha & _).
  pose proof (submit_terminal_run c payload now e draws db Hi Henc Hnow He) as Hans.
  destruct (terminal_answer e _ payload); [|by apply Hans; rewrite Hterm].
  destruct Hans as (s & a' & Hrun & Ha' & Hs); [by rewrite Hterm|].
  assert (a' = a) as -> by congruence. eauto.
Qed.

Definition submit_late : SubmitResult :=
  MkSubmitResult (MkKey "result-op-1") (MkId "token-1") (result_of request_1 Accepting) late.

Definition submit_other : SubmitResult :=
  MkSubmitResult (MkKey "result-op-2") (MkId "token-1") (result_of request_1 Accepting)
    (MkMillis 3000).

Lemma submit_fenced_witness :
  run_op (submit_result submit_late) [] db_leased = (Some (Err StoreError.StaleLease), [], db_leased) /\
  run_op (submit_result submit_other) [] db_finished = (Some (Err StoreError.TerminalConflict), [], db_finished).
Proof.
  assert (Hid : res_identity (sr_result submit_late) = EvaluationIdentity_from_request request_1)
    by (vm_compute; reflexivity).
  destruct (ok_with (encode_evaluation_result (sr_result submit_late)) (fun _ => true))
    as (payload & Hp & _); [vm_compute; reflexivity|].
  split.
  - destruct db_leased_reachable as [ops Hr].
    destruct leased_bundle as (e & a & t & Hc & Ht & Hnone & Hs & Has & Hcur & Hnode & Htok & Hexp & _).
    pose proof (submit_fenced ops db_leased submit_late payload 20000 e a [] Hr Hp
      ltac:(vm_compute; reflexivity) ltac:(rewrite Hid; exact Hc)) as Hans.
    rewrite Hnone in Hans. apply Hans. intros (_ & _ & _ & x & Hx & Hle). rewrite Hexp in Hx.
    injection Hx as <-. clear -Hle. lia.
  - destruct db_finished_reachable as [ops Hr].
    destruct (some_with (current_attempt db_finished "evaluation-1")
      (fun '(e, _) => negb (is_null (e_terminal_result e)) &&
                      bool_decide (e_result_key e = Some "result-op-1"))) as ([e a] & Hc & Hb);
      [vm_compute; reflexivity|].
    apply andb_true_iff in Hb as [Hterm%not_null Hk%bool_decide_eq_true].
    pose proof (submit_fenced ops db_finished submit_other payload 3000 e a [] Hr Hp
      ltac:(vm_compute; reflexivity) Hc) as Hans.
    destruct (e_terminal_result e); [|done]. unfold terminal_answer in Hans. rewrite Hk in Hans.
    rewrite bool_decide_false in Hans by (clear; simpl; congruence). exact Hans.
Defined.

(** A cancellation obeys the same rule: an evaluation that has a result
    keeps it, and only an identical cancellation is replayed. *)
Theorem cancel_terminal `{Collation, RequestCodecLaws} (ops : list Caller) (db : Db)
    (c : CancelEvaluation) (payload : bytes) (now : Z) (e : EvaluationRow)
    (draws : list (option string)) :
  reachable ops db -> encode_evaluation_result (cc_result c) = Ok payload ->
  i64_try_from StoreError.InvalidTime (um_value (cc_now c)) = Ok now ->
  res_status (cc_result c) = EvaluationStatus.Cancelled ->
  ei_evaluation_id (res_identity (cc_result c)) = cc_evaluation_id c ->
  evaluations db !! id_str (cc_evaluation_id c) = Some e ->
  e_terminal_result e <> None ->
  match terminal_answer e (key_str (cc_idempotency_key c)) payload with
  | Ok _ => exists s a, run_op (cancel_evaluation c) draws db = (Some (Ok s), draws, db) /\
              attempts db !! e_current_attempt e = Some a /\ shows s (cc_evaluation_id c) e a
  | Err x => run_op (cancel_evaluation c) draws db = (Some (Err x), draws, db)
  end.
Proof. intros Hr. by apply cancel_terminal_run, (reachable_Inv ops). Qed.

Lemma cancel_terminal_witness :
  exists ops, reachable ops db_finished /\
    run_op (cancel_evaluation cancel_1) [] db_finished
      = (Some (Err StoreError.TerminalConflict), [], db_finished).
Proof.
  destruct db_finished_reachable as [ops Hr]. exists ops. split; [exact Hr|].
  destruct (row_with (evaluations db_finished) "evaluation-1"
    (fun e => negb (is_null (e_terminal_result e)) &&
              bool_decide (e_result_key e = Some "result-op-1"))) as (e & He & Hb);
    [vm_compute; reflexivity|].
  apply andb_true_iff in Hb as [Hterm%not_null Hk%bool_decide_eq_true].
  destruct (ok_with (encode_evaluation_result (cc_result cancel_1)) (fun _ => true))
    as (payload & Hp & _); [vm_compute; reflexivity|].
  pose proof (cancel_terminal ops db_finished cancel_1 payload 3000 e [] Hr Hp
    ltac:(vm_compute; reflexivity) ltac:(vm_compute; reflexivity) ltac:(vm_compute; reflexivity)
    He Hterm) as Hans.
  unfold terminal_answer in Hans. rewrite Hk in Hans.
  rewrite bool_decide_false in Hans by (clear; simpl; congruence). exact Hans.
Defined.

(** ** Renewals *)

(** C31: renewing a leased evaluation sets a new expiry exactly for the caller that
    is recorded as its holder (same attempt, node and token), in the row of that
    attempt, of which nothing else changes but the time of the update; every other
    caller is told [StaleLease] and nothing changes. The recorded expiry is not
    consulted: a lease that ran out before the call, and was not recovered yet, is
    renewed like any other, where the design asks for a refusal. *)
Theorem renew_leased `{Collation, RequestCodecLaws} (ops : list Caller) (db : Db)
    (c : JudgeRenew) (expires_at : UnixMillis) (now expiry : Z) (e : EvaluationRow)
    (a : AttemptRow) (draws : list (option string)) :
  reachable ops db ->
  UnixMillis_checked_add (jr_now c) (lp_lease_duration (jr_lease_policy c)) = Ok expires_at ->
  i64_try_from StoreError.InvalidTime (um_value (jr_now c)) = Ok now ->
  i64_try_from StoreError.InvalidTime (um_value expires_at) = Ok expiry ->
  current_attempt db (id_str (jr_evaluation_id c)) = Some (e, a) -> e_state e = "leased" ->
  (a_created_at a <= now <= expiry)%Z -> (expiry <= MAX_UNIX_MILLIS)%Z ->
  (run_op (judge_renew_lease c) draws db =
    if bool_decide (renew_matches c e a)
    then (Some (Ok (Continue expires_at)), draws,
          set_attempts db (<[e_current_attempt e := renew_attempt expiry now a]> (attempts db)))
    else (Some (Err StoreError.StaleLease), draws, db)) /\
  (let a' := renew_attempt expiry now a in
   attempt_frame a a' /\ a_state a' = a_state a /\ a_node_id a' = a_node_id a /\
   a_lease_token a' = a_lease_token a /\ a_claim_operation a' = a_claim_operation a /\
   a_lease_expires_at a' = Some expiry /\ a_updated_at a' = now) /\
  (forall expired, renew_matches c e a -> a_lease_expires_at a = Some expired -> (expired < now)%Z ->
   exists db', run_op (judge_renew_lease c) draws db = (Some (Ok (Continue expires_at)), draws, db') /\
     attempts db' !! e_current_attempt e = Some (renew_attempt expiry now a)).
Proof.
  intros Hr Hadd Hnow Hexp Hc Hs Hb Hm.
  pose proof (renew_leased_run c expires_at now expiry db e a draws (reachable_Inv ops _ Hr)
                Hadd Hnow Hexp Hc Hs Hb Hm) as Hrun.
  split; [exact Hrun|]. split; [done|]. intros expired Hmatch _ _. eexists. split.
  - rewrite Hrun. by rewrite bool_decide_eq_true_2.
  - apply lookup_insert_eq.
Qed.

Definition renew_at (now : Z) (node : NodeId) : JudgeRenew :=
  MkJudgeRenew node (MkId "evaluation-1") (MkId "attempt-1") (MkId "token-1") (MkMillis now)
    lease_10s.

(** The holder before and after its lease ran out, and another node. *)
Lemma renew_leased_witness :
  exists ops db' db2, reachable ops db_leased /\
    run_op (judge_renew_lease (renew_at 5000 (MkId "node-1"))) [] db_leased
      = (Some (Ok (Continue (MkMillis 15000))), [], db') /\
    run_op (judge_renew_lease (renew_at 5000 (MkId "node-2"))) [] db_leased
      = (Some (Err StoreError.StaleLease), [], db_leased) /\
    run_op (judge_renew_lease (renew_at 20000 (MkId "node-1"))) [] db_leased
      = (Some (Ok (Continue (MkMillis 30000))), [], db2).
Proof.
  destruct db_leased_reachable as [ops Hr].
  destruct leased_bundle as (e & a & t & Hc & Ht & Hnone & Hs & Has & Hcur & Hnode & Htok & Hexp &
    Hdec & Hcr).
  assert (Hb : (a_created_at a <= 5000 <= 15000)%Z) by (rewrite Hcr; clear; lia).
  assert (Hb2 : (a_created_at a <= 20000 <= 30000)%Z) by (rewrite Hcr; clear; lia).
  assert (Hm : (15000 <= MAX_UNIX_MILLIS)%Z) by (clear; vm_compute; discriminate).
  assert (Hm2 : (30000 <= MAX_UNIX_MILLIS)%Z) by (clear; vm_compute; discriminate).
  pose proof (fun n => proj1 (renew_leased ops db_leased (renew_at 5000 n) (MkMillis 15000) 5000 15000 e a [] Hr
    ltac:(vm_compute; reflexivity) ltac:(vm_compute; reflexivity) ltac:(vm_compute; reflexivity)
    Hc Hs Hb Hm)) as Hrun.
  destruct (renew_leased ops db_leased (renew_at 20000 (MkId "node-1")) (MkMillis 30000) 20000 30000 e a [] Hr
    ltac:(vm_compute; reflexivity) ltac:(vm_compute; reflexivity) ltac:(vm_compute; reflexivity)
    Hc Hs Hb2 Hm2) as (_ & _ & Hlate).
  destruct (Hlate 12000%Z) as (db2 & Hlate' & _).
  { split; [exact Hs|]. split; [exact Has|]. split; [exact Hcur|]. split; [exact Hnode|exact Htok]. }
  { exact Hexp. }
  { clear; lia. }
  eexists ops, _, db2. split; [exact Hr|]. split; [|split; [|exact Hlate']].
  - rewrite (Hrun (MkId "node-1")), bool_decide_true; [reflexivity|].
    split; [exact Hs|]. split; [exact Has|]. split; [exact Hcur|]. split; [exact Hnode|exact Htok].
  - rewrite (Hrun (MkId "node-2")), bool_decide_false; [reflexivity|].
    intros (_ & _ & _ & Hn & _). rewrite Hnode in Hn. clear -Hn. simpl in Hn. congruence.
Defined.

(** C32: the owner of an attempt that a recovery replaced is not told [StaleLease]:
    the new attempt is queued with a NULL node, which is read before the states
    are compared, so a renewal is answered [CorruptData], and a result
    [Unavailable], which the node will retry although it can never succeed. *)
Theorem stale_owner_after_recovery `{Collation, RequestCodecLaws} (ops : list Caller) (db : Db)
    (eid : string) (e : EvaluationRow) (a : AttemptRow) (draws : list (option string)) :
  reachable ops db -> current_attempt db eid = Some (e, a) -> a_state a = "queued" ->
  (forall c expires_at now expiry,
     id_str (jr_evaluation_id c) = eid ->
     UnixMillis_checked_add (jr_now c) (lp_lease_duration (jr_lease_policy c)) = Ok expires_at ->
     i64_try_from StoreError.InvalidTime (um_value (jr_now c)) = Ok now ->
     i64_try_from StoreError.InvalidTime (um_value expires_at) = Ok expiry ->
     run_op (judge_renew_lease c) draws db = (Some (Err StoreError.CorruptData), draws, db)) /\
  (forall c,
     id_str (ei_evaluation_id (res_identity (js_result c))) = eid ->
     pr_node_id (res_provenance (js_result c)) = Some (js_node_id c) ->
     run_op (judge_submit_result c) draws db = (Some (Err StoreError.Unavailable), draws, db)).
Proof.
  intros Hr%reachable_Inv Hc Hq. split; intros; subst eid.
  - by eapply renew_requeued_run.
  - by eapply judge_submit_requeued_run.
Qed.

Lemma stale_owner_after_recovery_witness :
  exists ops, reachable ops db_recovered /\
    run_op (judge_renew_lease (renew_at 5000 (MkId "node-1"))) [] db_recovered
      = (Some (Err StoreError.CorruptData), [], db_recovered) /\
    run_op (judge_submit_result submit_1) [] db_recovered
      = (Some (Err StoreError.Unavailable), [], db_recovered).
Proof.
  destruct db_recovered_reachable as [ops Hr]. exists ops. split; [exact Hr|].
  destruct (some_with (current_attempt db_recovered "evaluation-1")
    (fun '(_, a) => String.eqb (a_state a) "queued")) as ([e a] & Hc & Hq%String.eqb_eq);
    [vm_compute; reflexivity|].
  assert (Hid : res_identity (js_result submit_1) = EvaluationIdentity_from_request request_1)
    by (vm_compute; reflexivity).
  destruct (stale_owner_after_recovery ops db_recovered "evaluation-1" e a [] Hr Hc Hq) as [Hrenew Hsubmit].
  split.
  - apply (Hrenew _ (MkMillis 15000) 5000%Z 15000%Z); vm_compute; reflexivity.
  - apply Hsubmit; [rewrite Hid; reflexivity | vm_compute; reflexivity].
Defined.

(** ** Retries and recovery *)

(** C33: a retry replaces an attempt only if its lease ran out: it commits
    either as the replay of an identical retry, changing nothing, or on a leased
    evaluation whose expiry is past, with the next attempt number and the same
    problem, submission, runtime, plan, policy and capabilities, and then it
    retires the old attempt and queues exactly the new one. *)
Theorem retry_fenced `{Collation, RequestCodecLaws} (ops : list Caller) (db : Db)
    (c : RetryExpired) (payload : bytes) (now : Z) (x : option string) (db' : Db) :
  reachable ops db -> valid (re_request c) ->
  encode_evaluation_request (re_request c) = Ok payload ->
  retry_transaction c payload now db = Ok (x, db') ->
  (exists aid a, attempts db !! aid = Some a /\
     a_idempotency_key a = key_str (er_idempotency_key (re_request c)) /\
     a_payload a = payload /\ x = Some (a_evaluation_id a) /\ db' = db) \/
  (exists e a t,
     current_attempt db (id_str (er_evaluation_id (re_request c))) = Some (e, a) /\
     tasks db !! e_current_attempt e = Some t /\ retry_fence c now e a /\
     x = None /\ db' = retried_db (re_request c) payload now db e a t).
Proof.
  intros Hr Hv Henc Hs. pose proof (reachable_Inv _ _ Hr) as Hi.
  by apply (retry_Ok c payload now db x db' Hi Hv Henc).
Qed.

Definition retry_request : EvaluationRequest :=
  next_attempt_of request_1 (MkId "attempt-2") (MkKey "retry-1").

Lemma retry_fenced_witness :
  exists ops payload db', reachable ops db_leased /\
    retry_transaction (MkRetryExpired retry_request late) payload 20000 db_leased
      = Ok (None, db') /\
    exists e a t, db' = retried_db retry_request payload 20000 db_leased e a t.
Proof.
  destruct db_leased_reachable as [ops Hr].
  destruct (ok_with (encode_evaluation_request retry_request) (fun p =>
    match retry_transaction (MkRetryExpired retry_request late) p 20000 db_leased with
    | Ok (None, _) => true | _ => false end)) as (payload & Hp & Hb); [vm_compute; reflexivity|].
  destruct (retry_transaction _ payload 20000 db_leased) as [[[y|] db']|] eqn:Hx;
    [clear -Hb; discriminate Hb| |clear -Hb; discriminate Hb].
  exists ops, payload, db'. split; [exact Hr|]. split; [exact Hx|].
  destruct (retry_fenced ops db_leased (MkRetryExpired retry_request late) payload 20000 None db' Hr
    ltac:(apply next_attempt_valid; [exact request_1_valid|vm_compute; reflexivity..]) Hp Hx)
    as [(aid & a & _ & _ & _ & Hn & _)|(e & a & t & _ & _ & _ & _ & Hdb)].
  - clear -Hn. discriminate Hn.
  - exists e, a, t. exact Hdb.
Defined.

(** C20: recovery terminates: with fresh entropy and fuel for one iteration more
    than there are expired leases, [recover_expired] returns, and when it answers
    a count no expired lease is left and the count is that of the leases that
    were expired (the only other answer is [CorruptData], for a stored request
    that admits no next attempt). *)
Theorem recovery_complete `{Collation, RequestCodecLaws} (ops : list Caller) (db : Db)
    (now : UnixMillis) (fuel : nat) (ds : list string) :
  reachable ops db -> valid now ->
  (length (expired_leases (um_value now) db) < fuel)%nat ->
  fresh_draws db ds -> (2 * length (expired_leases (um_value now) db) <= length ds)%nat ->
  exists r ds' db', run_op (recover_expired fuel now) (map Some ds) db = (Some r, ds', db') /\
    rtc Evolves db db' /\
    match r with
    | Ok n => expired_leases (um_value now) db' = [] /\
        n = Z.min (Z.of_nat (length (expired_leases (um_value now) db))) u32_max
    | Err x => x = StoreError.CorruptData
    end.
Proof.
  intros Hr Hn Hfuel Hd Hl. pose proof (reachable_Inv _ _ Hr) as Hi.
  destruct (recover_loop_run _ fuel ds db 0 now Hi Hn eq_refl Hfuel Hd Hl
    ltac:(unfold u32_max; lia)) as (r & rest & db' & Hrun & (_ & Hev & _) & Hans).
  exists r, (map Some rest), db'. split; [|by split].
  unfold recover_expired. by rewrite (i64_millis now Hn).
Qed.

Lemma recovery_complete_witness :
  exists ops r ds' db', reachable ops db_leased /\
    run_op (recover_expired 2 late) [Some "aa"; Some "bb"] db_leased = (Some r, ds', db') /\
    length (expired_leases 20000 db_leased) = 1.
Proof.
  assert (Hv : valid late) by by vm_compute.
  destruct db_leased_reachable as [ops Hr].
  assert (Hone : length (expired_leases 20000 db_leased) = 1) by (vm_compute; reflexivity).
  assert (Hnd : NoDup ["aa"; "bb"]) by (apply (bool_decide_unpack _); by vm_compute).
  assert (Hfresh := fresh_draws_with db_leased ["aa"; "bb"] Hnd ltac:(vm_compute; reflexivity)).
  destruct (recovery_complete ops db_leased late 2 ["aa"; "bb"] Hr Hv)
    as (r & ds' & db' & Hrun & _).
  - change (um_value late) with 20000%Z. rewrite Hone. clear. lia.
  - exact Hfresh.
  - change (um_value late) with 20000%Z. rewrite Hone. clear. simpl. lia.
  - exists ops, r, ds', db'. split; [exact Hr|]. split; [exact Hrun|exact Hone].
Defined.

(** Reading never finds corrupt data: the status of an evaluation id is
    [NotFound] when no such evaluation exists and otherwise the snapshot of its
    rows. *)
Theorem status_exact `{Collation, RequestCodecLaws} (ops : list Caller) (db : Db)
    (id : EvaluationId) (draws : list (option string)) :
  reachable ops db -> valid id ->
  match evaluations db !! id_str id with
  | None => run_op (evaluation_status id) draws db = (Some (Err StoreError.NotFound), draws, db)
  | Some e => exists s a, run_op (evaluation_status id) draws db = (Some (Ok s), draws, db) /\
      attempts db !! e_current_attempt e = Some a /\ shows s id e a
  end.
Proof.
  intros Hr Hv. pose proof (reachable_Inv _ _ Hr) as Hi.
  destruct (evaluations db !! id_str id) as [e|] eqn:He; [by apply run_status_row|].
  pose proof (run_status db id draws Hi Hv) as Hs. unfold current_attempt in Hs.
  by rewrite He in Hs.
Qed.

Lemma status_exact_witness :
  exists ops, reachable ops db_leased /\
    run_op (evaluation_status (MkId "evaluation-9")) [] db_leased
      = (Some (Err StoreError.NotFound), [], db_leased).
Proof.
  destruct db_leased_reachable as [ops Hr]. exists ops. split; [exact Hr|].
  assert (He : evaluations db_leased !! "evaluation-9" = None) by (vm_compute; reflexivity).
  assert (Hv : valid (MkId "evaluation-9" : EvaluationId)) by (vm_compute; reflexivity).
  pose proof (status_exact ops db_leased (MkId "evaluation-9") [] Hr Hv) as Hs.
  cbn [id_str] in Hs. rewrite He in Hs. exact Hs.
Defined.
