(* ===== verification/PropDomain.v ===== *)
(** * Properties of the domain, the pipeline and the protocol

    The theorems about [crates/openoj-domain], [crates/openoj-application] and
    [crates/openoj-protocol]: the pipeline refines its abstract execution, the
    result and request constructors accept exactly their contracts, the parsers
    accept exactly their grammars, and the wire format round-trips and enforces
    the same result contract. *)

From S2P Require Import Prelude Value Control Evaluation EvalResult Application Pipeline Json Codec Protocol ProtocolLaws Policy Schema Store Lease Fixtures.

(** ** The pipeline *)

(** C13: [evaluate] computes exactly the result of the abstract execution: it
    succeeds iff every capability is supported, the provenance is allowed, the
    executor's outcomes up to the first terminal one conform to their stages and
    their usage stays in bounds, and then the result is the function
    [expected_result] of those outcomes. *)
Theorem evaluate_refines {S : Type} `{ExecutorLaws S} (request : EvaluationRequest) (s : S)
    (r : EvaluationResult) (s' : S) :
  valid request ->
  (evaluate request s = (Ok r, s') <->
   supported request s /\
   provenance_ok (se_kind s) (se_production_eligible s) (se_node_id s) /\
   exists os t,
     Executes request ALGORITHM_BATCH_STAGES s os s' /\
     trace_conforms ALGORITHM_BATCH_STAGES os /\
     valid (trace_usage ResourceUsage_default os) /\
     trace_end ALGORITHM_BATCH_STAGES os = Some t /\
     r = expected_result request (trace_provenance request s) os t).
Proof. apply evaluate_characterised. Qed.

Lemma evaluate_refines_witness :
  exists os t, Executes request_1 ALGORITHM_BATCH_STAGES CompileFails os CompileFails /\
    length os = 2 /\ t_verdict t = Verdict.CompileError /\
    result_of request_1 CompileFails
      = expected_result request_1 (trace_provenance request_1 CompileFails) os t.
Proof.
  destruct (proj1 (evaluate_refines request_1 CompileFails (result_of request_1 CompileFails)
    CompileFails request_1_valid) (result_1_evaluated CompileFails ltac:(done)))
    as (_ & _ & os & t & He & _ & _ & Ht & Hr).
  assert (Hos : os = [ExSucceeded stage_cost [note] [] None;
                      ExRejected Verdict.CompileError stage_cost [note] []]).
  { eapply (proj1 (A := _ = _)). eapply (Executes_unique request_1); [exact He|].
    eapply exec_next; [reflexivity|reflexivity|]. eapply exec_stop; [reflexivity|done]. }
  exists os, t. split; [exact He|]. subst os. split; [done|]. split; [|exact Hr].
  vm_compute in Ht. by injection Ht as <-.
Defined.

(** Whatever the executor does, a result of [evaluate] satisfies the whole
    contract of a canonical result: identity, stage order, verdict row, score,
    usage bounds and provenance. *)
Theorem evaluate_valid {S : Type} `{ExecutorLaws S} (request : EvaluationRequest) (s : S)
    (r : EvaluationResult) (s' : S) :
  valid request -> evaluate request s = (Ok r, s') ->
  valid r /\ res_identity r = EvaluationIdentity_from_request request.
Proof.
  intros Hv He. split; [by eapply evaluate_result_is_valid|].
  apply evaluate_characterised in He as (_ & _ & os & t & _ & _ & _ & _ & ->); done.
Qed.

Lemma evaluate_valid_witness : valid (result_of request_1 Accepting).
Proof.
  exact (proj1 (evaluate_valid request_1 Accepting (result_of request_1 Accepting) Accepting
    request_1_valid (result_1_evaluated Accepting ltac:(done)))).
Defined.

(** A request that needs a capability the executor lacks is denied before
    the executor runs at all. *)
Theorem evaluate_denied {S : Type} `{ExecutorLaws S} (request : EvaluationRequest) (s : S)
    (c : Capability) :
  c ∈ er_required_capabilities request -> se_supports s c = false ->
  evaluate request s = (Err UnsupportedCapability, s).
Proof.
  intros Hc Hs. apply evaluate_unsupported. unfold supported. rewrite Forall_forall.
  intros Hall. by rewrite (Hall c Hc) in Hs.
Qed.

Definition rust : Capability := MkCapability "language.rust".

Lemma evaluate_denied_witness :
  evaluate (sample_request "evaluation-1" "attempt-1" "create-1" [rust]) Accepting
    = (Err UnsupportedCapability, Accepting).
Proof.
  apply (evaluate_denied _ Accepting rust); [by left|]. by vm_compute.
Defined.

(** ** Results and requests *)

(** C34: [EvaluationResult::new] accepts exactly the parts whose reports are the
    five stages in order, whose status row is the one the verdict stands for,
    whose score is zero unless the verdict is scored, whose lists are bounded
    and whose provenance names the requested runtime; it returns them unchanged. *)
Theorem result_contract (p : EvaluationResultParts) (r : EvaluationResult) :
  EvaluationResult_new p = Ok r <-> p = result_parts r /\ result_spec p.
Proof. apply EvaluationResult_new_spec. Qed.

(** The next attempt of a valid request is the same evaluation under the new
    attempt identity and number, and fails only at the largest attempt number. *)
Theorem next_attempt_contract (r : EvaluationRequest) (a : AttemptId) (k : IdempotencyKey) :
  valid r -> valid a -> valid k ->
  match EvaluationRequest_with_next_attempt r a k with
  | Ok n => valid n /\ n = next_attempt_of r a k /\ (er_attempt_number r < u32_max)%Z
  | Err e => er_attempt_number r = u32_max /\ e = OutOfRange "attempt_number" 1 u32_max u32_max
  end.
Proof.
  intros Hr Ha Hk. rewrite with_next_attempt_spec by done.
  destruct (Z.ltb_spec (er_attempt_number r) u32_max).
  - split; [by apply next_attempt_valid|done].
  - destruct Hr as (_ & _ & _ & Hn & _). assert (er_attempt_number r = u32_max) as -> by lia. done.
Qed.

Lemma next_attempt_contract_witness :
  valid (next_attempt_of request_1 (MkId "attempt-2") (MkKey "retry-1")).
Proof.
  pose proof (next_attempt_contract request_1 (MkId "attempt-2") (MkKey "retry-1")
    request_1_valid ltac:(by vm_compute) ltac:(by vm_compute)) as H.
  replace (EvaluationRequest_with_next_attempt _ _ _)
    with (Ok (E := DomainError) (next_attempt_of request_1 (MkId "attempt-2") (MkKey "retry-1")))
    in H by by vm_compute.
  exact (proj1 H).
Defined.

(** [EvaluationRequest::new] accepts exactly the parts with an attempt
    number from 1 on and at most 32 distinct capabilities, and copies them. *)
Theorem request_contract (p : EvaluationRequestParts) (r : EvaluationRequest) :
  EvaluationRequest_new p = Ok r <->
  p = parts_of r /\ (1 <= er_attempt_number r <= u32_max)%Z /\
  (len (er_required_capabilities r) <= MAX_CAPABILITIES)%Z /\ NoDup (er_required_capabilities r).
Proof. apply EvaluationRequest_new_iff. Qed.

(** Usage is aggregated by adding the counters and taking the memory peak,
    and the addition of two valid usages fails exactly when a total leaves its
    bound; machine arithmetic never wraps. *)
Theorem usage_aggregation (a b u : ResourceUsage) :
  valid a -> valid b ->
  (ResourceUsage_checked_add a b = Ok u <-> u = usage_join a b /\ valid u).
Proof. apply usage_checked_add_iff. Qed.

Lemma usage_aggregation_witness :
  ResourceUsage_checked_add stage_cost stage_cost = Ok (MkUsage 20 24 4096 128).
Proof.
  apply (usage_aggregation stage_cost stage_cost); [by vm_compute..|].
  split; [reflexivity|by vm_compute].
Defined.

(** The byte loop of [validate_lower_token] accepts exactly the grammar of a
    capability, lowercase alphanumeric segments joined by single separators and
    starting with a letter, up to 64 bytes, and keeps the string. *)
Theorem capability_grammar (value : string) (c : Capability) :
  Capability_parse value = Ok c <->
  c = MkCapability value /\ lower_token value /\ (str_len value <= 64)%Z.
Proof.
  rewrite Capability_parse_iff. unfold valid, valid_capability.
  split; [intros [-> H]|intros [-> H]]; auto.
Qed.

(** A lease's expiry is the exact sum of two bounded values: the unchecked
    [u64] addition of [checked_add] never wraps, and it is refused exactly when
    the expiry leaves the representable range of timestamps. *)
Theorem lease_expiry_exact (t : UnixMillis) (d : LeaseDuration) :
  valid t -> valid d ->
  match UnixMillis_checked_add t d with
  | Ok e => um_value e = (um_value t + ld_value d)%Z /\ valid e
  | Err _ => (MAX_UNIX_MILLIS < um_value t + ld_value d)%Z
  end.
Proof.
  intros Ht Hd. destruct (UnixMillis_checked_add t d) as [e|x] eqn:He.
  - by apply checked_add_Ok_inv.
  - unfold UnixMillis_checked_add in He. rewrite lease_add_exact in He by done.
    destruct (Z.ltb_spec MAX_UNIX_MILLIS (um_value t + ld_value d)); [done|].
    discriminate He.
Qed.

Lemma lease_expiry_exact_witness :
  match UnixMillis_checked_add (MkMillis 2000) (MkDuration 10000) with
  | Ok e => um_value e = 12000%Z /\ valid e
  | Err _ => (MAX_UNIX_MILLIS < 12000)%Z
  end.
Proof.
  exact (lease_expiry_exact (MkMillis 2000) (MkDuration 10000) ltac:(by vm_compute)
    ltac:(by vm_compute)).
Defined.

(** ** Node policy *)

(** A node may claim with a declaration iff the policy lists the node, the
    declaration is non-empty without duplicates and within its allowance; and a
    policy is accepted iff its nodes are distinct with 1 to 64 distinct
    capabilities each, and grants exactly those. *)
Theorem node_policy_contract (nodes : list (NodeId * list Capability)) (p : NodePolicy)
    (n : NodeId) (declared : list Capability) :
  NodePolicy_new nodes = Ok p ->
  NoDup (map fst nodes) /\ Forall (fun nc => node_capabilities_ok (snd nc)) nodes /\
  (NodePolicy_authorize p n declared = Ok tt <->
   exists allowed, (n, allowed) ∈ nodes /\ declared <> [] /\ NoDup declared /\
     forall c, c ∈ declared -> c ∈ allowed).
Proof.
  intros (Hnd & Hok & Hp)%NodePolicy_new_iff. split; [done|]. split; [done|].
  rewrite NodePolicy_authorize_iff, Hp.
  assert (Hl : forall s, list_to_map (M := gmap NodeId (gset Capability))
      (map (fun nc => (fst nc, list_to_set (snd nc))) nodes) !! n = Some s <->
      exists allowed, (n, allowed) ∈ nodes /\ s = list_to_set allowed).
  { intros s. rewrite <- elem_of_list_to_map.
    - change (map ?f ?l) with (f <$> l). rewrite list_elem_of_fmap. split.
      + intros ([m l] & [= -> ->] & Hin). eauto.
      + intros (l & Hin & ->). by exists (n, l).
    - change (map ?f ?l) with (f <$> l). by rewrite <- list_fmap_compose. }
  split.
  - intros (s & (allowed & Hin & ->)%Hl & Hne & Hd & Hc). exists allowed. split_and!; try done.
    intros c Hcd. by apply Hc, elem_of_list_to_set in Hcd.
  - intros (allowed & Hin & Hne & Hd & Hc). exists (list_to_set allowed).
    split; [apply Hl; eauto|]. split_and!; try done.
    intros c Hcd. by apply elem_of_list_to_set, Hc.
Qed.

Lemma node_policy_contract_witness :
  exists p, NodePolicy_new [(MkId "node-1", [cpp])] = Ok p /\
    NodePolicy_authorize p (MkId "node-1") [cpp] = Ok tt.
Proof.
  eexists. split; [by vm_compute|].
  eapply (node_policy_contract [(MkId "node-1", [cpp])]); [by vm_compute|].
  exists [cpp]. split; [by left|]. split; [done|]. split; [apply NoDup_singleton|done].
Defined.

(** ** The wire protocol *)

(** C35: an encoded request decodes to itself: for every valid request the
    encoder accepts, the bounded decoder of its bytes returns that request. *)
Theorem request_wire_roundtrip `{CanonicalSchemaLaws} (r : EvaluationRequest) (p : bytes) :
  valid r -> encode_request r = Ok p ->
  decode_request p = Ok r /\ (1 <= str_len p <= MAX_EVALUATION_REQUEST_BYTES)%Z.
Proof.
  intros Hr Hp. split; [by apply decode_encode_request|].
  eapply encode_wire_bound; [apply request_wire_laws|exact Hp].
Qed.

Lemma request_wire_roundtrip_witness :
  exists p, encode_request request_1 = Ok p /\ decode_request p = Ok request_1.
Proof.
  destruct (encode_request request_1) as [p|e] eqn:Hp.
  - exists p. split; [done|]. exact (proj1 (request_wire_roundtrip request_1 p request_1_valid Hp)).
  - exfalso. assert (Hok : is_ok (encode_request request_1) = true) by (vm_compute; reflexivity).
    by rewrite Hp in Hok.
Defined.

(** C36: an encoded result decodes to itself through the domain decoder, every
    cross-field check included. *)
Theorem result_wire_roundtrip `{CanonicalSchemaLaws} (r : EvaluationResult) (p : bytes) :
  valid r -> encode_result r = Ok p -> decode_evaluation_result_domain p = Ok r.
Proof. apply decode_encode_result. Qed.

Lemma result_wire_roundtrip_witness :
  exists p, encode_result (result_of request_1 CompileFails) = Ok p /\
    decode_evaluation_result_domain p = Ok (result_of request_1 CompileFails).
Proof.
  assert (Hv : valid (result_of request_1 CompileFails)).
  { eapply evaluate_result_is_valid; [exact request_1_valid|].
    apply (result_1_evaluated CompileFails). done. }
  destruct (ok_with (encode_result (result_of request_1 CompileFails)) (fun _ => true))
    as (p & Hp & _); [vm_compute; reflexivity|].
  exists p. split; [exact Hp|]. exact (result_wire_roundtrip _ p Hv Hp).
Defined.

(** C37: decoders return only valid values: whatever bytes they accept, the
    request or result satisfies the invariants of its domain type. *)
Theorem decoded_values_valid `{CanonicalSchemaLaws} (p : bytes) :
  (forall r, decode_request p = Ok r -> valid r) /\
  (forall r, decode_evaluation_result_domain p = Ok r -> valid r).
Proof.
  split; [apply decode_request_valid|]. intros r Hr. by apply decode_result_valid in Hr as [? _].
Qed.

(** The accepted input here is the document of the sample request. *)
Lemma decoded_values_valid_witness :
  exists p r, decode_request p = Ok r /\ valid r.
Proof.
  destruct (ok_with (encode_request request_1)
              (fun p => is_ok (decode_request p))) as (p & _ & Hd); [vm_compute; reflexivity|].
  destruct (decode_request p) as [r|e] eqn:Hr; [|discriminate Hd].
  exists p, r. split; [exact Hr|]. exact (proj1 (decoded_values_valid p) r Hr).
Defined.

(** C38: the cross-field checks on the JSON document, written independently of
    the domain crate, accept a result's document exactly when the domain's
    terminal semantics and provenance rule hold and its total usage is the
    aggregate of its stages (a rule the domain constructor does not have). *)
Theorem wire_semantics_agree (r : EvaluationResult) :
  valid (res_score r) -> valid (res_stages r) -> valid (res_usage r) ->
  (validate_result_semantics (result_to_value r) = Ok tt <->
   terminal_spec (res_status r) (res_verdict r) (res_score r) (res_stages r) /\
   provenance_ok (pr_executor_kind (res_provenance r))
     (pr_production_eligible (res_provenance r)) (pr_node_id (res_provenance r)) /\
   res_usage r = usage_total ResourceUsage_default (res_stages r)).
Proof. apply result_semantics_agree. Qed.

Lemma wire_semantics_agree_witness :
  res_usage (result_of request_1 CompileFails)
    = usage_total ResourceUsage_default (res_stages (result_of request_1 CompileFails)).
Proof.
  assert (Hv : valid (result_of request_1 CompileFails)).
  { eapply evaluate_result_is_valid; [exact request_1_valid|].
    apply (result_1_evaluated CompileFails). done. }
  destruct Hv as (_ & Hs & Hst & Hu & _).
  apply (wire_semantics_agree (result_of request_1 CompileFails) Hs Hst Hu).
  vm_compute; reflexivity.
Defined.

(** Every result the pipeline produces passes the checks of the result
    encoder: the totals it accumulates are the aggregate the protocol demands,
    skipped stages included. *)
Theorem evaluated_result_encodable {S : Type} `{ExecutorLaws S} (request : EvaluationRequest)
    (s : S) (r : EvaluationResult) (s' : S) :
  valid request -> evaluate request s = (Ok r, s') ->
  validate_result_semantics (result_to_value r) = Ok tt.
Proof.
  intros Hv He. pose proof (evaluate_result_is_valid _ _ _ _ Hv He) as Hr.
  destruct Hr as (_ & Hs & Hst & Hu & _ & _ & (_ & _ & Hp) & [Hspec _ _ _]).
  apply result_semantics_agree; [done..|]. split; [exact Hspec|]. split; [exact Hp|].
  apply evaluate_characterised in He as (_ & _ & os & t & Hex & _ & Hut & _ & ->); [|done].
  simpl. symmetry. apply usage_total_trace.
  - by eapply Executes_valid.
  - by apply Executes_length in Hex.
Qed.

Lemma evaluated_result_encodable_witness :
  validate_result_semantics (result_to_value (result_of request_1 WorkerBreaks)) = Ok tt.
Proof.
  exact (evaluated_result_encodable request_1 WorkerBreaks _ WorkerBreaks request_1_valid
    (result_1_evaluated WorkerBreaks ltac:(done))).
Defined.
