(* ===== verification/Text.v ===== *)
(** * Text functions of the standard library

    The [str] methods the adapters use, on the bytes of a string: exactly for
    what they do on bytes, and as the parameter [UnicodeText] where they consult
    Unicode tables (case mapping, white space, lossy decoding), with their
    documented agreement with the ASCII functions on ASCII text. *)

From S2P Require Import Prelude.
From Stdlib Require Import DecimalString.

Definition is_ascii (c : Ascii.ascii) : bool := (byte_code c <? 128)%Z.

Definition ascii_uppercase_byte (c : Ascii.ascii) : Ascii.ascii :=
  if is_ascii_lowercase c then Ascii.ascii_of_N (Z.to_N (byte_code c - 32)) else c.

Fixpoint str_map (f : Ascii.ascii -> Ascii.ascii) (s : string) : string :=
  match s with
  | EmptyString => EmptyString
  | String c s' => String (f c) (str_map f s')
  end.

(** The ASCII characters with the property [White_Space]. *)
Definition is_ascii_space (c : Ascii.ascii) : bool :=
  in_range 9 13 (byte_code c) || (byte_code c =? 32)%Z.

Fixpoint trim_start (s : string) : string :=
  match s with
  | String c s' => if is_ascii_space c then trim_start s' else s
  | EmptyString => EmptyString
  end.

Fixpoint trim_end (s : string) : string :=
  match s with
  | EmptyString => EmptyString
  | String c s' =>
      match trim_end s' with
      | EmptyString => if is_ascii_space c then EmptyString else String c EmptyString
      | t => String c t
      end
  end.

(** The words of a string, with the word being read. *)
Fixpoint words_from (word s : string) : list string :=
  match s with
  | EmptyString => if is_empty word then [] else [word]
  | String c s' =>
      if is_ascii_space c
      then (if is_empty word then [] else [word]) ++ words_from EmptyString s'
      else words_from (word +:+ String c EmptyString) s'
  end.

Class UnicodeText := {
  to_uppercase : string -> string;
  from_utf8_lossy : string -> string;
  str_trim : string -> string;
  split_whitespace : string -> list string
}.

Class UnicodeTextLaws `{UnicodeText} := {
  to_uppercase_ascii : forall s,
    str_all is_ascii s = true -> to_uppercase s = str_map ascii_uppercase_byte s;
  from_utf8_lossy_ascii : forall s, str_all is_ascii s = true -> from_utf8_lossy s = s;
  str_trim_ascii : forall s, str_all is_ascii s = true -> str_trim s = trim_end (trim_start s);
  split_whitespace_ascii : forall s,
    str_all is_ascii s = true -> split_whitespace s = words_from EmptyString s
}.

(** Text functions that only know ASCII. *)
Definition ascii_text : UnicodeText := {|
  to_uppercase := str_map ascii_uppercase_byte;
  from_utf8_lossy := fun s => s;
  str_trim := fun s => trim_end (trim_start s);
  split_whitespace := words_from EmptyString
|}.

Lemma ascii_text_laws : @UnicodeTextLaws ascii_text.
Proof. by split. Qed.

(** ** Searching and splitting *)

(** [str::contains]. *)
Fixpoint contains (pattern value : string) : bool :=
  String.prefix pattern value ||
  match value with
  | EmptyString => false
  | String _ value' => contains pattern value'
  end.

(** [str::split(separator)]. *)
Fixpoint split_on (separator : Ascii.ascii) (s : string) : list string :=
  match s with
  | EmptyString => [EmptyString]
  | String c s' =>
      if Ascii.eqb c separator then EmptyString :: split_on separator s'
      else
        match split_on separator s' with
        | [] => [String c EmptyString]
        | piece :: rest => String c piece :: rest
        end
  end.

Definition CR : Ascii.ascii := "013"%char.
Definition LF : Ascii.ascii := "010"%char.
Definition CRLF : string := String CR (String LF EmptyString).

(** [strip_suffix('\r')]. *)
Fixpoint strip_cr (line : string) : string :=
  match line with
  | EmptyString => EmptyString
  | String c EmptyString => if Ascii.eqb c CR then EmptyString else line
  | String c line' => String c (strip_cr line')
  end.

(** [str::lines]: the pieces between line feeds; a carriage return before the
    line feed is dropped, and so is an empty last piece. *)
Fixpoint terminated (pieces : list string) : list string :=
  match pieces with
  | [] => []
  | [last] => if is_empty last then [] else [last]
  | piece :: rest => strip_cr piece :: terminated rest
  end.

Definition str_lines (s : string) : list string := terminated (split_on LF s).

Definition ascii_lowercase_byte (c : Ascii.ascii) : Ascii.ascii :=
  if is_ascii_uppercase c then Ascii.ascii_of_N (Z.to_N (byte_code c + 32)) else c.

Definition eq_ignore_ascii_case (s t : string) : bool :=
  String.eqb (str_map ascii_lowercase_byte s) (str_map ascii_lowercase_byte t).

(** ** Paths

    [std::path] on Unix: a [PathBuf] is its bytes, and its components are the
    pieces between slashes, of which empty ones and dots do not count unless they
    come first. *)

Definition path_noise (piece : string) : bool := is_empty piece || String.eqb piece ".".

(** The pieces after the first, last one first, without the noise at the end. *)
Fixpoint drop_noise (pieces : list string) : list string :=
  match pieces with
  | piece :: above => if path_noise piece then drop_noise above else pieces
  | [] => []
  end.

Definition path_text (first : string) (rest : list string) : string :=
  if is_empty first && bool_decide (rest = []) then "/" else String.concat "/" (first :: rest).

Definition path_parent (path : string) : option string :=
  match split_on "/" path with
  | [] => None
  | first :: rest =>
      match drop_noise (rev rest) with
      | [] => if is_empty first then None else Some EmptyString
      | _ :: above => Some (path_text first (rev (drop_noise above)))
      end
  end.

Definition normal_component (piece : string) : option string :=
  if path_noise piece || String.eqb piece ".." then None else Some piece.

Definition path_file_name (path : string) : option string :=
  match split_on "/" path with
  | [] => None
  | first :: rest =>
      match drop_noise (rev rest) with
      | [] => normal_component first
      | piece :: _ => normal_component piece
      end
  end.

(** Whether a text ends with the given character. *)
Fixpoint ends_with (c : Ascii.ascii) (s : string) : bool :=
  match s with
  | EmptyString => false
  | String d EmptyString => Ascii.eqb c d
  | String _ s' => ends_with c s'
  end.

(** [Path::join]: an absolute argument replaces the path. *)
Definition path_join (path part : string) : string :=
  if String.prefix "/" part then part
  else if is_empty path || ends_with "/" path then path +:+ part
  else path +:+ "/" +:+ part.

(** ** Numbers *)

(** The digits of [from_str_radix(_, 10)] into a type with values up to
    [maximum]. *)
Fixpoint digits_value (maximum value : Z) (s : string) : option Z :=
  match s with
  | EmptyString => Some value
  | String c s' =>
      if is_ascii_digit c then
        let value' := (10 * value + (byte_code c - 48))%Z in
        if (value' <=? maximum)%Z then digits_value maximum value' s' else None
      else None
  end.

(** [str::parse] into an unsigned type: an optional plus sign and at least one
    digit. *)
Definition parse_unsigned (maximum : Z) (s : string) : option Z :=
  match s with
  | EmptyString => None
  | String c s' =>
      if Ascii.eqb c "+" then (if is_empty s' then None else digits_value maximum 0 s')
      else digits_value maximum 0 s
  end.

(** The decimal form of an unsigned integer. *)
Definition decimal (z : Z) : string := NilZero.string_of_uint (N.to_uint (Z.to_N z)).

(** ** Slices *)

Lemma str_all_substring p n m s : str_all p s = true -> str_all p (String.substring n m s) = true.
Proof.
  revert n m. induction s as [|c s IH]; intros [|n] [|m]; simpl; try done;
    intros [Hc Hs]%andb_true_iff; rewrite ?Hc; simpl; auto.
Qed.

Lemma length_substring n s :
  (n <= String.length s)%nat -> String.length (String.substring 0 n s) = n.
Proof.
  revert n. induction s as [|c s IH]; intros [|n]; simpl; intros Hn; try lia.
  f_equal. apply IH. lia.
Qed.

Lemma substring_app s t : String.substring 0 (String.length s) (s +:+ t) = s.
Proof.
  induction s as [|c s IH]; simpl; [by destruct t|]. f_equal. exact IH.
Qed.


(** ** Concatenation *)

Lemma append_cons c s t : String c s +:+ t = String c (s +:+ t).
Proof. done. Qed.

Lemma append_assoc a b c : (a +:+ b) +:+ c = a +:+ b +:+ c.
Proof. induction a as [|x a IH]; [done|]. rewrite !append_cons. by rewrite IH. Qed.

Lemma append_nil_r s : s +:+ EmptyString = s.
Proof. induction s as [|x s IH]; [done|]. rewrite append_cons. by rewrite IH. Qed.

Lemma prefix_app p s t : String.prefix p s = true -> String.prefix p (s +:+ t) = true.
Proof.
  revert s. induction p as [|c p IH]; intros [|d s]; try done; [by destruct t|].
  rewrite append_cons. simpl. destruct (Ascii.ascii_dec c d); [|done]. apply IH.
Qed.

Lemma prefix_length p s :
  String.prefix p s = true -> (String.length p <= String.length s)%nat.
Proof.
  revert s. induction p as [|c p IH]; intros [|d s]; simpl; try done; [lia|].
  destruct (Ascii.ascii_dec c d); [|done]. intros Hp%IH. lia.
Qed.

Lemma prefix_app_long p s t :
  (String.length p <= String.length s)%nat -> String.prefix p (s +:+ t) = String.prefix p s.
Proof.
  revert s. induction p as [|c p IH]; intros s Hl; [by destruct s, t|].
  destruct s as [|d s]; simpl in Hl; [lia|]. rewrite append_cons. simpl.
  destruct (Ascii.ascii_dec c d); [|done]. apply IH. lia.
Qed.

Lemma append_split a b c d :
  a +:+ b = c +:+ d -> (String.length a <= String.length c)%nat ->
  exists q, c = a +:+ q /\ b = q +:+ d.
Proof.
  revert c. induction a as [|x a IH]; intros c Heq Hl; [by exists c|].
  destruct c as [|y c]; simpl in Hl; [lia|]. rewrite !append_cons in Heq.
  injection Heq as -> Heq. destruct (IH c Heq ltac:(lia)) as (q & -> & ->). by exists q.
Qed.

Lemma length_append s t : String.length (s +:+ t) = (String.length s + String.length t)%nat.
Proof. induction s as [|c s IH]; [done|]. rewrite append_cons. simpl. by rewrite IH. Qed.

Lemma substring_drop s t n :
  n = String.length s -> String.substring n (String.length t) (s +:+ t) = t.
Proof.
  intros ->. induction s as [|c s IH]; [|exact IH].
  change (EmptyString +:+ t) with t. simpl String.length.
  rewrite <- (append_nil_r t) at 2. apply substring_app.
Qed.

Lemma length_substring_tail n s :
  (n <= String.length s)%nat ->
  String.length (String.substring n (String.length s - n) s) = (String.length s - n)%nat.
Proof.
  revert n. induction s as [|c s IH]; intros [|n] Hn; simpl in *; try lia.
  - f_equal. apply (length_substring (String.length s)). lia.
  - apply IH. lia.
Qed.

(** ** Pieces *)

Lemma split_on_nonempty c s : split_on c s <> [].
Proof. destruct s as [|d s]; simpl; [done|]. destruct (Ascii.eqb d c); [done|]. by destruct (split_on c s). Qed.

Lemma split_on_app c a b : split_on c (a +:+ String c b) = split_on c a ++ split_on c b.
Proof.
  induction a as [|d a IH].
  - change (EmptyString +:+ String c b) with (String c b). simpl. by rewrite Ascii.eqb_refl.
  - rewrite append_cons. simpl. rewrite IH. destruct (Ascii.eqb d c); [done|].
    pose proof (split_on_nonempty c a). by destruct (split_on c a).
Qed.

Lemma prefix_single c s : String.prefix (String c EmptyString) s =
  match s with String d _ => Ascii.eqb c d | EmptyString => false end.
Proof.
  destruct s as [|d s]; [done|]. simpl. destruct (Ascii.ascii_dec c d) as [->|Hne].
  - by rewrite Ascii.eqb_refl; destruct s.
  - symmetry. by apply Ascii.eqb_neq.
Qed.

Lemma contains_unfold pattern s : contains pattern s =
  String.prefix pattern s || match s with EmptyString => false | String _ s' => contains pattern s' end.
Proof. by destruct s. Qed.

Lemma split_on_whole c s : contains (String c EmptyString) s = false -> split_on c s = [s].
Proof.
  induction s as [|d s IH]; [done|]. rewrite contains_unfold, prefix_single. cbn [split_on].
  rewrite Ascii.eqb_sym. intros Hs. apply orb_false_iff in Hs as [-> Hs]. by rewrite (IH Hs).
Qed.

Lemma concat_cons (sep x : string) l :
  l <> [] -> String.concat sep (x :: l) = x +:+ sep +:+ String.concat sep l.
Proof. by destruct l. Qed.

Lemma concat_split c s : String.concat (String c EmptyString) (split_on c s) = s.
Proof.
  induction s as [|d s IH]; [done|]. cbn [split_on]. pose proof (split_on_nonempty c s) as Hne.
  destruct (Ascii.eqb_spec d c) as [->|Hdc].
  - rewrite concat_cons by done. by rewrite IH.
  - destruct (split_on c s) as [|piece rest]; [done|].
    destruct rest as [|x rest]; [simpl in *; by rewrite IH|].
    rewrite concat_cons in IH |- * by done. rewrite append_cons. by rewrite IH.
Qed.

(** ** Joining and taking apart *)

(** A name below a directory whose last component is [dir_name]: its parent is
    that directory and its file name is the name. *)
Lemma path_below dir dir_name first rest name :
  split_on "/" dir = first :: rest -> last (first :: rest) = Some dir_name ->
  path_noise dir_name = false -> contains "/" name = false -> path_noise name = false ->
  path_parent (dir +:+ "/" +:+ name) = Some dir /\
  path_file_name (dir +:+ "/" +:+ name) = normal_component name.
Proof.
  intros Hdir Hlast Hnoise Hname Hnn.
  assert (Hsplit : split_on "/" (dir +:+ "/" +:+ name) = first :: rest ++ [name]).
  { change (dir +:+ "/" +:+ name) with (dir +:+ String "/" name).
    rewrite split_on_app, Hdir, (split_on_whole "/" name Hname). done. }
  assert (Hconcat : String.concat "/" (first :: rest) = dir) by (rewrite <- Hdir; apply concat_split).
  unfold path_parent, path_file_name. rewrite Hsplit, rev_app_distr. simpl rev. cbn [app drop_noise].
  rewrite Hnn. split; [|done]. f_equal. unfold path_text.
  destruct (rest) as [|x l _] using rev_ind.
  - simpl. simpl in Hlast. injection Hlast as ->. unfold path_noise in Hnoise.
    apply orb_false_iff in Hnoise as [-> _]. done.
  - rewrite app_comm_cons, last_snoc in Hlast. injection Hlast as ->.
    rewrite rev_app_distr. simpl. rewrite Hnoise. simpl. rewrite rev_involutive.
    rewrite bool_decide_eq_false_2 by (by destruct l). by rewrite andb_false_r.
Qed.

(** A dot below a directory is the directory itself. *)
Lemma path_dot dir :
  path_parent (dir +:+ "/" +:+ ".") = path_parent dir /\
  path_file_name (dir +:+ "/" +:+ ".") = path_file_name dir.
Proof.
  assert (Hsplit : split_on "/" (dir +:+ "/" +:+ ".") = split_on "/" dir ++ ["."]).
  { change (dir +:+ "/" +:+ ".") with (dir +:+ String "/" ".").
    by rewrite split_on_app, (split_on_whole "/" "." eq_refl). }
  unfold path_parent, path_file_name. rewrite Hsplit.
  destruct (split_on "/" dir) as [|first rest] eqn:Hd; [by destruct (split_on_nonempty "/" dir)|].
  cbn [app]. by rewrite rev_app_distr.
Qed.

Lemma ends_with_app c a d b : ends_with c (a +:+ String d b) = ends_with c (String d b).
Proof.
  induction a as [|x a IH]; [done|]. rewrite append_cons, <- IH. simpl. by destruct a.
Qed.

Lemma ends_with_inv c s : ends_with c s = true -> exists a, s = a +:+ String c EmptyString.
Proof.
  induction s as [|d s IH]; [done|]. destruct s as [|x s].
  - simpl. intros ->%Ascii.eqb_eq. by exists EmptyString.
  - intros Hs. destruct (IH Hs) as [a Ha]. exists (String d a). by rewrite append_cons, <- Ha.
Qed.

(** A relative name joined to a path becomes its last piece. *)
Lemma split_on_join path name :
  contains "/" name = false -> exists pieces, split_on "/" (path_join path name) = pieces ++ [name].
Proof.
  intros Hn. unfold path_join. rewrite prefix_single.
  assert (Hp : match name with String d _ => Ascii.eqb "/" d | EmptyString => false end = false).
  { rewrite contains_unfold, prefix_single in Hn. by apply orb_false_iff in Hn as [? _]. }
  rewrite Hp. destruct (ends_with "/" path) eqn:He.
  - rewrite orb_true_r. apply ends_with_inv in He as [a ->]. exists (split_on "/" a).
    rewrite append_assoc, append_cons. change (EmptyString +:+ name) with name.
    by rewrite split_on_app, (split_on_whole "/" name).
  - destruct path as [|c path]; [exists []; exact (split_on_whole "/" name Hn)|].
    exists (split_on "/" (String c path)). cbn [is_empty orb].
    change (String c path +:+ "/" +:+ name) with (String c path +:+ String "/" name).
    by rewrite split_on_app, (split_on_whole "/" name).
Qed.
