(* ===== verification/Guest.v ===== *)
(** * The guest message codec

    Models [crates/openoj-guest-protocol/src/lib.rs]: the messages host and
    guest exchange over the vsock, their translation to and from JSON objects
    with the bound of every field, and the length-prefixed frames around them.
    A [Vec<u8>] is a byte string; the text form of JSON is the parameter
    [SerdeJson]; [usize] has 64 bits. *)

From S2P Require Import Prelude Evaluation Json Codec Text.

Definition PROTOCOL_VERSION : string := "v0alpha1".
Definition MAX_FRAME_BYTES : Z := 1048576.
Definition MAX_TYPE_LEN : Z := 32.
Definition MAX_CAPABILITIES : Z := 32.
Definition MAX_CAPABILITY_LEN : Z := 32.
Definition MAX_DIGEST_LEN : Z := 64.
Definition MAX_INLINE_BYTES : Z := 262144.
Definition MAX_NAME_LEN : Z := 128.
Definition MAX_ARGUMENTS : Z := 32.
Definition MAX_ARGUMENT_LEN : Z := 256.
Definition MAX_DIAGNOSTICS : Z := 32.
Definition MAX_DIAGNOSTIC_MESSAGE : nat := 4096.

Inductive CodecError : Type :=
  | FrameTooLarge (actual maximum : Z)
  | BoundedLengthExceeded (actual maximum : Z)
  | Truncated
  | MalformedJson
  | UnknownType
  | TypeTooLong
  | UnsupportedVersion
  | BoundsExceeded (field : string) (actual maximum : Z).

#[export] Instance CodecError_eq_dec : EqDecision CodecError.
Proof. solve_decision. Defined.

(** [Display]. *)
Definition CodecError_text (error : CodecError) : string :=
  match error with
  | FrameTooLarge actual maximum =>
      "encoded frame is " +:+ decimal actual +:+ " bytes, maximum " +:+ decimal maximum
  | BoundedLengthExceeded actual maximum =>
      "declared frame length " +:+ decimal actual +:+ " exceeds maximum " +:+ decimal maximum
  | Truncated => "frame is truncated"
  | MalformedJson => "frame body is not valid JSON"
  | UnknownType => "message type is missing or unknown"
  | TypeTooLong => "message type is too long"
  | UnsupportedVersion => "message version is missing or unsupported"
  | BoundsExceeded field actual maximum =>
      "field " +:+ field +:+ " is " +:+ decimal actual +:+ ", maximum " +:+ decimal maximum
  end.

(** ** Messages *)

Module Stage.
Inductive t : Type := Build | Run.

#[global] Instance eq_dec : EqDecision t.
Proof. solve_decision. Defined.

Definition as_str (s : t) : string :=
  match s with
  | Build => "build"
  | Run => "run"
  end.

Definition parse (value : string) : result CodecError t :=
  if String.eqb value "build" then Ok Build
  else if String.eqb value "run" then Ok Run
  else Err UnknownType.
End Stage.

Record GuestUsage : Type := MkGuestUsage {
  gu_cpu_time_ms : Z;
  gu_wall_time_ms : Z;
  gu_memory_peak_bytes : Z;
  gu_output_bytes : Z
}.

#[export] Instance GuestUsage_eq_dec : EqDecision GuestUsage.
Proof. solve_decision. Defined.

Definition GuestUsage_default : GuestUsage := MkGuestUsage 0 0 0 0.

#[export] Instance valid_guest_usage : Valid GuestUsage := fun u =>
  is_u64 (gu_cpu_time_ms u) /\ is_u64 (gu_wall_time_ms u) /\
  is_u64 (gu_memory_peak_bytes u) /\ is_u64 (gu_output_bytes u).

(** [str::is_char_boundary]. *)
Definition is_char_boundary (value : string) (index : nat) : bool :=
  if Nat.eqb index 0 || Nat.eqb index (String.length value) then true
  else
    match String.get index value with
    | Some c => negb (is_continuation c)
    | None => false
    end.

(** The loop of [truncate]: the last character boundary up to [end_]. *)
Fixpoint boundary_before (value : string) (end_ : nat) : nat :=
  match end_ with
  | O => O
  | S end' => if is_char_boundary value end_ then end_ else boundary_before value end'
  end.

Definition truncate (value : string) (maximum : nat) : string :=
  if Nat.leb (String.length value) maximum then value
  else String.substring 0 (boundary_before value maximum) value.

Record GuestDiagnostic : Type := MkGuestDiagnostic {
  gd_code : string;
  gd_message : string;
  gd_truncated : bool
}.

#[export] Instance GuestDiagnostic_eq_dec : EqDecision GuestDiagnostic.
Proof. solve_decision. Defined.

Definition GuestDiagnostic_new (code message : string) : GuestDiagnostic :=
  {| gd_code := code;
     gd_message := truncate message MAX_DIAGNOSTIC_MESSAGE;
     gd_truncated := Nat.ltb MAX_DIAGNOSTIC_MESSAGE (String.length message) |}.

#[export] Instance valid_guest_diagnostic : Valid GuestDiagnostic := fun d =>
  (String.length (gd_message d) <= MAX_DIAGNOSTIC_MESSAGE)%nat.

Inductive Message : Type :=
  | Negotiate (capabilities : list string)
  | Negotiated (supported : bool)
  | UploadInput (name digest : string) (contents : bytes)
  | UploadAck (name : string) (accepted : bool)
  | Build (argv : list string) (wall_time_ms : Z)
  | Run (argv : list string) (wall_time_ms : Z)
  | StageOutput (stage : Stage.t) (exit_code : Z) (output_digest : string)
      (output_bytes : Z) (usage : GuestUsage) (diagnostics : list GuestDiagnostic)
  | StageEvidence (kind : string)
  | EvidenceAck (kind : string) (accepted : bool)
  | Cancel
  | Cancelled
  | Heartbeat
  | Ack.

#[export] Instance Message_eq_dec : EqDecision Message.
Proof. solve_decision. Defined.

(** What the Rust types of a message give: the width of its integers and the
    bound [GuestDiagnostic] keeps. *)
#[export] Instance valid_message : Valid Message := fun m =>
  match m with
  | Build _ wall_time_ms | Run _ wall_time_ms => is_u64 wall_time_ms
  | StageOutput _ exit_code _ output_bytes usage diagnostics =>
      is_i32 exit_code /\ is_u64 output_bytes /\ valid usage /\ valid diagnostics
  | _ => True
  end.

Definition message_type (m : Message) : string :=
  match m with
  | Negotiate _ => "negotiate"
  | Negotiated _ => "negotiated"
  | UploadInput _ _ _ => "upload_input"
  | UploadAck _ _ => "upload_ack"
  | Build _ _ => "build"
  | Run _ _ => "run"
  | StageOutput _ _ _ _ _ _ => "stage_output"
  | StageEvidence _ => "stage_evidence"
  | EvidenceAck _ _ => "evidence_ack"
  | Cancel => "cancel"
  | Cancelled => "cancelled"
  | Heartbeat => "heartbeat"
  | Ack => "ack"
  end.

(** ** Field checks *)

Definition bounds {A : Type} (field : string) (actual maximum : Z) : result CodecError A :=
  Err (BoundsExceeded field actual maximum).

(** [BTreeSet::from_iter] of strings: sorted by bytes, without repetition. *)
Fixpoint btree_insert (value : string) (set : list string) : list string :=
  match set with
  | [] => [value]
  | x :: set' =>
      match String.compare value x with
      | Lt => value :: set
      | Eq => set
      | Gt => x :: btree_insert value set'
      end
  end.

Definition btree_collect (values : list string) : list string :=
  fold_left (fun set value => btree_insert value set) values [].

Definition is_sorted_unique (values : list string) : bool :=
  let set := btree_collect values in
  (len set =? len values)%Z && bool_decide (set = values).

(** [for value in values { if value.len() > maximum { return Err } }]. *)
Fixpoint all_within (field : string) (maximum : Z) (values : list string)
    : result CodecError unit :=
  match values with
  | [] => Ok tt
  | value :: rest =>
      if (maximum <? str_len value)%Z then bounds field (str_len value) maximum
      else all_within field maximum rest
  end.

Definition validate_capabilities (capabilities : list string) : result CodecError unit :=
  if (MAX_CAPABILITIES <? len capabilities)%Z
  then bounds "capabilities" (len capabilities) MAX_CAPABILITIES
  else if negb (is_sorted_unique capabilities)
  then bounds "capabilities" (len capabilities) MAX_CAPABILITIES
  else all_within "capability" MAX_CAPABILITY_LEN capabilities.

Definition check_name (name : string) : result CodecError unit :=
  if is_empty name || (MAX_NAME_LEN <? str_len name)%Z
  then bounds "name" (str_len name) MAX_NAME_LEN
  else if contains "/" name || contains "\" name || contains ".." name
  then bounds "name" (str_len name) MAX_NAME_LEN
  else Ok tt.

(** ** Writing fields *)

Definition json_array (values : list string) : Json := JArray (map JString values).

Definition json_bytes (contents : bytes) : Json :=
  JArray (map (fun b => JInt (byte_code b)) (String.list_ascii_of_string contents)).

Definition usage_value (usage : GuestUsage) : Json :=
  json_object [
    ("cpu_time_ms", JInt (gu_cpu_time_ms usage));
    ("wall_time_ms", JInt (gu_wall_time_ms usage));
    ("memory_peak_bytes", JInt (gu_memory_peak_bytes usage));
    ("output_bytes", JInt (gu_output_bytes usage))].

Definition diagnostics_value (diagnostics : list GuestDiagnostic) : Json :=
  JArray (map (fun d => json_object [
    ("code", JString (gd_code d));
    ("message", JString (gd_message d));
    ("truncated", JBool (gd_truncated d))]) diagnostics).

Definition write_command (argv : list string) (wall_time_ms : Z)
    : result CodecError (list (string * Json)) :=
  if bool_decide (argv = []) || (MAX_ARGUMENTS <? len argv)%Z
  then bounds "argv" (len argv) MAX_ARGUMENTS
  else
    try* all_within "argument" MAX_ARGUMENT_LEN argv in
    Ok [("argv", json_array argv); ("wall_time_ms", JInt wall_time_ms)].

(** The fields [write_fields] inserts. *)
Definition write_fields (m : Message) : result CodecError (list (string * Json)) :=
  match m with
  | Negotiate capabilities =>
      try* validate_capabilities capabilities in
      Ok [("capabilities", json_array capabilities)]
  | Negotiated supported => Ok [("supported", JBool supported)]
  | UploadInput name digest contents =>
      try* check_name name in
      if (MAX_DIGEST_LEN <? str_len digest)%Z
      then bounds "digest" (str_len digest) MAX_DIGEST_LEN
      else if (MAX_INLINE_BYTES <? str_len contents)%Z
      then bounds "bytes" (str_len contents) MAX_INLINE_BYTES
      else Ok [("name", JString name); ("digest", JString digest);
               ("bytes", json_bytes contents)]
  | UploadAck name accepted =>
      try* check_name name in
      Ok [("name", JString name); ("accepted", JBool accepted)]
  | Build argv wall_time_ms | Run argv wall_time_ms => write_command argv wall_time_ms
  | StageOutput stage exit_code output_digest output_bytes usage diagnostics =>
      if (MAX_DIGEST_LEN <? str_len output_digest)%Z
      then bounds "output_digest" (str_len output_digest) MAX_DIGEST_LEN
      else if (MAX_DIAGNOSTICS <? len diagnostics)%Z
      then bounds "diagnostics" (len diagnostics) MAX_DIAGNOSTICS
      else Ok [("stage", JString (Stage.as_str stage)); ("exit_code", JInt exit_code);
               ("output_digest", JString output_digest);
               ("output_bytes", JInt output_bytes); ("usage", usage_value usage);
               ("diagnostics", diagnostics_value diagnostics)]
  | StageEvidence kind =>
      if (MAX_TYPE_LEN <? str_len kind)%Z then bounds "kind" (str_len kind) MAX_TYPE_LEN
      else Ok [("kind", JString kind)]
  | EvidenceAck kind accepted => Ok [("kind", JString kind); ("accepted", JBool accepted)]
  | Cancel | Cancelled | Heartbeat | Ack => Ok []
  end.

(** ** Reading fields *)

Definition get_str (object : list (string * Json)) (key : string) : option string :=
  v ← map_get key object; json_as_str v.
Definition get_array (object : list (string * Json)) (key : string) : option (list Json) :=
  v ← map_get key object; json_as_array v.

Definition string_field (object : list (string * Json)) (key : string) (maximum : Z)
    : result CodecError string :=
  let* value := ok_or MalformedJson (get_str object key) in
  if (maximum <? str_len value)%Z then bounds key (str_len value) maximum else Ok value.

Definition string_vec (object : list (string * Json)) (key : string) (maximum : Z)
    : result CodecError (list string) :=
  let* array := ok_or MalformedJson (get_array object key) in
  if (maximum <? len array)%Z then bounds key (len array) maximum
  else traverse (fun item => ok_or MalformedJson (json_as_str item)) array.

Definition byte_from (item : Json) : result CodecError Ascii.ascii :=
  let* number := ok_or MalformedJson (json_as_u64 item) in
  if (u8_max <? number)%Z then Err MalformedJson
  else Ok (Ascii.ascii_of_N (Z.to_N number)).

Definition byte_field (object : list (string * Json)) (key : string)
    : result CodecError bytes :=
  let* array := ok_or MalformedJson (get_array object key) in
  if (MAX_INLINE_BYTES <? len array)%Z
  then bounds "bytes" (len array) MAX_INLINE_BYTES
  else let* contents := traverse byte_from array in
       Ok (String.string_of_list_ascii contents).

Definition bool_field (object : list (string * Json)) (key : string)
    : result CodecError bool :=
  ok_or MalformedJson (v ← map_get key object; json_as_bool v).

Definition i32_field (object : list (string * Json)) (key : string)
    : result CodecError Z :=
  let* number := ok_or MalformedJson (v ← map_get key object; json_as_i64 v) in
  if in_range i32_min i32_max number then Ok number else Err MalformedJson.

Definition u64_field (object : list (string * Json)) (key : string)
    : result CodecError Z :=
  ok_or MalformedJson (v ← map_get key object; json_as_u64 v).

Definition parse_capabilities (object : list (string * Json))
    : result CodecError (list string) :=
  let* capabilities := string_vec object "capabilities" MAX_CAPABILITIES in
  try* validate_capabilities capabilities in
  Ok capabilities.

Definition readable_command (object : list (string * Json))
    : result CodecError (list string * Z) :=
  let* argv := string_vec object "argv" MAX_ARGUMENTS in
  if bool_decide (argv = []) then bounds "argv" 0 MAX_ARGUMENTS
  else
    try* all_within "argument" MAX_ARGUMENT_LEN argv in
    let* wall_time_ms := u64_field object "wall_time_ms" in
    Ok (argv, wall_time_ms).

Definition usage_from (value : Json) : result CodecError GuestUsage :=
  let* object := ok_or MalformedJson (json_as_object value) in
  let* cpu_time_ms := u64_field object "cpu_time_ms" in
  let* wall_time_ms := u64_field object "wall_time_ms" in
  let* memory_peak_bytes := u64_field object "memory_peak_bytes" in
  let* output_bytes := u64_field object "output_bytes" in
  Ok (MkGuestUsage cpu_time_ms wall_time_ms memory_peak_bytes output_bytes).

Definition diagnostic_from (item : Json) : result CodecError GuestDiagnostic :=
  let* object := ok_or MalformedJson (json_as_object item) in
  let* code := string_field object "code" MAX_TYPE_LEN in
  let* message := string_field object "message" (Z.of_nat MAX_DIAGNOSTIC_MESSAGE) in
  let* truncated := bool_field object "truncated" in
  Ok (MkGuestDiagnostic code message truncated).

Definition diagnostics_from (value : Json) : result CodecError (list GuestDiagnostic) :=
  let* array := ok_or MalformedJson (json_as_array value) in
  if (MAX_DIAGNOSTICS <? len array)%Z
  then bounds "diagnostics" (len array) MAX_DIAGNOSTICS
  else traverse diagnostic_from array.

(** ** Messages and frames *)

(** The [match type_name] of [from_value]. *)
Definition message_from (object : list (string * Json)) (type_name : string)
    : result CodecError Message :=
  if String.eqb type_name "negotiate" then
    let* capabilities := parse_capabilities object in
    Ok (Negotiate capabilities)
  else if String.eqb type_name "negotiated" then
    let* supported := bool_field object "supported" in
    Ok (Negotiated supported)
  else if String.eqb type_name "upload_input" then
    let* name := string_field object "name" MAX_NAME_LEN in
    let* digest := string_field object "digest" MAX_DIGEST_LEN in
    let* contents := byte_field object "bytes" in
    Ok (UploadInput name digest contents)
  else if String.eqb type_name "upload_ack" then
    let* name := string_field object "name" MAX_NAME_LEN in
    let* accepted := bool_field object "accepted" in
    Ok (UploadAck name accepted)
  else if String.eqb type_name "build" then
    let* (argv, wall_time_ms) := readable_command object in
    Ok (Build argv wall_time_ms)
  else if String.eqb type_name "run" then
    let* (argv, wall_time_ms) := readable_command object in
    Ok (Run argv wall_time_ms)
  else if String.eqb type_name "stage_output" then
    let* s := string_field object "stage" MAX_TYPE_LEN in
    let* stage := Stage.parse s in
    let* exit_code := i32_field object "exit_code" in
    let* output_digest := string_field object "output_digest" MAX_DIGEST_LEN in
    let* output_bytes := u64_field object "output_bytes" in
    let* u := ok_or MalformedJson (map_get "usage" object) in
    let* usage := usage_from u in
    let* d := ok_or MalformedJson (map_get "diagnostics" object) in
    let* diagnostics := diagnostics_from d in
    Ok (StageOutput stage exit_code output_digest output_bytes usage diagnostics)
  else if String.eqb type_name "stage_evidence" then
    let* kind := string_field object "kind" MAX_TYPE_LEN in
    Ok (StageEvidence kind)
  else if String.eqb type_name "evidence_ack" then
    let* kind := string_field object "kind" MAX_TYPE_LEN in
    let* accepted := bool_field object "accepted" in
    Ok (EvidenceAck kind accepted)
  else if String.eqb type_name "cancel" then Ok Cancel
  else if String.eqb type_name "cancelled" then Ok Cancelled
  else if String.eqb type_name "heartbeat" then Ok Heartbeat
  else if String.eqb type_name "ack" then Ok Ack
  else Err UnknownType.

Definition from_value (value : Json) : result CodecError Message :=
  let* object := ok_or MalformedJson (json_as_object value) in
  let* type_name := ok_or UnknownType (get_str object "type") in
  if (MAX_TYPE_LEN <? str_len type_name)%Z then Err TypeTooLong
  else
    let* version := ok_or UnsupportedVersion (get_str object "version") in
    if negb (String.eqb version PROTOCOL_VERSION) then Err UnsupportedVersion
    else message_from object type_name.

(** The bytes of a [u32], most significant first. *)
Definition byte_at (n shift : Z) : Ascii.ascii :=
  Ascii.ascii_of_N (Z.to_N (Z.land (Z.shiftr n shift) 255)).

Definition to_be_bytes (n : Z) : bytes :=
  String (byte_at n 24) (String (byte_at n 16) (String (byte_at n 8)
    (String (byte_at n 0) EmptyString))).

Definition from_be_bytes (b0 b1 b2 b3 : Ascii.ascii) : Z :=
  Z.lor (Z.lor (Z.lor (Z.shiftl (byte_code b0) 24) (Z.shiftl (byte_code b1) 16))
           (Z.shiftl (byte_code b2) 8)) (byte_code b3).

(** [usize::checked_add] and [usize::saturating_sub] on a 64-bit target. *)
Definition usize_saturating_sub (a b : Z) : Z := Z.max 0 (a - b).

Section Codec.
Context `{SerdeJson}.

Definition encode (m : Message) : result CodecError bytes :=
  let* fields := write_fields m in
  let object := json_object ([("type", JString (message_type m));
                              ("version", JString PROTOCOL_VERSION)] ++ fields) in
  let* body := ok_or MalformedJson (json_to_vec object) in
  let* total := ok_or (FrameTooLarge u64_max MAX_FRAME_BYTES)
                  (u64_checked_add (str_len body) 4) in
  if (MAX_FRAME_BYTES <? total)%Z then Err (FrameTooLarge total MAX_FRAME_BYTES)
  else
    let* body_length :=
      u32_try_from (FrameTooLarge (str_len body) MAX_FRAME_BYTES) (str_len body) in
    Ok (to_be_bytes body_length +:+ body).

Definition decode (frame : bytes) : result CodecError Message :=
  match frame with
  | String b0 (String b1 (String b2 (String b3 rest))) =>
      let length := from_be_bytes b0 b1 b2 b3 in
      if (usize_saturating_sub MAX_FRAME_BYTES 4 <? length)%Z
      then Err (BoundedLengthExceeded length (MAX_FRAME_BYTES - 4))
      else if (str_len frame <? 4 + length)%Z then Err Truncated
      else
        let* value := ok_or MalformedJson
                        (json_from_slice (String.substring 0 (Z.to_nat length) rest)) in
        from_value value
  | _ => Err Truncated
  end.
End Codec.
