(* ===== verification/GuestLaws.v ===== *)
(** * Laws of the guest message codec

    The big-endian length prefix, the bounds every decoded message respects and
    the round trip of encoded messages, proved against the interface
    [SerdeJsonLaws] of the JSON library. *)

From S2P Require Import Prelude Evaluation Json Codec Text Guest.
From Stdlib Require Import Sorted.

(** ** The length prefix *)

Lemma byte_code_of_Z z : (0 <= z < 256)%Z -> byte_code (Ascii.ascii_of_N (Z.to_N z)) = z.
Proof.
  intros Hz. unfold byte_code. rewrite Ascii.N_ascii_embedding by lia. lia.
Qed.

Lemma byte_code_range c : (0 <= byte_code c <= u8_max)%Z.
Proof.
  unfold byte_code, u8_max. pose proof (Ascii.N_ascii_bounded c). lia.
Qed.

Lemma ascii_of_byte_code c : Ascii.ascii_of_N (Z.to_N (byte_code c)) = c.
Proof. unfold byte_code. rewrite N2Z.id. apply Ascii.ascii_N_embedding. Qed.

Lemma byte_code_at n shift : byte_code (byte_at n shift) = Z.land (Z.shiftr n shift) 255.
Proof.
  apply byte_code_of_Z. change 255%Z with (Z.ones 8). rewrite Z.land_ones by lia.
  apply Z.mod_pos_bound. lia.
Qed.

Lemma testbit_above n i : is_u32 n -> (32 <= i)%Z -> Z.testbit n i = false.
Proof.
  unfold is_u32, u32_max. intros Hn Hi. destruct (Z.eq_dec n 0) as [->|Hne]; [apply Z.bits_0|].
  apply Z.bits_above_log2; [lia|]. assert (Z.log2 n < 32)%Z; [|lia].
  apply Z.log2_lt_pow2; lia.
Qed.

Lemma be_bytes_roundtrip n : is_u32 n ->
  from_be_bytes (byte_at n 24) (byte_at n 16) (byte_at n 8) (byte_at n 0) = n.
Proof.
  intros Hn. unfold from_be_bytes. rewrite !byte_code_at. change 255%Z with (Z.ones 8).
  apply Z.bits_inj'. intros i Hi.
  assert (Hpart : forall k, (0 <= k)%Z ->
    Z.testbit (Z.shiftl (Z.land (Z.shiftr n k) (Z.ones 8)) k) i
    = (k <=? i)%Z && Z.testbit n i && (i <? k + 8)%Z).
  { intros k Hk. rewrite Z.shiftl_spec by lia. destruct (Z.leb_spec k i) as [Hki|Hki]; simpl.
    - rewrite Z.land_spec, Z.shiftr_spec by lia. rewrite Z.testbit_ones_nonneg by lia.
      replace (i - k + k)%Z with i by lia. f_equal.
      destruct (Z.ltb_spec (i - k) 8), (Z.ltb_spec i (k + 8)); lia || done.
    - by apply Z.testbit_neg_r; lia. }
  pose proof (Hpart 0%Z ltac:(lia)) as H0. rewrite Z.shiftl_0_r in H0.
  rewrite !Z.lor_spec, !Hpart, H0 by lia.
  destruct (Z.lt_ge_cases i 32) as [H32|H32]; [|rewrite testbit_above by done; by rewrite !andb_false_r].
  destruct (Z.testbit n i); rewrite ?andb_false_r; [|done].
  destruct (Z.leb_spec 24 i), (Z.leb_spec 16 i), (Z.leb_spec 8 i), (Z.leb_spec 0 i),
    (Z.ltb_spec i (24 + 8)), (Z.ltb_spec i (16 + 8)), (Z.ltb_spec i (8 + 8)),
    (Z.ltb_spec i (0 + 8)); simpl; done || lia.
Qed.

Lemma from_be_bytes_u32 b0 b1 b2 b3 : is_u32 (from_be_bytes b0 b1 b2 b3).
Proof.
  assert (Hshift : forall c k, (0 <= k <= 24)%Z -> (0 <= Z.shiftl (byte_code c) k < 2 ^ 32)%Z).
  { intros c k Hk. pose proof (byte_code_range c) as Hc. unfold u8_max in Hc.
    rewrite Z.shiftl_mul_pow2 by lia.
    assert (2 ^ k <= 2 ^ 24)%Z by (apply Z.pow_le_mono_r; lia).
    assert (0 < 2 ^ k)%Z by (apply Z.pow_pos_nonneg; lia).
    change (2 ^ 32)%Z with (256 * 2 ^ 24)%Z. nia. }
  assert (Hlor : forall x y, (0 <= x < 2 ^ 32)%Z -> (0 <= y < 2 ^ 32)%Z ->
                             (0 <= Z.lor x y < 2 ^ 32)%Z).
  { intros x y Hx Hy. split; [apply Z.lor_nonneg; lia|].
    destruct (Z.eq_dec (Z.lor x y) 0) as [->|Hne]; [lia|].
    apply Z.log2_lt_pow2; [pose proof (proj2 (Z.lor_nonneg x y)); lia|].
    rewrite Z.log2_lor by lia. apply Z.max_lub_lt.
    - destruct (Z.eq_dec x 0) as [->|]; [done|]. apply Z.log2_lt_pow2; lia.
    - destruct (Z.eq_dec y 0) as [->|]; [done|]. apply Z.log2_lt_pow2; lia. }
  assert (Hb3 : (0 <= byte_code b3 < 2 ^ 32)%Z).
  { pose proof (Hshift b3 0%Z ltac:(lia)) as Hb. by rewrite Z.shiftl_0_r in Hb. }
  assert (0 <= from_be_bytes b0 b1 b2 b3 < 2 ^ 32)%Z as Hall.
  { unfold from_be_bytes. repeat apply Hlor; try (apply Hshift; lia); done. }
  unfold is_u32, u32_max. lia.
Qed.

(** ** Sorted sets of strings *)

Definition str_lt (a b : string) : Prop := String.compare a b = Lt.

Lemma str_lt_trans a b c : str_lt a b -> str_lt b c -> str_lt a c.
Proof.
  unfold str_lt. revert b c. induction a as [|x a IH]; intros [|y b] [|z c]; simpl; try done.
  unfold Ascii.compare.
  destruct (N.compare_spec (Ascii.N_of_ascii x) (Ascii.N_of_ascii y)) as [Hxy|Hxy|Hxy],
    (N.compare_spec (Ascii.N_of_ascii y) (Ascii.N_of_ascii z)) as [Hyz|Hyz|Hyz]; try done;
    destruct (N.compare_spec (Ascii.N_of_ascii x) (Ascii.N_of_ascii z)); try lia; eauto.
Qed.

Lemma str_gt_lt a b : String.compare a b = Gt -> str_lt b a.
Proof. unfold str_lt. rewrite String.compare_antisym. by destruct (String.compare b a). Qed.

Lemma btree_insert_sorted v s :
  StronglySorted str_lt s ->
  StronglySorted str_lt (btree_insert v s) /\
  (forall x, x ∈ btree_insert v s -> x = v \/ x ∈ s).
Proof.
  induction 1 as [|x s Hs IH Hx]; simpl.
  { split; [repeat constructor|]. intros x Hx. left. by apply list_elem_of_singleton in Hx. }
  destruct (String.compare v x) eqn:E.
  - split; [by constructor|]. auto.
  - split; [|set_solver]. constructor; [by constructor|]. constructor; [done|].
    eapply Forall_impl; [exact Hx|]. intros y. by apply str_lt_trans.
  - destruct IH as [IHs IHin]. split; [|set_solver]. constructor; [done|].
    apply Forall_forall. intros y [->|Hy]%IHin; [by apply str_gt_lt|].
    by apply (proj1 (Forall_forall _ _) Hx).
Qed.

Lemma btree_collect_sorted l : StronglySorted str_lt (btree_collect l).
Proof.
  unfold btree_collect. assert (Hnil : StronglySorted str_lt []) by constructor.
  revert Hnil. generalize (@nil string) as acc. induction l as [|v l IH]; intros acc Hacc; [done|].
  simpl. apply IH. by apply btree_insert_sorted.
Qed.

Lemma btree_insert_last v s :
  Forall (fun x => str_lt x v) s -> btree_insert v s = s ++ [v].
Proof.
  induction 1 as [|x s Hx _ IH]; simpl; [done|]. unfold str_lt in Hx.
  rewrite String.compare_antisym, Hx. simpl. by rewrite IH.
Qed.

Lemma StronglySorted_app_inv {A} (R : A -> A -> Prop) l v l' :
  StronglySorted R (l ++ v :: l') -> Forall (fun x => R x v) l.
Proof.
  induction l as [|x l IH]; intros Hs; inversion Hs; subst; constructor; [|auto].
  by eapply Forall_elt.
Qed.

Lemma btree_collect_id l : StronglySorted str_lt l -> btree_collect l = l.
Proof.
  unfold btree_collect.
  assert (Happ : forall acc, StronglySorted str_lt (acc ++ l) ->
    fold_left (fun set value => btree_insert value set) l acc = acc ++ l); [|apply (Happ [])].
  induction l as [|v l IH]; intros acc Hs; simpl; [by rewrite app_nil_r|].
  rewrite btree_insert_last by (by eapply StronglySorted_app_inv).
  rewrite (cons_middle v acc l), app_assoc in Hs. rewrite (IH (acc ++ [v]) Hs), <- app_assoc. done.
Qed.

(** The comparison with the [BTreeSet] accepts exactly the strictly sorted
    lists. *)
Lemma is_sorted_unique_iff l : is_sorted_unique l = true <-> StronglySorted str_lt l.
Proof.
  unfold is_sorted_unique. rewrite andb_true_iff, bool_decide_eq_true. split.
  - intros [_ <-]. apply btree_collect_sorted.
  - intros Hs. rewrite btree_collect_id by done. split; [apply Z.eqb_refl | done].
Qed.

(** ** What decoding guarantees *)

Definition within (maximum : Z) (s : string) : Prop := (str_len s <= maximum)%Z.

Definition capabilities_bounded (l : list string) : Prop :=
  (len l <= MAX_CAPABILITIES)%Z /\ StronglySorted str_lt l /\ Forall (within MAX_CAPABILITY_LEN) l.

Definition command_bounded (argv : list string) : Prop :=
  argv <> [] /\ (len argv <= MAX_ARGUMENTS)%Z /\ Forall (within MAX_ARGUMENT_LEN) argv.

(** The bounds on variable-length fields: [path_safe] is left to the writer and
    to the guest's own check. *)
Definition message_bounded (m : Message) : Prop :=
  match m with
  | Negotiate capabilities => capabilities_bounded capabilities
  | UploadInput name digest contents =>
      within MAX_NAME_LEN name /\ within MAX_DIGEST_LEN digest /\
      within MAX_INLINE_BYTES contents
  | UploadAck name _ => within MAX_NAME_LEN name
  | Build argv _ | Run argv _ => command_bounded argv
  | StageOutput _ _ output_digest _ _ diagnostics =>
      within MAX_DIGEST_LEN output_digest /\ (len diagnostics <= MAX_DIAGNOSTICS)%Z /\
      Forall (fun d => within MAX_TYPE_LEN (gd_code d)) diagnostics
  | StageEvidence kind | EvidenceAck kind _ => within MAX_TYPE_LEN kind
  | Negotiated _ | Cancel | Cancelled | Heartbeat | Ack => True
  end.

Lemma all_within_iff field maximum l :
  all_within field maximum l = Ok tt <-> Forall (within maximum) l.
Proof.
  unfold within. induction l as [|s l IH]; simpl; [done|]. rewrite Forall_cons, <- IH.
  destruct (Z.ltb_spec maximum (str_len s)); split; try done.
  - intros [? _]. lia.
  - by intros [_ ?].
Qed.

Lemma validate_capabilities_iff l :
  validate_capabilities l = Ok tt <-> capabilities_bounded l.
Proof.
  unfold validate_capabilities, capabilities_bounded.
  rewrite <- is_sorted_unique_iff, <- (all_within_iff "capability").
  destruct (Z.ltb_spec MAX_CAPABILITIES (len l)); simpl.
  { split; [done|]. intros [? _]. lia. }
  destruct (is_sorted_unique l); simpl; split; try done; [|by intros (_ & ? & _)].
  by intros (_ & _ & ?).
Qed.

Lemma string_field_inv object key maximum s :
  string_field object key maximum = Ok s -> within maximum s.
Proof. unfold string_field, bounds, within. intros H. inv_ok. by split_bools. Qed.

Lemma string_vec_inv object key maximum l :
  string_vec object key maximum = Ok l -> (len l <= maximum)%Z.
Proof.
  unfold string_vec, bounds, len. intros H. inv_ok. apply traverse_length in H.
  split_bools. unfold len in *. lia.
Qed.

Lemma guest_u64_field_inv object key z : u64_field object key = Ok z -> is_u64 z.
Proof.
  unfold u64_field. intros H%ok_or_Ok_inv. apply bind_Some in H as (v & _ & Hv).
  by apply json_as_u64_Some in Hv as [_ ?].
Qed.

Lemma i32_field_inv object key z : i32_field object key = Ok z -> is_i32 z.
Proof. unfold i32_field. intros H. inv_ok. by apply in_range_true in Hguard. Qed.

Lemma byte_field_inv object key s : byte_field object key = Ok s -> within MAX_INLINE_BYTES s.
Proof.
  unfold byte_field, bounds, within. intros H. inv_ok. split_bools.
  match goal with Ht : traverse _ _ = Ok ?l |- _ =>
    apply traverse_length in Ht; unfold str_len, len in *;
    assert (Hlen : String.length (String.string_of_list_ascii l) = length l)
  end; [|lia].
  clear. match goal with |- context [length ?l] => induction l; simpl; auto end.
Qed.

Lemma usage_from_valid v u : usage_from v = Ok u -> valid u.
Proof.
  unfold usage_from. intros H. inv_ok. repeat split; eapply guest_u64_field_inv; eassumption.
Qed.

Lemma diagnostic_from_bounded v d :
  diagnostic_from v = Ok d -> valid d /\ within MAX_TYPE_LEN (gd_code d).
Proof.
  unfold diagnostic_from. intros H. inv_ok. simpl.
  repeat match goal with Hs : string_field _ _ _ = Ok _ |- _ => apply string_field_inv in Hs end.
  split; [|done]. unfold within, str_len in *. unfold valid, valid_guest_diagnostic. simpl. lia.
Qed.

Lemma diagnostics_from_bounded v l :
  diagnostics_from v = Ok l ->
  valid l /\ (len l <= MAX_DIAGNOSTICS)%Z /\ Forall (fun d => within MAX_TYPE_LEN (gd_code d)) l.
Proof.
  unfold diagnostics_from, bounds. intros H. inv_ok. split_bools.
  assert (Hall : Forall (fun d => valid d /\ within MAX_TYPE_LEN (gd_code d)) l).
  { apply traverse_Ok in H. clear -H. induction H; constructor; [|done].
    by eapply diagnostic_from_bounded. }
  apply traverse_length in H. unfold len in *. apply Forall_and in Hall as [Hv Hw].
  split; [exact Hv|]. split; [lia | exact Hw].
Qed.

Lemma readable_command_inv object argv w :
  readable_command object = Ok (argv, w) -> command_bounded argv /\ is_u64 w.
Proof.
  unfold readable_command, bounds. intros H. inv_ok. split_bools.
  match goal with Hw : all_within _ _ _ = Ok ?u |- _ => destruct u; apply all_within_iff in Hw end.
  split; [|by eapply guest_u64_field_inv]. split; [done|]. split; [by eapply string_vec_inv | done].
Qed.

Lemma parse_capabilities_inv object l :
  parse_capabilities object = Ok l -> capabilities_bounded l.
Proof.
  unfold parse_capabilities. intros H. inv_ok.
  match goal with Hv : validate_capabilities _ = Ok ?u |- _ =>
    destruct u; by apply validate_capabilities_iff in Hv end.
Qed.

Create HintDb guest.
#[export] Hint Resolve string_field_inv guest_u64_field_inv i32_field_inv byte_field_inv
  usage_from_valid parse_capabilities_inv : guest.

Lemma message_from_bounded object type_name m :
  message_from object type_name = Ok m -> valid m /\ message_bounded m.
Proof.
  unfold message_from. intros H.
  repeat match type of H with
  | (if ?c then _ else _) = Ok _ => destruct c
  end; try discriminate H; inv_ok; unfold valid, valid_message; simpl; eauto 8 with guest.
  all: repeat match goal with
    | Hx : match ?p with pair _ _ => _ end = Ok _ |- _ => destruct p; inv_ok
    end.
  1,2: match goal with Hc : readable_command _ = Ok _ |- _ =>
         apply readable_command_inv in Hc as [??] end; auto.
  match goal with Hd : diagnostics_from _ = Ok _ |- _ =>
    apply diagnostics_from_bounded in Hd as (?&?&?) end.
  eauto 12 with guest.
Qed.

(** ** Reading what was written *)

Lemma guest_string_field_of fs key maximum s :
  map_get key fs = Some (JString s) -> within maximum s ->
  string_field (map_of fs) key maximum = Ok s.
Proof.
  intros Hk Hw. unfold string_field, get_str. rewrite map_get_of, Hk. simpl.
  by rewrite (proj2 (Z.ltb_ge _ _) Hw).
Qed.

Lemma guest_bool_field_of fs key b :
  map_get key fs = Some (JBool b) -> bool_field (map_of fs) key = Ok b.
Proof. intros Hk. unfold bool_field. by rewrite map_get_of, Hk. Qed.

Lemma guest_u64_field_of fs key z :
  map_get key fs = Some (JInt z) -> is_u64 z -> u64_field (map_of fs) key = Ok z.
Proof.
  intros Hk Hz. unfold u64_field. rewrite map_get_of, Hk.
  cbn [mbind option_bind].
  by rewrite json_as_u64_int.
Qed.

Lemma i32_field_of fs key z :
  map_get key fs = Some (JInt z) -> is_i32 z -> i32_field (map_of fs) key = Ok z.
Proof.
  intros Hk Hz. unfold i32_field. rewrite map_get_of, Hk.
  cbn [mbind option_bind].
  unfold is_i32, i32_min, i32_max in Hz. rewrite json_as_i64_int by (unfold i64_max; lia). simpl.
  by rewrite (proj2 (in_range_true i32_min i32_max z) Hz).
Qed.

Lemma traverse_str l : traverse (fun item => ok_or MalformedJson (json_as_str item)) (map JString l) = Ok l.
Proof. induction l as [|s l IH]; simpl; [done|]. by rewrite IH. Qed.

Lemma string_vec_of fs key maximum l :
  map_get key fs = Some (json_array l) -> (len l <= maximum)%Z ->
  string_vec (map_of fs) key maximum = Ok l.
Proof.
  intros Hk Hl. unfold string_vec, get_array. rewrite map_get_of, Hk. simpl.
  unfold len in *. rewrite length_map, (proj2 (Z.ltb_ge _ _) Hl). apply traverse_str.
Qed.

Lemma byte_from_code c : byte_from (JInt (byte_code c)) = Ok c.
Proof.
  unfold byte_from. pose proof (byte_code_range c) as Hc. unfold u8_max in Hc.
  rewrite json_as_u64_int by (unfold is_u64, u64_max; lia). simpl.
  rewrite (proj2 (Z.ltb_ge u8_max _)) by (unfold u8_max; lia). by rewrite ascii_of_byte_code.
Qed.

Lemma byte_field_of fs key s :
  map_get key fs = Some (json_bytes s) -> within MAX_INLINE_BYTES s ->
  byte_field (map_of fs) key = Ok s.
Proof.
  intros Hk Hs. unfold byte_field, get_array. rewrite map_get_of, Hk. simpl.
  unfold len, within, str_len in *. rewrite length_map.
  replace (length (String.list_ascii_of_string s)) with (String.length s)
    by (clear; induction s; simpl; auto).
  rewrite (proj2 (Z.ltb_ge _ _) Hs).
  assert (Ht : forall l, traverse byte_from (map (fun b => JInt (byte_code b)) l) = Ok l).
  { induction l as [|c l IH]; [done|]. cbn [map traverse]. by rewrite byte_from_code, IH. }
  rewrite Ht. simpl. by rewrite String.string_of_list_ascii_of_string.
Qed.

Lemma usage_from_value u : valid u -> usage_from (usage_value u) = Ok u.
Proof.
  intros (H1 & H2 & H3 & H4). unfold usage_from, usage_value, json_object. cbn [json_as_object ok_or rbind].
  rewrite (guest_u64_field_of _ _ (gu_cpu_time_ms u)), (guest_u64_field_of _ _ (gu_wall_time_ms u)),
    (guest_u64_field_of _ _ (gu_memory_peak_bytes u)), (guest_u64_field_of _ _ (gu_output_bytes u)) by done.
  by destruct u.
Qed.

Lemma diagnostics_from_value l :
  valid l -> (len l <= MAX_DIAGNOSTICS)%Z -> Forall (fun d => within MAX_TYPE_LEN (gd_code d)) l ->
  diagnostics_from (diagnostics_value l) = Ok l.
Proof.
  intros Hv Hl Hc. unfold diagnostics_from, diagnostics_value. cbn [json_as_array ok_or rbind].
  unfold len in *. rewrite length_map, (proj2 (Z.ltb_ge _ _) Hl). clear Hl.
  induction Hv as [|d l Hd _ IH]; [done|]. inversion Hc; subst. cbn [map traverse].
  unfold diagnostic_from at 1, json_object at 1. cbn [json_as_object ok_or rbind].
  rewrite (guest_string_field_of _ _ _ (gd_code d)), (guest_string_field_of _ _ _ (gd_message d)),
    (guest_bool_field_of _ _ (gd_truncated d)); try done.
  - simpl rbind at 1. rewrite IH by done. by destruct d.
  - unfold valid, valid_guest_diagnostic, within, str_len in *. lia.
Qed.

Lemma readable_command_of fs argv w :
  map_get "argv" fs = Some (json_array argv) -> map_get "wall_time_ms" fs = Some (JInt w) ->
  command_bounded argv -> is_u64 w -> readable_command (map_of fs) = Ok (argv, w).
Proof.
  intros Ha Hw (Hne & Hl & Hall) Hu. unfold readable_command.
  rewrite (string_vec_of _ _ _ argv) by done. cbn [rbind].
  rewrite bool_decide_eq_false_2 by done. rewrite (proj2 (all_within_iff _ _ _) Hall). cbn [rbind].
  by rewrite (guest_u64_field_of _ _ w).
Qed.

Lemma parse_capabilities_of fs l :
  map_get "capabilities" fs = Some (json_array l) -> capabilities_bounded l ->
  parse_capabilities (map_of fs) = Ok l.
Proof.
  intros Hk Hl. unfold parse_capabilities. rewrite (string_vec_of _ _ _ l); [|done|apply Hl].
  cbn [rbind]. by rewrite (proj2 (validate_capabilities_iff l) Hl).
Qed.

Definition frame_object (m : Message) (fields : list (string * Json)) : list (string * Json) :=
  [("type", JString (message_type m)); ("version", JString PROTOCOL_VERSION)] ++ fields.

(** The command fields are shared by [Build] and [Run]. *)
Lemma write_command_fields argv w fs :
  write_command argv w = Ok fs -> fs = [("argv", json_array argv); ("wall_time_ms", JInt w)].
Proof. unfold write_command, bounds. intros H. inv_ok. done. Qed.

(** Each field of a literal object is found by evaluation. *)
Ltac read_fields :=
  repeat first
    [ erewrite guest_string_field_of; [|cbn; reflexivity|eassumption]; cbn [rbind]
    | erewrite guest_bool_field_of; [|cbn; reflexivity]; cbn [rbind]
    | erewrite guest_u64_field_of; [|cbn; reflexivity|eassumption]; cbn [rbind]
    | erewrite i32_field_of; [|cbn; reflexivity|eassumption]; cbn [rbind]
    | erewrite byte_field_of; [|cbn; reflexivity|eassumption]; cbn [rbind]
    | erewrite parse_capabilities_of; [|cbn; reflexivity|eassumption]; cbn [rbind]
    | erewrite readable_command_of; [|cbn; reflexivity|cbn; reflexivity|eassumption|eassumption];
      cbn [rbind] ].

Lemma stage_parse_str st : Stage.parse (Stage.as_str st) = Ok st.
Proof. by destruct st. Qed.

Lemma message_from_fields m fs :
  valid m -> message_bounded m -> write_fields m = Ok fs ->
  message_from (map_of (frame_object m fs)) (message_type m) = Ok m.
Proof.
  intros Hv Hb Hw. unfold frame_object.
  destruct m; cbn [write_fields] in Hw; unfold bounds in Hw;
    try (apply write_command_fields in Hw); inv_ok; subst;
    unfold message_from; cbn [message_type String.eqb Ascii.eqb Bool.eqb];
    cbn [message_bounded] in Hb;
    try match type of Hb with _ /\ _ /\ _ => destruct Hb as (? & ? & ?) end;
    read_fields; try reflexivity.
  destruct Hv as (Hexit & Hbytes & Husage & Hdiag). cbn [app].
  erewrite guest_string_field_of; [|cbn; reflexivity|by destruct stage]. cbn [rbind].
  rewrite stage_parse_str. cbn [rbind]. read_fields.
  rewrite !map_get_of. cbn [map_get String.eqb Ascii.eqb Bool.eqb ok_or rbind].
  rewrite usage_from_value by done. cbn [rbind].
  by rewrite diagnostics_from_value.
Qed.

Lemma from_value_fields m fs :
  valid m -> message_bounded m -> write_fields m = Ok fs ->
  from_value (json_object (frame_object m fs)) = Ok m.
Proof.
  intros Hv Hb Hw. unfold from_value, get_str, json_object. cbn [json_as_object ok_or rbind].
  rewrite !map_get_of. cbn [frame_object app map_get String.eqb Ascii.eqb Bool.eqb mbind
    option_bind json_as_str ok_or rbind].
  assert (Hlen : (MAX_TYPE_LEN <? str_len (message_type m))%Z = false) by by destruct m.
  rewrite Hlen. cbn [negb]. by apply message_from_fields.
Qed.

Lemma float_free_object fields :
  forallb (fun kv => float_free (snd kv)) fields = true -> float_free (json_object fields) = true.
Proof. apply map_of_forallb. Qed.

Lemma write_fields_float_free m fs :
  write_fields m = Ok fs -> forallb (fun kv => float_free (snd kv)) fs = true.
Proof.
  assert (Hstr : forall l, forallb float_free (map JString l) = true) by (induction l; done).
  destruct m; cbn [write_fields]; unfold bounds; intros Hw;
    try (apply write_command_fields in Hw); inv_ok; subst; try done.
  - simpl. by rewrite Hstr.
  - simpl. rewrite forallb_map. rewrite andb_true_r. clear. induction (String.list_ascii_of_string _); done.
  - simpl. by rewrite Hstr.
  - simpl. by rewrite Hstr.
  - simpl. rewrite forallb_map, andb_true_r. clear. induction diagnostics as [|d l IH]; [done|].
    cbn [forallb]. rewrite IH, andb_true_r. apply (float_free_object [_; _; _]). done.
Qed.

Section Frames.
Context `{SerdeJsonLaws}.

(** Whatever bytes arrive, a decoded message is well typed and bounded. *)
Lemma decode_bounded frame m : decode frame = Ok m -> valid m /\ message_bounded m.
Proof.
  unfold decode. intros Hd. destruct frame as [|b0 [|b1 [|b2 [|b3 rest]]]]; try discriminate Hd.
  inv_ok. unfold from_value in Hd. inv_ok. by eapply message_from_bounded.
Qed.

(** What [encode] puts on the wire. *)
Lemma encode_inv m frame :
  encode m = Ok frame ->
  exists fs body, write_fields m = Ok fs /\
    json_to_vec (json_object (frame_object m fs)) = Some body /\
    frame = to_be_bytes (str_len body) +:+ body /\ (str_len body + 4 <= MAX_FRAME_BYTES)%Z.
Proof.
  unfold encode. intros He. inv_ok. split_bools.
  match goal with Hu : u64_checked_add _ _ = Some _ |- _ =>
    unfold u64_checked_add in Hu; destruct (_ <=? _)%Z in Hu; [|discriminate Hu];
    injection Hu as <- end.
  match goal with Hu : u32_try_from _ _ = Ok _ |- _ =>
    unfold u32_try_from in Hu; destruct (_ && _)%Z in Hu; [|discriminate Hu];
    injection Hu as <- end.
  eauto 8.
Qed.

Lemma encode_len m frame : encode m = Ok frame -> (str_len frame <= MAX_FRAME_BYTES)%Z.
Proof.
  intros (fs & body & _ & _ & -> & Hlen)%encode_inv. rewrite str_len_app. unfold str_len at 1.
  simpl String.length. lia.
Qed.

Lemma decode_frame body rest v :
  (str_len body + 4 <= MAX_FRAME_BYTES)%Z -> json_from_slice body = Some v ->
  decode (to_be_bytes (str_len body) +:+ body +:+ rest) = from_value v.
Proof.
  intros Hlen Hjson. pose proof (str_len_nonneg body) as Hn. unfold MAX_FRAME_BYTES in Hlen.
  pose proof (str_len_nonneg rest) as Hr.
  assert (Hu : is_u32 (str_len body)) by (unfold is_u32, u32_max; lia).
  set (n := str_len body) in *.
  change (to_be_bytes n +:+ body +:+ rest) with
    (String (byte_at n 24) (String (byte_at n 16) (String (byte_at n 8) (String (byte_at n 0)
      (body +:+ rest))))).
  unfold decode. rewrite be_bytes_roundtrip by done.
  rewrite (proj2 (Z.ltb_ge _ _)) by (unfold usize_saturating_sub, MAX_FRAME_BYTES; lia).
  rewrite (proj2 (Z.ltb_ge _ _)).
  2: { pose proof (str_len_app body rest) as Happ. fold n in Happ. unfold str_len in *.
       cbn [String.length]. lia. }
  subst n.
  unfold str_len. rewrite Nat2Z.id, substring_app, Hjson. done.
Qed.

(** An encoded frame decodes to its message exactly when the message respects
    the bounds the decoder checks; what follows the frame is not looked at. *)
Lemma decode_encode m frame rest :
  valid m -> encode m = Ok frame ->
  (decode (frame +:+ rest) = Ok m <-> message_bounded m).
Proof.
  intros Hv He. split; [by intros [_ ?]%decode_bounded|]. intros Hb.
  apply encode_inv in He as (fs & body & Hw & Hbody & -> & Hlen).
  assert (Happ : (to_be_bytes (str_len body) +:+ body) +:+ rest
                 = to_be_bytes (str_len body) +:+ body +:+ rest) by done.
  rewrite Happ.
  rewrite (decode_frame body rest (json_object (frame_object m fs))); [|done|].
  { by apply from_value_fields. }
  eapply serde_text_roundtrip; [|exact Hbody]. apply float_free_object.
  unfold frame_object. cbn [app forallb]. by apply (write_fields_float_free m).
Qed.
End Frames.
