(* ===== verification/Evaluator.v ===== *)
(** * The host evaluator

    Models [crates/openoj-evaluator/src/lib.rs]: what a guest reports about a
    stage is turned into a domain [StageExecution] by the host, which forms the
    evidence reference and the verdict itself. Unicode case mapping and lossy
    UTF-8 decoding come from the Unicode tables of the standard library: they
    are parameters that agree with the ASCII functions on ASCII text. *)

From S2P Require Import Prelude Value Control Evaluation EvalResult Application Pipeline Codec Text Guest GuestLaws.

Definition EVIDENCE_STDOUT : string := "stdout".
Definition MEDIA_PLAIN_TEXT : string := "text/plain".
Definition GUEST_TIMEOUT_EXIT_CODE : Z := 124.

(** [?] on a [DomainError]. *)
Definition domain_error {A : Type} (r : result DomainError A) : result ApplicationError A :=
  map_err Domain r.

(** ** Usage and diagnostics *)

Definition usage_from_guest (value : GuestUsage) : result ApplicationError ResourceUsage :=
  domain_error (ResourceUsage_new (gu_cpu_time_ms value) (gu_wall_time_ms value)
                  (gu_memory_peak_bytes value) (gu_output_bytes value)).

Section Evaluator.
Context `{UnicodeText}.

Definition diagnostic_from_guest (value : GuestDiagnostic)
    : result ApplicationError Diagnostic :=
  let* code := domain_error (DiagnosticCode_parse (to_uppercase (gd_code value))) in
  domain_error (Diagnostic_new code (gd_message value) (gd_truncated value)).

Definition diagnostics_from_guest (values : list GuestDiagnostic)
    : result ApplicationError (list Diagnostic) :=
  traverse diagnostic_from_guest values.

(** ** Evidence *)

Definition content_digest (guest_digest : string) : result ApplicationError ContentDigest :=
  domain_error (ContentDigest_parse ("sha256:" +:+ guest_digest)).

Definition short_token (digest : string) (maximum : nat) : string :=
  let count := Nat.min (String.length digest) maximum in
  from_utf8_lossy (String.substring 0 count digest).

Definition build_evidence (kind : EvidenceKind) (guest_digest : string) (output_bytes : Z)
    : result ApplicationError EvidenceRef :=
  let* digest := content_digest guest_digest in
  let* artifact_id :=
    domain_error (id_parse ("artifact-" +:+ short_token guest_digest 48)) in
  let* media_type := domain_error (MediaType_parse MEDIA_PLAIN_TEXT) in
  let* artifact :=
    domain_error (ArtifactRef_new artifact_id digest media_type output_bytes Private) in
  let* evidence_id :=
    domain_error (id_parse ("evidence-" +:+ evk_str kind +:+ "-" +:+ short_token guest_digest 32)) in
  Ok {| ev_evidence_id := evidence_id; ev_kind := kind; ev_artifact := Some artifact |}.

Definition stdout_evidence (guest_digest : string) (output_bytes : Z)
    : result ApplicationError EvidenceRef :=
  let* kind := domain_error (EvidenceKind_parse EVIDENCE_STDOUT) in
  build_evidence kind guest_digest output_bytes.

(** ** Verdicts *)

Definition host_check_decision (exit_code : Z) : result ApplicationError Decision :=
  let verdict := if (exit_code =? 0)%Z then Verdict.Accepted else Verdict.WrongAnswer in
  let* score :=
    if (exit_code =? 0)%Z then domain_error (Score_new 1 1) else domain_error (Score_new 0 1) in
  Decision_new verdict score.

Definition stage_verdict (stage : StageKind.t) (exit_code : Z) : Verdict.t :=
  match stage with
  | StageKind.Build => Verdict.CompileError
  | StageKind.Run =>
      if (exit_code =? GUEST_TIMEOUT_EXIT_CODE)%Z then Verdict.TimeLimitExceeded
      else Verdict.RuntimeError
  | StageKind.Prepare | StageKind.Check | StageKind.Aggregate => Verdict.SystemError
  end.

Definition execution_for_stage_output (stage : StageKind.t) (exit_code : Z)
    (guest_digest : string) (output_bytes : Z) (usage : GuestUsage)
    (guest_diagnostics : list GuestDiagnostic) : result ApplicationError StageExecution :=
  let* usage := usage_from_guest usage in
  let* diagnostics := diagnostics_from_guest guest_diagnostics in
  let* evidence :=
    match stage with
    | StageKind.Build | StageKind.Run =>
        let* e := stdout_evidence guest_digest output_bytes in Ok [e]
    | _ => Ok []
    end in
  if (exit_code =? 0)%Z then Ok (ExSucceeded usage diagnostics evidence None)
  else Ok (ExRejected (stage_verdict stage exit_code) usage diagnostics evidence).

End Evaluator.

(** ** What the evaluator promises *)

Lemma hex_is_ascii c : lower_hex_byte c = true -> is_ascii c = true.
Proof.
  unfold lower_hex_byte, is_ascii_digit, is_ascii. intros H. apply Z.ltb_lt.
  apply orb_true_iff in H as [H|H]; apply in_range_true in H; lia.
Qed.

Lemma hex_is_opaque c : lower_hex_byte c = true -> opaque_byte c = true.
Proof.
  unfold lower_hex_byte, opaque_byte, is_ascii_alphanumeric, is_ascii_lowercase. intros H.
  apply orb_true_iff in H as [->|H]; [done|]. apply in_range_true in H.
  rewrite (proj2 (in_range_true 97 122 _)) by lia. by rewrite !orb_true_r.
Qed.

Lemma hex_token_opaque prefix hex maximum limit :
  str_all lower_hex_byte hex = true -> opaque_format prefix = true ->
  (str_len prefix + Z.of_nat maximum <= limit)%Z ->
  opaque_ok limit (prefix +:+ String.substring 0 (Nat.min (String.length hex) maximum) hex) = true.
Proof.
  intros Hhex Hp Hl. destruct prefix as [|c p]; [done|]. unfold opaque_ok. simpl in Hp |- *.
  change (String.append ?a ?b) with (a +:+ b).
  apply andb_true_iff in Hp as [Hc Hp]. rewrite Hc, str_all_app, Hp. simpl.
  apply andb_true_iff. split.
  - apply str_all_substring. eapply str_all_impl; [|exact Hhex]. apply hex_is_opaque.
  - apply Z.leb_le. change (String c (p +:+ ?s)) with (String c p +:+ s). rewrite str_len_app.
    unfold str_len in *. rewrite length_substring by lia. lia.
Qed.

Section EvaluatorSpec.
Context `{UnicodeTextLaws}.

Lemma short_token_hex hex maximum :
  str_all lower_hex_byte hex = true ->
  short_token hex maximum = String.substring 0 (Nat.min (String.length hex) maximum) hex.
Proof.
  intros Hh. unfold short_token. apply from_utf8_lossy_ascii. apply str_all_substring.
  eapply str_all_impl; [|exact Hh]. apply hex_is_ascii.
Qed.

(** The reference an accepted stage output is stored under. *)
Definition stdout_reference (hex : string) (output_bytes : Z) : EvidenceRef :=
  {| ev_evidence_id := MkId ("evidence-stdout-" +:+ String.substring 0 32 hex);
     ev_kind := MkEvidenceKind EVIDENCE_STDOUT;
     ev_artifact := Some
       {| art_artifact_id := MkId ("artifact-" +:+ String.substring 0 48 hex);
          art_digest := MkDigest ("sha256:" +:+ hex);
          art_media_type := MkMediaType MEDIA_PLAIN_TEXT;
          art_size_bytes := output_bytes;
          art_sensitivity := Private |} |}.

Lemma content_digest_iff hex d :
  content_digest hex = Ok d <-> digest_hex_ok hex = true /\ d = MkDigest ("sha256:" +:+ hex).
Proof.
  unfold content_digest, domain_error. split.
  - intros Hd. apply map_err_Ok_inv, ContentDigest_parse_iff in Hd as [-> (h & Hh & Hok)].
    cbn [digest_str] in Hh. by apply app_inj_l in Hh as ->.
  - intros [Hok ->]. rewrite (proj2 (ContentDigest_parse_iff _ (MkDigest ("sha256:" +:+ hex)))); [done|].
    split; [done|]. by exists hex.
Qed.

(** Evidence can be formed exactly for a hexadecimal SHA-256 and a bounded
    size, and it is addressed by that digest. *)
Lemma stdout_evidence_iff hex output_bytes e :
  stdout_evidence hex output_bytes = Ok e <->
  digest_hex_ok hex = true /\ (output_bytes <= MAX_ARTIFACT_BYTES)%Z /\
  e = stdout_reference hex output_bytes.
Proof.
  unfold stdout_evidence.
  change (EvidenceKind_parse EVIDENCE_STDOUT) with (@Ok DomainError _ (MkEvidenceKind EVIDENCE_STDOUT)).
  cbn [domain_error map_err rbind]. unfold build_evidence. split.
  - intros He. apply rbind_Ok_inv in He as (d & Hd & He).
    apply content_digest_iff in Hd as [Hok ->]. pose proof Hok as Hok'.
    unfold digest_hex_ok in Hok'. split_bools. revert He. rewrite !short_token_hex by done.
    match goal with Hl : str_len hex = 64%Z |- _ => unfold str_len in Hl; rename Hl into Hlen end.
    replace (Nat.min (String.length hex) 48) with 48%nat by lia.
    replace (Nat.min (String.length hex) 32) with 32%nat by lia. intros He. inv_ok.
    unfold domain_error in *.
    repeat match goal with
    | Hx : map_err _ _ = Ok _ |- _ => apply map_err_Ok_inv in Hx
    | Hx : id_parse _ = Ok _ |- _ => apply id_parse_iff in Hx as [-> _]
    | Hx : MediaType_parse _ = Ok _ |- _ => apply MediaType_parse_iff in Hx as [-> _]
    end.
    unfold ArtifactRef_new in *. inv_ok. split_bools. split; [done|]. by split.
  - intros (Hok & Hsize & ->). pose proof Hok as Hok'. unfold digest_hex_ok in Hok'. split_bools.
    match goal with Hl : str_len hex = 64%Z |- _ => unfold str_len in Hl; rename Hl into Hlen end.
    rewrite (proj2 (content_digest_iff hex _) (conj Hok eq_refl)). cbn [rbind].
    rewrite !short_token_hex by done.
    assert (Hid : forall (k : IdKind) prefix maximum,
      opaque_format prefix = true -> (str_len prefix + Z.of_nat maximum <= 64)%Z ->
      @id_parse k (prefix +:+ String.substring 0 (Nat.min (String.length hex) maximum) hex)
      = Ok (MkId (prefix +:+ String.substring 0 (Nat.min (String.length hex) maximum) hex))).
    { intros k prefix maximum Hp Hm. apply id_parse_iff. split; [done|].
      by apply hex_token_opaque. }
    rewrite Hid by done. cbn [domain_error map_err rbind].
    change (MediaType_parse MEDIA_PLAIN_TEXT) with (@Ok DomainError _ (MkMediaType MEDIA_PLAIN_TEXT)).
    cbn [map_err rbind]. unfold ArtifactRef_new. rewrite (proj2 (Z.ltb_ge _ _)) by done.
    cbn [map_err rbind]. unfold evk_str, EVIDENCE_STDOUT.
    change ("evidence-" +:+ "stdout" +:+ "-" +:+ ?s) with ("evidence-stdout-" +:+ s).
    rewrite Hid by done. cbn [map_err rbind].
    replace (Nat.min (String.length hex) 48) with 48%nat by lia.
    by replace (Nat.min (String.length hex) 32) with 32%nat by lia.
Qed.

Definition host_usage (u : GuestUsage) : ResourceUsage :=
  MkUsage (gu_cpu_time_ms u) (gu_wall_time_ms u) (gu_memory_peak_bytes u) (gu_output_bytes u).

Definition host_diagnostic (d : GuestDiagnostic) : Diagnostic :=
  MkDiagnostic (MkCode (to_uppercase (gd_code d))) (gd_message d) (gd_truncated d).

(** The guest reports the host accepts. *)
Definition diagnostic_admissible (d : GuestDiagnostic) : Prop :=
  valid (MkCode (to_uppercase (gd_code d))) /\
  (char_count (gd_message d) <= MAX_DIAGNOSTIC_MESSAGE_LENGTH)%Z.

Definition runs_in_guest (stage : StageKind.t) : bool :=
  match stage with
  | StageKind.Build | StageKind.Run => true
  | _ => false
  end.

Definition report_admissible (stage : StageKind.t) (hex : string) (output_bytes : Z)
    (usage : GuestUsage) (diagnostics : list GuestDiagnostic) : Prop :=
  valid (host_usage usage) /\ Forall diagnostic_admissible diagnostics /\
  (runs_in_guest stage = true ->
   digest_hex_ok hex = true /\ (output_bytes <= MAX_ARTIFACT_BYTES)%Z).

(** What an admissible report stands for. *)
Definition host_execution (stage : StageKind.t) (exit_code : Z) (hex : string)
    (output_bytes : Z) (usage : GuestUsage) (diagnostics : list GuestDiagnostic)
    : StageExecution :=
  let evidence := if runs_in_guest stage then [stdout_reference hex output_bytes] else [] in
  if (exit_code =? 0)%Z
  then ExSucceeded (host_usage usage) (map host_diagnostic diagnostics) evidence None
  else ExRejected (stage_verdict stage exit_code) (host_usage usage)
         (map host_diagnostic diagnostics) evidence.

Lemma usage_from_guest_iff u r :
  usage_from_guest u = Ok r <-> r = host_usage u /\ valid (host_usage u).
Proof.
  unfold usage_from_guest, domain_error. split.
  - intros Hr. apply map_err_Ok_inv, ResourceUsage_new_iff in Hr as [-> Hv]. done.
  - intros [-> Hv]. by rewrite (proj2 (ResourceUsage_new_iff _ _ _ _ (host_usage u))).
Qed.

Lemma diagnostic_from_guest_iff d r :
  diagnostic_from_guest d = Ok r <-> r = host_diagnostic d /\ diagnostic_admissible d.
Proof.
  unfold diagnostic_from_guest, domain_error, diagnostic_admissible. split.
  - intros Hr. inv_ok.
    match goal with Hc : DiagnosticCode_parse _ = Ok _ |- _ =>
      apply DiagnosticCode_parse_iff in Hc as [-> Hv] end.
    apply Diagnostic_new_iff in Hr as [-> Hl]. done.
  - intros [-> [Hv Hl]].
    rewrite (proj2 (DiagnosticCode_parse_iff _ (MkCode (to_uppercase (gd_code d))))) by done.
    cbn [map_err rbind]. by rewrite (proj2 (Diagnostic_new_iff _ _ _ (host_diagnostic d))).
Qed.

Lemma diagnostics_from_guest_iff ds r :
  diagnostics_from_guest ds = Ok r <-> r = map host_diagnostic ds /\ Forall diagnostic_admissible ds.
Proof.
  unfold diagnostics_from_guest. rewrite traverse_Ok. split.
  - induction 1 as [|d x ds xs Hd _ [-> IH]]; [done|].
    apply diagnostic_from_guest_iff in Hd as [-> Hd]. split; [done | by constructor].
  - intros [-> Hall]. induction Hall as [|d ds Hd _ IH]; constructor; [|done].
    by apply diagnostic_from_guest_iff.
Qed.

(** [execution_for_stage_output] succeeds exactly on the admissible reports and
    then computes [host_execution]. *)
Lemma execution_iff stage exit_code hex output_bytes usage diagnostics x :
  execution_for_stage_output stage exit_code hex output_bytes usage diagnostics = Ok x <->
  report_admissible stage hex output_bytes usage diagnostics /\
  x = host_execution stage exit_code hex output_bytes usage diagnostics.
Proof.
  unfold execution_for_stage_output, report_admissible, host_execution. split.
  - intros Hx. apply rbind_Ok_inv in Hx as (u & Hu & Hx).
    apply usage_from_guest_iff in Hu as [-> Hu].
    apply rbind_Ok_inv in Hx as (ds & Hds & Hx).
    apply diagnostics_from_guest_iff in Hds as [-> Hds].
    apply rbind_Ok_inv in Hx as (es & Hes & Hx).
    assert (Hev : es = (if runs_in_guest stage then [stdout_reference hex output_bytes] else []) /\
                  (runs_in_guest stage = true ->
                   digest_hex_ok hex = true /\ (output_bytes <= MAX_ARTIFACT_BYTES)%Z)).
    { destruct stage; simpl; try (injection Hes as <-; by split);
        apply rbind_Ok_inv in Hes as (e & He & [= <-]);
        apply stdout_evidence_iff in He as (? & ? & ->); by split. }
    destruct Hev as [-> Hev]. split; [by split|].
    destruct (exit_code =? 0)%Z; by injection Hx as <-.
  - intros [(Hu & Hds & Hev) ->].
    rewrite (proj2 (usage_from_guest_iff _ _) (conj eq_refl Hu)). cbn [rbind].
    rewrite (proj2 (diagnostics_from_guest_iff _ _) (conj eq_refl Hds)). cbn [rbind].
    destruct stage; simpl in Hev |- *; try (by destruct (exit_code =? 0)%Z);
      destruct (Hev eq_refl) as [Hok Hsize];
      rewrite (proj2 (stdout_evidence_iff hex output_bytes _)
                 (conj Hok (conj Hsize eq_refl))); by destruct (exit_code =? 0)%Z.
Qed.

Lemma host_check_decision_total exit_code :
  exists d, host_check_decision exit_code = Ok d /\ valid d /\
    (dec_verdict d = Verdict.Accepted <-> exit_code = 0%Z).
Proof.
  unfold host_check_decision. destruct (Z.eqb_spec exit_code 0) as [->|Hne].
  - exists (MkDecision Verdict.Accepted (MkScore 1 1)). split; [done|]. split; [|done].
    split; [by left|]. unfold valid, valid_score. simpl. unfold u32_max. lia.
  - exists (MkDecision Verdict.WrongAnswer (MkScore 0 1)). split; [done|]. split; [|done].
    split; [by right|]. unfold valid, valid_score. simpl. unfold u32_max. lia.
Qed.
End EvaluatorSpec.
