(* ===== verification/Effects.v ===== *)
(** * Effectful computations

    The adapters around the core (processes, sockets, guest channels) are
    modelled as functions over the state of everything they touch, which return
    a Rust [Result] and the next state. *)

From S2P Require Import Prelude.

Definition Eff (S E A : Type) : Type := S -> result E A * S.

Section Eff.
Context {S E : Type}.

Definition eff_ret {A} (a : A) : Eff S E A := fun s => (Ok a, s).
Definition eff_fail {A} (e : E) : Eff S E A := fun s => (Err e, s).
Definition eff_lift {A} (r : result E A) : Eff S E A := fun s => (r, s).
Definition eff_get : Eff S E S := fun s => (Ok s, s).
Definition eff_modify (f : S -> S) : Eff S E unit := fun s => (Ok tt, f s).

(** [m?] and then [k]. *)
Definition eff_bind {A B} (m : Eff S E A) (k : A -> Eff S E B) : Eff S E B := fun s =>
  match m s with
  | (Ok a, s') => k a s'
  | (Err e, s') => (Err e, s')
  end.

(** [m.map_err(f)]. *)
Definition eff_map_err {F A} (f : F -> E) (m : Eff S F A) : Eff S E A := fun s =>
  match m s with
  | (r, s') => (map_err f r, s')
  end.

(** [let r = m; k(r)]: the result is inspected, not propagated. *)
Definition eff_then {F A B} (m : Eff S F A) (k : result F A -> Eff S E B) : Eff S E B := fun s =>
  match m s with
  | (r, s') => k r s'
  end.
End Eff.

Declare Scope eff_scope.
Delimit Scope eff_scope with eff.
#[global] Open Scope eff_scope.

Notation "'io*' x ':=' m 'in' k" := (eff_bind m (fun x => k))
  (at level 10, x pattern, m at level 100, k at level 200)
  : eff_scope.
Notation "'run*' m 'in' k" := (eff_bind m (fun _ : unit => k))
  (at level 10, m at level 100, k at level 200)
  : eff_scope.

(** An operation that keeps an invariant and relates its end state to its start
    state, on every outcome. *)
Definition eff_spec {S E A : Type} (P : S -> Prop) (m : Eff S E A)
    (Q : S -> result E A -> S -> Prop) : Prop :=
  forall s, P s -> Q s (fst (m s)) (snd (m s)).

Section EffLemmas.
Context {S E : Type}.

Lemma eff_bind_Ok {A B} (m : Eff S E A) (k : A -> Eff S E B) s b s' :
  eff_bind m k s = (Ok b, s') <-> exists a s1, m s = (Ok a, s1) /\ k a s1 = (Ok b, s').
Proof.
  unfold eff_bind. destruct (m s) as [[a|e] s1]; split.
  - eauto.
  - by intros (? & ? & [= -> ->] & ?).
  - done.
  - by intros (? & ? & ? & _).
Qed.

(** A relation kept by the parts of a sequence is kept by the sequence. *)
Lemma eff_bind_keeps {A B} (R : S -> S -> Prop) (m : Eff S E A) (k : A -> Eff S E B) :
  (forall s1 s2 s3, R s1 s2 -> R s2 s3 -> R s1 s3) ->
  (forall s, R s (snd (m s))) -> (forall a s, R s (snd (k a s))) ->
  forall s, R s (snd (eff_bind m k s)).
Proof.
  intros Htrans Hm Hk s. unfold eff_bind. specialize (Hm s).
  destruct (m s) as [[a|e] s1]; simpl in *; [|done]. by eapply Htrans.
Qed.
End EffLemmas.
