(* ===== verification/Firecracker.v ===== *)
(** * MicroVM configuration and lifecycle

    Models [crates/openoj-firecracker/src/config.rs] and [lifecycle.rs]: the
    bounded configuration of a microVM, the errors of the crate and the
    lifecycle state machine every VM goes through. A [PathBuf] is its bytes. *)

From S2P Require Import Prelude Text.

Definition MIN_MEMORY_MIB : Z := 64.
Definition MAX_MEMORY_MIB : Z := 65536.
Definition MIN_VCPUS : Z := 1.
Definition MAX_VCPUS : Z := 255.
Definition DEFAULT_GUEST_CID : Z := 3.
Definition MIN_GUEST_CID : Z := 3.
Definition DEFAULT_GUEST_PORT : Z := 8266.
Definition MIN_GUEST_PORT : Z := 1.
Definition MAX_GUEST_PORT : Z := 65535.

Module FirecrackerError.
Inductive t : Type :=
  | OutOfRange (field : string) (minimum maximum actual : Z)
  | NonAbsolutePath (field : string)
  | MissingDigest (field : string)
  | MissingJailer
  | InvalidResourceLimit (field : string)
  | ProductionRequiresJailer
  | ControlApi (status : Z) (detail : string)
  | Io (message : string).

#[global] Instance eq_dec : EqDecision t.
Proof. solve_decision. Defined.

(** [Display]. *)
Definition text (error : t) : string :=
  match error with
  | OutOfRange field minimum maximum actual =>
      field +:+ " must be within " +:+ decimal minimum +:+ "..=" +:+ decimal maximum
      +:+ ", got " +:+ decimal actual
  | NonAbsolutePath field => field +:+ " must be an absolute path"
  | MissingDigest field => field +:+ " image digest is required"
  | MissingJailer => "jailer binary path is required"
  | InvalidResourceLimit field => "resource limit " +:+ field +:+ " is inconsistent"
  | ProductionRequiresJailer => "production profile requires jailer isolation"
  | ControlApi status detail =>
      "Firecracker control API returned " +:+ decimal status +:+ ": " +:+ detail
  | Io message => "I/O error: " +:+ message
  end.
End FirecrackerError.

(** ** Configuration *)

Definition fc_require_range (field : string) (actual minimum maximum : Z)
    : result FirecrackerError.t unit :=
  if negb (in_range minimum maximum actual)
  then Err (FirecrackerError.OutOfRange field minimum maximum actual)
  else Ok tt.

(** [Path::is_absolute] on Unix. *)
Definition is_absolute (path : string) : bool := String.prefix "/" path.

Definition require_absolute (path field : string) : result FirecrackerError.t unit :=
  if negb (is_absolute path) then Err (FirecrackerError.NonAbsolutePath field) else Ok tt.

Record MachineConfig : Type := MkMachineConfig { mc_vcpu_count : Z; mc_mem_size_mib : Z }.

Definition MachineConfig_new (vcpu_count mem_size_mib : Z)
    : result FirecrackerError.t MachineConfig :=
  try* fc_require_range "vcpu_count" vcpu_count MIN_VCPUS MAX_VCPUS in
  try* fc_require_range "mem_size_mib" mem_size_mib MIN_MEMORY_MIB MAX_MEMORY_MIB in
  Ok (MkMachineConfig vcpu_count mem_size_mib).

#[export] Instance valid_machine_config : Valid MachineConfig := fun m =>
  (MIN_VCPUS <= mc_vcpu_count m <= MAX_VCPUS)%Z /\
  (MIN_MEMORY_MIB <= mc_mem_size_mib m <= MAX_MEMORY_MIB)%Z.

Record ResourceLimits : Type := MkResourceLimits {
  rl_cpu_quota_us : option Z;
  rl_cpu_period_us : option Z;
  rl_memory_bytes : option Z;
  rl_pids_max : option Z
}.

Definition ResourceLimits_validate (limits : ResourceLimits)
    : result FirecrackerError.t unit :=
  match rl_cpu_quota_us limits, rl_cpu_period_us limits with
  | Some _, None => Err (FirecrackerError.InvalidResourceLimit "cpu")
  | Some _, Some period =>
      if (period =? 0)%Z then Err (FirecrackerError.InvalidResourceLimit "cpu") else Ok tt
  | None, _ => Ok tt
  end.

Record VsockConfig : Type := MkVsockConfig { vc_guest_cid : Z; vc_port : Z }.

Definition VsockConfig_new (guest_cid port : Z) : result FirecrackerError.t VsockConfig :=
  try* fc_require_range "guest_cid" guest_cid MIN_GUEST_CID u32_max in
  try* fc_require_range "port" port MIN_GUEST_PORT MAX_GUEST_PORT in
  Ok (MkVsockConfig guest_cid port).

#[export] Instance valid_vsock_config : Valid VsockConfig := fun v =>
  (MIN_GUEST_CID <= vc_guest_cid v <= u32_max)%Z /\
  (MIN_GUEST_PORT <= vc_port v <= MAX_GUEST_PORT)%Z.

(** [FirecrackerConfigParts] and [FirecrackerConfig] have the same fields. *)
Record FirecrackerConfig : Type := MkFirecrackerConfig {
  fc_kernel_path : string;
  fc_kernel_digest : string;
  fc_rootfs_path : string;
  fc_rootfs_digest : string;
  fc_boot_args : string;
  fc_machine : MachineConfig;
  fc_limits : ResourceLimits;
  fc_vsock : VsockConfig;
  fc_vsock_uds_path : string;
  fc_jailer_path : option string
}.

Definition FirecrackerConfig_from_parts (parts : FirecrackerConfig)
    : result FirecrackerError.t FirecrackerConfig :=
  try* require_absolute (fc_kernel_path parts) "kernel_path" in
  try* require_absolute (fc_rootfs_path parts) "rootfs_path" in
  if is_empty (fc_kernel_digest parts) then Err (FirecrackerError.MissingDigest "kernel")
  else if is_empty (fc_rootfs_digest parts) then Err (FirecrackerError.MissingDigest "rootfs")
  else
    try* ResourceLimits_validate (fc_limits parts) in
    try* match fc_jailer_path parts with
         | Some path => require_absolute path "jailer_path"
         | None => Ok tt
         end in
    try* require_absolute (fc_vsock_uds_path parts) "vsock_uds_path" in
    Ok parts.

(** ** The lifecycle *)

Module VmPhase.
Inductive t : Type :=
  | Idle | Launching | Configuring | Started | Running | Terminating | Terminated | Failed.

#[global] Instance eq_dec : EqDecision t.
Proof. solve_decision. Defined.

(** [Display]. *)
Definition text (p : t) : string :=
  match p with
  | Idle => "idle"
  | Launching => "launching"
  | Configuring => "configuring"
  | Started => "started"
  | Running => "running"
  | Terminating => "terminating"
  | Terminated => "terminated"
  | Failed => "failed"
  end.

Definition is_terminal (p : t) : bool :=
  match p with
  | Terminated | Failed => true
  | _ => false
  end.

Definition needs_teardown (p : t) : bool :=
  match p with
  | Launching | Configuring | Started | Running | Terminating | Failed => true
  | Idle | Terminated => false
  end.

Definition can_communicate (p : t) : bool :=
  match p with
  | Started | Running => true
  | _ => false
  end.
End VmPhase.

Module TeardownReason.
Inductive t : Type := UnexpectedExit | ControlApi | GuestStage | Cancelled | ResourceLimit.
End TeardownReason.

Record Lifecycle : Type := MkLifecycle {
  lc_phase : VmPhase.t;
  lc_teardowns : Z;
  lc_reason : option TeardownReason.t
}.

Definition Lifecycle_new : Lifecycle := MkLifecycle VmPhase.Idle 0 None.

Definition set_phase (phase : VmPhase.t) (lc : Lifecycle) : Lifecycle :=
  MkLifecycle phase (lc_teardowns lc) (lc_reason lc).

(** The operations return the unchanged lifecycle with the refusing phase. *)
Definition LifecycleOp : Type := Lifecycle -> result VmPhase.t unit * Lifecycle.

Definition ALLOWED : list (VmPhase.t * VmPhase.t) :=
  [(VmPhase.Idle, VmPhase.Launching); (VmPhase.Launching, VmPhase.Configuring);
   (VmPhase.Configuring, VmPhase.Started); (VmPhase.Started, VmPhase.Running);
   (VmPhase.Running, VmPhase.Terminating); (VmPhase.Started, VmPhase.Terminating);
   (VmPhase.Configuring, VmPhase.Terminating); (VmPhase.Launching, VmPhase.Terminating)].

Definition transition (target : VmPhase.t) : LifecycleOp := fun lc =>
  if negb (bool_decide ((lc_phase lc, target) ∈ ALLOWED))
  then (Err (lc_phase lc), lc)
  else (Ok tt, set_phase target lc).

Definition launch : LifecycleOp := transition VmPhase.Launching.

(** The three steps that test for their one predecessor. *)
Definition advance (source target : VmPhase.t) : LifecycleOp := fun lc =>
  if negb (bool_decide (lc_phase lc = source)) then (Err (lc_phase lc), lc)
  else (Ok tt, set_phase target lc).

Definition configuring : LifecycleOp := advance VmPhase.Launching VmPhase.Configuring.
Definition start : LifecycleOp := advance VmPhase.Configuring VmPhase.Started.
Definition running : LifecycleOp := advance VmPhase.Started VmPhase.Running.

Definition fail_with (reason : TeardownReason.t) (lc : Lifecycle) : Lifecycle :=
  MkLifecycle VmPhase.Failed (lc_teardowns lc) (Some reason).

(** [u32 += 1] as compiled without overflow checks. *)
Definition u32_wrapping_succ (n : Z) : Z := ((n + 1) mod (u32_max + 1))%Z.

Definition teardown : LifecycleOp := fun lc =>
  match lc_phase lc with
  | VmPhase.Idle =>
      (Ok tt, MkLifecycle VmPhase.Terminated (u32_wrapping_succ (lc_teardowns lc)) (lc_reason lc))
  | VmPhase.Launching | VmPhase.Configuring | VmPhase.Started | VmPhase.Running
  | VmPhase.Failed =>
      (Ok tt, MkLifecycle VmPhase.Terminating (u32_wrapping_succ (lc_teardowns lc)) (lc_reason lc))
  | VmPhase.Terminating =>
      (Ok tt, MkLifecycle VmPhase.Terminating (u32_wrapping_succ (lc_teardowns lc)) (lc_reason lc))
  | VmPhase.Terminated => (Err VmPhase.Terminated, lc)
  end.

Definition reclaimed (lc : Lifecycle) : Lifecycle := set_phase VmPhase.Terminated lc.
