(* ===== verification/HttpApi.v ===== *)
(** * The Firecracker control client

    Models [crates/openoj-firecracker/src/api.rs]: the request text, the bounded
    byte-by-byte reader of one HTTP response and its status and body. The socket
    is a parameter: it yields the bytes the peer sends and tells whether it then
    closes or stays silent until the timeout. *)

From S2P Require Import Prelude Codec Text Effects Firecracker.

Definition MAX_API_BODY : Z := 65536.
Definition MAX_HEADER : Z := 16384.

(** The bytes still to come from the peer; when they run out, [peer_closed]
    tells an end of file from silence. *)
Record Stream : Type := MkStream { peer_bytes : bytes; peer_closed : bool }.

(** How a read ends without an answer. *)
Inductive ReadError : Type :=
  | ReadFailed (message : string)
  | ReadTimeout.

Definition end_of_stream (s : Stream) : ReadError :=
  if peer_closed s then ReadFailed "early eof" else ReadTimeout.

(** [BoundedReader::push]. *)
Definition push (maximum : Z) (buffer : bytes) (byte : Ascii.ascii) : result ReadError bytes :=
  if (maximum <=? str_len buffer)%Z then Err (ReadFailed "response exceeds bound")
  else Ok (buffer +:+ String byte EmptyString).

Definition HEAD_END : string := CRLF +:+ CRLF.

(** [buffer.windows(4).position(|window| window == b"\r\n\r\n")]. *)
Fixpoint head_end (buffer : bytes) : option nat :=
  if String.prefix HEAD_END buffer then Some 0
  else
    match buffer with
    | EmptyString => None
    | String _ buffer' => option_map S (head_end buffer')
    end.

Definition header_done (buffer : bytes) : bool :=
  match head_end buffer with Some _ => true | None => false end.

(** The first loop of [read_response]: the buffer it stops with, whether the
    headers were complete, and the rest of the stream. *)
Fixpoint read_head (maximum : Z) (closed : bool) (input buffer : bytes)
    : result ReadError (bytes * bool * bytes) :=
  match input with
  | EmptyString => Err (end_of_stream (MkStream EmptyString closed))
  | String byte input' =>
      let* buffer := push maximum buffer byte in
      if header_done buffer then Ok (buffer, true, input')
      else if (MAX_HEADER <? str_len buffer)%Z then Ok (buffer, false, input')
      else read_head maximum closed input' buffer
  end.

(** The second loop, for [remaining] bytes. *)
Fixpoint read_body (maximum : Z) (closed : bool) (remaining : nat) (input buffer : bytes)
    : result ReadError bytes :=
  match remaining with
  | O => Ok buffer
  | S remaining' =>
      match input with
      | EmptyString => Err (end_of_stream (MkStream EmptyString closed))
      | String byte input' =>
          let* buffer := push maximum buffer byte in
          read_body maximum closed remaining' input' buffer
      end
  end.

Section HttpApi.
Context `{UnicodeText}.

(** [find_map] over the header lines. *)
Fixpoint content_length (lines : list string) : option Z :=
  match lines with
  | [] => None
  | line :: rest =>
      match Value.split_once ":" line with
      | Some (name, value) =>
          if eq_ignore_ascii_case name "content-length"
          then match parse_unsigned u64_max (str_trim value) with
               | Some n => Some n
               | None => content_length rest
               end
          else content_length rest
      | None => content_length rest
      end
  end.

Definition read_response (maximum : Z) (s : Stream) : result ReadError bytes :=
  let* (buffer, done, input) := read_head maximum (peer_closed s) (peer_bytes s) EmptyString in
  if negb done then Err (ReadFailed "headers not terminated")
  else
    match content_length (str_lines (from_utf8_lossy buffer)) with
    | None => Ok buffer
    | Some length =>
        if (Z.max 0 (maximum - str_len buffer) <? length)%Z
        then Err (ReadFailed "content-length exceeds bound")
        else read_body maximum (peer_closed s) (Z.to_nat length) input buffer
    end.

Definition status_of (head : bytes) : Z :=
  default 0%Z (
    line ← List.hd_error (str_lines (from_utf8_lossy head));
    code ← nth_error (split_whitespace line) 1;
    parse_unsigned 65535 code).

(** [BoundedReader::finish]; [None] where its slice would panic. *)
Definition finish (buffer : bytes) : option (Z * bytes) :=
  let size := String.length buffer in
  let index := default size (head_end buffer) in
  if Nat.leb (index + 4) size
  then Some (status_of (String.substring 0 index buffer),
             String.substring (index + 4) (size - (index + 4)) buffer)
  else None.

Definition request_text (method target content_type : string) (length : string) : string :=
  method +:+ " " +:+ target +:+ " HTTP/1.1" +:+ CRLF +:+ "Host: firecracker" +:+ CRLF
  +:+ "Content-Type: " +:+ content_type +:+ CRLF +:+ "Content-Length: " +:+ length +:+ CRLF
  +:+ "Connection: close" +:+ CRLF +:+ CRLF.

(** [request] after the bytes were written: the answer of the peer, read and
    judged. [None] would be a panic. *)
Definition response_outcome (s : Stream) : option (result FirecrackerError.t (Z * bytes)) :=
  match read_response MAX_API_BODY s with
  | Err ReadTimeout => Some (Err (FirecrackerError.Io "read response timed out"))
  | Err (ReadFailed message) => Some (Err (FirecrackerError.Io message))
  | Ok buffer =>
      match finish buffer with
      | None => None
      | Some (status, body) =>
          Some (if negb (in_range 200 299 status)
                then Err (FirecrackerError.ControlApi status (from_utf8_lossy body))
                else Ok (status, body))
      end
  end.
End HttpApi.

(** ** What the client promises *)

Lemma head_end_unfold s :
  head_end s = if String.prefix HEAD_END s then Some 0
               else match s with
                    | EmptyString => None
                    | String _ s' => option_map S (head_end s')
                    end.
Proof. by destruct s. Qed.

Lemma head_end_bound s j : head_end s = Some j -> (j + 4 <= String.length s)%nat.
Proof.
  revert j. induction s as [|c s IH]; intros j; rewrite head_end_unfold; [done|].
  destruct (String.prefix HEAD_END (String c s)) eqn:Hp.
  - intros [= <-]. apply prefix_length in Hp. simpl in Hp |- *. lia.
  - destruct (head_end s) as [i|]; [|done]. intros [= <-]. specialize (IH i eq_refl). simpl. lia.
Qed.

(** The end of the head, once seen, does not move when more bytes arrive. *)
Lemma head_end_app s t j : head_end s = Some j -> head_end (s +:+ t) = Some j.
Proof.
  revert j. induction s as [|c s IH]; intros j; rewrite head_end_unfold; [done|].
  rewrite append_cons, (head_end_unfold (String c (s +:+ t))), <- append_cons.
  destruct (String.prefix HEAD_END (String c s)) eqn:Hp; [by rewrite (prefix_app _ _ t Hp)|].
  destruct (head_end s) as [i|] eqn:Hi; [|done]. intros [= <-].
  apply head_end_bound in Hi as Hb.
  rewrite prefix_app_long, Hp by (simpl; lia). by rewrite (IH i eq_refl).
Qed.

Lemma head_end_header_done s j : head_end s = Some j -> header_done s = true.
Proof. unfold header_done. by intros ->. Qed.

Lemma push_Ok maximum buffer byte b :
  push maximum buffer byte = Ok b ->
  b = buffer +:+ String byte EmptyString /\ (str_len b <= maximum)%Z.
Proof.
  unfold push. intros H. inv_ok. split_bools. split; [done|]. rewrite str_len_app.
  unfold str_len in *. simpl. lia.
Qed.

(** Bytes are only moved from the stream to the buffer, up to the bound. *)
Lemma read_head_sound maximum closed input buffer b d rest :
  read_head maximum closed input buffer = Ok (b, d, rest) ->
  (d = true -> header_done b = true) /\ (str_len b <= maximum)%Z /\
  b +:+ rest = buffer +:+ input.
Proof.
  revert buffer. induction input as [|byte input IH]; intros buffer; [done|].
  cbn [read_head]. intros H. apply rbind_Ok_inv in H as (b' & Hb' & H).
  apply push_Ok in Hb' as [-> Hl].
  assert (Happ : (buffer +:+ String byte EmptyString) +:+ input = buffer +:+ String byte input).
  { by rewrite append_assoc. }
  destruct (header_done (buffer +:+ String byte EmptyString)) eqn:Hd; [injection H as <- <- <-; by repeat split|].
  destruct (MAX_HEADER <? _)%Z; [injection H as <- <- <-; by repeat split|].
  apply IH in H as (H1 & H2 & H3). by rewrite H3.
Qed.

Lemma read_body_sound maximum closed remaining input buffer b :
  read_body maximum closed remaining input buffer = Ok b ->
  (str_len buffer <= maximum)%Z ->
  exists body, b = buffer +:+ body /\ String.length body = remaining /\ (str_len b <= maximum)%Z.
Proof.
  revert input buffer. induction remaining as [|n IH]; intros input buffer; cbn [read_body].
  { intros [= <-] Hl. exists EmptyString. by rewrite append_nil_r. }
  destruct input as [|byte input]; [done|]. intros H Hl.
  apply rbind_Ok_inv in H as (b' & Hb' & H). apply push_Ok in Hb' as [-> Hl'].
  destruct (IH _ _ H Hl') as (body & -> & <- & Hb). exists (String byte body).
  rewrite append_assoc in *. done.
Qed.

Lemma read_head_exact maximum closed head more input buffer :
  let full := head +:+ HEAD_END in
  head_end full = Some (String.length head) ->
  (str_len full <= maximum)%Z -> (str_len full <= MAX_HEADER)%Z ->
  buffer +:+ input = full +:+ more -> (String.length buffer < String.length full)%nat ->
  read_head maximum closed input buffer = Ok (full, true, more).
Proof.
  intros full Hend Hmax Hhead. revert buffer.
  induction input as [|byte input IH]; intros buffer Heq Hl.
  { exfalso. apply (f_equal String.length) in Heq. rewrite append_nil_r, length_append in Heq. lia. }
  cbn [read_head]. unfold push.
  rewrite (proj2 (Z.leb_gt _ _)) by (unfold str_len in *; lia). cbn [rbind].
  set (buffer' := buffer +:+ String byte EmptyString).
  assert (Heq' : buffer' +:+ input = full +:+ more) by (subst buffer'; by rewrite append_assoc).
  assert (Hl' : String.length buffer' = S (String.length buffer)).
  { subst buffer'. rewrite length_append. simpl. lia. }
  destruct (append_split _ _ _ _ Heq' ltac:(lia)) as (q & Hq & Hinput).
  destruct q as [|c q].
  - rewrite append_nil_r in Hq. rewrite <- Hq. rewrite (head_end_header_done _ _ Hend).
    by rewrite Hinput.
  - assert (Hnot : header_done buffer' = false).
    { unfold header_done. destruct (head_end buffer') as [j|] eqn:Hj; [|done]. exfalso.
      apply head_end_bound in Hj as Hb. apply (head_end_app _ (String c q)) in Hj.
      rewrite <- Hq, Hend in Hj. injection Hj as Hj.
      apply (f_equal String.length) in Hq. subst full. rewrite !length_append in Hq.
      simpl in Hq. lia. }
    rewrite Hnot. apply (f_equal String.length) in Hq. rewrite (length_append buffer') in Hq.
    simpl in Hq. rewrite (proj2 (Z.ltb_ge _ _)) by (unfold str_len in *; lia).
    apply IH; [done | lia].
Qed.

Lemma read_body_exact maximum closed body rest buffer :
  (str_len buffer + str_len body <= maximum)%Z ->
  read_body maximum closed (String.length body) (body +:+ rest) buffer = Ok (buffer +:+ body).
Proof.
  revert buffer. induction body as [|c body IH]; intros buffer Hl; cbn [String.length read_body].
  { by rewrite append_nil_r. }
  rewrite append_cons. unfold push.
  rewrite (proj2 (Z.leb_gt maximum (str_len buffer))) by (unfold str_len in *; simpl in *; lia).
  cbn [rbind]. rewrite IH; [by rewrite append_assoc|].
  unfold str_len in *. rewrite length_append. simpl in *. lia.
Qed.

Section Responses.
Context `{UnicodeText}.

Lemma finish_exact head body :
  head_end (head +:+ HEAD_END) = Some (String.length head) ->
  finish (head +:+ HEAD_END +:+ body) = Some (status_of head, body).
Proof.
  intros Hend. unfold finish. rewrite <- append_assoc, (head_end_app _ body _ Hend).
  cbn [default]; unfold id. rewrite append_assoc, !length_append.
  change (String.length HEAD_END) with 4%nat.
  rewrite (proj2 (Nat.leb_le _ _)) by lia. f_equal. f_equal; [by rewrite substring_app|].
  rewrite <- append_assoc.
  replace (_ - _)%nat with (String.length body) by lia. apply substring_drop.
  by rewrite length_append.
Qed.

Lemma read_response_sound maximum s b :
  read_response maximum s = Ok b -> header_done b = true /\ (str_len b <= maximum)%Z.
Proof.
  unfold read_response. intros Hr. apply rbind_Ok_inv in Hr as ([[b' d] rest] & Hh & Hr).
  apply read_head_sound in Hh as (Hd & Hl & _). destruct d; [|discriminate Hr]. cbn [negb] in Hr.
  specialize (Hd eq_refl). destruct (content_length _) as [n|]; [|injection Hr as <-; done].
  inv_ok. apply read_body_sound in Hr as (body & -> & _ & Hb); [|done]. split; [|done].
  unfold header_done in *. destruct (head_end b') as [j|] eqn:Hj; [|done].
  by rewrite (head_end_app _ _ _ Hj).
Qed.

(** The slice of [finish] never panics, and only a 2xx answer within the bound
    is a success. *)
Lemma response_sound s :
  exists r, response_outcome s = Some r /\
    match r with
    | Ok (status, body) => (200 <= status <= 299)%Z /\ (str_len body <= MAX_API_BODY)%Z
    | Err _ => True
    end.
Proof.
  unfold response_outcome. destruct (read_response MAX_API_BODY s) as [b|[m|]] eqn:Hr; [|by eexists|by eexists].
  apply read_response_sound in Hr as [Hd Hl]. unfold finish, header_done in *.
  destruct (head_end b) as [i|] eqn:Hi; [|done]. cbn [default]; unfold id. apply head_end_bound in Hi.
  rewrite (proj2 (Nat.leb_le _ _)) by lia. eexists. split; [done|].
  destruct (in_range 200 299 _) eqn:Hin; cbn [negb]; [|done]. apply in_range_true in Hin.
  split; [done|]. unfold str_len in *. rewrite length_substring_tail; lia.
Qed.

(** A complete answer is read exactly: its declared body and not a byte more,
    whatever follows on the stream. *)
Lemma response_exact head body rest closed :
  let full := head +:+ HEAD_END in
  head_end full = Some (String.length head) -> (str_len full <= MAX_HEADER)%Z ->
  content_length (str_lines (from_utf8_lossy full)) = Some (str_len body) ->
  (str_len full + str_len body <= MAX_API_BODY)%Z ->
  response_outcome (MkStream (full +:+ body +:+ rest) closed) =
  Some (if in_range 200 299 (status_of head) then Ok (status_of head, body)
        else Err (FirecrackerError.ControlApi (status_of head) (from_utf8_lossy body))).
Proof.
  intros full Hend Hhead Hlen Hmax. pose proof (str_len_nonneg body) as Hb.
  unfold response_outcome, read_response. cbn [peer_closed peer_bytes].
  assert (Hread : read_head MAX_API_BODY closed (full +:+ body +:+ rest) EmptyString
                  = Ok (full, true, body +:+ rest)).
  { apply read_head_exact; try done; fold full; [lia|].
    subst full. rewrite length_append. simpl. lia. }
  rewrite Hread. cbn [rbind negb]. rewrite Hlen, (proj2 (Z.ltb_ge _ _)) by lia.
  unfold str_len at 1. rewrite Nat2Z.id, read_body_exact by done.
  subst full. rewrite append_assoc, finish_exact by done. by destruct (in_range _ _ _).
Qed.
End Responses.
