(* ===== verification/Host.v ===== *)
(** * The operating system under the adapters

    Processes, files, the clock and sockets are not code of the repository: they
    are the interface [HostOs] over an arbitrary world, with the laws the
    adapters rely on. A failing call reports the text of its [io::Error].
    Processes may exit by themselves at any time; time only advances. *)

From S2P Require Import Prelude Codec Text Effects HttpApi.

(** A loop that has no bound of its own takes fuel; running out of it is told
    from every error of the code. *)
Inductive Halt (E : Type) : Type :=
  | Raised (error : E)
  | OutOfFuel.
Arguments Raised {E} error.
Arguments OutOfFuel {E}.

Class HostOs (W : Type) := {
  (** Processes: [spawn] with program and arguments, [try_wait] telling an exit
      status from none, [kill().await] with [wait().await], and [start_kill],
      which sends the signal and does not wait for it to take effect. *)
  os_spawn : string -> list string -> W -> result string Z * W;
  os_try_wait : Z -> W -> bool * W;
  os_kill_wait : Z -> W -> W;
  os_start_kill : Z -> W -> result string unit * W;
  (** Files. *)
  os_try_exists : string -> W -> result string bool * W;
  os_remove_file : string -> W -> W;
  (** The monotonic clock, in milliseconds. *)
  os_now : W -> Z;
  os_sleep : Z -> W -> W;
  (** Unix stream sockets. [os_exchange] connects, writes a request under a
      timeout and yields what the peer answers. *)
  os_exchange : string -> bytes -> W -> result string Stream * W;
  os_connect : string -> W -> result string Z * W;
  os_set_timeouts : Z -> Z -> W -> result string unit * W;
  os_write_all : Z -> bytes -> W -> result string unit * W;
  os_read : Z -> W -> result string (option Ascii.ascii) * W;
  os_read_exact : Z -> nat -> W -> result string bytes * W;
  (** The processes that are alive, and those a kill signal was sent to that
      nobody has reaped yet: such a process may still be alive. *)
  os_running : W -> gset Z;
  os_killed : W -> gset Z;
  (** How many bytes a stream still yields to [os_read], whose timeout ends the
      wait for a silent peer. *)
  os_backlog : Z -> W -> nat
}.

(** A signal that was sent stays sent as long as its process is alive. *)
Definition signals_kept {W} `{HostOs W} (w w' : W) : Prop :=
  os_running w' ∩ os_killed w ⊆ os_killed w'.

(** No process was started, no signal was lost and time did not go back. *)
Definition quiet {W} `{HostOs W} (w w' : W) : Prop :=
  os_running w' ⊆ os_running w /\ signals_kept w w' /\ (os_now w <= os_now w')%Z.

#[export] Instance quiet_preorder {W} `{HostOs W} : PreOrder quiet.
Proof.
  split; unfold quiet, signals_kept.
  - intros w. split; [done|]. split; [set_solver | lia].
  - intros w1 w2 w3 (? & ? & ?) (? & ? & ?). split; [set_solver|]. split; [set_solver | lia].
Qed.

Class HostOsLaws (W : Type) `{HostOs W} := {
  spawn_law : forall program arguments w,
    signals_kept w (snd (os_spawn program arguments w)) /\
    (os_now w <= os_now (snd (os_spawn program arguments w)))%Z /\
    match os_spawn program arguments w with
    | (Ok pid, w') => os_running w' ⊆ {[pid]} ∪ os_running w
    | (Err _, w') => os_running w' ⊆ os_running w
    end;
  kill_wait_law : forall pid w, quiet w (os_kill_wait pid w) /\ pid ∉ os_running (os_kill_wait pid w);
  (** The signal is refused only for a child that was reaped before. *)
  start_kill_law : forall pid w, quiet w (snd (os_start_kill pid w)) /\
    match os_start_kill pid w with
    | (Ok _, w') => pid ∈ os_running w' -> pid ∈ os_killed w'
    | (Err _, w') => pid ∉ os_running w'
    end;
  try_wait_law : forall pid w, quiet w (snd (os_try_wait pid w));
  try_exists_law : forall path w, quiet w (snd (os_try_exists path w));
  remove_file_law : forall path w, quiet w (os_remove_file path w);
  sleep_law : forall duration w,
    quiet w (os_sleep duration w) /\ (os_now w + duration <= os_now (os_sleep duration w))%Z;
  exchange_law : forall path request w, quiet w (snd (os_exchange path request w));
  connect_law : forall path w, quiet w (snd (os_connect path w));
  set_timeouts_law : forall channel timeout w, quiet w (snd (os_set_timeouts channel timeout w));
  write_all_law : forall channel contents w, quiet w (snd (os_write_all channel contents w));
  read_law : forall channel w, quiet w (snd (os_read channel w)) /\
    match os_read channel w with
    | (Ok (Some _), w') => (os_backlog channel w' < os_backlog channel w)%nat
    | _ => True
    end;
  read_exact_law : forall channel size w, quiet w (snd (os_read_exact channel size w))
}.

Section Loops.
Context {W : Type} `{HostOs W}.

(** [retry_until]: the operation is repeated until it succeeds or the deadline
    is reached, with a pause of at most [poll] in between. *)
Fixpoint retry_loop {A E : Type} (timed_out : E -> E) (fuel : nat) (deadline poll : Z)
    (operation : Eff W (Halt E) A) : Eff W (Halt E) A :=
  match fuel with
  | O => eff_fail OutOfFuel
  | S fuel' => fun w =>
      match operation w with
      | (Ok value, w') => (Ok value, w')
      | (Err OutOfFuel, w') => (Err OutOfFuel, w')
      | (Err (Raised error), w') =>
          let remaining := Z.max 0 (deadline - os_now w') in
          if (remaining =? 0)%Z then (Err (Raised (timed_out error)), w')
          else retry_loop timed_out fuel' deadline poll operation (os_sleep (Z.min poll remaining) w')
      end
  end.

Definition retry_until {A E : Type} (timed_out : E -> E) (fuel : nat) (wait poll : Z)
    (operation : Eff W (Halt E) A) : Eff W (Halt E) A := fun w =>
  retry_loop timed_out fuel (os_now w + wait) poll operation w.

(** Enough fuel for a wait: one iteration per poll interval, and two more. *)
Definition retry_fuel (wait poll : Z) : nat := Z.to_nat (wait / poll) + 2.

Context `{!HostOsLaws W}.

Lemma retry_loop_quiet {A E} (timed_out : E -> E) fuel deadline poll
    (operation : Eff W (Halt E) A) w :
  (forall w, quiet w (snd (operation w))) ->
  quiet w (snd (retry_loop timed_out fuel deadline poll operation w)).
Proof.
  intros Hop. revert w. induction fuel as [|fuel IH]; intros w; [done|]. cbn [retry_loop].
  specialize (Hop w) as Hw. destruct (operation w) as [[a|[e|]] w']; simpl in *; try done.
  destruct (_ =? 0)%Z; [done|]. etrans; [exact Hw|].
  etrans; [apply sleep_law | apply IH].
Qed.

(** The wait ends: with the fuel of [retry_fuel] the loop never runs out of it,
    however long the operation itself takes. *)
Lemma retry_loop_terminates {A E} (timed_out : E -> E) fuel deadline poll
    (operation : Eff W (Halt E) A) w :
  (0 < poll)%Z -> (forall w, quiet w (snd (operation w))) ->
  (forall w, fst (operation w) <> Err OutOfFuel) ->
  (Z.max 0 (deadline - os_now w) <= (Z.of_nat fuel - 1) * poll)%Z ->
  fst (retry_loop timed_out fuel deadline poll operation w) <> Err OutOfFuel.
Proof.
  intros Hpoll Hop Hret. revert w. induction fuel as [|fuel IH]; intros w Hfuel.
  { exfalso. nia. }
  cbn [retry_loop]. pose proof (Hop w) as (_ & _ & Hnow). specialize (Hret w).
  destruct (operation w) as [[a|[e|]] w']; simpl in *; try done.
  destruct (Z.eqb_spec (Z.max 0 (deadline - os_now w')) 0) as [Hz|Hz]; [done|].
  apply IH. destruct (sleep_law (Z.min poll (Z.max 0 (deadline - os_now w'))) w') as [_ Hsleep].
  destruct fuel as [|fuel]; [lia|]. nia.
Qed.

Lemma retry_until_terminates {A E} (timed_out : E -> E) wait poll
    (operation : Eff W (Halt E) A) w :
  (0 < poll)%Z -> (0 <= wait)%Z -> (forall w, quiet w (snd (operation w))) ->
  (forall w, fst (operation w) <> Err OutOfFuel) ->
  fst (retry_until timed_out (retry_fuel wait poll) wait poll operation w) <> Err OutOfFuel.
Proof.
  intros Hpoll Hwait Hop Hret. unfold retry_until, retry_fuel.
  apply retry_loop_terminates; [done|done|done|].
  pose proof (Z.div_mod wait poll ltac:(lia)) as Hdiv.
  pose proof (Z.mod_pos_bound wait poll Hpoll) as Hmod.
  assert (0 <= wait / poll)%Z by (apply Z.div_pos; lia). nia.
Qed.
(** A peer that answers from [ready] on is reached, provided the tries before
    [ready] end within the deadline. *)
Lemma retry_loop_reaches {A E} (timed_out : E -> E) fuel deadline poll ready
    (operation : Eff W (Halt E) A) w :
  (forall w, (ready <= os_now w)%Z -> exists a, fst (operation w) = Ok a) ->
  (forall w, (os_now w < ready)%Z -> (os_now (snd (operation w)) < deadline)%Z) ->
  fst (retry_loop timed_out fuel deadline poll operation w) <> Err OutOfFuel ->
  exists a, fst (retry_loop timed_out fuel deadline poll operation w) = Ok a.
Proof.
  intros Hup Hdown. revert w. induction fuel as [|fuel IH]; intros w Hfuel; [done|].
  cbn [retry_loop] in *. specialize (Hup w). specialize (Hdown w).
  destruct (operation w) as [[a|[e|]] w']; simpl in *; [by eexists| |done].
  destruct (Z.lt_ge_cases (os_now w) ready) as [Hlt|Hge]; [|by destruct (Hup Hge)].
  specialize (Hdown Hlt).
  destruct (Z.eqb_spec (Z.max 0 (deadline - os_now w')) 0) as [Hz|Hz]; [lia|]. by apply IH.
Qed.
End Loops.
