(* ===== verification/Machine.v ===== *)
(** * The microVM and its guest channel

    Models [crates/openoj-firecracker/src/vsock.rs] and [machine.rs]: the
    blocking channel to the guest agent and the handle that owns one firecracker
    or jailer process, drives its control API and reclaims it. Both run over the
    operating system interface [HostOs]; durations are in milliseconds. *)

From S2P Require Import Prelude Json Codec Text Guest Effects Firecracker HttpApi Host.

Definition DEFAULT_READ_TIMEOUT : Z := 15000.
Definition DEFAULT_CONNECT_TIMEOUT : Z := 500.
Definition DEFAULT_CONNECT_WAIT : Z := 10000.
Definition DEFAULT_CONNECT_POLL : Z := 50.
Definition CONNECT_OK_PREFIX : string := "OK ".
Definition SOCKET_WAIT : Z := 10000.
Definition SOCKET_POLL : Z := 50.

(** [String::pop] on a text whose characters are single bytes of the reply. *)
Fixpoint pop (s : string) : string :=
  match s with
  | EmptyString | String _ EmptyString => EmptyString
  | String c s' => String c (pop s')
  end.

(** The range check of a frame's declared length. *)
Definition read_length (length : Z) : result FirecrackerError.t Z :=
  if (usize_saturating_sub MAX_FRAME_BYTES 4 <? length)%Z
  then Err (FirecrackerError.Io ("guest frame length " +:+ decimal length +:+ " exceeds bound "
                                 +:+ decimal MAX_FRAME_BYTES))
  else Ok length.

Definition map_codec (error : CodecError) : FirecrackerError.t :=
  FirecrackerError.Io ("guest message decode failed: " +:+ CodecError_text error).

Record GuestChannel : Type := MkGuestChannel { gc_stream : Z; gc_read_timeout : Z }.

Section Channel.
Context {W : Type} `{HostOs W, SerdeJson}.

(** An operating system call whose error is wrapped in an [Io] message. *)
Definition io_call {A} (context : string) (call : W -> result string A * W)
    : Eff W (Halt FirecrackerError.t) A :=
  eff_map_err (fun error => Raised (FirecrackerError.Io (context +:+ error))) call.

Definition io_lift {A} (r : result FirecrackerError.t A) : Eff W (Halt FirecrackerError.t) A :=
  eff_lift (map_err Raised r).

(** [read_line]; the bytes it collects are the characters of [out]. *)
Fixpoint read_line (fuel : nat) (stream : Z) (previous : Ascii.ascii) (out : string)
    : Eff W (Halt FirecrackerError.t) string :=
  match fuel with
  | O => eff_fail OutOfFuel
  | S fuel' =>
      io* read := io_call "vsock CONNECT reply failed: " (os_read stream) in
      match read with
      | None => eff_ret out
      | Some byte =>
          let out := if Ascii.eqb previous CR && Ascii.eqb byte LF then pop out else out in
          if Ascii.eqb byte LF then eff_ret out
          else read_line fuel' stream byte (out +:+ String byte EmptyString)
      end
  end.

(** [read_line] until the stream has nothing more to yield. *)
Definition read_reply (stream : Z) : Eff W (Halt FirecrackerError.t) string := fun w =>
  read_line (S (os_backlog stream w)) stream LF EmptyString w.

Definition connect (uds_path : string) (port read_timeout : Z)
    : Eff W (Halt FirecrackerError.t) GuestChannel :=
  io* stream := io_call "vsock unix connect failed: " (os_connect uds_path) in
  run* io_call "set vsock CONNECT timeout failed: "
         (os_set_timeouts stream DEFAULT_CONNECT_TIMEOUT) in
  run* io_call "vsock CONNECT write failed: "
         (os_write_all stream ("CONNECT " +:+ decimal port +:+ String LF EmptyString)) in
  io* line := read_reply stream in
  if negb (String.prefix CONNECT_OK_PREFIX line)
  then eff_fail (Raised (FirecrackerError.Io ("vsock CONNECT rejected: " +:+ line)))
  else
    run* io_call "set guest channel timeout failed: " (os_set_timeouts stream read_timeout) in
    eff_ret (MkGuestChannel stream read_timeout).

Definition readiness_timed_out (error : FirecrackerError.t) : FirecrackerError.t :=
  FirecrackerError.Io ("guest channel readiness timed out: " +:+ FirecrackerError.text error).

Definition connect_until_ready (uds_path : string) (port read_timeout : Z)
    : Eff W (Halt FirecrackerError.t) GuestChannel :=
  retry_until readiness_timed_out (retry_fuel DEFAULT_CONNECT_WAIT DEFAULT_CONNECT_POLL)
    DEFAULT_CONNECT_WAIT DEFAULT_CONNECT_POLL (connect uds_path port read_timeout).

Definition send (channel : GuestChannel) (message : Message)
    : Eff W (Halt FirecrackerError.t) unit :=
  io* frame := io_lift (map_err (fun error => FirecrackerError.Io
                 ("guest message codec error: " +:+ CodecError_text error)) (encode message)) in
  io_call "vsock write failed: " (os_write_all (gc_stream channel) frame).

(** The four bytes of a length prefix; [read_exact] returns exactly four. *)
Definition prefix_value (length_buf : bytes) : Z :=
  match length_buf with
  | String b0 (String b1 (String b2 (String b3 EmptyString))) => from_be_bytes b0 b1 b2 b3
  | _ => 0
  end.

Definition recv (channel : GuestChannel) : Eff W (Halt FirecrackerError.t) Message :=
  io* length_buf := io_call "vsock read failed: " (os_read_exact (gc_stream channel) 4) in
  io* length := io_lift (read_length (prefix_value length_buf)) in
  io* body := io_call "vsock read body failed: "
                (os_read_exact (gc_stream channel) (Z.to_nat length)) in
  io_lift (map_err map_codec (decode (length_buf +:+ body))).
End Channel.

(** ** The machine *)

Record FirecrackerVm : Type := MkFirecrackerVm {
  vm_config : FirecrackerConfig;
  vm_lifecycle : Lifecycle;
  vm_firecracker_path : string;
  vm_api_socket : string;
  vm_child : option Z
}.

Definition FirecrackerVm_new (config : FirecrackerConfig) (firecracker_path api_socket : string)
    : FirecrackerVm :=
  MkFirecrackerVm config Lifecycle_new firecracker_path api_socket None.

Definition vm_phase (vm : FirecrackerVm) : VmPhase.t := lc_phase (vm_lifecycle vm).

Definition set_lifecycle (lifecycle : Lifecycle) (vm : FirecrackerVm) : FirecrackerVm :=
  MkFirecrackerVm (vm_config vm) lifecycle (vm_firecracker_path vm) (vm_api_socket vm) (vm_child vm).

Definition set_child (child : option Z) (vm : FirecrackerVm) : FirecrackerVm :=
  MkFirecrackerVm (vm_config vm) (vm_lifecycle vm) (vm_firecracker_path vm) (vm_api_socket vm) child.

Definition vm_fail (reason : TeardownReason.t) (vm : FirecrackerVm) : FirecrackerVm :=
  set_lifecycle (fail_with reason (vm_lifecycle vm)) vm.

Section Machine.
Context {W : Type} `{HostOs W, SerdeJson, UnicodeText}.

(** Methods take [&mut self]: the state is the handle and the world. *)
Definition VmM (A : Type) : Type := Eff (FirecrackerVm * W) (Halt FirecrackerError.t) A.

Definition vm_error {A} (message : string) : VmM A :=
  eff_fail (Raised (FirecrackerError.Io message)).

(** A computation on the world alone. *)
Definition on_world {E A} (m : Eff W E A) : Eff (FirecrackerVm * W) E A := fun '(vm, w) =>
  let '(r, w') := m w in (r, (vm, w')).

Definition on_vm (f : FirecrackerVm -> FirecrackerVm) : VmM unit :=
  eff_modify (fun '(vm, w) => (f vm, w)).

Definition get_vm : VmM FirecrackerVm := fun s => (Ok (fst s), s).

(** A lifecycle step whose refusal becomes an [Io] error. *)
Definition step (op : LifecycleOp) (refused : VmPhase.t -> string) : VmM unit := fun '(vm, w) =>
  let '(r, lifecycle) := op (vm_lifecycle vm) in
  (map_err (fun phase => Raised (FirecrackerError.Io (refused phase))) r,
   (set_lifecycle lifecycle vm, w)).

Definition spawn_command (vm : FirecrackerVm) : result FirecrackerError.t (string * list string) :=
  match fc_jailer_path (vm_config vm) with
  | None => Ok (vm_firecracker_path vm, ["--api-sock"; vm_api_socket vm])
  | Some jailer_path =>
      let* chroot_base := ok_or (FirecrackerError.Io "api socket has no parent")
                            (path_parent (vm_api_socket vm)) in
      let* socket_name := ok_or (FirecrackerError.Io "api socket has no file name")
                            (path_file_name (vm_api_socket vm)) in
      Ok (jailer_path, ["--id"; "openoj"; "--exec-file"; vm_firecracker_path vm;
                        "--chroot-base-dir"; chroot_base; "--"; "--api-sock"; socket_name])
  end.

Definition spawn_failed (vm : FirecrackerVm) : string :=
  match fc_jailer_path (vm_config vm) with
  | None => "spawn firecracker failed: "
  | Some _ => "spawn jailer failed: "
  end.

Definition spawn_process : VmM unit :=
  io* vm := get_vm in
  io* (program, arguments) := eff_lift (map_err Raised (spawn_command vm)) in
  io* child := on_world (io_call (spawn_failed vm) (os_spawn program arguments)) in
  on_vm (set_child (Some child)).

Definition child_finished : Eff (FirecrackerVm * W) (Halt FirecrackerError.t) bool :=
  io* vm := get_vm in
  match vm_child vm with
  | Some child => on_world (fun w => let '(finished, w') := os_try_wait child w in (Ok finished, w'))
  | None => eff_ret true
  end.

Fixpoint wait_loop (fuel : nat) (deadline : Z) : VmM unit :=
  match fuel with
  | O => eff_fail OutOfFuel
  | S fuel' =>
      io* vm := get_vm in
      io* exists_ := on_world (fun w =>
        let '(r, w') := os_try_exists (vm_api_socket vm) w in
        (Ok (match r with Ok b => b | Err _ => false end), w')) in
      if (exists_ : bool) then eff_ret tt
      else
        io* finished := child_finished in
        if (finished : bool) then
          run* on_vm (vm_fail TeardownReason.UnexpectedExit) in
          vm_error "firecracker exited before opening the API socket"
        else
          io* (_, w) := eff_get in
          if (deadline <=? os_now w)%Z then
            run* on_vm (vm_fail TeardownReason.UnexpectedExit) in
            vm_error "timed out waiting for the API socket"
          else
            run* on_world (fun w => (Ok tt, os_sleep SOCKET_POLL w)) in
            wait_loop fuel' deadline
  end.

Definition wait_for_socket : VmM unit :=
  io* (_, w) := eff_get in
  wait_loop (retry_fuel SOCKET_WAIT SOCKET_POLL) (os_now w + SOCKET_WAIT).

(** [api::request] over the socket. *)
Definition request (socket_path method target content_type : string) (body : bytes)
    : Eff W (Halt FirecrackerError.t) (Z * bytes) :=
  io* stream := io_call EmptyString (os_exchange socket_path
    (request_text method target content_type (decimal (str_len body)) +:+ body)) in
  match response_outcome stream with
  | Some outcome => io_lift outcome
  | None => eff_fail (Raised (FirecrackerError.Io "slice out of range"))
  end.

Definition api (method target : string) (value : Json) : VmM unit := fun '(vm, w) =>
  match json_to_vec value with
  | None => (Err (Raised (FirecrackerError.Io "serialize API body failed")), (vm, w))
  | Some body =>
      match request (vm_api_socket vm) method target "application/json" body w with
      | (Ok _, w') => (Ok tt, (vm, w'))
      | (Err error, w') => (Err error, (vm_fail TeardownReason.ControlApi vm, w'))
      end
  end.

Definition put_boot_source : VmM unit :=
  io* vm := get_vm in
  api "PUT" "/boot-source" (json_object [
    ("kernel_image_path", JString (fc_kernel_path (vm_config vm)));
    ("boot_args", JString (fc_boot_args (vm_config vm)))]).

Definition put_root_drive : VmM unit :=
  io* vm := get_vm in
  api "PUT" "/drives/rootfs" (json_object [
    ("drive_id", JString "rootfs");
    ("path_on_host", JString (fc_rootfs_path (vm_config vm)));
    ("is_root_device", JBool true);
    ("is_read_only", JBool true)]).

Definition put_machine_config : VmM unit :=
  io* vm := get_vm in
  api "PUT" "/machine-config" (json_object [
    ("vcpu_count", JInt (mc_vcpu_count (fc_machine (vm_config vm))));
    ("mem_size_mib", JInt (mc_mem_size_mib (fc_machine (vm_config vm))));
    ("smt", JBool false);
    ("track_dirty_pages", JBool false)]).

Definition put_vsock : VmM unit :=
  io* vm := get_vm in
  api "PUT" "/vsock" (json_object [
    ("vsock_id", JString "vsock0");
    ("guest_cid", JInt (vc_guest_cid (fc_vsock (vm_config vm))));
    ("uds_path", JString (fc_vsock_uds_path (vm_config vm)))]).

Definition configure : VmM unit :=
  run* put_boot_source in
  run* put_root_drive in
  run* put_machine_config in
  put_vsock.

Definition vm_start : VmM unit :=
  api "PUT" "/actions" (json_object [("action_type", JString "InstanceStart")]).

Definition bootstrap (production : bool) : VmM unit :=
  run* step launch (fun _ => "lifecycle cannot launch") in
  io* vm := get_vm in
  if production && bool_decide (fc_jailer_path (vm_config vm) = None) then
    run* on_vm (vm_fail TeardownReason.ControlApi) in
    eff_fail (Raised FirecrackerError.ProductionRequiresJailer)
  else
    run* spawn_process in
    run* wait_for_socket in
    run* step configuring (fun _ => "lifecycle cannot configure") in
    run* configure in
    run* vm_start in
    step start (fun _ => "lifecycle cannot start").

Definition open_guest_channel (vm : FirecrackerVm)
    : Eff W (Halt FirecrackerError.t) GuestChannel :=
  if negb (VmPhase.can_communicate (vm_phase vm))
  then eff_fail (Raised (FirecrackerError.Io "guest channel requested before start"))
  else connect_until_ready (fc_vsock_uds_path (vm_config vm))
         (vc_port (fc_vsock (vm_config vm))) DEFAULT_READ_TIMEOUT.

(** The two socket files the machine owns. *)
Definition remove_sockets (vm : FirecrackerVm) (w : W) : W :=
  os_remove_file (fc_vsock_uds_path (vm_config vm)) (os_remove_file (vm_api_socket vm) w).

Definition terminate : VmM unit :=
  io* vm := get_vm in
  if bool_decide (vm_phase vm = VmPhase.Terminated) then eff_ret tt
  else
    run* step teardown (fun phase => "cannot tear down from " +:+ VmPhase.text phase) in
    run* eff_modify (fun '(vm, w) =>
           (set_child None vm,
            match vm_child vm with
            | Some child => os_kill_wait child w
            | None => w
            end)) in
    eff_modify (fun '(vm, w) =>
      (set_lifecycle (reclaimed (vm_lifecycle vm)) vm, remove_sockets vm w)).

(** [Drop]: what is left of the world when the handle goes out of scope. The
    child is signalled, not waited for, and a refusal is ignored. *)
Definition vm_drop (vm : FirecrackerVm) (w : W) : W :=
  if VmPhase.needs_teardown (vm_phase vm) then
    remove_sockets vm (match vm_child vm with
                       | Some child => snd (os_start_kill child w)
                       | None => w
                       end)
  else w.
End Machine.
