(* ===== verification/MachineLaws.v ===== *)
(** * Process ownership of the microVM handle

    Whatever the operating system answers, a [FirecrackerVm] keeps track of the
    one process it started and its bootstrap ends. [terminate] waits for the
    process it killed and leaves none behind; [Drop] only sends the signal, so
    what it leaves running has at least been sent a kill. *)

From S2P Require Import Prelude Json Codec Text Guest Effects Firecracker HttpApi Host Machine.

(** ** Invariants of sequences *)

Definition keeps {S E A} (P : S -> Prop) (m : Eff S E A) : Prop := forall s, P s -> P (snd (m s)).

Lemma keeps_bind {S E A B} (P : S -> Prop) (m : Eff S E A) (k : A -> Eff S E B) :
  keeps P m -> (forall a, keeps P (k a)) -> keeps P (eff_bind m k).
Proof.
  intros Hm Hk s Hs. unfold eff_bind. specialize (Hm s Hs).
  destruct (m s) as [[a|e] s']; simpl in *; [by apply Hk | done].
Qed.

Lemma keeps_if {S E A} (P : S -> Prop) (b : bool) (m n : Eff S E A) :
  keeps P m -> keeps P n -> keeps P (if b then m else n).
Proof. by destruct b. Qed.

Section MachineLaws.
Context {W : Type} `{HostOsLaws W, SerdeJson, UnicodeText}.

Definition owned (vm : FirecrackerVm) : gset Z :=
  match vm_child vm with
  | Some child => {[child]}
  | None => ∅
  end.

(** A handle that holds a process is in a phase in which [terminate] and [Drop]
    reclaim it. *)
Definition reclaimable (vm : FirecrackerVm) : Prop :=
  vm_child vm <> None -> VmPhase.needs_teardown (vm_phase vm) = true.

(** The processes a handle does not answer for: the set may depend on the world,
    as long as a process of it that stays alive stays in it. *)
Class Baseline (others : W -> gset Z) : Prop :=
  baseline_kept : forall w w', signals_kept w w' -> os_running w' ∩ others w ⊆ others w'.

(** Processes given beforehand. *)
#[export] Instance baseline_given (given : gset Z) : Baseline (fun _ => given).
Proof. intros w w' _. set_solver. Qed.

(** Those, and whatever has been sent a kill signal. *)
#[export] Instance baseline_killed (given : gset Z) : Baseline (fun w => given ∪ os_killed w).
Proof. unfold Baseline, signals_kept. set_solver. Qed.

(** Every live process is one of [others] or the handle's own. *)
Definition tracked (others : W -> gset Z) (s : FirecrackerVm * W) : Prop :=
  os_running (snd s) ⊆ owned (fst s) ∪ others (snd s) /\ reclaimable (fst s).

Section Tracking.
Context (others : W -> gset Z) `{!Baseline others}.

(** What is alive and was not tracked stays so while no process starts. *)
Lemma baseline_quiet (extra : gset Z) w w' :
  os_running w ⊆ extra ∪ others w -> quiet w w' -> os_running w' ⊆ extra ∪ others w'.
Proof.
  intros Hr (Hr' & Hk & _). pose proof (baseline_kept w w' Hk). set_solver.
Qed.

Lemma tracked_quiet vm w w' : tracked others (vm, w) -> quiet w w' -> tracked others (vm, w').
Proof. intros [Hr Hi] Hq. split; [by apply (baseline_quiet _ w) | done]. Qed.

Lemma keeps_quiet {E A} (m : Eff W E A) :
  (forall w, quiet w (snd (m w))) -> keeps (tracked others) (on_world m).
Proof.
  intros Hm [vm w] Hs. unfold on_world. specialize (Hm w). destruct (m w) as [r w']; simpl in *.
  by eapply tracked_quiet.
Qed.

(** An update of the phase that does not forget a process. *)
Lemma tracked_phase vm w lifecycle :
  tracked others (vm, w) ->
  (vm_child vm <> None -> VmPhase.needs_teardown (lc_phase lifecycle) = true) ->
  tracked others (set_lifecycle lifecycle vm, w).
Proof. by intros [Hr Hi] Hl. Qed.

Lemma keeps_fail reason : keeps (tracked others) (on_vm (W := W) (vm_fail reason)).
Proof. intros [vm w] Hs. unfold on_vm, eff_modify. simpl. by apply tracked_phase. Qed.

Lemma keeps_step op refused :
  (forall lc, let '(r, lc') := op lc in
     lc' = lc \/ VmPhase.needs_teardown (lc_phase lc') = true) ->
  keeps (tracked others) (step (W := W) op refused).
Proof.
  intros Hop [vm w] Hs. unfold step. specialize (Hop (vm_lifecycle vm)).
  destruct (op (vm_lifecycle vm)) as [r lc]. simpl. apply tracked_phase; [done|].
  destruct Hop as [->|Hop]; [|done]. apply Hs.
Qed.

Lemma advance_reclaimable source target lc :
  VmPhase.needs_teardown target = true ->
  let '(_, lc') := advance source target lc in
  lc' = lc \/ VmPhase.needs_teardown (lc_phase lc') = true.
Proof. unfold advance. destruct (negb _); auto. Qed.

Lemma launch_spec lc :
  launch lc = if bool_decide (lc_phase lc = VmPhase.Idle)
              then (Ok tt, set_phase VmPhase.Launching lc) else (Err (lc_phase lc), lc).
Proof. unfold launch, transition. by destruct lc as [[] ? ?]. Qed.

Lemma keeps_ret {A} (a : A) : keeps (tracked others) (eff_ret (S := FirecrackerVm * W) (E := Halt FirecrackerError.t) a).
Proof. by intros s. Qed.

Lemma keeps_raise {A} e : keeps (tracked others) (eff_fail (S := FirecrackerVm * W) (A := A) (e : Halt FirecrackerError.t)).
Proof. by intros s. Qed.

Lemma keeps_get_vm : keeps (tracked others) (get_vm (W := W)).
Proof. by intros s. Qed.

Lemma keeps_get : keeps (tracked others) (eff_get (S := FirecrackerVm * W) (E := Halt FirecrackerError.t)).
Proof. by intros s. Qed.

Hint Resolve keeps_ret keeps_raise keeps_get_vm keeps_get keeps_fail keeps_if : core.

Lemma child_finished_keeps : keeps (tracked others) (child_finished (W := W)).
Proof.
  apply keeps_bind; [auto|]. intros vm. destruct (vm_child vm) as [child|]; [|auto].
  apply keeps_quiet. intros w. pose proof (try_wait_law child w) as Hq.
  by destruct (os_try_wait child w).
Qed.

Lemma wait_loop_keeps fuel deadline : keeps (tracked others) (wait_loop (W := W) fuel deadline).
Proof.
  induction fuel as [|fuel IH]; [by intros s|]. cbn [wait_loop].
  apply keeps_bind; [auto|]. intros vm. apply keeps_bind.
  { apply keeps_quiet. intros w. pose proof (try_exists_law (vm_api_socket vm) w) as Hq.
    by destruct (os_try_exists (vm_api_socket vm) w). }
  intros b. apply keeps_if; [auto|]. apply keeps_bind; [apply child_finished_keeps|].
  intros finished. apply keeps_if; [by apply keeps_bind; [auto|]; intros; apply keeps_raise|].
  apply keeps_bind; [auto|]. intros [vm' w']. apply keeps_if.
  { apply keeps_bind; [auto|]. intros. apply keeps_raise. }
  apply keeps_bind; [|done]. apply keeps_quiet. intros w. apply sleep_law.
Qed.

Lemma request_quiet socket method target content body (w : W) :
  quiet w (snd (request socket method target content body w)).
Proof.
  unfold request, io_call, eff_bind, eff_map_err.
  pose proof (exchange_law socket (request_text method target content (decimal (str_len body)) +:+ body) w) as Hq.
  destruct (os_exchange _ _ w) as [[stream|e] w']; simpl in *; [|done].
  by destruct (response_outcome stream).
Qed.

Lemma api_keeps method target value : keeps (tracked others) (api (W := W) method target value).
Proof.
  intros [vm w] Hs. unfold api. destruct (json_to_vec value) as [body|]; [|done].
  pose proof (request_quiet (vm_api_socket vm) method target "application/json" body w) as Hq.
  destruct (request _ _ _ _ _ w) as [[r|e] w']; simpl in *; [by eapply tracked_quiet|].
  apply tracked_phase; [by eapply tracked_quiet | done].
Qed.

Lemma configure_keeps : keeps (tracked others) (configure (W := W)).
Proof.
  unfold configure, put_boot_source, put_root_drive, put_machine_config, put_vsock.
  repeat first [apply api_keeps | apply keeps_get_vm | apply keeps_bind; [|intros]].
Qed.

(** A process is only spawned by a handle that holds none. *)
Lemma spawn_process_keeps vm w :
  tracked others (vm, w) -> vm_child vm = None -> VmPhase.needs_teardown (vm_phase vm) = true ->
  tracked others (snd (spawn_process (W := W) (vm, w))).
Proof.
  intros Hs Hchild Hphase. unfold spawn_process, eff_bind at 1, get_vm, eff_bind at 1, eff_lift.
  cbn [fst]. destruct (spawn_command vm) as [[program arguments]|e]; [|done]. cbn [map_err].
  unfold eff_bind, on_world, io_call, eff_map_err, on_vm, eff_modify.
  pose proof (spawn_law program arguments w) as (Hkept & Hnow & Hspawn).
  destruct (os_spawn program arguments w) as [[pid|e] w']; simpl in *.
  - destruct Hs as [Hr Hi]. split; simpl in *; [|intros _; exact Hphase].
    unfold owned in Hr. rewrite Hchild in Hr. unfold owned. simpl.
    pose proof (baseline_kept w w' Hkept). set_solver.
  - apply (tracked_quiet _ w); [done|]. by split; [|split].
Qed.

Lemma bootstrap_keeps production : keeps (tracked others) (bootstrap (W := W) production).
Proof.
  intros [vm w] Hs. unfold bootstrap, eff_bind at 1, step at 1. rewrite launch_spec.
  destruct (bool_decide (lc_phase (vm_lifecycle vm) = VmPhase.Idle)) eqn:Hidle; [|exact Hs].
  apply bool_decide_eq_true in Hidle. cbn [map_err].
  assert (Hchild : vm_child vm = None).
  { destruct (vm_child vm) eqn:Hc; [|done]. destruct Hs as [_ Hi]. exfalso.
    assert (Hn : VmPhase.needs_teardown (vm_phase vm) = true) by (apply Hi; simpl; congruence).
    unfold vm_phase in Hn. rewrite Hidle in Hn. discriminate Hn. }
  set (vm1 := set_lifecycle (set_phase VmPhase.Launching (vm_lifecycle vm)) vm).
  assert (Hs1 : tracked others (vm1, w)) by (by apply tracked_phase).
  unfold eff_bind at 1, get_vm. cbn [fst].
  destruct (production && _).
  { revert Hs1. generalize (vm1, w). change (keeps (tracked others)
      (run* on_vm (vm_fail TeardownReason.ControlApi) in
       eff_fail (Raised FirecrackerError.ProductionRequiresJailer) : VmM (W := W) unit)).
    apply keeps_bind; [auto|]. intros. apply keeps_raise. }
  pose proof (spawn_process_keeps vm1 w Hs1 Hchild eq_refl) as Hs2.
  unfold eff_bind at 1. destruct (spawn_process (vm1, w)) as [[[]|e] s2]; [|exact Hs2].
  simpl snd in Hs2. revert s2 Hs2.
  change (keeps (tracked others)
    (run* wait_for_socket in
     run* step configuring (fun _ => "lifecycle cannot configure") in
     run* configure in
     run* vm_start in
     step start (fun _ => "lifecycle cannot start") : VmM (W := W) unit)).
  apply keeps_bind.
  { apply keeps_bind; [auto|]. intros [vm' w']. apply wait_loop_keeps. }
  intros _. apply keeps_bind; [by apply keeps_step; intros lc; apply advance_reclaimable|].
  intros _. apply keeps_bind; [apply configure_keeps|].
  intros _. apply keeps_bind; [apply api_keeps|].
  intros _. apply keeps_step. intros lc. by apply advance_reclaimable.
Qed.

(** ** Reclamation *)

Lemma remove_sockets_quiet vm (w : W) : quiet w (remove_sockets vm w).
Proof. unfold remove_sockets. etrans; apply remove_file_law. Qed.

(** Once the handle's own process is gone, or counts among [others], only
    those are left. *)
Lemma tracked_killed vm (w w' : W) :
  tracked others (vm, w) -> quiet w w' ->
  (forall child, vm_child vm = Some child -> child ∈ os_running w' -> child ∈ others w') ->
  os_running w' ⊆ others w'.
Proof.
  intros [Hr _] Hq Hdead. simpl in Hr. unfold owned in Hr.
  pose proof (baseline_quiet _ w w' Hr Hq) as Hr'.
  destruct (vm_child vm) as [child|]; [specialize (Hdead child eq_refl); set_solver | set_solver].
Qed.

(** [terminate] always succeeds, from every phase, and afterwards the handle is
    terminated, holds no process, and no process of its making is alive. *)
Lemma terminate_reclaims vm w :
  tracked others (vm, w) ->
  exists vm' w', terminate (W := W) (vm, w) = (Ok tt, (vm', w')) /\
    vm_phase vm' = VmPhase.Terminated /\ vm_child vm' = None /\
    os_running w' ⊆ others w'.
Proof.
  intros Hs. unfold terminate, eff_bind at 1, get_vm. cbn [fst].
  destruct (bool_decide (vm_phase vm = VmPhase.Terminated)) eqn:Ht.
  { apply bool_decide_eq_true in Ht. exists vm, w. split; [done|]. split; [done|].
    destruct (vm_child vm) eqn:Hc.
    - destruct Hs as [_ Hi]. exfalso. unfold reclaimable in Hi. simpl in Hi.
      rewrite Hc, Ht in Hi. by specialize (Hi ltac:(done)).
    - split; [done|]. eapply tracked_killed; [exact Hs|done|]. congruence. }
  apply bool_decide_eq_false in Ht.
  assert (Hstep : exists lc, teardown (vm_lifecycle vm) = (Ok tt, lc)).
  { unfold teardown. unfold vm_phase in Ht. destruct (lc_phase (vm_lifecycle vm)); eauto. done. }
  destruct Hstep as [lc Hlc]. unfold step, eff_bind, eff_modify. rewrite Hlc. cbn [map_err].
  eexists _, _. split; [done|]. cbn [vm_child set_lifecycle]. split; [done|]. split; [done|].
  eapply tracked_killed; [exact Hs| |]; destruct (vm_child vm) as [child|]; try done.
  - etrans; [apply kill_wait_law | apply remove_sockets_quiet].
  - apply remove_sockets_quiet.
  - intros ? [= <-] Hin. exfalso.
    pose proof (remove_sockets_quiet (set_child None (set_lifecycle lc vm)) (os_kill_wait child w)) as [Hq _].
    apply Hq in Hin. by apply (proj2 (kill_wait_law child w)) in Hin.
Qed.

(** A handle in a final phase has nothing to release. *)
Lemma drop_released vm w :
  tracked others (vm, w) -> VmPhase.needs_teardown (vm_phase vm) = false ->
  vm_drop vm w = w /\ os_running w ⊆ others w.
Proof.
  intros Hs Hn. split; [unfold vm_drop; by rewrite Hn|].
  eapply tracked_killed; [exact Hs|done|]. intros child Hc. destruct Hs as [_ Hi].
  exfalso. unfold reclaimable in Hi. simpl in Hi. rewrite Hc, Hn in Hi.
  by specialize (Hi ltac:(done)).
Qed.

(** A handle that goes out of scope, after a panic or an early return, signals
    its process: what is left of its making has been sent a kill. *)
Lemma drop_signals vm w :
  (forall w1, os_killed w1 ⊆ others w1) ->
  tracked others (vm, w) -> os_running (vm_drop vm w) ⊆ others (vm_drop vm w).
Proof.
  intros Hkilled Hs. destruct (VmPhase.needs_teardown (vm_phase vm)) eqn:Hn.
  2:{ destruct (drop_released vm w Hs Hn) as [-> Hr]. exact Hr. }
  unfold vm_drop. rewrite Hn.
  eapply tracked_killed; [exact Hs| |]; destruct (vm_child vm) as [child|]; try done.
  - etrans; [apply start_kill_law | apply remove_sockets_quiet].
  - apply remove_sockets_quiet.
  - intros ? [= <-] Hin. apply Hkilled.
    destruct (remove_sockets_quiet vm (snd (os_start_kill child w))) as (Hsub & Hkept & _).
    pose proof (proj2 (start_kill_law child w)) as Hlaw.
    unfold signals_kept in Hkept. destruct (os_start_kill child w) as [[] w1]; set_solver.
Qed.

Lemma tracked_new config firecracker_path api_socket (w : W) :
  os_running w ⊆ others w ->
  tracked others (FirecrackerVm_new config firecracker_path api_socket, w).
Proof. intros Hw. split; [simpl; set_solver|]. by intros []. Qed.

End Tracking.

(** ** The bootstrap ends *)

Definition never_stuck {S A} (m : Eff S (Halt FirecrackerError.t) A) : Prop :=
  forall s, fst (m s) <> Err OutOfFuel.

Lemma never_stuck_bind {S A B} (m : Eff S (Halt FirecrackerError.t) A) (k : A -> Eff S _ B) :
  never_stuck m -> (forall a, never_stuck (k a)) -> never_stuck (eff_bind m k).
Proof.
  intros Hm Hk s. unfold eff_bind. specialize (Hm s).
  destruct (m s) as [[a|e] s']; simpl in *; [apply Hk | congruence].
Qed.

Lemma io_call_never_stuck {A} context (call : W -> result string A * W) :
  never_stuck (io_call context call).
Proof. intros w. unfold io_call, eff_map_err. by destruct (call w) as [[]]. Qed.

Lemma request_never_stuck socket method target content body :
  never_stuck (request (W := W) socket method target content body).
Proof.
  unfold request. apply never_stuck_bind; [apply io_call_never_stuck|]. intros stream w.
  destruct (response_outcome stream) as [[]|]; done.
Qed.

Lemma api_never_stuck method target value : never_stuck (api (W := W) method target value).
Proof.
  intros [vm w]. unfold api. destruct (json_to_vec value) as [body|]; [|done].
  pose proof (request_never_stuck (vm_api_socket vm) method target "application/json" body w) as Hr.
  destruct (request _ _ _ _ _ w) as [[r|e] w']; simpl in *; congruence.
Qed.

Lemma step_never_stuck op refused : never_stuck (step (W := W) op refused).
Proof. intros [vm w]. unfold step. by destruct (op (vm_lifecycle vm)) as [[] ?]. Qed.

Lemma get_vm_never_stuck : never_stuck (get_vm (W := W)).
Proof. done. Qed.

Lemma spawn_process_never_stuck : never_stuck (spawn_process (W := W)).
Proof.
  apply never_stuck_bind; [done|]. intros vm. apply never_stuck_bind.
  { intros s. unfold eff_lift. simpl. by destruct (spawn_command vm). }
  intros [program arguments]. apply never_stuck_bind; [|done].
  intros [vm' w]. unfold on_world.
  pose proof (io_call_never_stuck (spawn_failed vm) (os_spawn program arguments) w) as Hn.
  by destruct (io_call _ _ w) as [[] ?].
Qed.

Lemma wait_loop_ends fuel deadline vm w :
  (Z.max 0 (deadline - os_now w) <= (Z.of_nat fuel - 1) * SOCKET_POLL)%Z ->
  fst (wait_loop (W := W) fuel deadline (vm, w)) <> Err OutOfFuel.
Proof.
  revert vm w. induction fuel as [|fuel IH]; intros vm w Hfuel.
  { exfalso. unfold SOCKET_POLL in Hfuel. lia. }
  cbn [wait_loop]. unfold eff_bind at 1, get_vm. cbn [fst].
  unfold eff_bind at 1, on_world at 1.
  pose proof (try_exists_law (vm_api_socket vm) w) as (_ & _ & Hn1).
  destruct (os_try_exists (vm_api_socket vm) w) as [r w1]. simpl snd in Hn1.
  destruct (match r with Ok b => b | Err _ => false end); [done|].
  unfold eff_bind at 1.
  assert (Hfinished : exists b w2, child_finished (W := W) (vm, w1) = (Ok b, (vm, w2)) /\
                                   (os_now w1 <= os_now w2)%Z).
  { unfold child_finished, eff_bind, get_vm. cbn [fst]. destruct (vm_child vm) as [child|].
    - unfold on_world. pose proof (try_wait_law child w1) as (_ & _ & Hn). destruct (os_try_wait child w1).
      simpl in *. eauto.
    - exists true, w1. split; [done | lia]. }
  destruct Hfinished as (b & w2 & -> & Hn2). destruct b; [done|].
  unfold eff_bind at 1, eff_get. cbn [fst snd].
  destruct (Z.leb_spec deadline (os_now w2)) as [Hd|Hd]; [done|].
  unfold eff_bind at 1, on_world at 1. apply IH.
  destruct (sleep_law SOCKET_POLL w2) as [_ Hsleep].
  destruct fuel as [|fuel]; unfold SOCKET_POLL in *; lia.
Qed.

(** Waiting for the API socket takes at most the fuel [retry_fuel] gives it. *)
Lemma bootstrap_never_stuck production : never_stuck (bootstrap (W := W) production).
Proof.
  apply never_stuck_bind; [apply step_never_stuck|]. intros []. apply never_stuck_bind; [done|].
  intros vm. destruct (production && _).
  { apply never_stuck_bind; [done|]. done. }
  apply never_stuck_bind; [apply spawn_process_never_stuck|]. intros [].
  apply never_stuck_bind.
  { intros [vm' w]. unfold wait_for_socket, eff_bind, eff_get. apply wait_loop_ends.
    unfold retry_fuel. change (Z.to_nat (SOCKET_WAIT / SOCKET_POLL) + 2)%nat with 202%nat.
    unfold SOCKET_WAIT, SOCKET_POLL. lia. }
  intros []. apply never_stuck_bind; [apply step_never_stuck|]. intros [].
  apply never_stuck_bind.
  { unfold configure, put_boot_source, put_root_drive, put_machine_config, put_vsock.
    repeat first [apply api_never_stuck | apply get_vm_never_stuck
                 | apply never_stuck_bind; [|intros]]. }
  intros []. apply never_stuck_bind; [apply api_never_stuck|]. intros []. apply step_never_stuck.
Qed.

(** A machine that reports success has been started. *)
Lemma bootstrap_started production s s' :
  bootstrap (W := W) production s = (Ok tt, s') ->
  vm_phase (fst s) = VmPhase.Idle /\ vm_phase (fst s') = VmPhase.Started.
Proof.
  destruct s as [vm w]. unfold bootstrap. rewrite eff_bind_Ok. intros ([] & s1 & Hl & Hb).
  split.
  { unfold step in Hl. rewrite launch_spec in Hl. unfold vm_phase. simpl.
    by destruct (bool_decide (lc_phase (vm_lifecycle vm) = VmPhase.Idle)) eqn:Hp;
      [apply bool_decide_eq_true in Hp | discriminate Hl]. }
  apply eff_bind_Ok in Hb as (vm1 & s2 & _ & Hb). destruct (production && _).
  { apply eff_bind_Ok in Hb as (? & ? & _ & Hb). discriminate Hb. }
  do 5 apply eff_bind_Ok in Hb as (? & ? & _ & Hb). destruct x8 as [vm3 w3].
  unfold step, start, advance in Hb. destruct (negb _); [discriminate Hb|]. by injection Hb as <-.
Qed.

(** The production profile without a jailer is refused before any process
    starts. *)
Lemma bootstrap_fails_closed vm w :
  vm_phase vm = VmPhase.Idle -> fc_jailer_path (vm_config vm) = None ->
  bootstrap true (vm, w) =
  (Err (Raised FirecrackerError.ProductionRequiresJailer),
   (vm_fail TeardownReason.ControlApi (set_lifecycle (set_phase VmPhase.Launching (vm_lifecycle vm)) vm), w)).
Proof.
  intros Hp Hj. unfold bootstrap, eff_bind at 1, step. rewrite launch_spec.
  unfold vm_phase in Hp. rewrite bool_decide_eq_true_2 by done. cbn [map_err].
  unfold eff_bind at 1, get_vm. cbn [fst set_lifecycle vm_config]. by rewrite bool_decide_eq_true_2.
Qed.

(** A handle boots at most once. *)
Lemma bootstrap_once production vm w :
  vm_phase vm <> VmPhase.Idle ->
  bootstrap production (vm, w) =
  (Err (Raised (FirecrackerError.Io "lifecycle cannot launch")), (vm, w)).
Proof.
  intros Hp. unfold bootstrap, eff_bind at 1, step. rewrite launch_spec.
  unfold vm_phase in Hp. rewrite bool_decide_eq_false_2 by done. by destruct vm.
Qed.

(** ** The guest channel *)

(** A computation on the world alone that starts no process. *)
Definition calm {E A} (m : Eff W E A) : Prop := forall w, quiet w (snd (m w)).

Lemma calm_bind {E A B} (m : Eff W E A) (k : A -> Eff W E B) :
  calm m -> (forall a, calm (k a)) -> calm (eff_bind m k).
Proof.
  intros Hm Hk w. apply eff_bind_keeps; [|done|intros; apply Hk].
  intros w1 w2 w3. apply transitivity.
Qed.

Lemma calm_io {A} context (call : W -> result string A * W) :
  (forall w, quiet w (snd (call w))) -> calm (io_call context call).
Proof. intros Hc w. unfold io_call, eff_map_err. specialize (Hc w). by destruct (call w). Qed.

Lemma calm_pure {E A} (m : Eff W E A) : (forall w, snd (m w) = w) -> calm m.
Proof. intros Hm w. by rewrite Hm. Qed.

Lemma read_line_calm fuel stream previous out : calm (read_line (W := W) fuel stream previous out).
Proof.
  revert previous out. induction fuel as [|fuel IH]; intros previous out; [by apply calm_pure|].
  cbn [read_line]. apply calm_bind; [apply calm_io; intros w; apply read_law|].
  intros [byte|]; [|by apply calm_pure].
  destruct (Ascii.eqb byte LF); [by apply calm_pure | apply IH].
Qed.

Lemma connect_calm uds_path port read_timeout : calm (connect (W := W) uds_path port read_timeout).
Proof.
  repeat first [apply calm_bind; [|intros] | apply calm_io; intros].
  - apply connect_law.
  - apply set_timeouts_law.
  - apply write_all_law.
  - intros w. apply read_line_calm.
  - destruct (negb _); [by apply calm_pure|].
    apply calm_bind; [apply calm_io; intros; apply set_timeouts_law | intros; by apply calm_pure].
Qed.

(** The peer's backlog bounds the reply line. *)
Lemma read_line_ends fuel stream previous out w :
  (os_backlog stream w < fuel)%nat ->
  fst (read_line (W := W) fuel stream previous out w) <> Err OutOfFuel.
Proof.
  revert previous out w. induction fuel as [|fuel IH]; intros previous out w Hb; [lia|].
  cbn [read_line]. unfold eff_bind, io_call, eff_map_err.
  pose proof (read_law stream w) as [_ Hr]. destruct (os_read stream w) as [[[byte|]|e] w1]; try done.
  simpl. destruct (Ascii.eqb byte LF); [done|]. apply IH. lia.
Qed.

Lemma connect_never_stuck uds_path port read_timeout :
  never_stuck (connect (W := W) uds_path port read_timeout).
Proof.
  repeat first [apply io_call_never_stuck | apply never_stuck_bind; [|intros]].
  - intros w. apply read_line_ends. lia.
  - destruct (negb _); [done|]. by apply never_stuck_bind; [apply io_call_never_stuck|].
Qed.

Lemma open_guest_channel_calm vm : calm (open_guest_channel (W := W) vm).
Proof.
  unfold open_guest_channel. destruct (negb _); [by apply calm_pure|]. intros w.
  apply retry_loop_quiet. intros w'. apply connect_calm.
Qed.

(** Waiting for the guest ends, whatever the peer answers. *)
Lemma open_guest_channel_never_stuck vm : never_stuck (open_guest_channel (W := W) vm).
Proof.
  unfold open_guest_channel. destruct (negb _); [done|]. intros w.
  apply retry_until_terminates; [done|done| |].
  - intros w'. apply connect_calm.
  - intros w'. apply connect_never_stuck.
Qed.

(** A guest that comes up within the wait is reached. *)
Lemma open_guest_channel_reaches vm w ready :
  let attempt := connect (W := W) (fc_vsock_uds_path (vm_config vm))
                   (vc_port (fc_vsock (vm_config vm))) DEFAULT_READ_TIMEOUT in
  VmPhase.can_communicate (vm_phase vm) = true ->
  (forall w1, (ready <= os_now w1)%Z -> exists channel, fst (attempt w1) = Ok channel) ->
  (forall w1, (os_now w1 < ready)%Z -> (os_now (snd (attempt w1)) < os_now w + DEFAULT_CONNECT_WAIT)%Z) ->
  exists channel, fst (open_guest_channel (W := W) vm w) = Ok channel.
Proof.
  intros attempt Hphase Hup Hdown. pose proof (open_guest_channel_never_stuck vm w) as Hn.
  unfold open_guest_channel in *. rewrite Hphase in *. cbn [negb] in *.
  by apply (retry_loop_reaches readiness_timed_out _ _ _ ready).
Qed.

Lemma send_calm channel message : calm (send (W := W) channel message).
Proof.
  apply calm_bind; [by apply calm_pure|]. intros frame. apply calm_io. intros. apply write_all_law.
Qed.

Lemma recv_calm channel : calm (recv (W := W) channel).
Proof.
  repeat first [apply calm_bind; [|intros] | apply calm_io; intros]; try (by apply calm_pure);
    apply read_exact_law.
Qed.
End MachineLaws.
