(* ===== verification/Executor.v ===== *)
(** * The Firecracker executor

    Models [apps/openoj-judge-node/src/firecracker_executor.rs]: the stage
    executor that boots a microVM for an attempt, drives the guest agent over
    its channel and reclaims the machine. The boxed session and lease hold the
    only implementations the program gives them; the configuration never
    changes and is a parameter. *)

From S2P Require Import Prelude Value Evaluation EvalResult Application Json Codec Text Guest Evaluator Effects Firecracker HttpApi Host Machine.

Definition BUILD_WALL_MS : Z := 30000.
Definition RUN_WALL_MS : Z := 10000.

Record FirecrackerExecutorConfig : Type := MkExecutorConfig {
  xc_node_id : NodeId;
  xc_firecracker_path : string;
  xc_api_socket : string;
  xc_vm_config : FirecrackerConfig;
  xc_production : bool
}.

Definition FirecrackerExecutorConfig_validate (config : FirecrackerExecutorConfig)
    : result ApplicationError unit :=
  if xc_production config
  then Err (InvalidExecutorOutput "production firecracker isolation profile is incomplete")
  else Ok tt.

Record FirecrackerExecutor : Type := MkFirecrackerExecutor {
  fx_session : option GuestChannel;
  fx_vm : option FirecrackerVm;
  fx_negotiated : bool;
  fx_last_run_exit : option Z;
  fx_terminated : bool
}.

Definition fresh_executor : FirecrackerExecutor := MkFirecrackerExecutor None None false None false.

Definition FirecrackerExecutor_try_new (config : FirecrackerExecutorConfig)
    : result ApplicationError FirecrackerExecutor :=
  try* FirecrackerExecutorConfig_validate config in
  Ok fresh_executor.

Definition begin_attempt (fx : FirecrackerExecutor) : FirecrackerExecutor :=
  if fx_terminated fx
  then MkFirecrackerExecutor (fx_session fx) (fx_vm fx) false None false
  else fx.

Definition set_negotiated (fx : FirecrackerExecutor) : FirecrackerExecutor :=
  MkFirecrackerExecutor (fx_session fx) (fx_vm fx) true (fx_last_run_exit fx) (fx_terminated fx).

Definition set_last_run_exit (exit_code : Z) (fx : FirecrackerExecutor) : FirecrackerExecutor :=
  MkFirecrackerExecutor (fx_session fx) (fx_vm fx) (fx_negotiated fx) (Some exit_code)
    (fx_terminated fx).

Definition map_firecracker (_ : Halt FirecrackerError.t) : ApplicationError :=
  InvalidExecutorOutput "guest transport failed".

Definition stage_failed : StageExecution := ExFailed ResourceUsage_default [] [].

(** The command every stage runs until artifact storage delivers real ones. *)
Definition default_argv (_ : string) : list string := ["printf"; "ok"].

(** Where a blocking call finds itself: on a worker of a multi-threaded runtime,
    on another runtime, or on none, where building one may fail. *)
Inductive RuntimeContext : Type :=
  | InMultiThread
  | InOtherFlavor
  | NoRuntime (builds : bool).

Class TokioRuntime (W : Type) := { tokio_context : W -> RuntimeContext }.

Section Executor.
Context {W : Type} `{HostOs W, TokioRuntime W, SerdeJson, UnicodeText}.
Variable config : FirecrackerExecutorConfig.

(** The machine's futures are run to completion, or not at all. *)
Definition block_on_vmm {A E} (future : Eff (FirecrackerVm * W) E A)
    : Eff (FirecrackerVm * W) ApplicationError (result E A) := fun s =>
  match tokio_context (snd s) with
  | InMultiThread | NoRuntime true => let '(r, s') := future s in (Ok r, s')
  | InOtherFlavor =>
      (Err (InvalidExecutorOutput "firecracker executor requires a multi-thread runtime"), s)
  | NoRuntime false => (Err (InvalidExecutorOutput "firecracker runtime unavailable"), s)
  end.

(** [vm.terminate()], whose outcome is ignored, and the end of the handle. *)
Definition abandon (vm : FirecrackerVm) (w : W) : W :=
  let '(_, (vm', w')) := block_on_vmm terminate (vm, w) in vm_drop vm' w'.

(** Assigning to [self.vm] drops the previous lease. *)
Definition activate_session (channel : GuestChannel) (vm : FirecrackerVm)
    : FirecrackerExecutor * W -> FirecrackerExecutor * W := fun '(fx, w) =>
  (MkFirecrackerExecutor (Some channel) (Some vm) (fx_negotiated fx) (fx_last_run_exit fx)
     (fx_terminated fx),
   match fx_vm fx with
   | Some previous => vm_drop previous w
   | None => w
   end).

Definition FxM (A : Type) : Type := Eff (FirecrackerExecutor * W) ApplicationError A.

Definition ensure_session : FxM unit := fun '(fx, w) =>
  match fx_session fx with
  | Some _ => (Ok tt, (fx, w))
  | None =>
      let vm := FirecrackerVm_new (xc_vm_config config) (xc_firecracker_path config)
                  (xc_api_socket config) in
      match block_on_vmm (bootstrap (xc_production config)) (vm, w) with
      | (Ok (Ok tt), (vm1, w1)) =>
          match open_guest_channel vm1 w1 with
          | (Ok channel, w2) => (Ok tt, activate_session channel vm1 (fx, w2))
          | (Err _, w2) =>
              (Err (InvalidExecutorOutput "guest channel unavailable"), (fx, abandon vm1 w2))
          end
      | (_, (vm1, w1)) =>
          (Err (InvalidExecutorOutput "microvm bootstrap failed"), (fx, abandon vm1 w1))
      end
  end.

(** [self.session.as_mut().ok_or(..)?]. *)
Definition get_session : FxM GuestChannel := fun '(fx, w) =>
  (ok_or UnsupportedCapability (fx_session fx), (fx, w)).

Definition on_executor (f : FirecrackerExecutor -> FirecrackerExecutor) : FxM unit :=
  eff_modify (fun '(fx, w) => (f fx, w)).

(** [FirecrackerGuestSession]. *)
Definition over_channel {A} (call : Eff W (Halt FirecrackerError.t) A) : FxM A := fun '(fx, w) =>
  let '(r, w') := call w in (map_err map_firecracker r, (fx, w')).

Definition session_send (session : GuestChannel) (message : Message) : FxM unit :=
  over_channel (send session message).

Definition session_recv (session : GuestChannel) : FxM Message := over_channel (recv session).

Definition ensure_negotiated : FxM unit :=
  io* (fx, _) := eff_get in
  if fx_negotiated fx then eff_ret tt
  else
    io* session := get_session in
    run* session_send session (Negotiate ["algorithm.batch"]) in
    io* reply := session_recv session in
    match reply with
    | Negotiated true => on_executor set_negotiated
    | Negotiated false => eff_fail UnsupportedCapability
    | _ => eff_fail (InvalidExecutorOutput "unexpected negotiate reply")
    end.

Definition stage_message (stage : StageKind.t) (argv : list string) (wall_time_ms : Z) : Message :=
  match stage with
  | StageKind.Build => Build argv wall_time_ms
  | _ => Run argv wall_time_ms
  end.

Definition run_guest_stage (stage : StageKind.t) (argv : list string) (wall_time_ms : Z)
    : FxM StageExecution :=
  run* ensure_session in
  run* ensure_negotiated in
  io* session := get_session in
  run* session_send session (stage_message stage argv wall_time_ms) in
  io* reply := session_recv session in
  match reply with
  | StageOutput _ exit_code output_digest output_bytes usage diagnostics =>
      run* (if bool_decide (stage = StageKind.Run) then on_executor (set_last_run_exit exit_code)
            else eff_ret tt) in
      eff_lift (execution_for_stage_output stage exit_code output_digest output_bytes usage
                  diagnostics)
  | _ => eff_fail (InvalidExecutorOutput "expected stage output")
  end.

Definition fx_teardown : FirecrackerExecutor * W -> FirecrackerExecutor * W := fun '(fx, w) =>
  (MkFirecrackerExecutor None None (fx_negotiated fx) (fx_last_run_exit fx) true,
   match fx_vm fx with
   | Some vm => abandon vm w
   | None => w
   end).

(** [Drop]. *)
Definition executor_drop : FirecrackerExecutor * W -> FirecrackerExecutor * W := fx_teardown.

(** The [match context.stage()] of [StageExecutor::execute]. *)
Definition stage_outcome (stage : StageKind.t) : FxM StageExecution :=
  match stage with
  | StageKind.Prepare | StageKind.Aggregate =>
      eff_ret (ExSucceeded ResourceUsage_default [] [] None)
  | StageKind.Build => run_guest_stage StageKind.Build (default_argv "build") BUILD_WALL_MS
  | StageKind.Run => run_guest_stage StageKind.Run (default_argv "run") RUN_WALL_MS
  | StageKind.Check =>
      io* (fx, _) := eff_get in
      match fx_last_run_exit fx with
      | Some exit_code =>
          eff_lift (let* decision := host_check_decision exit_code in
                    Ok (ExSucceeded ResourceUsage_default [] [] (Some decision)))
      | None => eff_fail (InvalidExecutorOutput "check stage before run")
      end
  end.

Definition execute_stage (context : StageContext) : FirecrackerExecutor * W ->
    StageExecution * (FirecrackerExecutor * W) := fun s =>
  if fx_terminated (fst s) then (stage_failed, s)
  else
    match stage_outcome (sc_stage context) s with
    | (Ok execution, s') => (execution, s')
    | (Err _, s') => (stage_failed, fx_teardown s')
    end.

#[export] Instance firecracker_stages : StageExecutor (FirecrackerExecutor * W) := {
  se_kind := fun _ => ExecutorKind.Firecracker;
  se_production_eligible := fun _ => false;
  se_node_id := fun _ => Some (xc_node_id config);
  se_supports := fun _ capability => String.eqb (cap_str capability) "algorithm.batch";
  se_execute := execute_stage
}.

(** [JudgeExecutor::execute]: one attempt. *)
Definition execute_attempt (request : EvaluationRequest)
    : Eff (FirecrackerExecutor * W) ApplicationError EvaluationResult := fun '(fx, w) =>
  let '(r, s) := evaluate request (begin_attempt fx, w) in (r, fx_teardown s).
End Executor.
