(* ===== verification/ExecutorLaws.v ===== *)
(** * What the Firecracker executor promises

    An attempt leaves no process and no state behind, its outcomes conform to
    the pipeline whatever the guest answers, and the verdicts it can reach are
    known. *)

From S2P Require Import Prelude Value Evaluation EvalResult Application Pipeline Json Codec Text Guest GuestLaws Evaluator Effects Firecracker HttpApi Host Machine MachineLaws Executor.

(** An invariant of the executor is one of the pipeline. *)
Lemma evaluate_keeps {S} `{StageExecutor S} (P : S -> Prop) request s :
  (forall ctx s, P s -> P (snd (se_execute ctx s))) -> P s -> P (snd (evaluate request s)).
Proof.
  intros Hstep Hs. unfold evaluate. destruct (existsb _ _); [done|].
  destruct (map_err _ _) as [provenance|e]; [|done].
  generalize (EvaluationRun_new request provenance) 0%nat. revert s Hs.
  generalize (plan_stages (er_plan request)) as stages.
  induction stages as [|stage stages IH]; intros s Hs run index; [done|]. cbn [evaluate_stages].
  specialize (Hstep (MkStageContext request stage) s Hs).
  destruct (se_execute _ s) as [outcome s']. simpl in Hstep.
  destruct (EvaluationRun_record _ _ _ _) as [[run' [terminal|]]|e]; [done| |done]. by apply IH.
Qed.

(** ** What arrives from the guest *)

Lemma recv_valid {W} `{HostOs W, SerdeJson} channel (w w' : W) m :
  recv channel w = (Ok m, w') -> valid m /\ message_bounded m.
Proof.
  unfold recv. rewrite eff_bind_Ok. intros (prefix & w1 & _ & Hm).
  apply eff_bind_Ok in Hm as (length & w2 & _ & Hm).
  apply eff_bind_Ok in Hm as (body & w3 & _ & Hm).
  unfold io_lift, eff_lift in Hm. injection Hm as Hm _. inv_ok. by eapply decode_bounded.
Qed.

Section Outcomes.
Context `{UnicodeText}.

Lemma traverse_valid_length {A B E} `{Valid B} (f : A -> result E B) l l' :
  (forall a b, f a = Ok b -> valid b) -> traverse f l = Ok l' -> valid l' /\ length l' = length l.
Proof.
  intros Hf Hl. apply traverse_Ok in Hl. induction Hl as [|a b l l' Hab _ [IHv IHl]]; [by repeat constructor|].
  split; [by constructor; [eapply Hf|] | simpl; congruence].
Qed.

Lemma stdout_evidence_valid hex output_bytes e :
  is_u64 output_bytes -> stdout_evidence hex output_bytes = Ok e -> valid e.
Proof.
  intros Hb. unfold stdout_evidence, build_evidence, content_digest, domain_error. intros He. inv_ok.
  repeat match goal with
  | Hx : id_parse _ = Ok _ |- _ => apply id_parse_iff in Hx as [_ Hx]
  | Hx : ContentDigest_parse _ = Ok _ |- _ => apply ContentDigest_parse_iff in Hx as [_ Hx]
  | Hx : MediaType_parse _ = Ok _ |- _ => apply MediaType_parse_iff in Hx as [_ Hx]
  | Hx : EvidenceKind_parse _ = Ok _ |- _ => apply EvidenceKind_parse_iff in Hx as [_ Hx]
  | Hx : ArtifactRef_new _ _ _ _ _ = Ok _ |- _ => apply ArtifactRef_new_valid in Hx; [|done..]
  end.
  by split_and!.
Qed.

(** An execution the evaluator builds is valid and conforms to its stage. *)
Lemma stage_output_conforms stage exit_code hex output_bytes usage diagnostics x :
  runs_in_guest stage = true -> is_u64 output_bytes -> (len diagnostics <= MAX_DIAGNOSTICS)%Z ->
  execution_for_stage_output stage exit_code hex output_bytes usage diagnostics = Ok x ->
  valid x /\ outcome_conforms stage x /\
  (outcome_terminal x = None <-> exit_code = 0%Z) /\
  (exit_code <> 0%Z -> outcome_terminal x =
     Some (MkTerminal EvaluationStatus.Completed (stage_verdict stage exit_code) score_0_1)).
Proof.
  intros Hstage Hb Hd Hx. unfold execution_for_stage_output in Hx.
  apply rbind_Ok_inv in Hx as (u & Hu & Hx). apply rbind_Ok_inv in Hx as (ds & Hds & Hx).
  apply rbind_Ok_inv in Hx as (es & Hes & Hx).
  unfold usage_from_guest, domain_error in Hu. apply map_err_Ok_inv, ResourceUsage_new_iff in Hu as [_ Hu].
  apply traverse_valid_length in Hds as [Hds Hl].
  2:{ intros d d' Hd'. unfold diagnostic_from_guest, domain_error in Hd'. inv_ok.
      match goal with Hc : DiagnosticCode_parse _ = Ok _ |- _ =>
        apply DiagnosticCode_parse_iff in Hc as [_ Hc] end.
      by apply Diagnostic_new_iff in Hd' as [-> ?]. }
  assert (Hev : valid es /\ length es = 1).
  { destruct stage; try discriminate Hstage; apply rbind_Ok_inv in Hes as (e & He & [= <-]);
      apply stdout_evidence_valid in He; (split; [by constructor|done] || done). }
  destruct Hev as [Hev Hlen].
  assert (Hlens : (len ds <= MAX_STAGE_DIAGNOSTICS)%Z /\ (len es <= MAX_STAGE_EVIDENCE)%Z).
  { unfold len in *. rewrite Hl, Hlen. unfold MAX_DIAGNOSTICS, MAX_STAGE_DIAGNOSTICS, MAX_STAGE_EVIDENCE in *. lia. }
  destruct (Z.eqb_spec exit_code 0) as [->|Hne]; injection Hx as <-.
  - split; [by split_and!|]. split; [|by split]. split; [|done].
    destruct stage; done.
  - split; [by split_and!|]. split; [|by split]. split; [|done].
    destruct stage; try discriminate Hstage; [done|]. simpl. unfold stage_verdict.
    by destruct (exit_code =? GUEST_TIMEOUT_EXIT_CODE)%Z.
Qed.
End Outcomes.

Section ExecutorLaws.
Context {W : Type} `{HostOs W, TokioRuntime W, SerdeJson, UnicodeText}.
Variable config : FirecrackerExecutorConfig.

Notation stages := (firecracker_stages (W := W) config).

(** ** Outcomes *)

(** What one stage may answer, and what it leaves for the check. *)
Definition stage_answer (stage : StageKind.t) (s : FirecrackerExecutor * W)
    (o : StageExecution) (s' : FirecrackerExecutor * W) : Prop :=
  valid o /\ outcome_conforms stage o /\
  match stage with
  | StageKind.Prepare | StageKind.Aggregate => outcome_terminal o = None \/ o = stage_failed
  | StageKind.Build => outcome_terminal o = None \/
      t_verdict <$> outcome_terminal o = Some Verdict.CompileError \/ o = stage_failed
  | StageKind.Run =>
      (outcome_terminal o = None /\ fx_last_run_exit (fst s') = Some 0%Z) \/
      t_verdict <$> outcome_terminal o = Some Verdict.RuntimeError \/
      t_verdict <$> outcome_terminal o = Some Verdict.TimeLimitExceeded \/ o = stage_failed
  | StageKind.Check =>
      fx_last_run_exit (fst s) = Some 0%Z ->
      o = stage_failed \/ outcome_decision o = Some (MkDecision Verdict.Accepted (MkScore 1 1))
  end.

Lemma stage_failed_answer stage s s' : stage_answer stage s stage_failed s'.
Proof.
  unfold stage_answer. split; [|split].
  - split; [apply usage_default_valid|]. repeat split; constructor.
  - unfold outcome_conforms. simpl. unfold len, MAX_STAGE_DIAGNOSTICS, MAX_STAGE_EVIDENCE. simpl. lia.
  - destruct stage; auto.
Qed.

Lemma guest_stage_answer stage argv wall s o s' :
  runs_in_guest stage = true ->
  run_guest_stage config stage argv wall s = (Ok o, s') -> stage_answer stage s o s'.
Proof.
  intros Hstage. unfold run_guest_stage. rewrite eff_bind_Ok. intros (? & s1 & _ & Hr).
  apply eff_bind_Ok in Hr as (? & s2 & _ & Hr). apply eff_bind_Ok in Hr as (session & s3 & _ & Hr).
  apply eff_bind_Ok in Hr as (? & s4 & _ & Hr). apply eff_bind_Ok in Hr as (reply & s5 & Hrecv & Hr).
  destruct reply as [| | | | | |reported exit_code hex output_bytes usage diagnostics| | | | | |];
    try discriminate Hr.
  assert (Hv : valid (StageOutput reported exit_code hex output_bytes usage diagnostics) /\
               message_bounded (StageOutput reported exit_code hex output_bytes usage diagnostics)).
  { unfold session_recv, over_channel in Hrecv. destruct s4 as [fx4 w4].
    destruct (recv session w4) as [[m|e] w5] eqn:He; [|discriminate Hrecv].
    injection Hrecv as -> _. by eapply recv_valid. }
  destruct Hv as [(_ & Hbytes & _) (_ & Hlen & _)].
  apply eff_bind_Ok in Hr as (? & s6 & Hset & Hr). unfold eff_lift in Hr. injection Hr as Ho <-.
  destruct (stage_output_conforms _ _ _ _ _ _ _ Hstage Hbytes Hlen Ho) as (Hval & Hconf & Hz & Hnz).
  split; [done|]. split; [done|].
  destruct stage; try discriminate Hstage; cbn [bool_decide] in Hset.
  - destruct (decide (exit_code = 0%Z)) as [->|Hne]; [left; by apply Hz|].
    right; left. rewrite Hnz by done. done.
  - destruct (decide (exit_code = 0%Z)) as [->|Hne].
    + left. split; [by apply Hz|]. destruct s5. by injection Hset as _ <-.
    + right. rewrite Hnz by done. simpl. unfold stage_verdict.
      destruct (exit_code =? GUEST_TIMEOUT_EXIT_CODE)%Z; auto.
Qed.

Lemma execute_stage_answer context s :
  let '(o, s') := execute_stage config context s in stage_answer (sc_stage context) s o s'.
Proof.
  unfold execute_stage. destruct (fx_terminated (fst s)); [apply stage_failed_answer|].
  destruct (stage_outcome config (sc_stage context) s) as [[o|e] s'] eqn:Ho;
    [|apply stage_failed_answer].
  assert (Hsucc : forall d, valid d -> valid (ExSucceeded ResourceUsage_default [] [] d)).
  { intros d Hd. split; [apply usage_default_valid|]. repeat split; [constructor..|done]. }
  destruct (sc_stage context); cbn [stage_outcome] in Ho;
    try (injection Ho as <- <-; split; [by apply Hsucc|]; split; [by repeat split | by left]).
  - by eapply guest_stage_answer in Ho.
  - by eapply guest_stage_answer in Ho.
  - apply eff_bind_Ok in Ho as ([fx w] & s1 & Hget & Ho). injection Hget as Hs <-. subst s.
    destruct (fx_last_run_exit fx) as [exit_code|] eqn:Hexit; [|discriminate Ho].
    injection Ho as Ho _. apply rbind_Ok_inv in Ho as (decision & Hdec & [= <-]).
    destruct (host_check_decision_total exit_code) as (d & Hd & Hvd & _).
    rewrite Hd in Hdec. injection Hdec as ->.
    split; [by apply Hsucc|]. split; [by repeat split|]. simpl. rewrite Hexit. intros [= ->].
    right. by injection Hd as <-.
Qed.

(** ** Verdicts *)

(** Every outcome of the executor conforms to the pipeline. *)
Lemma executor_conforms request ks s os s' :
  Executes (H := stages) request ks s os s' -> Forall valid os /\ trace_conforms ks os.
Proof.
  unfold trace_conforms. induction 1 as [s|k ks s o s' He Ho|k ks s o s' os s'' He Ho _ IH].
  - by repeat constructor.
  - pose proof (execute_stage_answer (MkStageContext request k) s) as Ha. simpl in He.
    rewrite He in Ha. destruct Ha as (Hv & Hc & _). split; [by apply Forall_singleton|].
    simpl. constructor; [done|]. destruct ks; constructor.
  - pose proof (execute_stage_answer (MkStageContext request k) s) as Ha. simpl in He.
    rewrite He in Ha. destruct Ha as (Hv & Hc & _), IH as [IHv IHc].
    split; constructor; done.
Qed.

(** The verdict of an outcome that ends the run. *)
Lemma stop_verdict stage s o s' t :
  stage_answer stage s o s' -> outcome_terminal o = Some t ->
  (stage = StageKind.Check -> fx_last_run_exit (fst s) = Some 0%Z) ->
  t_verdict t ∈ [Verdict.CompileError; Verdict.RuntimeError; Verdict.TimeLimitExceeded;
                 Verdict.SystemError].
Proof.
  intros (_ & Hc & Ha) Ht Hexit.
  assert (Hfailed : o = stage_failed -> t_verdict t = Verdict.SystemError).
  { intros ->. by injection Ht as <-. }
  rewrite !elem_of_cons. destruct stage; simpl in Ha; rewrite ?Ht in Ha; simpl in Ha; try naive_solver.
  destruct (Ha (Hexit eq_refl)) as [Ho|Ho]; [naive_solver|]. by destruct o.
Qed.

Lemma executes_step request k ks s os s' :
  Executes (H := stages) request (k :: ks) s os s' ->
  exists o s1, stage_answer k s o s1 /\
    ((exists t, outcome_terminal o = Some t /\ os = [o]) \/
     (outcome_terminal o = None /\ exists os', os = o :: os' /\ Executes (H := stages) request ks s1 os' s')).
Proof.
  intros He. inversion He as [|? ? ? o s1 Hx Ho|? ? ? o s1 os' ? Hx Ho Hr]; subst;
    pose proof (execute_stage_answer (MkStageContext request k) s) as Ha; simpl in Hx;
    rewrite Hx in Ha; exists o; eexists; (split; [exact Ha|]); [left | right; eauto].
  destruct (outcome_terminal o); [eauto | done].
Qed.

(** Either the run ends here, or it goes on. *)
Ltac next_stage He Ht o s1 Ha Ho os :=
  apply executes_step in He as (o & s1 & Ha & [(t1 & Ho & ->)|(Ho & os & -> & He)]);
  [left; unfold trace_end, trace_terminal in Ht; simpl in Ht; rewrite Ho in Ht;
   injection Ht as <-; by eapply stop_verdict|].

(** A run that reaches the check exited with zero, so a decision accepts; and
    [WrongAnswer], the limits the guest does not report and [Cancelled] are never
    given. *)
Lemma executor_verdicts request s os s' t :
  Executes (H := stages) request ALGORITHM_BATCH_STAGES s os s' ->
  trace_end ALGORITHM_BATCH_STAGES os = Some t ->
  t_verdict t ∈ [Verdict.CompileError; Verdict.RuntimeError; Verdict.TimeLimitExceeded;
                 Verdict.SystemError] \/
  t = MkTerminal EvaluationStatus.Completed Verdict.Accepted (MkScore 1 1) /\ length os = 5.
Proof.
  unfold ALGORITHM_BATCH_STAGES. intros He Ht.
  next_stage He Ht o1 s1 Ha1 Ho1 os1.
  next_stage He Ht o2 s2 Ha2 Ho2 os2.
  next_stage He Ht o3 s3 Ha3 Ho3 os3.
  assert (Hexit : fx_last_run_exit (fst s3) = Some 0%Z).
  { destruct Ha3 as (_ & _ & Ha3). rewrite Ho3 in Ha3. simpl in Ha3.
    destruct Ha3 as [[_ ?]|[?|[?|Hf]]]; try done. by rewrite Hf in Ho3. }
  next_stage He Ht o4 s4 Ha4 Ho4 os4.
  assert (Hdec : outcome_decision o4 = Some (MkDecision Verdict.Accepted (MkScore 1 1))).
  { destruct Ha4 as (_ & _ & Ha4). destruct (Ha4 Hexit) as [Hf|?]; [|done]. by rewrite Hf in Ho4. }
  next_stage He Ht o5 s5 Ha5 Ho5 os5.
  inversion He; subst. right. unfold trace_end, trace_terminal in Ht. simpl in Ht.
  rewrite Ho5, Hdec in Ht. by injection Ht as <-.
Qed.

(** ** Attempts *)

Lemma firecracker_laws : valid (xc_node_id config) -> ExecutorLaws (H := stages) (FirecrackerExecutor * W).
Proof.
  intros Hnode. split; [|done]. intros context s. simpl.
  pose proof (execute_stage_answer context s) as Ha.
  destruct (execute_stage config context s) as [o s']. by destruct Ha.
Qed.

Definition batch_only (request : EvaluationRequest) : Prop :=
  Forall (fun c => cap_str c = "algorithm.batch") (er_required_capabilities request).

Definition attempt_provenance (request : EvaluationRequest) : ExecutionProvenance :=
  MkProvenance ExecutorKind.Firecracker false (rt_digest (er_runtime request))
    (Some (xc_node_id config)).

(** What an attempt answers: the result of the stages the guest was asked to
    run. Its only failures are foreign capabilities and a usage total that
    leaves its bounds. *)
Lemma attempt_characterised request fx w r :
  valid request -> valid (xc_node_id config) ->
  (fst (execute_attempt config request (fx, w)) = Ok r <->
   batch_only request /\
   exists os s' t,
     Executes (H := stages) request ALGORITHM_BATCH_STAGES (begin_attempt fx, w) os s' /\
     valid (trace_usage ResourceUsage_default os) /\
     trace_end ALGORITHM_BATCH_STAGES os = Some t /\
     r = expected_result request (attempt_provenance request) os t).
Proof.
  intros Hreq Hnode. pose proof (firecracker_laws Hnode) as Hlaws. unfold execute_attempt.
  destruct (evaluate request (begin_attempt fx, w)) as [x s] eqn:He. simpl fst.
  pose proof (evaluate_characterised (H0 := Hlaws) request (begin_attempt fx, w)) as Hiff.
  assert (Hsup : supported (H := stages) request (begin_attempt fx, w) <-> batch_only request).
  { unfold supported, batch_only. apply Forall_iff. intros c. simpl. apply String.eqb_eq. }
  split.
  - intros ->. apply Hiff in He as (Hs & _ & os & t & Hex & _ & Hu & Ht & ->); [|done].
    split; [by apply Hsup|]. by exists os, s, t.
  - intros (Hb & os & s' & t & Hex & Hu & Ht & ->).
    destruct (Hiff (expected_result request (attempt_provenance request) os t) s' Hreq) as [_ Hok].
    rewrite He in Hok. assert (Hx : (x, s) = (Ok (expected_result request (attempt_provenance request) os t), s')).
    { apply Hok. split; [by apply Hsup|]. split; [done|]. exists os, t.
      destruct (executor_conforms _ _ _ _ _ Hex). by split_and!. }
    by injection Hx.
Qed.

Lemma attempt_result_valid request fx w r :
  valid request -> valid (xc_node_id config) ->
  fst (execute_attempt config request (fx, w)) = Ok r -> valid r.
Proof.
  intros Hreq Hnode. pose proof (firecracker_laws Hnode) as Hlaws. unfold execute_attempt.
  destruct (evaluate request (begin_attempt fx, w)) as [x s] eqn:He. simpl. intros ->.
  exact (evaluate_result_is_valid (H0 := Hlaws) request _ r s Hreq He).
Qed.
End ExecutorLaws.

(** ** Isolation *)

Section Isolation.
Context {W : Type} `{HostOsLaws W, TokioRuntime W, SerdeJson, UnicodeText}.
Variable config : FirecrackerExecutorConfig.

(** A call that needs a runtime is refused in this context. *)
Definition refuses (w : W) : bool :=
  match tokio_context w with
  | InMultiThread | NoRuntime true => false
  | InOtherFlavor | NoRuntime false => true
  end.

(** The context of the attempt's thread is the same at every call. *)
Definition steady : Prop := forall w1 w2, tokio_context w1 = tokio_context w2.

Lemma block_on_vmm_spec {E A} (future : Eff (FirecrackerVm * W) E A) s :
  (refuses (snd s) = false /\ block_on_vmm future s = (Ok (fst (future s)), snd (future s))) \/
  (refuses (snd s) = true /\ exists e, block_on_vmm future s = (Err e, s)).
Proof.
  unfold block_on_vmm, refuses. destruct (tokio_context (snd s)) as [| |[]]; eauto;
    left; (split; [done|]); by destruct (future s).
Qed.

Section Baselines.
Context (others : W -> gset Z) `{!Baseline others}.

(** What is asked of a teardown that may be refused: processes that were sent a
    kill count among [others], or the context never changes. *)
Definition lenient : Prop := forall w, os_killed w ⊆ others w.
Hypothesis drop_mode : lenient \/ steady.

(** A machine the executor can get rid of. *)
Definition reapable (s : FirecrackerVm * W) : Prop :=
  tracked others s /\ (lenient \/ (refuses (snd s) = true -> vm_child (fst s) = None)).

Lemma reapable_quiet vm w w' : reapable (vm, w) -> quiet w w' -> reapable (vm, w').
Proof.
  intros [Ht Hm] Hq. split; [by apply (tracked_quiet _ _ w)|].
  destruct Hm as [Hl|Hm]; [by left|]. destruct drop_mode as [Hl|Hs]; [by left|]. right.
  simpl in *. unfold refuses in *. by rewrite (Hs w' w).
Qed.

(** The processes alive are [others] or belong to the executor's machine. *)
Definition contained (s : FirecrackerExecutor * W) : Prop :=
  match fx_vm (fst s) with
  | Some vm => reapable (vm, snd s)
  | None => os_running (snd s) ⊆ others (snd s)
  end.

Lemma contained_quiet fx w w' : contained (fx, w) -> quiet w w' -> contained (fx, w').
Proof.
  unfold contained. simpl. destruct (fx_vm fx) as [vm|]; [apply reapable_quiet|].
  intros Hw Hq. pose proof (baseline_quiet others ∅ w w') as Hb. set_solver.
Qed.

(** A handle without a process leaves none when it is dropped. *)
Lemma drop_childless vm w :
  tracked others (vm, w) -> vm_child vm = None ->
  os_running (vm_drop vm w) ⊆ others (vm_drop vm w).
Proof.
  intros Ht Hc. apply (tracked_killed others vm w); [done| |congruence].
  unfold vm_drop. rewrite Hc. destruct (VmPhase.needs_teardown _); [apply remove_sockets_quiet | done].
Qed.

Lemma abandon_reclaims vm w :
  reapable (vm, w) -> os_running (abandon vm w) ⊆ others (abandon vm w).
Proof.
  intros [Ht Hm]. unfold abandon.
  destruct (block_on_vmm_spec terminate (vm, w)) as [[_ ->]|[Href [e ->]]].
  - destruct (terminate_reclaims others vm w Ht) as (vm' & w' & -> & Hp & _ & Hrun). cbn [fst snd].
    unfold vm_drop. by rewrite Hp.
  - destruct Hm as [Hl|Hc]; [by apply drop_signals|]. by apply drop_childless; [|apply Hc].
Qed.

Lemma fx_teardown_reclaims s :
  contained s -> os_running (snd (fx_teardown s)) ⊆ others (snd (fx_teardown s)).
Proof.
  destruct s as [fx w]. unfold contained. simpl. destruct (fx_vm fx); [apply abandon_reclaims | done].
Qed.

(** A teardown or drop after a teardown has nothing left to release. *)
Lemma executor_drop_after_teardown s : executor_drop (fx_teardown s) = fx_teardown s.
Proof. by destruct s. Qed.

Lemma activate_contained channel vm fx w :
  fx_vm fx = None -> reapable (vm, w) -> contained (activate_session channel vm (fx, w)).
Proof. intros Hvm Ht. unfold activate_session, contained. simpl. by rewrite Hvm. Qed.

(** A session and its machine are held together. *)
Definition paired (fx : FirecrackerExecutor) : Prop := fx_session fx = None -> fx_vm fx = None.

Definition holds (s : FirecrackerExecutor * W) : Prop := contained s /\ paired (fst s).

(** A machine that booted was in a context that runs it; one that was refused
    has no process. *)
Lemma boot_reapable production vm w :
  tracked others (vm, w) -> vm_child vm = None ->
  reapable (snd (block_on_vmm (bootstrap production) (vm, w))).
Proof.
  intros Ht Hc. pose proof (bootstrap_keeps others production (vm, w) Ht) as Hk.
  destruct (block_on_vmm_spec (bootstrap production) (vm, w)) as [[Href ->]|[_ [e ->]]]; cbn [snd].
  - split; [exact Hk|]. destruct drop_mode as [Hl|Hs]; [by left|]. right. intros Href'. exfalso.
    unfold refuses in *. rewrite (Hs _ w) in Href'. simpl in Href. congruence.
  - split; [done|]. by right.
Qed.

Lemma ensure_session_holds : keeps holds (ensure_session (W := W) config).
Proof.
  intros [fx w] [Hc Hp]. unfold ensure_session. destruct (fx_session fx) as [channel|] eqn:Hs; [done|].
  assert (Hvm : fx_vm fx = None) by (by apply Hp).
  assert (Hw : os_running w ⊆ others w) by (unfold contained in Hc; simpl in Hc; by rewrite Hvm in Hc).
  set (vm := FirecrackerVm_new _ _ _).
  pose proof (boot_reapable (xc_production config) vm w
                (tracked_new others (xc_vm_config config) (xc_firecracker_path config)
                   (xc_api_socket config) w Hw) eq_refl) as Ht.
  destruct (block_on_vmm (bootstrap (xc_production config)) (vm, w)) as [r [vm1 w1]].
  simpl in Ht.
  assert (Hfail : forall w2, reapable (vm1, w2) -> holds (fx, abandon vm1 w2)).
  { intros w2 Ht2. split; [|done]. unfold contained. simpl. rewrite Hvm. by apply abandon_reclaims. }
  destruct r as [[[]|e]|e]; [|by apply Hfail|by apply Hfail].
  pose proof (open_guest_channel_calm vm1 w1) as Hq.
  destruct (open_guest_channel vm1 w1) as [[channel|e] w2]; simpl in Hq.
  - split; [|done]. apply activate_contained; [done|]. by eapply reapable_quiet.
  - apply Hfail. by eapply reapable_quiet.
Qed.

Lemma over_channel_holds {A} (call : Eff W (Halt FirecrackerError.t) A) :
  calm call -> keeps holds (over_channel call).
Proof.
  intros Hcalm [fx w] [Hc Hp]. unfold over_channel. specialize (Hcalm w).
  destruct (call w) as [r w']. split; [|done]. by eapply contained_quiet.
Qed.

Lemma on_executor_holds f :
  (forall fx, fx_vm (f fx) = fx_vm fx /\ fx_session (f fx) = fx_session fx) ->
  keeps holds (on_executor (W := W) f).
Proof.
  intros Hf [fx w] [Hc Hp]. unfold on_executor, eff_modify. destruct (Hf fx) as [Hvm Hs].
  unfold holds, contained, paired in *. simpl in *. by rewrite Hvm, Hs.
Qed.

Lemma holds_pure {A} (m : FxM (W := W) A) : (forall s, snd (m s) = s) -> keeps holds m.
Proof. intros Hm s Hs. by rewrite Hm. Qed.

Lemma get_session_holds : keeps holds (get_session (W := W)).
Proof. apply holds_pure. by intros []. Qed.

Lemma ensure_negotiated_holds : keeps holds (ensure_negotiated (W := W)).
Proof.
  unfold ensure_negotiated. apply keeps_bind; [by apply holds_pure|]. intros [fx w].
  apply keeps_if; [by apply holds_pure|]. apply keeps_bind; [apply get_session_holds|].
  intros session. apply keeps_bind; [apply over_channel_holds, send_calm|]. intros _.
  apply keeps_bind; [apply over_channel_holds, recv_calm|].
  intros []; try (by apply holds_pure). destruct supported; [|by apply holds_pure].
  by apply on_executor_holds.
Qed.

Lemma run_guest_stage_holds stage argv wall :
  keeps holds (run_guest_stage (W := W) config stage argv wall).
Proof.
  unfold run_guest_stage. apply keeps_bind; [apply ensure_session_holds|]. intros _.
  apply keeps_bind; [apply ensure_negotiated_holds|]. intros _.
  apply keeps_bind; [apply get_session_holds|]. intros session.
  apply keeps_bind; [apply over_channel_holds, send_calm|]. intros _.
  apply keeps_bind; [apply over_channel_holds, recv_calm|].
  intros []; try (by apply holds_pure). apply keeps_bind; [|intros; by apply holds_pure].
  apply keeps_if; [by apply on_executor_holds | by apply holds_pure].
Qed.

Lemma stage_outcome_holds stage : keeps holds (stage_outcome (W := W) config stage).
Proof.
  destruct stage; simpl; try apply run_guest_stage_holds; try (by apply holds_pure).
  apply keeps_bind; [by apply holds_pure|]. intros [fx w].
  destruct (fx_last_run_exit fx); by apply holds_pure.
Qed.

Lemma execute_stage_holds context s :
  holds s -> holds (snd (execute_stage (W := W) config context s)).
Proof.
  intros Hs. unfold execute_stage. destruct (fx_terminated (fst s)); [done|].
  pose proof (stage_outcome_holds (sc_stage context) s Hs) as Hk.
  destruct (stage_outcome config (sc_stage context) s) as [[o|e] s']; [done|]. simpl in *.
  apply proj1, fx_teardown_reclaims in Hk. by destruct s'.
Qed.

(** Between attempts the executor holds nothing. *)
Definition idle (fx : FirecrackerExecutor) : Prop :=
  fx_session fx = None /\ fx_vm fx = None /\ (fx_terminated fx = true \/ fx = fresh_executor).

Lemma begin_attempt_idle fx : idle fx -> begin_attempt fx = fresh_executor.
Proof. destruct fx as [? ? ? ? []]; intros (Hs & Hv & [?|?]); simpl in *; by subst. Qed.

(** Whatever earlier attempts did, an attempt starts afresh; and in either mode
    what is alive after it is one of [others]. *)
Lemma attempt_isolation request fx w :
  idle fx -> os_running w ⊆ others w ->
  let '(r, (fx', w')) := execute_attempt (W := W) config request (fx, w) in
  execute_attempt config request (fresh_executor, w) = (r, (fx', w')) /\
  idle fx' /\ os_running w' ⊆ others w'.
Proof.
  intros Hidle Hw. unfold execute_attempt. rewrite (begin_attempt_idle _ Hidle).
  change (begin_attempt fresh_executor) with fresh_executor.
  pose proof (evaluate_keeps (H := firecracker_stages config) holds request
                (fresh_executor, w)) as Hk.
  destruct (evaluate request (fresh_executor, w)) as [r s].
  assert (Hs : holds s).
  { apply Hk; [intros context s'; apply execute_stage_holds|]. by split. }
  pose proof (fx_teardown_reclaims _ (proj1 Hs)) as Hrun. destruct s as [fx' w'].
  destruct (fx_teardown (fx', w')) as [fx2 w2] eqn:Ht. split; [done|]. split; [|done].
  injection Ht as <- _. split; [done|]. split; [done|]. by left.
Qed.
End Baselines.
End Isolation.
