(* ===== verification/Agent.v ===== *)
(** * The guest agent

    Models [crates/openoj-guest-agent/src/lib.rs]: the agent inside the microVM
    that answers one bounded frame at a time, stores uploaded inputs and runs one
    command under a wall-clock budget. The guest's processes, files, clock and
    control stream are the interface [GuestOs]; SHA-256 is the function of the
    [sha2] crate. *)

From S2P Require Import Prelude Json Codec Text Guest Effects Host.

Definition SUPPORTED_CAPABILITIES : list string := ["algorithm.batch"].
Definition INPUT_DIR : string := "inputs".
Definition TIMEOUT_EXIT_CODE : Z := 124.
Definition BOOT_OUTPUT_LIMIT : Z := 1048576.
Definition BOOT_DIAGNOSTICS : nat := 32.
Definition BOOT_DIAGNOSTICS_BYTES : Z := 8192.
Definition WAIT_POLL : Z := 10.

Module AgentError.
Inductive t : Type :=
  | Io (message : string)
  | EmptyArgv
  | UnsafeName (name : string)
  | UnexpectedMessage (message_type : string).

#[global] Instance eq_dec : EqDecision t.
Proof. solve_decision. Defined.
End AgentError.

(** Why a computation of the agent has no value: it returned an error, it waits
    for ever in a read that does not return, or the model ran out of fuel. *)
Module AgentHalt.
Inductive t : Type :=
  | Raised (error : AgentError.t)
  | Blocked
  | OutOfFuel.
End AgentHalt.

Inductive Pipe : Type := Stdout | Stderr.

(** A failing call reports the text of its [io::Error]. [gs_read] yields at most
    as many bytes as asked for, and none at the end; [gs_read_pipe] fills a
    buffer of 8192 bytes likewise, but does not return ([None]) while the pipe is
    empty and some process, the command or one it left behind, holds it open. *)
Class GuestOs (W : Type) := {
  gs_spawn : list string -> string -> W -> result string Z * W;
  gs_try_wait : Z -> W -> result string (option (option Z)) * W;
  gs_kill_wait : Z -> W -> W;
  gs_read_pipe : Z -> Pipe -> W -> option (result string bytes * W);
  gs_create_dir_all : string -> W -> result string unit * W;
  gs_write_file : string -> bytes -> W -> result string unit * W;
  gs_now : W -> Z;
  gs_sleep : Z -> W -> W;
  gs_read : nat -> W -> result string bytes * W;
  gs_read_exact : nat -> W -> result string bytes * W;
  gs_send : bytes -> W -> result string unit * W
}.

Class Sha256 := { sha256 : bytes -> bytes }.

Definition accepts_capabilities (capabilities : list string) : bool :=
  negb (bool_decide (capabilities = [])) &&
  forallb (fun capability => existsb (String.eqb capability) SUPPORTED_CAPABILITIES) capabilities.

(** ** Uploads *)

Definition unsafe_name (name : string) : bool :=
  is_empty name || contains "/" name || contains "\" name || String.eqb name ".."
  || String.prefix ".." name.

Definition safe_input_path (work name : string) : result AgentError.t string :=
  if unsafe_name name then Err (AgentError.UnsafeName name)
  else Ok (path_join (path_join work INPUT_DIR) name).

(** [{byte:02x}]. *)
Definition hex_digit (n : Z) : Ascii.ascii :=
  Ascii.ascii_of_N (Z.to_N (if (n <? 10)%Z then 48 + n else 87 + n)).

Fixpoint hex (digest : bytes) : string :=
  match digest with
  | EmptyString => EmptyString
  | String byte digest' =>
      String (hex_digit (Z.shiftr (byte_code byte) 4))
        (String (hex_digit (Z.land (byte_code byte) 15)) (hex digest'))
  end.

(** ** Output *)

Definition truncate_bytes (contents : bytes) (limit : Z) : bytes :=
  String.substring 0 (Z.to_nat (Z.min limit (str_len contents))) contents.

Definition build_diagnostics `{UnicodeText} (stderr : bytes) (limit : nat) : list GuestDiagnostic :=
  if is_empty stderr then []
  else map (GuestDiagnostic_new "guest_stderr") (take limit (str_lines (from_utf8_lossy stderr))).

Record CommandOutput : Type := MkCommandOutput {
  co_exit_code : Z;
  co_stdout : bytes;
  co_stderr : bytes
}.

Record StageOutputParts : Type := MkStageOutputParts {
  so_exit_code : Z;
  so_output_digest : string;
  so_output_bytes : Z;
  so_usage : GuestUsage;
  so_diagnostics : list GuestDiagnostic
}.

(** [u64::try_from(_).unwrap_or_default()]. *)
Definition u64_or_default (n : Z) : Z := if in_range 0 u64_max n then n else 0.

Section Agent.
Context {W : Type} `{GuestOs W, Sha256, SerdeJson, UnicodeText}.

Definition AgentM (A : Type) : Type := Eff W AgentHalt.t A.

(** [?] on an [io::Result]. *)
Definition agent_io {A} (call : W -> result string A * W) : AgentM A :=
  eff_map_err (fun error => AgentHalt.Raised (AgentError.Io error)) call.

Definition agent_lift {A} (r : result AgentError.t A) : AgentM A := eff_lift (map_err AgentHalt.Raised r).

Definition write_input (work name digest : string) (contents : bytes) : AgentM bool :=
  io* path := agent_lift (safe_input_path work name) in
  if negb (String.eqb digest (hex (sha256 contents))) then eff_ret false
  else
    run* match path_parent path with
         | Some parent => agent_io (gs_create_dir_all parent)
         | None => eff_ret tt
         end in
    run* agent_io (gs_write_file path contents) in
    eff_ret true.

(** [?] on a read that may never return. *)
Definition agent_wait {A} (call : W -> option (result string A * W)) : AgentM A := fun w =>
  match call w with
  | Some (r, w') => (map_err (fun error => AgentHalt.Raised (AgentError.Io error)) r, w')
  | None => (Err AgentHalt.Blocked, w)
  end.

(** The loop of [read_pipe]: at most [limit] bytes are kept. *)
Fixpoint read_pipe_loop (fuel : nat) (child : Z) (pipe : Pipe) (limit : Z) (out : bytes)
    : AgentM bytes :=
  match fuel with
  | O => eff_fail AgentHalt.OutOfFuel
  | S fuel' =>
      io* buf := agent_wait (gs_read_pipe child pipe) in
      if (str_len buf =? 0)%Z then eff_ret out
      else if (limit <=? str_len out)%Z then eff_ret out
      else
        read_pipe_loop fuel' child pipe limit
          (out +:+ truncate_bytes buf (limit - str_len out))
  end.

(** Every round but the last keeps a byte. *)
Definition read_pipe (child : Z) (pipe : Pipe) (limit : Z) : AgentM bytes :=
  read_pipe_loop (Z.to_nat (limit + 2)) child pipe limit EmptyString.

Fixpoint wait_rounds (fuel : nat) (child : Z) (start budget : Z) : AgentM CommandOutput :=
  match fuel with
  | O => eff_fail AgentHalt.OutOfFuel
  | S fuel' =>
      io* status := agent_io (gs_try_wait child) in
      match status with
      | Some code =>
          io* stdout := read_pipe child Stdout BOOT_OUTPUT_LIMIT in
          io* stderr := read_pipe child Stderr BOOT_DIAGNOSTICS_BYTES in
          eff_ret (MkCommandOutput (default (-1)%Z code) stdout stderr)
      | None =>
          io* w := eff_get in
          if (budget <=? gs_now w - start)%Z then
            run* eff_modify (gs_kill_wait child) in
            eff_ret (MkCommandOutput TIMEOUT_EXIT_CODE EmptyString "guest stage timed out")
          else
            run* eff_modify (gs_sleep WAIT_POLL) in
            wait_rounds fuel' child start budget
      end
  end.

(** One round per poll interval of the budget, and two more. *)
Definition wait_with_timeout (child budget : Z) : AgentM CommandOutput :=
  io* w := eff_get in
  wait_rounds (retry_fuel budget WAIT_POLL) child (gs_now w) budget.

Definition run_command (argv : list string) (work : string) (wall_time_ms : Z)
    : AgentM StageOutputParts :=
  if bool_decide (argv = []) then eff_fail (AgentHalt.Raised AgentError.EmptyArgv)
  else
    io* started := eff_get in
    io* child := agent_io (gs_spawn argv work) in
    io* output := wait_with_timeout child wall_time_ms in
    io* finished := eff_get in
    let elapsed := (gs_now finished - gs_now started)%Z in
    let stdout := truncate_bytes (co_stdout output) BOOT_OUTPUT_LIMIT in
    let combined := stdout +:+ co_stderr output in
    let digest := hex (sha256 combined) in
    io* output_bytes := agent_lift (ok_or (AgentError.Io "output length overflow")
                          (if in_range 0 u64_max (str_len combined)
                           then Some (str_len combined) else None)) in
    let diagnostics := build_diagnostics (co_stderr output) BOOT_DIAGNOSTICS in
    let usage := MkGuestUsage (u64_or_default elapsed) (u64_or_default elapsed) 0 output_bytes in
    eff_ret (MkStageOutputParts (co_exit_code output) digest output_bytes usage diagnostics).

Definition stage_output (stage : Stage.t) (argv : list string) (work : string) (wall_time_ms : Z)
    : AgentM Message :=
  io* parts := run_command argv work wall_time_ms in
  eff_ret (StageOutput stage (so_exit_code parts) (so_output_digest parts) (so_output_bytes parts)
             (so_usage parts) (so_diagnostics parts)).

Definition handle (message : Message) (work : string) : AgentM (option Message) :=
  match message with
  | Negotiate capabilities => eff_ret (Some (Negotiated (accepts_capabilities capabilities)))
  | UploadInput name digest contents =>
      io* accepted := write_input work name digest contents in
      eff_ret (Some (UploadAck name accepted))
  | Build argv wall_time_ms =>
      io* reply := stage_output Stage.Build argv work wall_time_ms in eff_ret (Some reply)
  | Run argv wall_time_ms =>
      io* reply := stage_output Stage.Run argv work wall_time_ms in eff_ret (Some reply)
  | StageEvidence kind => eff_ret (Some (EvidenceAck kind true))
  | Cancel => eff_ret (Some Cancelled)
  | Heartbeat => eff_ret (Some Ack)
  | other => eff_fail (AgentHalt.Raised (AgentError.UnexpectedMessage (message_type other)))
  end.

(** The answer goes out as one frame. *)
Definition respond (response : option Message) : AgentM bool :=
  match response with
  | Some response =>
      io* frame := agent_lift (map_err (fun error =>
        AgentError.Io ("encode " +:+ CodecError_text error)) (encode response)) in
      run* agent_io (gs_send frame) in
      eff_ret true
  | None => eff_ret true
  end.

(** [serve_frame]; [false] when the peer closed the stream. *)
Definition serve_frame (work : string) : AgentM bool :=
  io* length_buf := agent_io (gs_read 4) in
  if is_empty length_buf then eff_ret false
  else
    match length_buf with
    | String b0 (String b1 (String b2 (String b3 _))) =>
        let length := from_be_bytes b0 b1 b2 b3 in
        if (MAX_FRAME_BYTES <? length)%Z
        then eff_fail (AgentHalt.Raised (AgentError.Io ("frame length " +:+ decimal length +:+ " exceeds bound")))
        else
          io* body := agent_io (gs_read_exact (Z.to_nat length)) in
          io* message := agent_lift (map_err (fun error =>
            AgentError.Io ("decode " +:+ CodecError_text error)) (decode (length_buf +:+ body))) in
          io* response := handle message work in
          respond response
    | _ => eff_fail (AgentHalt.Raised (AgentError.Io "truncated length prefix"))
    end.

(** The port and the directory [main] serves from. *)
Definition agent_port (value : option string) : Z :=
  default 8266%Z (value ← value; parse_unsigned u32_max value).

Definition agent_work_dir (value : option string) : string := default "/work" value.

(** The loop of [main]: frames are served until the peer closes the stream. *)
Fixpoint serve (frames : nat) (work : string) : AgentM unit :=
  match frames with
  | O => eff_fail AgentHalt.OutOfFuel
  | S frames' =>
      io* more := serve_frame work in
      if (more : bool) then serve frames' work else eff_ret tt
  end.
End Agent.
