(* ===== verification/AgentLaws.v ===== *)
(** * What the guest agent promises

    The wait for a command ends with the command or with its budget, unless a
    read of a pipe of the ended command blocks; every report is within the bounds
    of the protocol and of the host, uploads stay inside the input directory, and
    a frame the host encodes is handled as the message it stands for, which is
    answered unless one of the listed failures ends the session. *)

From S2P Require Import Prelude Value Evaluation EvalResult Application Json Codec Text Guest GuestLaws Evaluator Effects Firecracker Host Machine MachineLaws Agent.

(** Time does not go back, and exit codes are 32-bit integers. *)
Class GuestOsLaws (W : Type) `{GuestOs W} := {
  gs_try_wait_law : forall child w, (gs_now w <= gs_now (snd (gs_try_wait child w)))%Z /\
    match fst (gs_try_wait child w) with
    | Ok (Some (Some code)) => is_i32 code
    | _ => True
    end;
  gs_sleep_law : forall duration w, (gs_now w + duration <= gs_now (gs_sleep duration w))%Z
}.

Class Sha256Laws `{Sha256} := { sha256_length : forall s, String.length (sha256 s) = 32%nat }.

(** ** Bytes *)

Lemma truncate_bytes_len contents limit :
  (0 <= limit)%Z -> str_len (truncate_bytes contents limit) = Z.min limit (str_len contents).
Proof.
  intros Hl. unfold truncate_bytes. pose proof (str_len_nonneg contents).
  unfold str_len in *. rewrite length_substring; lia.
Qed.

Lemma boundary_before_le value n : (boundary_before value n <= n)%nat.
Proof. induction n as [|n IH]; simpl; [done|]. destruct (is_char_boundary _ _); lia. Qed.

Lemma truncate_length value maximum : (String.length (truncate value maximum) <= maximum)%nat.
Proof.
  unfold truncate. destruct (Nat.leb_spec (String.length value) maximum); [done|].
  pose proof (boundary_before_le value maximum). rewrite length_substring; lia.
Qed.

Lemma hex_digit_ok n : (0 <= n < 16)%Z -> lower_hex_byte (hex_digit n) = true.
Proof.
  intros Hn. unfold lower_hex_byte, is_ascii_digit, hex_digit.
  destruct (Z.ltb_spec n 10); rewrite byte_code_of_Z by lia.
  - by rewrite (proj2 (in_range_true 48 57 _)) by lia.
  - rewrite (proj2 (in_range_true 97 102 _)) by lia. by rewrite orb_true_r.
Qed.

Lemma hex_ok digest : str_all lower_hex_byte (hex digest) = true.
Proof.
  induction digest as [|c digest IH]; simpl; [done|]. pose proof (byte_code_range c) as Hc.
  unfold u8_max in Hc. rewrite !hex_digit_ok, IH; [done| |].
  - change 15%Z with (Z.ones 4). rewrite Z.land_ones by lia. apply Z.mod_pos_bound. lia.
  - rewrite Z.shiftr_div_pow2 by lia. split; [apply Z.div_pos; lia | apply Z.div_lt_upper_bound; lia].
Qed.

Lemma hex_len digest : String.length (hex digest) = (2 * String.length digest)%nat.
Proof. induction digest as [|c digest IH]; simpl; [done|]. lia. Qed.

(** The digest a report carries is one the host can parse. *)
Lemma hex_digest_ok `{Sha256Laws} contents : digest_hex_ok (hex (sha256 contents)) = true.
Proof.
  unfold digest_hex_ok. rewrite hex_ok. unfold str_len. by rewrite hex_len, sha256_length.
Qed.

Lemma take_map_length {A B} (f : A -> B) n l : (length (map f (take n l)) <= n)%nat.
Proof. rewrite length_map, length_take. lia. Qed.

(** ** Diagnostics *)

Lemma build_diagnostics_bounded `{UnicodeText} stderr :
  let ds := build_diagnostics stderr BOOT_DIAGNOSTICS in
  (len ds <= MAX_DIAGNOSTICS)%Z /\ valid ds /\ Forall (fun d => gd_code d = "guest_stderr") ds.
Proof.
  simpl. unfold build_diagnostics. destruct (is_empty stderr); [by repeat constructor|].
  split; [unfold len, MAX_DIAGNOSTICS; pose proof (take_map_length (GuestDiagnostic_new "guest_stderr") BOOT_DIAGNOSTICS (str_lines (from_utf8_lossy stderr))); unfold BOOT_DIAGNOSTICS in *; lia|].
  split; apply List.Forall_forall; intros d [line [<- _]]%in_map_iff; [apply truncate_length | done].
Qed.

(** ** Uploads *)

Section Uploads.
Context {W : Type} `{GuestOs W, Sha256}.

(** An upload under a wrong digest writes nothing; otherwise the contents are
    written below the input directory, and only then acknowledged. *)
Lemma write_input_spec work name digest contents :
  write_input (W := W) work name digest contents =
  match safe_input_path work name with
  | Err e => eff_fail (AgentHalt.Raised e)
  | Ok path =>
      if bool_decide (digest = hex (sha256 contents)) then
        run* match path_parent path with
             | Some parent => agent_io (gs_create_dir_all parent)
             | None => eff_ret tt
             end in
        run* agent_io (gs_write_file path contents) in
        eff_ret true
      else eff_ret false
  end.
Proof.
  unfold write_input. destruct (safe_input_path work name) as [path|e]; [|done].
  change (eff_bind (agent_lift (Ok path)) ?k) with (k path). cbn beta.
  destruct (String.eqb_spec digest (hex (sha256 contents))) as [->|Hne];
    [by rewrite bool_decide_eq_true_2 | by rewrite bool_decide_eq_false_2].
Qed.
End Uploads.

(** ** Commands *)

Section AgentLaws.
Context {W : Type} `{GuestOsLaws W, Sha256Laws, SerdeJson, UnicodeText}.

(** A computation that does not run out of fuel, and fails only for a reason in
    [R], where [None] stands for a read that never returns. *)
Definition ends {A} (R : option AgentError.t -> Prop) (m : AgentM (W := W) A) : Prop :=
  forall w, match fst (m w) with
            | Ok _ => True
            | Err (AgentHalt.Raised e) => R (Some e)
            | Err AgentHalt.Blocked => R None
            | Err AgentHalt.OutOfFuel => False
            end.

Lemma ends_bind {A B} R (m : AgentM (W := W) A) (k : A -> AgentM B) :
  ends R m -> (forall a, ends R (k a)) -> ends R (eff_bind m k).
Proof.
  intros Hm Hk w. unfold eff_bind. specialize (Hm w).
  destruct (m w) as [[a|[e| |]] w']; simpl in *; [apply Hk | done..].
Qed.

Lemma ends_if {A} R (b : bool) (m n : AgentM (W := W) A) : ends R m -> ends R n -> ends R (if b then m else n).
Proof. by destruct b. Qed.

Lemma ret_ends {A} R (a : A) : ends R (eff_ret (S := W) (E := AgentHalt.t) a).
Proof. done. Qed.

Lemma raise_ends {A} (R : option AgentError.t -> Prop) error :
  R (Some error) -> ends (A := A) R (eff_fail (S := W) (AgentHalt.Raised error)).
Proof. by intros ? w. Qed.

Lemma ends_weaken {A} (R R' : option AgentError.t -> Prop) (m : AgentM (W := W) A) :
  (forall e, R e -> R' e) -> ends R m -> ends R' m.
Proof. intros Hr Hm w. specialize (Hm w). destruct (fst (m w)) as [|[]]; auto. Qed.

(** Some call of the operating system reports [e]. *)
Definition call_fails (e : string) : Prop :=
  (exists argv work w, fst (gs_spawn (W := W) argv work w) = Err e) \/
  (exists child w, fst (gs_try_wait (W := W) child w) = Err e) \/
  (exists child pipe w w', gs_read_pipe (W := W) child pipe w = Some (Err e, w')) \/
  (exists path w, fst (gs_create_dir_all (W := W) path w) = Err e) \/
  (exists path contents w, fst (gs_write_file (W := W) path contents w) = Err e).

(** A command has exited, and a read of one of its pipes does not return. *)
Definition pipe_blocks : Prop :=
  exists child code w1 pipe w2,
    fst (gs_try_wait (W := W) child w1) = Ok (Some code) /\
    gs_read_pipe (W := W) child pipe w2 = None.

(** What may keep a command from being reported once it was spawned. *)
Definition interrupted (e : option AgentError.t) : Prop :=
  match e with
  | Some (AgentError.Io message) => call_fails message
  | Some _ => False
  | None => pipe_blocks
  end.

Definition failed (e : option AgentError.t) : Prop :=
  exists error, e = Some (AgentError.Io error) /\ call_fails error.

Lemma agent_io_ends {A} (call : W -> result string A * W) :
  (forall w e, fst (call w) = Err e -> call_fails e) -> ends failed (agent_io call).
Proof.
  intros Hc w. unfold agent_io, eff_map_err. specialize (Hc w).
  destruct (call w) as [[a|e] w']; [done|]. exists e. split; [done|]. by apply Hc.
Qed.

(** A pipe is read to its bound or its end, and no further. *)
Lemma read_pipe_loop_spec fuel child pipe limit out w :
  (str_len out <= limit)%Z -> (limit - str_len out + 2 <= Z.of_nat fuel)%Z ->
  match fst (read_pipe_loop (W := W) fuel child pipe limit out w) with
  | Ok contents => (str_len contents <= limit)%Z
  | Err (AgentHalt.Raised (AgentError.Io e)) => call_fails e
  | Err AgentHalt.Blocked => exists w2, gs_read_pipe child pipe w2 = None
  | Err _ => False
  end.
Proof.
  revert out w. induction fuel as [|fuel IH]; intros out w Hl Hf; [lia|].
  cbn [read_pipe_loop]. unfold eff_bind, agent_wait.
  destruct (gs_read_pipe child pipe w) as [[[buf|e] w']|] eqn:Hread; simpl; [| |by exists w].
  2:{ do 2 right. left. by exists child, pipe, w, w'. }
  destruct (Z.eqb_spec (str_len buf) 0) as [Hz|Hz]; [done|].
  destruct (Z.leb_spec limit (str_len out)); [done|].
  pose proof (str_len_nonneg buf). pose proof (str_len_nonneg out).
  pose proof (truncate_bytes_len buf (limit - str_len out) ltac:(lia)) as Ht.
  apply IH; rewrite str_len_app, Ht; lia.
Qed.

Lemma read_pipe_spec child pipe limit w :
  (0 <= limit)%Z ->
  match fst (read_pipe (W := W) child pipe limit w) with
  | Ok contents => (str_len contents <= limit)%Z
  | Err (AgentHalt.Raised (AgentError.Io e)) => call_fails e
  | Err AgentHalt.Blocked => exists w2, gs_read_pipe child pipe w2 = None
  | Err _ => False
  end.
Proof. intros Hl. apply read_pipe_loop_spec; unfold str_len; simpl String.length; lia. Qed.

(** Only the pipes of a command that exited are read. *)
Lemma read_pipe_ends child code pipe limit w1 :
  (0 <= limit)%Z -> fst (gs_try_wait child w1) = Ok (Some code) ->
  ends interrupted (read_pipe (W := W) child pipe limit).
Proof.
  intros Hl Hexit w. pose proof (read_pipe_spec child pipe limit w Hl) as Hs.
  destruct (fst (read_pipe child pipe limit w)) as [|[[]| |]]; try done.
  destruct Hs as [w2 Hs]. by exists child, code, w1, pipe, w2.
Qed.

(** What a command may leave behind. *)
Definition output_bounded (o : CommandOutput) : Prop :=
  is_i32 (co_exit_code o) /\ (str_len (co_stdout o) <= BOOT_OUTPUT_LIMIT)%Z /\
  (str_len (co_stderr o) <= BOOT_DIAGNOSTICS_BYTES)%Z.

Lemma wait_rounds_bounded fuel child start budget w o w' :
  wait_rounds (W := W) fuel child start budget w = (Ok o, w') -> output_bounded o.
Proof.
  revert w. induction fuel as [|fuel IH]; intros w; [done|]. cbn [wait_rounds].
  rewrite eff_bind_Ok. intros (status & w1 & Hs & Hr).
  pose proof (gs_try_wait_law child w) as [_ Hcode]. unfold agent_io, eff_map_err in Hs.
  destruct (gs_try_wait child w) as [st w1']. simpl in Hcode. injection Hs as Hs <-.
  apply map_err_Ok_inv in Hs as ->. destruct status as [code|].
  - apply eff_bind_Ok in Hr as (stdout & w2 & Hout & Hr).
    apply eff_bind_Ok in Hr as (stderr & w3 & Herr & [= <- _]).
    pose proof (read_pipe_spec child Stdout BOOT_OUTPUT_LIMIT w1' ltac:(done)) as Ho. rewrite Hout in Ho.
    pose proof (read_pipe_spec child Stderr BOOT_DIAGNOSTICS_BYTES w2 ltac:(done)) as He.
    rewrite Herr in He. split; [|by split]. simpl. by destruct code.
  - apply eff_bind_Ok in Hr as (w2 & ? & [= <- <-] & Hr).
    destruct (_ <=? _)%Z; [|by apply IH in Hr]. injection Hr as <- _. by split_and!.
Qed.

(** The rounds end by the budget. *)
Lemma wait_rounds_ends fuel child start budget w :
  (Z.max 0 (budget - (gs_now w - start)) <= (Z.of_nat fuel - 1) * WAIT_POLL)%Z ->
  match fst (wait_rounds (W := W) fuel child start budget w) with
  | Ok _ => True
  | Err (AgentHalt.Raised e) => interrupted (Some e)
  | Err AgentHalt.Blocked => interrupted None
  | Err AgentHalt.OutOfFuel => False
  end.
Proof.
  revert w. induction fuel as [|fuel IH]; intros w Hf; [unfold WAIT_POLL in Hf; lia|].
  cbn [wait_rounds]. unfold eff_bind at 1, agent_io, eff_map_err.
  pose proof (gs_try_wait_law child w) as [Hnow _].
  destruct (gs_try_wait child w) as [[[code|]|e] w1] eqn:Hw; simpl map_err.
  - assert (Hexit : fst (gs_try_wait child w) = Ok (Some code)) by (by rewrite Hw).
    apply (ends_bind interrupted); [by eapply read_pipe_ends|]. intros stdout.
    by apply ends_bind; [eapply read_pipe_ends|].
  - cbv iota beta. change (eff_bind eff_get ?k w1) with (k w1 w1).
    cbn beta. destruct (Z.leb_spec budget (gs_now w1 - start)); [done|].
    change (eff_bind (eff_modify ?f) ?k w1) with (k tt (f w1)). cbn beta. apply IH. pose proof (gs_sleep_law WAIT_POLL w1).
    simpl in Hnow. unfold WAIT_POLL in *. destruct fuel; lia.
  - right. left. exists child, w. by rewrite Hw.
Qed.

Lemma retry_fuel_enough budget :
  (0 <= budget)%Z -> (budget <= (Z.of_nat (retry_fuel budget WAIT_POLL) - 1) * WAIT_POLL)%Z.
Proof.
  intros Hb. unfold retry_fuel. pose proof (Z.div_mod budget WAIT_POLL ltac:(done)) as Hdiv.
  pose proof (Z.mod_pos_bound budget WAIT_POLL ltac:(done)) as Hmod.
  assert (0 <= budget / WAIT_POLL)%Z by (apply Z.div_pos; [lia | done]).
  unfold WAIT_POLL in *. lia.
Qed.

Lemma wait_with_timeout_ends child budget :
  (0 <= budget)%Z -> ends interrupted (wait_with_timeout (W := W) child budget).
Proof.
  intros Hb w. unfold wait_with_timeout, eff_bind, eff_get. apply wait_rounds_ends.
  pose proof (retry_fuel_enough budget Hb). lia.
Qed.

(** More rounds change nothing once they were enough. *)
Lemma wait_rounds_more fuel more child start budget w :
  fst (wait_rounds (W := W) fuel child start budget w) <> Err AgentHalt.OutOfFuel ->
  wait_rounds (W := W) (fuel + more) child start budget w = wait_rounds fuel child start budget w.
Proof.
  revert w. induction fuel as [|fuel IH]; intros w Hends; [done|].
  cbn [wait_rounds Nat.add] in *. unfold eff_bind at 1 in Hends. unfold eff_bind at 1.
  symmetry. unfold eff_bind at 1. symmetry.
  destruct (agent_io (gs_try_wait child) w) as [[[code|]|e] w1]; [done| |done].
  change (eff_bind eff_get ?k w1) with (k w1 w1) in *. cbn beta in *.
  destruct (budget <=? gs_now w1 - start)%Z; [done|].
  change (eff_bind (eff_modify ?f) ?k w1) with (k tt (f w1)) in *. cbn beta in *. by apply IH.
Qed.

(** What becomes of a command that never exits: it is killed, not before its
    budget is over. *)
Lemma wait_rounds_timeout fuel child start budget w :
  (forall w, fst (gs_try_wait child w) = Ok None) ->
  fst (wait_rounds (W := W) fuel child start budget w) <> Err AgentHalt.OutOfFuel ->
  exists w1, (budget <= gs_now w1 - start)%Z /\
    wait_rounds (W := W) fuel child start budget w =
      (Ok (MkCommandOutput TIMEOUT_EXIT_CODE EmptyString "guest stage timed out"), gs_kill_wait child w1).
Proof.
  intros Hrun. revert w. induction fuel as [|fuel IH]; intros w Hends; [done|].
  cbn [wait_rounds] in *. unfold eff_bind at 1 in Hends. unfold eff_bind at 1.
  unfold agent_io, eff_map_err in *.
  specialize (Hrun w). destruct (gs_try_wait child w) as [r w1]. simpl in Hrun. subst r.
  simpl map_err in *. cbv iota beta in *. change (eff_bind eff_get ?k w1) with (k w1 w1) in *.
  cbn beta in *. destruct (Z.leb_spec budget (gs_now w1 - start)); [by exists w1|]. by apply IH.
Qed.

Lemma wait_with_timeout_spec child budget w :
  (0 <= budget)%Z ->
  (forall rounds, (retry_fuel budget WAIT_POLL <= rounds)%nat ->
     wait_rounds rounds child (gs_now w) budget w = wait_with_timeout child budget w) /\
  ((forall w1, fst (gs_try_wait child w1) = Ok None) ->
   exists w1, (budget <= gs_now w1 - gs_now w)%Z /\
     wait_with_timeout child budget w =
       (Ok (MkCommandOutput TIMEOUT_EXIT_CODE EmptyString "guest stage timed out"),
        gs_kill_wait child w1)).
Proof.
  intros Hb. pose proof (wait_with_timeout_ends child budget Hb w) as Hends.
  assert (Hfuel : fst (wait_with_timeout child budget w) <> Err AgentHalt.OutOfFuel)
    by (by destruct (fst (wait_with_timeout child budget w)) as [|[]]).
  split.
  - intros rounds Hr. replace rounds with (retry_fuel budget WAIT_POLL + (rounds - retry_fuel budget WAIT_POLL))%nat by lia.
    by apply wait_rounds_more.
  - intros Hrun. by apply wait_rounds_timeout.
Qed.

(** ** Reports *)

Definition host_stage (stage : Stage.t) : StageKind.t :=
  match stage with
  | Stage.Build => StageKind.Build
  | Stage.Run => StageKind.Run
  end.

(** The wall clock of the report, in milliseconds, is one the host can store. *)
Definition short_message (d : GuestDiagnostic) : Prop :=
  (char_count (gd_message d) <= MAX_DIAGNOSTIC_MESSAGE_LENGTH)%Z.

Lemma u64_or_default_valid n : is_u64 (u64_or_default n).
Proof.
  unfold u64_or_default. destruct (in_range 0 u64_max n) eqn:Hr; [by apply in_range_true in Hr | done].
Qed.

(** The parts of a report, on every outcome of the command. *)
Lemma run_command_report argv work budget w parts w' :
  run_command (W := W) argv work budget w = (Ok parts, w') ->
  is_i32 (so_exit_code parts) /\
  (exists contents, so_output_digest parts = hex (sha256 contents) /\
     so_output_bytes parts = str_len contents) /\
  (0 <= so_output_bytes parts <= BOOT_OUTPUT_LIMIT + BOOT_DIAGNOSTICS_BYTES)%Z /\
  (let elapsed := u64_or_default (gs_now w' - gs_now w) in
     so_usage parts = MkGuestUsage elapsed elapsed 0 (so_output_bytes parts)) /\
  exists stderr, so_diagnostics parts = build_diagnostics stderr BOOT_DIAGNOSTICS.
Proof.
  unfold run_command. destruct (bool_decide _); [done|]. intros Hr.
  apply eff_bind_Ok in Hr as (started & w1 & [= <- <-] & Hr). apply eff_bind_Ok in Hr as (child & w2 & _ & Hr).
  apply eff_bind_Ok in Hr as (output & w3 & Hout & Hr).
  apply eff_bind_Ok in Hr as (finished & w4 & [= <- <-] & Hr).
  apply eff_bind_Ok in Hr as (n & w5 & Hn & Hr). injection Hr as <- <-.
  unfold wait_with_timeout in Hout. apply eff_bind_Ok in Hout as (w0 & w0' & _ & Hout).
  apply wait_rounds_bounded in Hout as (Hcode & Hstdout & Hstderr).
  unfold agent_lift, eff_lift in Hn. injection Hn as Hn <-. apply map_err_Ok_inv, ok_or_Ok_inv in Hn.
  destruct (in_range _ _ _) in Hn; [|done]. injection Hn as <-. simpl.
  split; [done|]. split; [eauto|]. split; [|split; [|eauto]].
  - rewrite str_len_app, truncate_bytes_len by done. pose proof (str_len_nonneg (co_stdout output)).
    pose proof (str_len_nonneg (co_stderr output)). unfold BOOT_OUTPUT_LIMIT in *. lia.
  - done.
Qed.

(** Every report respects the protocol's bounds, so the host decodes it. *)
Lemma stage_output_bounded stage argv work budget w m w' :
  stage_output (W := W) stage argv work budget w = (Ok m, w') -> valid m /\ message_bounded m.
Proof.
  unfold stage_output. rewrite eff_bind_Ok. intros (parts & w1 & Hp & [= <- _]).
  apply run_command_report in Hp as (Hcode & (contents & Hdigest & _) & Hbytes & Hu & stderr & Hd).
  pose proof (build_diagnostics_bounded stderr) as (Hlen & Hv & Hcodes).
  assert (Hb : is_u64 (so_output_bytes parts)).
  { unfold is_u64, u64_max, BOOT_OUTPUT_LIMIT, BOOT_DIAGNOSTICS_BYTES in *. lia. }
  pose proof (u64_or_default_valid (gs_now w1 - gs_now w)) as He. cbv zeta in Hu.
  rewrite Hdigest, Hu, Hd. split; [by split_and!|]. split; [|split; [done|]].
  - unfold within, str_len. by rewrite hex_len, sha256_length.
  - eapply Forall_impl; [exact Hcodes|]. intros d Hcode'. unfold within. by rewrite Hcode'.
Qed.

(** ** Answers *)

(** The answer a message of the host asks for. *)
Definition answered_by (message reply : Message) : Prop :=
  match message with
  | Negotiate capabilities => reply = Negotiated (accepts_capabilities capabilities)
  | UploadInput name digest contents =>
      reply = UploadAck name (bool_decide (digest = hex (sha256 contents)))
  | Build _ _ => exists code digest size usage ds, reply = StageOutput Stage.Build code digest size usage ds
  | Run _ _ => exists code digest size usage ds, reply = StageOutput Stage.Run code digest size usage ds
  | StageEvidence kind => reply = EvidenceAck kind true
  | Cancel => reply = Cancelled
  | Heartbeat => reply = Ack
  | _ => False
  end.

(** The reasons for which a message has no answer; [None]: the agent hangs. *)
Definition unanswered (message : Message) (e : option AgentError.t) : Prop :=
  match message with
  | UploadInput name digest contents =>
      match e with
      | Some (AgentError.UnsafeName refused) => refused = name /\ unsafe_name name = true
      | Some (AgentError.Io error) =>
          unsafe_name name = false /\ digest = hex (sha256 contents) /\ call_fails error
      | _ => False
      end
  | Build argv _ | Run argv _ =>
      match e with
      | Some AgentError.EmptyArgv => argv = []
      | _ => argv <> [] /\ interrupted e
      end
  | Negotiated _ | UploadAck _ _ | StageOutput _ _ _ _ _ _ | EvidenceAck _ _ | Cancelled | Ack =>
      e = Some (AgentError.UnexpectedMessage (message_type message))
  | Negotiate _ | StageEvidence _ | Cancel | Heartbeat => False
  end.

Lemma run_command_ends argv work budget :
  argv <> [] -> (0 <= budget)%Z -> ends interrupted (run_command (W := W) argv work budget).
Proof.
  intros Hargv Hb w. unfold run_command. rewrite bool_decide_eq_false_2 by done.
  pose proof (run_command_report argv work budget w) as Hreport.
  unfold run_command in Hreport. rewrite bool_decide_eq_false_2 in Hreport by done.
  change (eff_bind eff_get ?k w) with (k w w) in *. cbn beta in *.
  unfold eff_bind at 1. unfold agent_io at 1, eff_map_err.
  destruct (gs_spawn argv work w) as [[child|e] w1] eqn:Hspawn; simpl map_err; cbv iota beta.
  2:{ simpl. left. exists argv, work, w. by rewrite Hspawn. }
  unfold eff_bind at 1. pose proof (wait_with_timeout_ends child budget Hb w1) as Hw.
  destruct (wait_with_timeout child budget w1) as [[o|[e| |]] w2] eqn:Ho; simpl in Hw |- *; try done.
  assert (Hlen : in_range 0 u64_max
            (str_len (truncate_bytes (co_stdout o) BOOT_OUTPUT_LIMIT +:+ co_stderr o)) = true).
  { unfold wait_with_timeout, eff_bind, eff_get in Ho. apply wait_rounds_bounded in Ho as (_ & _ & Hstderr).
    apply in_range_true. rewrite str_len_app, truncate_bytes_len by done.
    pose proof (str_len_nonneg (co_stdout o)). pose proof (str_len_nonneg (co_stderr o)).
    unfold BOOT_OUTPUT_LIMIT, BOOT_DIAGNOSTICS_BYTES, u64_max in *. lia. }
  change (eff_bind eff_get ?k w2) with (k w2 w2). cbn beta. by rewrite Hlen.
Qed.

(** A stage's command: its report, or the reason there is none. *)
Lemma stage_output_outcome stage argv work budget w :
  (0 <= budget)%Z ->
  match fst (stage_output (W := W) stage argv work budget w) with
  | Ok reply => exists code digest size usage ds, reply = StageOutput stage code digest size usage ds
  | Err (AgentHalt.Raised AgentError.EmptyArgv) => argv = []
  | Err (AgentHalt.Raised e) => argv <> [] /\ interrupted (Some e)
  | Err AgentHalt.Blocked => argv <> [] /\ interrupted None
  | Err AgentHalt.OutOfFuel => False
  end.
Proof.
  intros Hb. unfold stage_output, eff_bind. destruct (decide (argv = [])) as [->|Hargv]; [done|].
  pose proof (run_command_ends argv work budget Hargv Hb w) as He.
  destruct (run_command argv work budget w) as [[parts|[[]| |]] w1]; simpl in *; (done || eauto 6).
Qed.

Lemma write_input_outcome work name digest contents w :
  match fst (write_input (W := W) work name digest contents w) with
  | Ok accepted => accepted = bool_decide (digest = hex (sha256 contents))
  | Err (AgentHalt.Raised e) => unanswered (UploadInput name digest contents) (Some e)
  | Err _ => False
  end.
Proof.
  rewrite write_input_spec. unfold safe_input_path. destruct (unsafe_name name) eqn:Hn; [done|].
  set (path := path_join _ name).
  destruct (bool_decide (digest = hex (sha256 contents))) eqn:Hd; [|done].
  apply bool_decide_eq_true in Hd.
  set (store := eff_bind _ _).
  assert (Hends : ends failed store).
  { apply ends_bind; [|intros _; apply ends_bind; [|done]].
    - destruct (path_parent path) as [parent|]; [|done]. apply agent_io_ends.
      intros w1 e He. do 3 right. left. by exists parent, w1.
    - apply agent_io_ends. intros w1 e He. do 4 right. by exists path, contents, w1. }
  assert (Htrue : forall b, fst (store w) = Ok b -> b = true).
  { intros b. subst store. destruct (eff_bind _ _ w) as [r w1] eqn:He. simpl. intros ->.
    apply eff_bind_Ok in He as (? & ? & _ & He). apply eff_bind_Ok in He as (? & ? & _ & He).
    by injection He. }
  specialize (Hends w). destruct (fst (store w)) as [b|[e| |]]; [by apply Htrue| |..|done].
  - destruct Hends as (error & [= ->] & Hf). by split_and!.
  - by destruct Hends as (error & ? & _).
Qed.

(** Every message is answered, or there is a reason why it is not. *)
Lemma handle_outcome message work w :
  valid message ->
  match fst (handle (W := W) message work w) with
  | Ok (Some reply) => answered_by message reply
  | Ok None => False
  | Err (AgentHalt.Raised e) => unanswered message (Some e)
  | Err AgentHalt.Blocked => unanswered message None
  | Err AgentHalt.OutOfFuel => False
  end.
Proof.
  intros Hv. destruct message; cbn [handle]; try done; unfold eff_bind.
  - pose proof (write_input_outcome work name digest contents w) as Ho.
    destruct (write_input work name digest contents w) as [[accepted|[]] w1]; simpl in *; try done.
    by rewrite Ho.
  - pose proof (stage_output_outcome Stage.Build argv work wall_time_ms w (proj1 Hv)) as Ho.
    by destruct (stage_output _ argv work wall_time_ms w) as [[|[[]| |]] w1].
  - pose proof (stage_output_outcome Stage.Run argv work wall_time_ms w (proj1 Hv)) as Ho.
    by destruct (stage_output _ argv work wall_time_ms w) as [[|[[]| |]] w1].
Qed.
End AgentLaws.

(** ** Agent and evaluator *)

Section Reports.
Context {W : Type} `{GuestOsLaws W, Sha256Laws, SerdeJson, UnicodeTextLaws}.

(** The host accepts a report exactly when every line of stderr it quotes is
    short enough, as long as the stage took at most a day. *)
Lemma stage_output_admissible stage argv work budget w m w' :
  stage_output (W := W) stage argv work budget w = (Ok m, w') ->
  exists exit_code hex output_bytes usage diagnostics,
    m = StageOutput stage exit_code hex output_bytes usage diagnostics /\
    ((gu_wall_time_ms usage <= MAX_WALL_TIME_MS)%Z ->
     (report_admissible (host_stage stage) hex output_bytes usage diagnostics <->
      Forall short_message diagnostics)).
Proof.
  unfold stage_output. rewrite eff_bind_Ok. intros (parts & w1 & Hp & [= <- _]).
  do 5 eexists. split; [done|].
  apply run_command_report in Hp as (Hcode & (contents & Hdigest & _) & Hbytes & Hu & stderr & Hd).
  pose proof (build_diagnostics_bounded stderr) as (_ & _ & Hcodes). rewrite <- Hd in Hcodes.
  pose proof (u64_or_default_valid (gs_now w1 - gs_now w)) as He. cbv zeta in Hu.
  rewrite Hu, Hdigest. simpl. intros Hwall. unfold report_admissible.
  assert (Hdiag : Forall diagnostic_admissible (so_diagnostics parts) <->
                  Forall short_message (so_diagnostics parts)).
  { clear Hd. induction Hcodes as [|d ds Hc _ IH]; [done|]. rewrite !Forall_cons, IH.
    unfold diagnostic_admissible. rewrite Hc, to_uppercase_ascii by done.
    split; [intros [[_ ?] ?] | intros [? ?]]; split; try done. }
  rewrite Hdiag. split; [tauto|]. intros Hs. split; [|split; [done|]].
  - unfold valid, valid_usage, host_usage. simpl. destruct He. unfold MAX_CPU_TIME_MS, MAX_WALL_TIME_MS,
      MAX_MEMORY_BYTES, MAX_OUTPUT_BYTES, BOOT_OUTPUT_LIMIT, BOOT_DIAGNOSTICS_BYTES in *. lia.
  - intros _. split; [apply hex_digest_ok|].
    unfold MAX_ARTIFACT_BYTES, BOOT_OUTPUT_LIMIT, BOOT_DIAGNOSTICS_BYTES in *. lia.
Qed.

(** The report names its stage, and its counters are those of the run. *)
Lemma stage_output_counters stage argv work budget w reported code hex size usage ds w' :
  stage_output (W := W) stage argv work budget w = (Ok (StageOutput reported code hex size usage ds), w') ->
  let elapsed := u64_or_default (gs_now w' - gs_now w) in
  reported = stage /\ usage = MkGuestUsage elapsed elapsed 0 size /\
  (0 <= size <= BOOT_OUTPUT_LIMIT + BOOT_DIAGNOSTICS_BYTES)%Z.
Proof.
  unfold stage_output. rewrite eff_bind_Ok. intros (parts & w1 & Hp & [= <- <- <- <- <- <- <-]).
  by apply run_command_report in Hp as (_ & _ & Hbytes & Hu & _).
Qed.
End Reports.

(** ** Confinement of uploads *)

Lemma input_dir_join work :
  ends_with "/" (path_join work INPUT_DIR) = false /\ is_empty (path_join work INPUT_DIR) = false.
Proof.
  unfold path_join, INPUT_DIR. cbn [String.prefix]. simpl (Ascii.ascii_dec _ _).
  destruct (is_empty work || ends_with "/" work).
  - rewrite ends_with_app. split; [done|]. by destruct work.
  - change (work +:+ "/" +:+ "inputs") with (work +:+ "/inputs"). rewrite ends_with_app.
    split; [done|]. by destruct work.
Qed.

(** A stored input is a direct child of the input directory, whatever the host
    called it. The one safe name that is not a component is a dot. *)
Lemma safe_path_confined work name path :
  safe_input_path work name = Ok path -> name <> "." ->
  path_parent path = Some (path_join work INPUT_DIR) /\ path_file_name path = Some name.
Proof.
  unfold safe_input_path. intros Hs Hdot. inv_ok. rename Hguard into Hsafe. unfold unsafe_name in Hsafe.
  split_bools. repeat match goal with Hx : (_ || _) = false |- _ => apply orb_false_iff in Hx as [? ?] end.
  assert (Hnoise : path_noise name = false).
  { unfold path_noise. apply orb_false_iff. split; [done|]. by apply String.eqb_neq. }
  destruct (split_on_join work INPUT_DIR eq_refl) as [pieces Hpieces].
  destruct (input_dir_join work) as [Hend Hempty].
  assert (Hjoin : path_join (path_join work INPUT_DIR) name = path_join work INPUT_DIR +:+ "/" +:+ name).
  { unfold path_join at 1. rewrite Hend, Hempty, prefix_single.
    match goal with Hc : contains "/" name = false |- _ =>
      rewrite contains_unfold, prefix_single in Hc; apply orb_false_iff in Hc as [-> _] end. done. }
  rewrite Hjoin. destruct (pieces ++ [INPUT_DIR]) as [|first rest] eqn:Hrest; [by destruct pieces|].
  destruct (path_below (path_join work INPUT_DIR) INPUT_DIR first rest name) as [Hp Hf]; try done.
  { rewrite <- Hrest. apply last_snoc. }
  split; [done|]. rewrite Hf. unfold normal_component. rewrite Hnoise.
  match goal with Hd : String.eqb name ".." = false |- _ => by rewrite Hd end.
Qed.

(** The dot is: what it names is the input directory itself. *)
Lemma safe_path_dot work :
  exists path, safe_input_path work "." = Ok path /\
    path_parent path = path_parent (path_join work INPUT_DIR) /\ path_file_name path = Some INPUT_DIR.
Proof.
  destruct (input_dir_join work) as [Hend Hempty].
  exists (path_join work INPUT_DIR +:+ "/" +:+ "."). split.
  { unfold safe_input_path. simpl (unsafe_name "."). unfold path_join at 1. by rewrite Hend, Hempty. }
  destruct (path_dot (path_join work INPUT_DIR)) as [-> ->]. split; [done|].
  destruct (split_on_join work INPUT_DIR eq_refl) as [pieces Hpieces].
  unfold path_file_name. rewrite Hpieces. destruct pieces as [|first rest]; [done|].
  cbn [app]. by rewrite rev_app_distr.
Qed.

(** The names the protocol lets a host send are never refused. *)
Lemma checked_name_safe name : check_name name = Ok tt -> unsafe_name name = false.
Proof.
  unfold check_name, bounds. intros Hc. inv_ok. rename Hguard0 into Hsep.
  apply orb_false_iff in Hguard as [He _]. apply orb_false_iff in Hsep as [Hsep Hdots].
  apply orb_false_iff in Hsep as [Hs Hb]. unfold unsafe_name. rewrite He, Hs, Hb.
  assert (Hp : String.prefix ".." name = false).
  { rewrite contains_unfold in Hdots. by apply orb_false_iff in Hdots as [? _]. }
  rewrite Hp, orb_false_r. apply String.eqb_neq. by intros ->.
Qed.

Section Frames.
Context {W : Type} `{GuestOs W, Sha256, SerdeJson, UnicodeText}.

(** The three outcomes of an upload. *)
Lemma write_input_unsafe work name digest contents :
  unsafe_name name = true ->
  write_input (W := W) work name digest contents = eff_fail (AgentHalt.Raised (AgentError.UnsafeName name)).
Proof. intros Hn. rewrite write_input_spec. unfold safe_input_path. by rewrite Hn. Qed.

Lemma write_input_refused work name digest contents :
  unsafe_name name = false -> digest <> hex (sha256 contents) ->
  write_input (W := W) work name digest contents = eff_ret false.
Proof.
  intros Hn Hd. rewrite write_input_spec. unfold safe_input_path. by rewrite Hn, bool_decide_eq_false_2.
Qed.

Lemma write_input_stored work name contents :
  unsafe_name name = false ->
  exists path, safe_input_path work name = Ok path /\
    write_input (W := W) work name (hex (sha256 contents)) contents =
      (run* match path_parent path with
            | Some parent => agent_io (gs_create_dir_all parent)
            | None => eff_ret tt
            end in
       run* agent_io (gs_write_file path contents) in
       eff_ret true) /\
    (name <> "." -> path_parent path = Some (path_join work INPUT_DIR) /\
                    path_file_name path = Some name) /\
    (name = "." -> path_parent path = path_parent (path_join work INPUT_DIR) /\
                   path_file_name path = Some INPUT_DIR).
Proof.
  intros Hn. exists (path_join (path_join work INPUT_DIR) name).
  assert (Hs : safe_input_path work name = Ok (path_join (path_join work INPUT_DIR) name))
    by (unfold safe_input_path; by rewrite Hn).
  split; [done|]. split; [by rewrite write_input_spec, Hs, bool_decide_eq_true_2|].
  split; [by apply safe_path_confined|]. intros ->.
  destruct (safe_path_dot work) as (path & Hd & Hp). rewrite Hs in Hd. by injection Hd as ->.
Qed.
End Frames.

Section Serving.
Context {W : Type} `{GuestOs W, Sha256, SerdeJsonLaws, UnicodeText}.

(** A frame the host encodes is answered as its message, provided the prefix
    arrives in one piece. *)
Lemma frame_served work m prefix body w w1 w2 :
  valid m -> message_bounded m -> encode m = Ok (prefix +:+ body) -> String.length prefix = 4%nat ->
  gs_read 4 w = (Ok prefix, w1) -> gs_read_exact (String.length body) w1 = (Ok body, w2) ->
  serve_frame work w = eff_bind (handle m work) respond w2.
Proof.
  intros Hv Hb He Hp Hread Hbody.
  assert (Hd : decode (prefix +:+ body) = Ok m).
  { rewrite <- (append_nil_r (prefix +:+ body)). by apply decode_encode. }
  apply encode_inv in He as (fs & text & _ & _ & Hframe & Hlen).
  destruct prefix as [|b0 [|b1 [|b2 [|b3 [|]]]]]; try discriminate Hp. clear Hp.
  rewrite !append_cons in Hframe. injection Hframe as -> -> -> -> Htext.
  assert (text = body) as -> by (symmetry; exact Htext).
  unfold MAX_FRAME_BYTES in Hlen. pose proof (str_len_nonneg body) as Hn.
  unfold serve_frame, eff_bind at 1, agent_io at 1, eff_map_err. rewrite Hread. cbn [map_err is_empty].
  rewrite be_bytes_roundtrip by (unfold is_u32, u32_max; lia).
  rewrite (proj2 (Z.ltb_ge _ _)) by (unfold MAX_FRAME_BYTES; lia).
  unfold eff_bind at 1, agent_io at 1, eff_map_err. unfold str_len at 1. rewrite Nat2Z.id, Hbody.
  cbn [map_err].
  unfold eff_bind at 1, agent_lift at 1, eff_lift at 1.
  rewrite Hd. done.
Qed.

(** A prefix that arrives in pieces ends the session, although the stream is
    sound. *)
Lemma short_prefix_fails work prefix w w1 :
  (0 < String.length prefix < 4)%nat -> gs_read 4 w = (Ok prefix, w1) ->
  serve_frame work w = (Err (AgentHalt.Raised (AgentError.Io "truncated length prefix")), w1).
Proof.
  intros Hl Hread. unfold serve_frame, eff_bind at 1, agent_io at 1, eff_map_err. rewrite Hread.
  by destruct prefix as [|b0 [|b1 [|b2 [|b3 prefix]]]]; simpl in Hl; try lia.
Qed.

(** A message that has a frame is no empty command and no unsafe name. *)
Lemma carried_answerable m frame e :
  encode m = Ok frame ->
  match e with
  | AgentHalt.Raised e => unanswered (W := W) m (Some e)
  | AgentHalt.Blocked => unanswered (W := W) m None
  | AgentHalt.OutOfFuel => False
  end ->
  e <> AgentHalt.Raised AgentError.EmptyArgv /\
  (forall name, e <> AgentHalt.Raised (AgentError.UnsafeName name)).
Proof.
  intros He Hu. apply encode_inv in He as (fs & _ & Hf & _).
  split; [intros -> | intros refused ->].
  - destruct m; simpl in Hu; try done; subst; by simpl in Hf.
  - destruct m; simpl in Hu; try done; try (by destruct Hu). destruct Hu as [_ Hu].
    cbn [write_fields] in Hf. destruct (check_name name) as [[]|] eqn:Hc; [|done].
    apply checked_name_safe in Hc. congruence.
Qed.
End Serving.
