(* ===== verification/Session.v ===== *)
(** * Host and guest over one channel

    The two ends of the guest protocol meet: the host's executor and the agent in
    the machine, over the byte streams the vsock proxy carries. [Piped] gives the
    agent its end of the stream, [Joint] the host's end: after the handshake the
    proxy passes bytes through, and the agent serves a frame when the host waits
    for bytes, for at most the channel's read timeout. *)

From S2P Require Import Prelude Value Evaluation EvalResult Application Pipeline Json Codec Text Guest GuestLaws Evaluator Effects Firecracker HttpApi Host Machine MachineLaws Executor ExecutorLaws Agent AgentLaws.

(** ** The agent's end *)

(** A guest with the bytes that arrived for it and those it sent. *)
Record Piped (G : Type) : Type := MkPiped {
  pg_guest : G;
  pg_in : bytes;
  pg_out : bytes
}.
Arguments MkPiped {G}.
Arguments pg_guest {G}.
Arguments pg_in {G}.
Arguments pg_out {G}.

Definition skip (n : nat) (s : bytes) : bytes := String.substring n (String.length s - n) s.

Section Piped.
Context {G : Type} `{GuestOs G}.

Definition in_guest (p : Piped G) (g : G) : Piped G := MkPiped g (pg_in p) (pg_out p).

Definition guest_call {A} (call : G -> A * G) : Piped G -> A * Piped G := fun p =>
  let '(r, g) := call (pg_guest p) in (r, in_guest p g).

#[export] Instance piped_guest : GuestOs (Piped G) := {|
  gs_spawn := fun argv work => guest_call (gs_spawn argv work);
  gs_try_wait := fun child => guest_call (gs_try_wait child);
  gs_kill_wait := fun child p => in_guest p (gs_kill_wait child (pg_guest p));
  gs_read_pipe := fun child pipe p =>
    match gs_read_pipe child pipe (pg_guest p) with
    | Some (r, g) => Some (r, in_guest p g)
    | None => None
    end;
  gs_create_dir_all := fun path => guest_call (gs_create_dir_all path);
  gs_write_file := fun path contents => guest_call (gs_write_file path contents);
  gs_now := fun p => gs_now (pg_guest p);
  gs_sleep := fun duration p => in_guest p (gs_sleep duration (pg_guest p));
  gs_read := fun n p =>
    (Ok (String.substring 0 n (pg_in p)), MkPiped (pg_guest p) (skip n (pg_in p)) (pg_out p));
  gs_read_exact := fun n p =>
    if Nat.leb n (String.length (pg_in p))
    then (Ok (String.substring 0 n (pg_in p)),
          MkPiped (pg_guest p) (skip n (pg_in p)) (pg_out p))
    else (Err "failed to fill whole buffer", p);
  gs_send := fun frame p => (Ok tt, MkPiped (pg_guest p) (pg_in p) (pg_out p +:+ frame))
|}.

(** *** Lifting *)

(** A computation that leaves the streams alone. *)
Definition lifts {A} (m : AgentM (W := G) A) (m' : AgentM (W := Piped G) A) : Prop :=
  forall p, m' p = guest_call m p.

Lemma lifts_bind {A B} (m : AgentM A) m' (k : A -> AgentM B) k' :
  lifts m m' -> (forall a, lifts (k a) (k' a)) -> lifts (eff_bind m k) (eff_bind m' k').
Proof.
  intros Hm Hk p. unfold eff_bind, guest_call at 1. rewrite Hm. unfold guest_call.
  destruct (m (pg_guest p)) as [[a|e] g]; [|done]. by rewrite Hk.
Qed.

Lemma lifts_get {A} (k : G -> AgentM (W := G) A) (k' : Piped G -> AgentM (W := Piped G) A) :
  (forall p, lifts (k (pg_guest p)) (k' p)) -> lifts (eff_bind eff_get k) (eff_bind eff_get k').
Proof. intros Hk p. apply Hk. Qed.

Lemma lifts_pure {A} (r : result AgentHalt.t A) : lifts (fun g => (r, g)) (fun p => (r, p)).
Proof. by intros []. Qed.

Lemma lifts_io {A} (call : G -> result string A * G) :
  lifts (agent_io call) (agent_io (guest_call call)).
Proof.
  intros p. unfold agent_io, eff_map_err, guest_call. by destruct (call (pg_guest p)) as [[] g].
Qed.

Lemma lifts_read_pipe child pipe :
  lifts (agent_wait (gs_read_pipe child pipe)) (agent_wait (gs_read_pipe child pipe)).
Proof.
  intros [g i o]. unfold agent_wait, guest_call. cbn [gs_read_pipe piped_guest pg_guest].
  by destruct (gs_read_pipe child pipe g) as [[[] g']|].
Qed.

Lemma lifts_modify (f : G -> G) :
  lifts (eff_modify f) (eff_modify (fun p => in_guest p (f (pg_guest p)))).
Proof. done. Qed.

Lemma lifts_if {A} (b : bool) (m n : AgentM (W := G) A) m' n' :
  lifts m m' -> lifts n n' -> lifts (if b then m else n) (if b then m' else n').
Proof. by destruct b. Qed.

(** *** What the agent does over its stream *)

Context `{Sha256, SerdeJson, UnicodeText}.

Lemma write_input_lifts work name digest contents :
  lifts (write_input work name digest contents) (write_input work name digest contents).
Proof.
  apply lifts_bind; [apply lifts_pure|]. intros path. apply lifts_if; [apply lifts_pure|].
  apply lifts_bind; [destruct (path_parent path); [apply lifts_io | apply lifts_pure]|].
  intros _. apply lifts_bind; [apply lifts_io|]. intros _. apply lifts_pure.
Qed.

Lemma read_pipe_loop_lifts fuel child pipe limit out :
  lifts (read_pipe_loop fuel child pipe limit out) (read_pipe_loop fuel child pipe limit out).
Proof.
  revert out. induction fuel as [|fuel IH]; intros out; [apply lifts_pure|]. cbn [read_pipe_loop].
  apply lifts_bind; [apply lifts_read_pipe|]. intros buf. by repeat (apply lifts_if; [apply lifts_pure|]).
Qed.

Lemma wait_rounds_lifts fuel child start budget :
  lifts (wait_rounds fuel child start budget) (wait_rounds fuel child start budget).
Proof.
  induction fuel as [|fuel IH]; [apply lifts_pure|]. cbn [wait_rounds].
  apply lifts_bind; [apply lifts_io|]. intros [code|].
  - apply lifts_bind; [apply read_pipe_loop_lifts|]. intros stdout.
    apply lifts_bind; [apply read_pipe_loop_lifts|]. intros stderr. apply lifts_pure.
  - apply lifts_get. intros p. apply lifts_if.
    + apply lifts_bind; [apply lifts_modify|]. intros _. apply lifts_pure.
    + apply lifts_bind; [apply lifts_modify|]. by intros _.
Qed.

Lemma stage_output_lifts stage argv work budget :
  lifts (stage_output stage argv work budget) (stage_output stage argv work budget).
Proof.
  apply lifts_bind; [|intros parts; apply lifts_pure]. apply lifts_if; [apply lifts_pure|].
  apply lifts_get. intros p. apply lifts_bind; [apply lifts_io|]. intros child.
  apply lifts_bind; [apply lifts_get; intros q; apply wait_rounds_lifts|]. intros output.
  apply lifts_get. intros q. apply lifts_bind; [apply lifts_pure|]. intros size. apply lifts_pure.
Qed.

(** The agent's work does not touch the stream: only [serve_frame] does. *)
Lemma handle_lifts m work : lifts (handle m work) (handle m work).
Proof.
  destruct m; cbn [handle]; try apply lifts_pure.
  - apply lifts_bind; [apply write_input_lifts | intros; apply lifts_pure].
  - apply lifts_bind; [apply stage_output_lifts | intros; apply lifts_pure].
  - apply lifts_bind; [apply stage_output_lifts | intros; apply lifts_pure].
Qed.
End Piped.

(** ** One exchange *)

(** A message that has a frame. *)
Definition carried `{SerdeJson} (m : Message) (frame : bytes) : Prop :=
  valid m /\ message_bounded m /\ encode m = Ok frame.

(** Prefix and body of a frame, as the two reads of a peer see them. *)
Lemma carried_split `{SerdeJson} m frame :
  carried m frame ->
  exists prefix body, frame = prefix +:+ body /\ String.length prefix = 4%nat /\
    prefix_value prefix = str_len body /\ (str_len body + 4 <= MAX_FRAME_BYTES)%Z.
Proof.
  intros (_ & _ & He). apply encode_inv in He as (fs & body & _ & _ & -> & Hlen).
  exists (to_be_bytes (str_len body)), body. split; [done|]. split; [done|]. split; [|done].
  apply be_bytes_roundtrip. unfold is_u32, u32_max, MAX_FRAME_BYTES in *.
  pose proof (str_len_nonneg body). lia.
Qed.

Lemma substring_skip s t : skip (String.length s) (s +:+ t) = t.
Proof.
  unfold skip. rewrite length_append. replace (_ - _)%nat with (String.length t) by lia.
  by apply substring_drop.
Qed.

Section Exchange.
Context {G : Type} `{GuestOs G, Sha256, SerdeJsonLaws, UnicodeText}.

(** The agent consumes one frame, does what its message asks for and appends the
    answer's frame. *)
Lemma serve_answers work m frame rest out reply f (g g' : G) :
  carried m frame -> handle m work g = (Ok (Some reply), g') -> encode reply = Ok f ->
  serve_frame work (MkPiped g (frame +:+ rest) out) = (Ok true, MkPiped g' rest (out +:+ f)).
Proof.
  intros Hc Hh He. destruct (carried_split _ _ Hc) as (prefix & body & -> & Hp & _).
  destruct Hc as (Hv & Hb & Hm).
  rewrite (frame_served work m prefix body _ (MkPiped g (body +:+ rest) out) (MkPiped g rest out));
    try done.
  - unfold eff_bind at 1. rewrite handle_lifts. unfold guest_call. cbn [pg_guest]. rewrite Hh.
    unfold respond, in_guest, eff_bind, agent_lift, eff_lift, agent_io, eff_map_err.
    cbn [pg_in pg_out]. by rewrite He.
  - cbn [gs_read piped_guest pg_in pg_guest pg_out]. rewrite append_assoc, <- Hp.
    by rewrite substring_app, substring_skip.
  - cbn [gs_read_exact piped_guest pg_in pg_guest pg_out].
    rewrite (proj2 (Nat.leb_le _ _)) by (rewrite length_append; lia).
    by rewrite substring_app, substring_skip.
Qed.
End Exchange.

(** ** The host's end *)

(** The agent's process: its listener takes one connection, the agent serves it,
    and it ends with it; a read that never returns leaves it hanging. *)
Inductive AgentState : Type := Listening | Serving | Hanging | Exited.

#[export] Instance agent_state_eq_dec : EqDecision AgentState.
Proof. solve_decision. Defined.

(** The host's connection: nothing written yet, passed through to the agent, or
    to nobody. *)
Inductive Link : Type := Fresh | Linked | Dead.

(** A host whose microVM runs the agent. [jt_timeout] is the read timeout of the
    host's socket. *)
Record Joint (W G : Type) : Type := MkJoint {
  jt_host : W;
  jt_agent : Piped G;
  jt_state : AgentState;
  jt_link : Link;
  jt_timeout : Z
}.
Arguments MkJoint {W G}.
Arguments jt_host {W G}.
Arguments jt_agent {W G}.
Arguments jt_state {W G}.
Arguments jt_link {W G}.
Arguments jt_timeout {W G}.

Section Joint.
Context {W G : Type} `{HostOs W, GuestOs G, Sha256, SerdeJson, UnicodeText}.
Variable work : string.

Definition on_host (w : W) (j : Joint W G) : Joint W G :=
  MkJoint w (jt_agent j) (jt_state j) (jt_link j) (jt_timeout j).

Definition host_call {A} (call : W -> A * W) : Joint W G -> A * Joint W G := fun j =>
  let '(r, w) := call (jt_host j) in (r, on_host w j).

(** The guest of a connection nothing was sent over yet. *)
Definition cleared (p : Piped G) : Piped G := MkPiped (pg_guest p) EmptyString EmptyString.

Definition pull_bytes (n : nat) (j : Joint W G) : result string bytes * Joint W G :=
  let p := jt_agent j in
  (Ok (String.substring 0 n (pg_out p)),
   MkJoint (jt_host j) (MkPiped (pg_guest p) (pg_in p) (skip n (pg_out p))) (jt_state j)
     (jt_link j) (jt_timeout j)).

(** The loop of [main] after a frame. *)
Definition next_state (r : result AgentHalt.t bool) : AgentState :=
  match r with
  | Ok true => Serving
  | Err AgentHalt.Blocked => Hanging
  | Ok false | Err _ => Exited
  end.

(** The host waits while the agent serves a frame. *)
Definition await_bytes (n : nat) (j : Joint W G) : result string bytes * Joint W G :=
  let p := jt_agent j in
  let waited := fun d p' state =>
    MkJoint (os_sleep d (jt_host j)) p' state (jt_link j) (jt_timeout j) in
  let timed_out := fun p' state =>
    (Err "resource temporarily unavailable", waited (jt_timeout j) p' state) in
  if Nat.leb n (String.length (pg_out p)) then pull_bytes n j
  else
    match jt_state j with
    | Exited => (Err "failed to fill whole buffer", j)
    | Hanging => timed_out p Hanging
    | Listening | Serving =>
        if is_empty (pg_in p) then timed_out p (jt_state j)
        else
          let '(r, p') := serve_frame work p in
          let state := next_state r in
          let elapsed := (gs_now (pg_guest p') - gs_now (pg_guest p))%Z in
          match state with
          | Hanging => timed_out p' Hanging
          | _ =>
              if (jt_timeout j <? elapsed)%Z then timed_out p' state
              else
                match state with
                | Serving =>
                    if Nat.leb n (String.length (pg_out p'))
                    then pull_bytes n (waited elapsed p' Serving)
                    else timed_out p' Serving
                | _ => (Err "failed to fill whole buffer", waited elapsed p' state)
                end
          end
    end.

(** A byte of the proxy's answer tells that the agent's listener took the
    connection. *)
Definition accepted (r : result string (option Ascii.ascii)) (state : AgentState) : AgentState :=
  match r, state with
  | Ok (Some _), Listening => Serving
  | _, _ => state
  end.

(** A started process brings a new listener. A new connection is not linked until
    its first line was written, which the proxy keeps for itself; the proxy's own
    line is the host's to read, and there is none if nobody listens. An agent
    that serves a connection ends with it. *)
#[export] Instance joint_host : HostOs (Joint W G) := {|
  os_spawn := fun program arguments j =>
    let '(r, w) := os_spawn program arguments (jt_host j) in
    (r, if r is Ok _ then MkJoint w (cleared (jt_agent j)) Listening Dead (jt_timeout j)
        else on_host w j);
  os_try_wait := fun pid => host_call (os_try_wait pid);
  os_kill_wait := fun pid j => on_host (os_kill_wait pid (jt_host j)) j;
  os_start_kill := fun pid => host_call (os_start_kill pid);
  os_try_exists := fun path => host_call (os_try_exists path);
  os_remove_file := fun path j => on_host (os_remove_file path (jt_host j)) j;
  os_now := fun j => os_now (jt_host j);
  os_sleep := fun duration j => on_host (os_sleep duration (jt_host j)) j;
  os_exchange := fun path request => host_call (os_exchange path request);
  os_connect := fun path j =>
    let '(r, w) := os_connect path (jt_host j) in
    (r, MkJoint w (cleared (jt_agent j))
          (match jt_state j with Serving => Exited | state => state end) Fresh (jt_timeout j));
  os_set_timeouts := fun stream timeout j =>
    let '(r, w) := os_set_timeouts stream timeout (jt_host j) in
    (r, MkJoint w (jt_agent j) (jt_state j) (jt_link j) timeout);
  os_write_all := fun stream contents j =>
    match jt_link j with
    | Fresh =>
        let '(r, w) := os_write_all stream contents (jt_host j) in
        (r, MkJoint w (jt_agent j) (jt_state j)
              (match jt_state j with Listening => Linked | _ => Dead end) (jt_timeout j))
    | Linked =>
        (Ok tt, MkJoint (jt_host j) (MkPiped (pg_guest (jt_agent j))
                                       (pg_in (jt_agent j) +:+ contents) (pg_out (jt_agent j)))
                  (jt_state j) Linked (jt_timeout j))
    | Dead => (Err "Broken pipe", j)
    end;
  os_read := fun stream j =>
    match jt_link j with
    | Dead => (Ok None, j)
    | _ =>
        let '(r, w) := os_read stream (jt_host j) in
        (r, MkJoint w (jt_agent j) (accepted r (jt_state j)) (jt_link j) (jt_timeout j))
    end;
  os_read_exact := fun stream n j =>
    match jt_link j with
    | Linked => await_bytes n j
    | _ => (Err "failed to fill whole buffer", j)
    end;
  os_running := fun j => os_running (jt_host j);
  os_killed := fun j => os_killed (jt_host j);
  os_backlog := fun stream j => os_backlog stream (jt_host j)
|}.

#[export] Instance joint_runtime `{TokioRuntime W} : TokioRuntime (Joint W G) :=
  {| tokio_context := fun j => tokio_context (jt_host j) |}.

(** The laws of the host are those of the pair: [attempt_isolated] holds of it. *)
Lemma quiet_joint (j j' : Joint W G) : quiet (jt_host j) (jt_host j') -> quiet j j'.
Proof. done. Qed.

Lemma await_quiet `{!HostOsLaws W} n (j : Joint W G) : quiet j (snd (await_bytes n j)).
Proof.
  apply quiet_joint. unfold await_bytes. destruct (Nat.leb _ _); [done|].
  destruct (jt_state j); [| |apply sleep_law|done].
  all: destruct (is_empty _); [apply sleep_law|]; destruct (serve_frame _ _) as [r p'].
  all: destruct (next_state r); repeat case_match; simpl; apply sleep_law.
Qed.

#[export] Instance joint_laws `{!HostOsLaws W} : HostOsLaws (Joint W G).
Proof.
  split; intros.
  - pose proof (spawn_law program arguments (jt_host w)) as Hl. cbn.
    by destruct (os_spawn program arguments (jt_host w)) as [[] w'].
  - apply (kill_wait_law pid (jt_host w)).
  - pose proof (start_kill_law pid (jt_host w)) as Hl. cbn. unfold host_call.
    by destruct (os_start_kill pid (jt_host w)) as [[] w'].
  - pose proof (try_wait_law pid (jt_host w)) as Hq. cbn. unfold host_call.
    by destruct (os_try_wait pid (jt_host w)).
  - pose proof (try_exists_law path (jt_host w)) as Hq. cbn. unfold host_call.
    by destruct (os_try_exists path (jt_host w)).
  - apply (remove_file_law path (jt_host w)).
  - apply (sleep_law duration (jt_host w)).
  - pose proof (exchange_law path request (jt_host w)) as Hq. cbn. unfold host_call.
    by destruct (os_exchange path request (jt_host w)).
  - pose proof (connect_law path (jt_host w)) as Hq. cbn. by destruct (os_connect path (jt_host w)).
  - pose proof (set_timeouts_law channel timeout (jt_host w)) as Hq. cbn.
    by destruct (os_set_timeouts channel timeout (jt_host w)).
  - pose proof (write_all_law channel contents (jt_host w)) as Hq. cbn. destruct (jt_link w); [|apply quiet_joint; reflexivity|reflexivity].
    by destruct (os_write_all channel contents (jt_host w)).
  - pose proof (read_law channel (jt_host w)) as Hq. cbn.
    destruct (jt_link w); [| |by split].
    all: by destruct (os_read channel (jt_host w)) as [[[]|] w'].
  - cbn. destruct (jt_link w); [reflexivity|apply await_quiet|reflexivity].
Qed.
End Joint.

(** ** Booting *)

(** A predicate on the world that no call of the bootstrap touches. *)
Section Booting.
Context {W : Type} `{HostOs W, SerdeJson, UnicodeText}.
Variable P : W -> Prop.

Definition untouched {A} (call : W -> A * W) : Prop := forall w, P w -> P (snd (call w)).

Hypothesis spawn_untouched : forall program arguments, untouched (os_spawn program arguments).
Hypothesis try_wait_untouched : forall pid, untouched (os_try_wait pid).
Hypothesis try_exists_untouched : forall path, untouched (os_try_exists path).
Hypothesis sleep_untouched : forall duration w, P w -> P (os_sleep duration w).
Hypothesis exchange_untouched : forall path request, untouched (os_exchange path request).

Definition kept (s : FirecrackerVm * W) : Prop := P (snd s).

Lemma kept_world {E A} (m : Eff W E A) : untouched m -> keeps kept (on_world m).
Proof. intros Hm [vm w] Hs. unfold on_world. specialize (Hm w Hs). by destruct (m w). Qed.

Lemma kept_io {A} context (call : W -> result string A * W) :
  untouched call -> untouched (io_call context call).
Proof. intros Hc w Hw. unfold io_call, eff_map_err. specialize (Hc w Hw). by destruct (call w). Qed.

Lemma kept_step op refused : keeps kept (step (W := W) op refused).
Proof. intros [vm w] Hs. unfold step. by destruct (op (vm_lifecycle vm)). Qed.

Lemma kept_vm f : keeps kept (on_vm (W := W) f).
Proof. by intros [vm w] Hs. Qed.

Lemma kept_pure {E A} (m : Eff (FirecrackerVm * W) E A) : (forall s, snd (m s) = s) -> keeps kept m.
Proof. intros Hm s Hs. by rewrite Hm. Qed.

Lemma kept_api method target value : keeps kept (api (W := W) method target value).
Proof.
  intros [vm w] Hs. unfold api. destruct (json_to_vec value) as [body|]; [|done].
  pose proof (kept_io EmptyString _ (exchange_untouched (vm_api_socket vm)
    (request_text method target "application/json" (decimal (str_len body)) +:+ body)) w Hs) as Hq.
  unfold request, eff_bind. destruct (io_call _ _ w) as [[stream|e] w']; simpl in Hq; [|done].
  by destruct (response_outcome stream) as [[]|].
Qed.

Lemma kept_wait_loop fuel deadline : keeps kept (wait_loop (W := W) fuel deadline).
Proof.
  induction fuel as [|fuel IH]; [by apply kept_pure|]. cbn [wait_loop].
  apply keeps_bind; [by apply kept_pure|]. intros vm. apply keeps_bind.
  { apply kept_world. intros w Hw. pose proof (try_exists_untouched (vm_api_socket vm) w Hw).
    by destruct (os_try_exists (vm_api_socket vm) w). }
  intros b. apply keeps_if; [by apply kept_pure|]. apply keeps_bind.
  { apply keeps_bind; [by apply kept_pure|]. intros vm'.
    destruct (vm_child vm') as [child|]; [|by apply kept_pure]. apply kept_world. intros w Hw.
    pose proof (try_wait_untouched child w Hw). by destruct (os_try_wait child w). }
  intros finished. apply keeps_if; [by apply keeps_bind; [apply kept_vm|]; intros; apply kept_pure|].
  apply keeps_bind; [by apply kept_pure|]. intros [vm' w']. apply keeps_if.
  - apply keeps_bind; [apply kept_vm|]. intros. by apply kept_pure.
  - apply keeps_bind; [|done]. apply kept_world. intros w Hw. by apply sleep_untouched.
Qed.

Lemma kept_bootstrap production : keeps kept (bootstrap (W := W) production).
Proof.
  unfold bootstrap, spawn_process, wait_for_socket, configure, put_boot_source, put_root_drive,
    put_machine_config, put_vsock, vm_start.
  repeat first
    [ apply kept_step | apply kept_api | apply kept_vm | apply kept_wait_loop
    | apply kept_world, kept_io; apply spawn_untouched
    | apply keeps_if | by apply kept_pure | apply keeps_bind; [|intros] | case_match ].
Qed.
End Booting.

(** What succeeds after retries is the operation's own success. *)
Lemma retry_loop_Ok {W} `{HostOs W} {A E} (P : W -> Prop) (timed_out : E -> E) fuel deadline poll
    (operation : Eff W (Halt E) A) w a w' :
  (forall w, P w -> P (snd (operation w))) -> (forall duration w, P w -> P (os_sleep duration w)) ->
  P w -> retry_loop timed_out fuel deadline poll operation w = (Ok a, w') ->
  exists w1, P w1 /\ operation w1 = (Ok a, w').
Proof.
  intros Hop Hsleep. revert w. induction fuel as [|fuel IH]; intros w Hw; [done|]. cbn [retry_loop].
  pose proof (Hop w Hw) as Hw'. destruct (operation w) as [[b|[e|]] w1] eqn:Ho; [|..|done].
  - intros [= -> ->]. by exists w.
  - destruct (_ =? 0)%Z; [done|]. intros Hr. eapply IH; [|exact Hr]. by apply Hsleep.
Qed.

(** ** The session *)

Section Session.
Context {W G : Type} `{HostOs W, GuestOs G, TokioRuntime W, Sha256, SerdeJsonLaws, UnicodeTextLaws}.
Variable work : string.

Notation world := (Joint W G).
#[local] Hint Extern 0 (HostOs (Joint _ _)) => exact (joint_host work) : typeclass_instances.

(** Between two exchanges nothing is in flight. *)
Definition at_rest (g : G) (j : world) : Prop :=
  jt_agent j = MkPiped g EmptyString EmptyString /\ jt_state j = Serving /\ jt_link j = Linked /\
  jt_timeout j = DEFAULT_READ_TIMEOUT.

(** What the agent answers, in time. *)
Definition answers (m reply : Message) (g g' : G) : Prop :=
  handle m work g = (Ok (Some reply), g') /\
  (gs_now g' - gs_now g <= DEFAULT_READ_TIMEOUT)%Z.

Lemma take_all s : skip (String.length s) s = EmptyString.
Proof. rewrite <- (append_nil_r s) at 2. apply substring_skip. Qed.

Lemma recv_frame channel m frame (j : world) :
  carried m frame -> pg_out (jt_agent j) = frame -> jt_link j = Linked ->
  recv channel j =
    (Ok m, MkJoint (jt_host j) (MkPiped (pg_guest (jt_agent j)) (pg_in (jt_agent j)) EmptyString)
             (jt_state j) Linked (jt_timeout j)).
Proof.
  intros Hc Hout Hlink. destruct (carried_split _ _ Hc) as (prefix & body & -> & Hp & Hval & Hlen).
  destruct Hc as (Hv & Hb & He). pose proof (str_len_nonneg body) as Hn.
  unfold recv, eff_bind at 1, io_call at 1, eff_map_err. cbn [os_read_exact joint_host].
  rewrite Hlink. unfold await_bytes at 1, pull_bytes. rewrite Hout.
  rewrite (proj2 (Nat.leb_le _ _)) by (rewrite length_append; lia). cbn [map_err].
  rewrite <- Hp, substring_app, substring_skip, Hval.
  unfold eff_bind at 1, io_lift at 1, eff_lift, read_length.
  rewrite (proj2 (Z.ltb_ge _ _)) by (unfold usize_saturating_sub, MAX_FRAME_BYTES in *; lia).
  cbn [map_err]. unfold eff_bind at 1, io_call, eff_map_err. cbn [os_read_exact joint_host].
  cbn [jt_link]. rewrite Hlink.
  unfold await_bytes, pull_bytes. cbn [jt_agent jt_host jt_state jt_link jt_timeout pg_out pg_in pg_guest].
  unfold str_len. rewrite Nat2Z.id, (proj2 (Nat.leb_le _ _)) by lia. cbn [map_err].
  rewrite take_all. pose proof (substring_app body EmptyString) as Hall.
  rewrite append_nil_r in Hall. rewrite Hall. unfold io_lift, eff_lift.
  assert (Hd : decode (prefix +:+ body) = Ok m).
  { rewrite <- (append_nil_r (prefix +:+ body)). by apply decode_encode. }
  by rewrite Hd.
Qed.

(** A request in flight. *)
Definition asked (g : G) (frame : bytes) (j : world) : world :=
  MkJoint (jt_host j) (MkPiped g frame EmptyString) Serving Linked DEFAULT_READ_TIMEOUT.

Lemma send_asks channel m frame g (j : world) :
  at_rest g j -> carried m frame ->
  send channel m j = (Ok tt, asked g frame j).
Proof.
  intros (Ha & Hs & Hl & Ht) (_ & _ & He). unfold send, eff_bind, io_lift, eff_lift, io_call, eff_map_err.
  rewrite He. cbn [map_err os_write_all joint_host]. by rewrite Hl, Hs, Ha, Ht.
Qed.

Lemma serve_asked m frame reply f (g g' : G) :
  carried m frame -> handle m work g = (Ok (Some reply), g') -> encode reply = Ok f ->
  serve_frame work (MkPiped g frame EmptyString) = (Ok true, MkPiped g' EmptyString f).
Proof.
  intros Hm Hh He. rewrite <- (append_nil_r frame).
  by apply (serve_answers work m frame EmptyString EmptyString reply f).
Qed.

Lemma carried_nonempty m frame : carried m frame -> is_empty frame = false.
Proof.
  intros Hc. destruct (carried_split _ _ Hc) as (prefix & body & -> & Hp & _). by destruct prefix.
Qed.

(** The host waits for the answer and receives it. *)
Lemma recv_answer channel m frame reply f g g' (j : world) :
  carried m frame -> carried reply f -> answers m reply g g' ->
  exists j', recv channel (asked g frame j) = (Ok reply, j') /\ at_rest g' j'.
Proof.
  intros Hm Hr [Hh Ht].
  assert (Hserve := serve_asked m frame reply f g g' Hm Hh (proj2 (proj2 Hr))).
  set (j1 := MkJoint (os_sleep (gs_now g' - gs_now g) (jt_host j)) (MkPiped g' EmptyString f)
               Serving Linked DEFAULT_READ_TIMEOUT : world).
  assert (Hwait : await_bytes work 4 (asked g frame j) = await_bytes work 4 j1).
  { destruct (carried_split _ _ Hr) as (prefix & body & -> & Hp & _).
    assert (Hlen : (4 <=? String.length (prefix +:+ body))%nat = true)
      by (apply Nat.leb_le; rewrite length_append; lia).
    unfold await_bytes at 2. cbn [j1 jt_agent pg_out]. rewrite Hlen.
    unfold await_bytes. change (jt_agent (asked g frame j)) with (MkPiped g frame EmptyString).
    cbn [pg_out pg_in]. change (4 <=? String.length EmptyString)%nat with false. cbv iota.
    rewrite (carried_nonempty _ _ Hm), Hserve. cbn [pg_guest pg_out jt_timeout jt_state asked next_state].
    by rewrite (proj2 (Z.ltb_ge _ _) Ht), Hlen. }
  exists (MkJoint (jt_host j1) (MkPiped g' EmptyString EmptyString) Serving Linked
            DEFAULT_READ_TIMEOUT).
  split; [|done]. etrans; [|exact (recv_frame channel reply f j1 Hr eq_refl eq_refl)].
  unfold recv, eff_bind at 1, io_call at 1, eff_map_err. cbn [os_read_exact joint_host asked jt_link j1].
  rewrite Hwait. reflexivity.
Qed.

(** An answer that takes longer than the read timeout is not waited for. *)
Lemma recv_late channel m frame reply f g g' (j : world) :
  carried m frame -> encode reply = Ok f -> handle m work g = (Ok (Some reply), g') ->
  (DEFAULT_READ_TIMEOUT < gs_now g' - gs_now g)%Z ->
  exists e j', recv channel (asked g frame j) = (Err (Raised e), j').
Proof.
  intros Hm He Hh Ht. pose proof (serve_asked m frame reply f g g' Hm Hh He) as Hserve.
  unfold recv, eff_bind, io_call, eff_map_err. cbn [os_read_exact joint_host asked jt_link].
  unfold await_bytes. fold (asked g frame j). change (jt_agent (asked g frame j)) with (MkPiped g frame EmptyString).
  cbn [pg_out pg_in String.length Nat.leb]. rewrite (carried_nonempty _ _ Hm), Hserve.
  cbn [pg_guest jt_timeout jt_state asked next_state]. rewrite (proj2 (Z.ltb_lt _ _) Ht). eauto.
Qed.

(** *** The connection *)

Definition runs (g : G) (j : world) : Prop := pg_guest (jt_agent j) = g.

(** Reading the proxy's line over a link leaves the streams alone, and a line that
    is not empty means that the agent serves it. *)
Lemma read_line_linked fuel stream previous out (j : world) :
  jt_link j = Linked -> jt_state j = Serving \/ (jt_state j = Listening /\ out = EmptyString) ->
  let '(r, j') := read_line fuel stream previous out j in
  jt_agent j' = jt_agent j /\ jt_link j' = Linked /\
  (forall line, r = Ok line -> line <> EmptyString -> jt_state j' = Serving).
Proof.
  revert previous out j. induction fuel as [|fuel IH]; intros previous out j Hl Hs; [done|].
  cbn [read_line]. unfold eff_bind, io_call, eff_map_err. cbn [os_read joint_host]. rewrite Hl.
  destruct (os_read stream (jt_host j)) as [[[byte|]|e] w']; cbn [map_err].
  - assert (Hserving : accepted (Ok (Some byte)) (jt_state j) = Serving) by (by destruct Hs as [->|[-> _]]).
    rewrite Hserving. destruct (Ascii.eqb byte LF); [done|].
    apply (IH _ _ (MkJoint w' (jt_agent j) Serving Linked (jt_timeout j))); [done | by left].
  - simpl. split; [done|]. split; [done|]. intros line [= <-] Hne.
    by destruct Hs as [->|[-> ->]].
  - done.
Qed.

(** However a connection ends, the guest runs on; if it succeeds, it is at rest. *)
Lemma connect_rests g uds_path port (j : world) :
  runs g j ->
  let '(r, j') := connect uds_path port DEFAULT_READ_TIMEOUT j in
  runs g j' /\ (forall channel, r = Ok channel -> at_rest g j').
Proof.
  intros Hg. unfold connect, eff_bind, io_call, eff_map_err, read_reply.
  cbn [os_connect os_set_timeouts os_write_all joint_host].
  destruct (os_connect uds_path (jt_host j)) as [[stream|e] w1]; [cbn [map_err]|by split].
  cbn [jt_host jt_agent jt_state jt_link jt_timeout].
  destruct (os_set_timeouts stream DEFAULT_CONNECT_TIMEOUT w1) as [[[]|e] w2]; [cbn [map_err]|by split].
  cbn [jt_host jt_agent jt_state jt_link jt_timeout].
  destruct (os_write_all stream _ w2) as [[[]|e] w3]; [cbn [map_err]|by split].
  cbn [jt_host jt_agent jt_state jt_link jt_timeout]. unfold cleared. rewrite Hg.
  set (state := match jt_state j with Serving => Exited | state => state end).
  set (j3 := MkJoint w3 (MkPiped g EmptyString EmptyString) state
               (match state with Listening => Linked | _ => Dead end) DEFAULT_CONNECT_TIMEOUT).
  assert (Hline : let '(r, j4) := read_line (S (os_backlog stream j3)) stream LF EmptyString j3 in
            runs g j4 /\ (forall line, r = Ok line -> line <> EmptyString ->
              jt_agent j4 = MkPiped g EmptyString EmptyString /\ jt_link j4 = Linked /\
              jt_state j4 = Serving)).
  { destruct (decide (state = Listening)) as [Hst|Hst].
    - pose proof (read_line_linked (S (os_backlog stream j3)) stream LF EmptyString j3) as Hr.
      destruct (read_line _ stream LF EmptyString j3) as [r j4].
      destruct Hr as (Ha & Hl & Hs); [by simpl; rewrite Hst | by right|].
      split; [unfold runs; by rewrite Ha|]. intros line Hok Hne. by rewrite Ha, Hl, (Hs line).
    - assert (Hdead : jt_link j3 = Dead) by (simpl; by destruct state).
      cbn [read_line]. unfold eff_bind, io_call, eff_map_err.
      cbn [os_read joint_host]. rewrite Hdead. split; [done|].
      intros line [= <-]. done. }
  destruct (read_line _ stream LF EmptyString j3) as [[line|e] [w4 p st l t]];
    destruct Hline as [Hg4 Hline]; [|by split].
  destruct (String.prefix CONNECT_OK_PREFIX line) eqn:Hp; simpl negb; cbv iota; [|by split].
  destruct (Hline line eq_refl) as (Ha & Hl & Hs); [by intros -> | simpl in Ha, Hl, Hs; subst].
  unfold eff_bind, io_call, eff_map_err. cbn.
  by destruct (os_set_timeouts stream DEFAULT_READ_TIMEOUT w4) as [[[]|e] w5].
Qed.

(** *** The executor's session *)

Variable config : FirecrackerExecutorConfig.
Hypothesis Hlaws : GuestOsLaws G.
Context `{!Sha256Laws}.

#[local] Existing Instance joint_runtime.

Notation FX := (FirecrackerExecutor * world)%type.

(** A connected executor and its agent, nothing in flight. *)
Definition in_session (g : G) (s : FX) : Prop :=
  (exists channel, fx_session (fst s) = Some channel) /\ fx_terminated (fst s) = false /\
  at_rest g (snd s).

Lemma bootstrap_runs g production vm (j : world) :
  runs g j -> runs g (snd (snd (bootstrap production (vm, j)))).
Proof.
  intros Hg. refine (kept_bootstrap (W := world) (runs g) _ _ _ _ _ production (vm, j) Hg).
  - intros program arguments w Hw. cbn. by destruct (os_spawn program arguments (jt_host w)) as [[] w'].
  - intros pid w Hw. cbn. unfold host_call. by destruct (os_try_wait pid (jt_host w)).
  - intros path w Hw. cbn. unfold host_call. by destruct (os_try_exists path (jt_host w)).
  - done.
  - intros path request w Hw. cbn. unfold host_call. by destruct (os_exchange path request (jt_host w)).
Qed.

Lemma open_guest_channel_rests g vm channel (j j' : world) :
  runs g j -> open_guest_channel vm j = (Ok channel, j') -> at_rest g j'.
Proof.
  intros Hg. unfold open_guest_channel, retry_until. destruct (negb _); [done|]. intros Ho.
  pose proof (connect_rests g (fc_vsock_uds_path (vm_config vm)) (vc_port (fc_vsock (vm_config vm)))) as Hc.
  apply (retry_loop_Ok (runs g)) in Ho as (j1 & Hj1 & Ho); [|clear j j' Hg Ho; intros j Hj|done|done].
  - specialize (Hc j1 Hj1). rewrite Ho in Hc. by apply (proj2 Hc channel).
  - specialize (Hc j Hj). by destruct (connect _ _ _ j), Hc.
Qed.

(** Whatever the boot took, its success leaves a session with the guest. *)
Lemma session_opens g (j : world) s :
  runs g j -> ensure_session config (fresh_executor, j) = (Ok tt, s) -> in_session g s.
Proof.
  intros Hg. unfold ensure_session. cbn [fx_session fresh_executor]. set (vm := FirecrackerVm_new _ _ _).
  pose proof (bootstrap_runs g (xc_production config) vm j Hg) as Hb. unfold block_on_vmm.
  set (boot := bootstrap _ _) in *.
  destruct (tokio_context (snd (vm, j))) as [| |[]]; try done; destruct boot as [[[]|e] [vm1 j1]];
    try done; cbn in Hb.
  all: destruct (open_guest_channel vm1 j1) as [[channel|e] j2] eqn:Ho; [|done];
    apply (open_guest_channel_rests g) in Ho; [|done];
    intros [= <-]; split; [by eexists | done].
Qed.

Lemma eff_bind_run {S E A B} (m : Eff S E A) (k : A -> Eff S E B) s a s' :
  m s = (Ok a, s') -> eff_bind m k s = k a s'.
Proof. unfold eff_bind. by intros ->. Qed.

(** Ask and be answered. *)
Lemma exchange {A} channel m frame reply f g g' (k : Message -> FxM A) (s : FX) :
  in_session g s -> carried m frame -> carried reply f -> answers m reply g g' ->
  exists s', (run* session_send channel m in io* reply := session_recv channel in k reply) s = k reply s' /\
    in_session g' s' /\ fst s' = fst s.
Proof.
  destruct s as [fx j]. intros (Hs & Ht & Hrest) Hm Hr Ha.
  destruct (recv_answer channel m frame reply f g g' j Hm Hr Ha) as (j' & Hrecv & Hrest').
  exists (fx, j'). split; [|done].
  rewrite (eff_bind_run _ _ _ tt (fx, asked g frame j)).
  2:{ unfold session_send, over_channel. by rewrite (send_asks channel m frame g j). }
  apply eff_bind_run. unfold session_recv, over_channel. by rewrite Hrecv.
Qed.

Definition batch_capabilities : list string := ["algorithm.batch"].

(** The frames of the host's own requests, and of the agent's consent. *)
Definition requests_carried : Prop :=
  (exists f, encode (Negotiate batch_capabilities) = Ok f) /\ (exists f, encode (Negotiated true) = Ok f) /\
  (exists f, encode (Build (default_argv "build") BUILD_WALL_MS) = Ok f) /\
  (exists f, encode (Run (default_argv "run") RUN_WALL_MS) = Ok f).

Hypothesis Hcarried : requests_carried.

(** The agent supports what the executor negotiates. *)
Lemma negotiates g (s : FX) :
  in_session g s ->
  exists s', ensure_negotiated s = (Ok tt, s') /\ in_session g s' /\
    fst s' = set_negotiated (fst s).
Proof.
  intros Hs. destruct Hcarried as ([f1 H1'] & [f2 H2'] & _).
  assert (Hm : carried (Negotiate batch_capabilities) f1).
  { split; [|split; [|done]]; [done|]. vm_compute. repeat constructor; discriminate. }
  assert (Hr : carried (Negotiated true) f2) by done.
  unfold ensure_negotiated. destruct s as [fx j].
  rewrite (eff_bind_run _ _ _ (fx, j) (fx, j)) by done. cbn beta iota.
  destruct (fx_negotiated fx) eqn:Hn.
  { exists (fx, j). split; [done|]. split; [done|]. simpl. unfold set_negotiated. destruct fx. simpl in *. by subst. }
  destruct Hs as ([channel Hc] & Ht & Hrest). simpl in *.
  rewrite (eff_bind_run _ _ _ channel (fx, j)) by (unfold get_session; by rewrite Hc).
  destruct (exchange channel (Negotiate batch_capabilities) f1 (Negotiated true) f2 g g
    (fun reply => match reply with
     | Negotiated true => on_executor set_negotiated
     | Negotiated false => eff_fail UnsupportedCapability
     | _ => eff_fail (InvalidExecutorOutput "unexpected negotiate reply")
     end) (fx, j)) as ([fx' j'] & He & Hs' & Hfx); [by split; [eexists|]|done|done|..].
  { split; [done|]. unfold DEFAULT_READ_TIMEOUT. lia. }
  simpl in Hfx. subst fx'. exists (set_negotiated fx, j'). split; [exact He|]. split; [|done].
  destruct Hs' as (? & ? & ?). by split.
Qed.

(** *** Guest stages *)

(** The guest runs a command of [stage], and its report arrives in time and
    quotes no line that is too long for the host. *)
Definition reports (stage : Stage.t) (argv : list string) (budget : Z) (g g' : G) (code : Z) : Prop :=
  exists hex size usage ds f,
    stage_output stage argv work budget g = (Ok (StageOutput stage code hex size usage ds), g') /\
    encode (StageOutput stage code hex size usage ds) = Ok f /\
    Forall short_message ds /\ (gs_now g' - gs_now g <= DEFAULT_READ_TIMEOUT)%Z.

(** Counters so small that two of them add up. *)
Definition small_usage (u : ResourceUsage) : Prop :=
  (0 <= ru_cpu_time_ms u <= DEFAULT_READ_TIMEOUT)%Z /\ (0 <= ru_wall_time_ms u <= DEFAULT_READ_TIMEOUT)%Z /\
  ru_memory_peak_bytes u = 0%Z /\
  (0 <= ru_output_bytes u <= BOOT_OUTPUT_LIMIT + BOOT_DIAGNOSTICS_BYTES)%Z.

(** The outcome of a reported command. *)
Definition reported_outcome (stage : StageKind.t) (code : Z) (x : StageExecution) : Prop :=
  small_usage (outcome_usage x) /\
  outcome_terminal x =
    (if (code =? 0)%Z then None
     else Some (MkTerminal EvaluationStatus.Completed (stage_verdict stage code) score_0_1)).

Lemma report_execution stage argv budget g g' code hex size usage ds :
  stage_output stage argv work budget g = (Ok (StageOutput stage code hex size usage ds), g') ->
  Forall short_message ds -> (gs_now g' - gs_now g <= DEFAULT_READ_TIMEOUT)%Z ->
  exists x, execution_for_stage_output (host_stage stage) code hex size usage ds = Ok x /\
    reported_outcome (host_stage stage) code x.
Proof.
  intros Hrun Hshort Htime.
  destruct (stage_output_counters _ _ _ _ _ _ _ _ _ _ _ _ Hrun) as (_ & Hu & Hsize).
  destruct (stage_output_bounded _ _ _ _ _ _ _ Hrun) as [(_ & Hbytes & _) (_ & Hlen & _)].
  assert (Hwall : (0 <= u64_or_default (gs_now g' - gs_now g) <= DEFAULT_READ_TIMEOUT)%Z).
  { unfold u64_or_default. destruct (in_range _ _ _) eqn:Hr; [apply in_range_true in Hr; lia | done]. }
  destruct (stage_output_admissible _ _ _ _ _ _ _ Hrun) as (? & ? & ? & ? & ? & [= <- <- <- <- <-] & Ha).
  assert (Hadm : report_admissible (host_stage stage) hex size usage ds).
  { apply Ha; [|done]. rewrite Hu. simpl. unfold DEFAULT_READ_TIMEOUT, MAX_WALL_TIME_MS in *. lia. }
  exists (host_execution (host_stage stage) code hex size usage ds).
  assert (Hx : execution_for_stage_output (host_stage stage) code hex size usage ds =
               Ok (host_execution (host_stage stage) code hex size usage ds)) by (by apply execution_iff).
  split; [done|].
  destruct (stage_output_conforms (host_stage stage) code hex size usage ds _ ltac:(by destruct stage)
              Hbytes Hlen Hx) as (_ & _ & Hz & Hnz).
  split.
  - unfold host_execution. rewrite Hu. destruct (code =? 0)%Z; simpl; unfold small_usage, host_usage; simpl; lia.
  - destruct (Z.eqb_spec code 0) as [->|Hne]; [by apply Hz | by apply Hnz].
Qed.

(** The executor asks for the command and forms the stage's outcome itself. *)
Lemma guest_stage_reported stage argv budget g g' code (s s1 : FX) f :
  ensure_session config s = (Ok tt, s1) -> in_session g s1 ->
  carried (stage_message (host_stage stage) argv budget) f -> reports stage argv budget g g' code ->
  exists x s', run_guest_stage config (host_stage stage) argv budget s = (Ok x, s') /\
    reported_outcome (host_stage stage) code x /\ in_session g' s' /\
    (stage = Stage.Run -> fx_last_run_exit (fst s') = Some code).
Proof.
  intros Hsess Hin Hm (hex & size & usage & ds & fr & Hrun & Henc & Hshort & Htime).
  destruct (report_execution _ _ _ _ _ _ _ _ _ _ Hrun Hshort Htime) as (x & Hx & Hout).
  destruct (stage_output_bounded _ _ _ _ _ _ _ Hrun) as [Hv Hb].
  destruct (negotiates g s1 Hin) as (s2 & Hneg & Hin2 & _).
  destruct (proj1 Hin2) as [channel Hc].
  unfold run_guest_stage. rewrite (eff_bind_run _ _ _ _ _ Hsess), (eff_bind_run _ _ _ _ _ Hneg).
  rewrite (eff_bind_run _ _ _ channel s2) by (unfold get_session; destruct s2; simpl in Hc; by rewrite Hc).
  edestruct (exchange (A := StageExecution) channel (stage_message (host_stage stage) argv budget) f
    (StageOutput stage code hex size usage ds) fr g g') as (s3 & He & Hin3 & Hfx); [done|done|done|..].
  { split; [|exact Htime]. destruct stage; cbn [host_stage stage_message handle]; by rewrite (eff_bind_run _ _ _ _ _ Hrun). }
  erewrite He. cbn beta iota. clear He.
  destruct stage; cbn [host_stage]; cbn [host_stage] in Hx.
  - exists x, s3. split; [|done]. rewrite bool_decide_eq_false_2 by done.
    rewrite (eff_bind_run _ _ _ tt s3) by done. unfold eff_lift. by rewrite Hx.
  - destruct s3 as [fx3 j3]. exists x, (set_last_run_exit code fx3, j3). rewrite bool_decide_eq_true_2 by done.
    rewrite (eff_bind_run _ _ _ tt (set_last_run_exit code fx3, j3)) by done. unfold eff_lift. rewrite Hx.
    split; [done|]. split; [done|]. split; [|done]. destruct Hin3 as (? & ? & ?). by split.
Qed.

(** *** Attempts *)

Notation stages := (firecracker_stages (W := world) config).

Lemma stage_execution request stage x (s s' : FX) :
  fx_terminated (fst s) = false -> stage_outcome config stage s = (Ok x, s') ->
  se_execute (StageExecutor := stages) (MkStageContext request stage) s = (x, s').
Proof. intros Ht Ho. simpl. unfold execute_stage. rewrite Ht. cbn [sc_stage]. by rewrite Ho. Qed.

(** What the commands' exit codes come to. *)
Definition judged (build_code run_code : Z) : Verdict.t :=
  if (build_code =? 0)%Z then
    if (run_code =? 0)%Z then Verdict.Accepted
    else if (run_code =? GUEST_TIMEOUT_EXIT_CODE)%Z then Verdict.TimeLimitExceeded
    else Verdict.RuntimeError
  else Verdict.CompileError.

Definition passed : StageExecution := ExSucceeded ResourceUsage_default [] [] None.

Lemma passed_small : small_usage (outcome_usage passed).
Proof. by vm_compute. Qed.

(** The usage of an attempt of small outcomes adds up. *)
Lemma small_trace_valid os :
  (length os <= 5)%nat -> Forall (fun x => small_usage (outcome_usage x)) os ->
  valid (trace_usage ResourceUsage_default os).
Proof.
  intros Hlen Hos. unfold trace_usage.
  assert (Hsum : forall n u, (length os + n <= 5)%nat ->
    (0 <= ru_cpu_time_ms u <= Z.of_nat n * DEFAULT_READ_TIMEOUT)%Z ->
    (0 <= ru_wall_time_ms u <= Z.of_nat n * DEFAULT_READ_TIMEOUT)%Z -> ru_memory_peak_bytes u = 0%Z ->
    (0 <= ru_output_bytes u <= Z.of_nat n * (BOOT_OUTPUT_LIMIT + BOOT_DIAGNOSTICS_BYTES))%Z ->
    valid (foldl usage_join u (map outcome_usage os))); [|by apply (Hsum 0%nat); [lia|..]].
  clear Hlen. induction Hos as [|x os (Hc & Hw & Hm & Ho) _ IH]; intros n u Hn Hcu Hwu Hmu Hou; simpl in *.
  - unfold valid, valid_usage, DEFAULT_READ_TIMEOUT, BOOT_OUTPUT_LIMIT, BOOT_DIAGNOSTICS_BYTES,
      MAX_CPU_TIME_MS, MAX_WALL_TIME_MS, MAX_MEMORY_BYTES, MAX_OUTPUT_BYTES in *. lia.
  - apply (IH (S n)); simpl; lia.
Qed.

(** A trace that stops at a rejection. *)
Lemma rejected_trace_end os x v :
  outcome_terminal x = Some (MkTerminal EvaluationStatus.Completed v score_0_1) ->
  trace_end ALGORITHM_BATCH_STAGES (os ++ [x]) = Some (MkTerminal EvaluationStatus.Completed v score_0_1).
Proof. intros Hx. unfold trace_end, trace_terminal. rewrite last_snoc. simpl. by rewrite Hx. Qed.

Lemma command_carried m f :
  encode m = Ok f -> m = Build (default_argv "build") BUILD_WALL_MS \/ m = Run (default_argv "run") RUN_WALL_MS ->
  carried m f.
Proof. intros He [->| ->]; (split; [by vm_compute|split; [vm_compute; repeat constructor; discriminate | done]]). Qed.

Lemma judged_run request g j s1 build_code run_code g1 g2 :
  runs g j -> ensure_session config (fresh_executor, j) = (Ok tt, s1) ->
  reports Stage.Build (default_argv "build") BUILD_WALL_MS g g1 build_code ->
  (build_code = 0%Z -> reports Stage.Run (default_argv "run") RUN_WALL_MS g1 g2 run_code) ->
  exists os s' t, Executes (H := stages) request ALGORITHM_BATCH_STAGES (fresh_executor, j) os s' /\
    valid (trace_usage ResourceUsage_default os) /\ trace_end ALGORITHM_BATCH_STAGES os = Some t /\
    t_verdict t = judged build_code run_code.
Proof.
  intros Hg Hboot Hbuild Hrun. pose proof (session_opens g j s1 Hg Hboot) as Hin.
  destruct Hcarried as (_ & _ & [fb Hfb] & [fr Hfr]).
  apply command_carried in Hfb; [|by left]. apply command_carried in Hfr; [|by right].
  destruct (guest_stage_reported Stage.Build _ _ g g1 build_code (fresh_executor, j) s1 fb Hboot Hin Hfb Hbuild)
    as (xb & s2 & Hxb & [Hub Hob] & Hin2 & _).
  apply (stage_execution request StageKind.Build) in Hxb; [|done]. pose proof passed_small as Hup.
  unfold judged. destruct (Z.eqb_spec build_code 0) as [->|Hne].
  2:{ eexists [passed; xb], s2, _.
      split; [eapply exec_next; [done|done|eapply exec_stop; [exact Hxb | by rewrite Hob]]|].
      split; [apply small_trace_valid; [simpl; lia | by rewrite ?Forall_cons]|].
      split; [by apply (rejected_trace_end [passed]) | done]. }
  destruct (guest_stage_reported Stage.Run (default_argv "run") RUN_WALL_MS g1 g2 run_code s2 s2 fr)
    as (xr & s3 & Hxr & [Hur Hor] & Hin3 & Hexit); [|done|exact Hfr|by apply Hrun|].
  { destruct Hin2 as ([channel Hc] & _). unfold ensure_session. destruct s2. simpl in Hc. by rewrite Hc. }
  apply (stage_execution request StageKind.Run) in Hxr; [|apply Hin2].
  destruct (Z.eqb_spec run_code 0) as [->|Hne].
  2:{ eexists [passed; xb; xr], s3, _.
      split; [eapply exec_next; [done|done|eapply exec_next; [exact Hxb|exact Hob|]];
              eapply exec_stop; [exact Hxr | by rewrite Hor]|].
      split; [apply small_trace_valid; [simpl; lia | by rewrite ?Forall_cons]|].
      split; [by apply (rejected_trace_end [passed; xb])|]. cbn [t_verdict host_stage stage_verdict].
      done. }
  specialize (Hexit eq_refl). set (accept := MkDecision Verdict.Accepted (MkScore 1 1)).
  set (xc := ExSucceeded ResourceUsage_default [] [] (Some accept)).
  assert (Hxc : se_execute (StageExecutor := stages) (MkStageContext request StageKind.Check) s3 = (xc, s3)).
  { apply stage_execution; [apply Hin3|]. destruct s3 as [fx3 j3]. simpl in Hexit. cbn [stage_outcome].
    rewrite (eff_bind_run _ _ _ (fx3, j3) (fx3, j3)) by done. by rewrite Hexit. }
  eexists [passed; xb; xr; xc; passed], s3, _.
  split; [eapply exec_next; [done|done|eapply exec_next; [exact Hxb|exact Hob|]];
          eapply exec_next; [exact Hxr|exact Hor|eapply exec_next; [exact Hxc|done|]];
          eapply exec_next; [|done|constructor]|].
  { by apply stage_execution; [apply Hin3|]. }
  split; [apply small_trace_valid; [simpl; lia | by rewrite ?Forall_cons]|]. done.
Qed.

(** *** A build that outlasts the channel *)

(** The guest reports, but later than the host waits. *)
Definition reports_late (stage : Stage.t) (argv : list string) (budget : Z) (g : G) : Prop :=
  exists reply f g', stage_output stage argv work budget g = (Ok reply, g') /\ encode reply = Ok f /\
    (DEFAULT_READ_TIMEOUT < gs_now g' - gs_now g)%Z.

Lemma guest_stage_late stage argv budget g (s s1 : FX) f :
  ensure_session config s = (Ok tt, s1) -> in_session g s1 ->
  carried (stage_message (host_stage stage) argv budget) f -> reports_late stage argv budget g ->
  exists e s', run_guest_stage config (host_stage stage) argv budget s = (Err e, s').
Proof.
  intros Hsess Hin Hm (reply & fr & g' & Hrun & Henc & Htime).
  destruct (negotiates g s1 Hin) as ([fx j] & Hneg & ([channel Hc] & _ & Hrest) & _). simpl in Hc, Hrest.
  unfold run_guest_stage. rewrite (eff_bind_run _ _ _ _ _ Hsess), (eff_bind_run _ _ _ _ _ Hneg).
  rewrite (eff_bind_run _ _ _ channel (fx, j)) by (unfold get_session; by rewrite Hc).
  rewrite (eff_bind_run _ _ _ tt (fx, asked g f j)).
  2:{ unfold session_send, over_channel. by rewrite (send_asks channel _ f g j). }
  destruct (recv_late channel _ f reply fr g g' j Hm Henc) as (e & j' & Hrecv); [|done|].
  { destruct stage; cbn [host_stage stage_message handle]; by rewrite (eff_bind_run _ _ _ _ _ Hrun). }
  eexists _, _. unfold eff_bind, session_recv, over_channel. by rewrite Hrecv.
Qed.

Lemma late_run request g j s1 :
  runs g j -> ensure_session config (fresh_executor, j) = (Ok tt, s1) ->
  reports_late Stage.Build (default_argv "build") BUILD_WALL_MS g ->
  exists os s' t, Executes (H := stages) request ALGORITHM_BATCH_STAGES (fresh_executor, j) os s' /\
    valid (trace_usage ResourceUsage_default os) /\ trace_end ALGORITHM_BATCH_STAGES os = Some t /\
    t_verdict t = Verdict.SystemError.
Proof.
  intros Hg Hboot Hlate. pose proof (session_opens g j s1 Hg Hboot) as Hin.
  destruct Hcarried as (_ & _ & [fb Hfb] & _). apply command_carried in Hfb; [|by left].
  destruct (guest_stage_late Stage.Build _ _ g (fresh_executor, j) s1 fb Hboot Hin Hfb Hlate) as (e & s2 & Hb).
  eexists [passed; stage_failed], (fx_teardown s2), _.
  split; [eapply exec_next; [done|done|eapply exec_stop; [|done]]|].
  { simpl. unfold execute_stage. cbn [fst fx_terminated fresh_executor sc_stage stage_outcome].
    cbn [host_stage] in Hb. by rewrite Hb. }
  split; [apply small_trace_valid; [simpl; lia | rewrite ?Forall_cons; pose proof passed_small; done]|]. done.
Qed.

(** From the trace to the attempt's answer. *)
Definition attempt_answer (request : EvaluationRequest) (fx : FirecrackerExecutor) (j : world)
    (v : Verdict.t) : Prop :=
  exists r, fst (execute_attempt config request (fx, j)) = Ok r /\ valid r /\
    res_identity r = EvaluationIdentity_from_request request /\
    res_provenance r = attempt_provenance config request /\ res_verdict r = v.

Lemma attempt_of_trace request fx j os s' t :
  valid request -> valid (xc_node_id config) -> batch_only request -> idle fx ->
  Executes (H := stages) request ALGORITHM_BATCH_STAGES (fresh_executor, j) os s' ->
  valid (trace_usage ResourceUsage_default os) -> trace_end ALGORITHM_BATCH_STAGES os = Some t ->
  attempt_answer request fx j (t_verdict t).
Proof.
  intros Hreq Hnode Hb Hidle He Hu Ht.
  exists (expected_result request (attempt_provenance config request) os t).
  assert (Hr : fst (execute_attempt config request (fx, j)) =
               Ok (expected_result request (attempt_provenance config request) os t)).
  { apply attempt_characterised; [done..|]. split; [done|]. exists os, s', t.
    by rewrite (begin_attempt_idle fx Hidle). }
  split; [exact Hr|]. split; [exact (attempt_result_valid config request fx j _ Hreq Hnode Hr) | done].
Qed.

(** ** Attempts, judged *)

Lemma attempt_judged request fx (j : world) g1 g2 build_code run_code :
  valid request -> valid (xc_node_id config) -> batch_only request -> idle fx ->
  fst (ensure_session config (fresh_executor, j)) = Ok tt ->
  reports Stage.Build (default_argv "build") BUILD_WALL_MS (pg_guest (jt_agent j)) g1 build_code ->
  (build_code = 0%Z -> reports Stage.Run (default_argv "run") RUN_WALL_MS g1 g2 run_code) ->
  attempt_answer request fx j (judged build_code run_code).
Proof.
  intros Hreq Hnode Hb Hidle Hboot Hbuild Hrun.
  destruct (ensure_session config (fresh_executor, j)) as [o s1] eqn:He. simpl in Hboot. subst o.
  destruct (judged_run request _ j s1 build_code run_code g1 g2 eq_refl He Hbuild Hrun)
    as (os & s' & t & Hex & Hu & Ht & <-).
  by apply (attempt_of_trace request fx j os s' t).
Qed.
End Session.

(** ** Reports, decided *)

Section Decide.
Context {G : Type} `{GuestOs G, Sha256, SerdeJson, UnicodeText}.

Definition short_lines (ds : list GuestDiagnostic) : bool :=
  forallb (fun d => char_count (gd_message d) <=? MAX_DIAGNOSTIC_MESSAGE_LENGTH)%Z ds.

(** The command reports [code], in time if [timely] and later than that if not. *)
Definition reports_code (work : string) (stage : Stage.t) (argv : list string) (budget : Z) (g : G)
    (timely : bool) (code : Z) : bool :=
  match stage_output stage argv work budget g with
  | (Ok (StageOutput reported code' hex size usage ds), g') =>
      (code' =? code)%Z && short_lines ds &&
      Bool.eqb timely (gs_now g' - gs_now g <=? DEFAULT_READ_TIMEOUT)%Z &&
      bool_decide (reported = stage) &&
      match encode (StageOutput reported code' hex size usage ds) with Ok _ => true | Err _ => false end
  | _ => false
  end.

Lemma report_of work stage argv budget (g : G) code :
  reports_code work stage argv budget g true code = true ->
  exists g', snd (stage_output stage argv work budget g) = g' /\
    reports work stage argv budget g g' code.
Proof.
  unfold reports_code, reports. destruct (stage_output stage argv work budget g) as [[m|e] g']; [|done].
  destruct m as [| | | | | |reported code' hex size usage ds| | | | | |]; try done.
  destruct (encode _) as [f|e] eqn:He; [|by rewrite andb_false_r]. intros Hall. split_bools. subst.
  exists g'. split; [done|]. exists hex, size, usage, ds, f. split; [done|]. split; [done|]. split.
  - unfold short_lines in *. apply List.Forall_forall. intros d Hd.
    match goal with Hx : forallb _ _ = true |- _ => rewrite forallb_forall in Hx; specialize (Hx d Hd) end.
    by apply Z.leb_le.
  - match goal with Hx : Bool.eqb true _ = true |- _ => apply Bool.eqb_prop in Hx end. by apply Z.leb_le.
Qed.

Lemma late_of work stage argv budget (g : G) code :
  reports_code work stage argv budget g false code = true -> reports_late work stage argv budget g.
Proof.
  unfold reports_code, reports_late. destruct (stage_output stage argv work budget g) as [[m|e] g']; [|done].
  destruct m as [| | | | | |reported code' hex size usage ds| | | | | |]; try done.
  destruct (encode _) as [f|e] eqn:He; [|by rewrite andb_false_r]. intros Hall. split_bools.
  eexists _, f, g'. split; [done|]. split; [done|].
  match goal with Hx : Bool.eqb false _ = true |- _ => apply Bool.eqb_prop in Hx end. by apply Z.leb_gt.
Qed.
End Decide.
