(* ===== verification/StorePort.v ===== *)
(** * The evaluation store as a port

    The trait [EvaluationStore] and its client [ControlPlane] of
    [crates/openoj-application/src/control.rs], and the implementation of
    [crates/openoj-storage/src/lib.rs]. The class of laws states what a client
    of the port relies on: its operations are those the concurrent system of
    [StoreSystem] may run, and what a write answers is what the status of the
    evaluation shows. *)

From S2P Require Import Prelude Value Control Evaluation EvalResult Codec Policy Schema Store Lease StoreLemmas StoreInv StoreSteps StoreWrites StoreSystem StoreRuns.

(** ** The trait and its client *)

Class EvaluationStore (S : Type) := {
  port_create_evaluation : S -> CreateEvaluation -> Op EvaluationSnapshot;
  port_evaluation_status : S -> EvaluationId -> Op EvaluationSnapshot;
  port_claim_task : S -> ClaimTask -> Op TaskLease;
  port_retry_expired : S -> RetryExpired -> Op EvaluationSnapshot;
  port_submit_result : S -> SubmitResult -> Op EvaluationSnapshot;
  port_cancel_evaluation : S -> CancelEvaluation -> Op EvaluationSnapshot
}.

Record ControlPlane (S : Type) : Type := ControlPlane_new { control_store : S }.
Arguments ControlPlane_new {S} control_store.
Arguments control_store {S} _.

Section Client.
Context {S : Type} `{EvaluationStore S}.
Variable control : ControlPlane S.

Definition control_create_evaluation (command : CreateEvaluation) : Op EvaluationSnapshot :=
  port_create_evaluation (control_store control) command.

Definition control_evaluation_status (evaluation_id : EvaluationId) : Op EvaluationSnapshot :=
  port_evaluation_status (control_store control) evaluation_id.

Definition control_claim_task (command : ClaimTask) : Op TaskLease :=
  port_claim_task (control_store control) command.

Definition control_retry_expired (command : RetryExpired) : Op EvaluationSnapshot :=
  port_retry_expired (control_store control) command.

Definition control_submit_result (command : SubmitResult) : Op EvaluationSnapshot :=
  port_submit_result (control_store control) command.

Definition control_cancel_evaluation (command : CancelEvaluation) : Op EvaluationSnapshot :=
  port_cancel_evaluation (control_store control) command.
End Client.

(** ** What the port promises *)

(** The answers of an operation: a snapshot that the status of its evaluation
    then shows, or an error that left the tables as they were. *)
Definition answers_shown `{Collation, RequestCodec} (status : EvaluationId -> Op EvaluationSnapshot)
    (op : Op EvaluationSnapshot) : Prop :=
  forall draws db r draws' db', Inv db -> run_op op draws db = (Some r, draws', db') ->
  match r with
  | Ok s => forall ds, run_op (status (es_evaluation_id s)) ds db' = (Some (Ok s), ds, db')
  | Err _ => db' = db
  end.

Class EvaluationStoreLaws (S : Type) `{EvaluationStore S, Collation, RequestCodec} := {
  port_create_shown : forall (store : S) c, valid (ce_request c) ->
    answers_shown (port_evaluation_status store) (port_create_evaluation store c);
  port_status_shown : forall (store : S) id, valid id ->
    answers_shown (port_evaluation_status store) (port_evaluation_status store id);
  port_retry_shown : forall (store : S) c, valid (re_request c) ->
    answers_shown (port_evaluation_status store) (port_retry_expired store c);
  port_submit_shown : forall (store : S) c,
    answers_shown (port_evaluation_status store) (port_submit_result store c);
  port_cancel_shown : forall (store : S) c,
    answers_shown (port_evaluation_status store) (port_cancel_evaluation store c)
}.

(** ** PostgreSQL behind the port *)

(** The pool is what [connect] makes of its bound; the tables it leads to are
    the state the operations run on. *)
Record PostgresEvaluationStore : Type := PostgresEvaluationStore_from_pool { max_connections : Z }.

Definition PostgresEvaluationStore_connect (reachable : bool) (pool_size : Z)
    : result StoreError.t PostgresEvaluationStore :=
  if reachable then Ok (PostgresEvaluationStore_from_pool pool_size)
  else Err StoreError.Unavailable.

#[export] Instance postgres_store `{Collation, RequestCodec}
    : EvaluationStore PostgresEvaluationStore := {|
  port_create_evaluation := fun _ => create_evaluation;
  port_evaluation_status := fun _ => evaluation_status;
  port_claim_task := fun _ => claim_task;
  port_retry_expired := fun _ => retry_expired;
  port_submit_result := fun _ => submit_result;
  port_cancel_evaluation := fun _ => cancel_evaluation
|}.

Section Shown.
Context `{Collation, RequestCodecLaws}.

Lemma shown_error e : answers_shown evaluation_status (Done (Err e)).
Proof. intros draws db r draws' db' _ [= <- _ <-]. done. Qed.

Lemma shown_try {B} (r : result StoreError.t B) (k : B -> Op EvaluationSnapshot) :
  (forall b, r = Ok b -> answers_shown evaluation_status (k b)) ->
  answers_shown evaluation_status (op_try r k).
Proof. destruct r; intros Hk; [by apply Hk|apply shown_error]. Qed.

(** A status that is answered is answered again, to whoever asks. *)
Lemma status_repeats id draws db s :
  run_op (evaluation_status id) draws db = (Some (Ok s), draws, db) ->
  forall ds, run_op (evaluation_status id) ds db = (Some (Ok s), ds, db).
Proof.
  unfold evaluation_status. intros Hs ds. rewrite run_tx in *.
  destruct (status_query id db) as [[s' db1]|e]; simpl in *; [|done]. by injection Hs as -> ->.
Qed.

(** A transaction that commits to an evaluation of the tables and then reads its
    status answers what the status shows. *)
Lemma shown_tx {B} (m : Sql B) (k : B -> Op EvaluationSnapshot) :
  (forall db b db', Inv db -> m db = Ok (b, db') ->
     Inv db' /\ exists id e, k b = evaluation_status id /\ evaluations db' !! id_str id = Some e) ->
  answers_shown evaluation_status (tx m (fun r => op_try r k)).
Proof.
  intros Hm draws db r draws' db' Hi. rewrite run_tx.
  destruct (m db) as [[b db1]|x] eqn:Hb; cbn [op_try]; [|by intros [= <- _ <-]].
  destruct (Hm db b db1 Hi Hb) as (Hi1 & id & e & -> & He).
  destruct (run_status_row db1 id e draws Hi1 He) as (s & a & Hs & _ & Hid & _).
  rewrite Hs. intros [= <- <- <-]. rewrite Hid. by eapply status_repeats.
Qed.

(** The replay of an operation reads the evaluation it was stored under. *)
Lemma stored_status db eid e :
  Inv db -> evaluations db !! eid = Some e ->
  exists id e', status_of_stored eid = evaluation_status id /\ evaluations db !! id_str id = Some e'.
Proof.
  intros Hi He. exists (MkId eid), e. split; [|done]. unfold status_of_stored, corrupt.
  by rewrite (proj2 (id_parse_iff eid (MkId eid))) by (split; [done|by eapply Inv_eid_valid]).
Qed.
End Shown.

#[export] Instance postgres_laws `{Collation, RequestCodecLaws}
    : EvaluationStoreLaws PostgresEvaluationStore.
Proof.
  split; intros store c; simpl.
  - intros Hv. apply shown_try. intros payload Hp%map_err_Ok_inv. apply shown_tx.
    intros db b db' Hi Ht. eapply create_Ok in Ht as [Hc [Hi' _]]; [|done..]. split; [done|].
    destruct Hc as [(eid & e & He & _ & _ & -> & ->)|(-> & _ & _ & db1 & _ & ->)].
    + by eapply stored_status.
    + eexists _, _. split; [done|]. apply lookup_insert_eq.
  - intros Hv draws db r draws' db' Hi. pose proof (run_status db c draws Hi Hv) as Hs.
    destruct (current_attempt db (id_str c)) as [[e a]|].
    + destruct Hs as (s & Hs & Hid & _). rewrite Hs. intros [= <- <- <-]. rewrite Hid.
      by eapply status_repeats.
    + rewrite Hs. by intros [= <- _ <-].
  - intros Hv. apply shown_try. intros now _. apply shown_try. intros payload Hp%map_err_Ok_inv.
    apply shown_tx. intros db b db' Hi Ht. eapply retry_Ok in Ht as [Hc [Hi' _]]; [|done..].
    split; [done|]. destruct Hc as [(aid & a & Ha & _ & _ & -> & ->)|(e & a & t & He & _ & _ & -> & ->)].
    + destruct (inv_attempt db Hi aid a Ha) as (e & _ & He & _). by eapply stored_status.
    + eexists _, _. split; [done|]. apply lookup_insert_eq.
  - apply shown_try. intros payload _. apply shown_try. intros now _. apply shown_tx.
    intros db b db' Hi Ht. apply submit_Ok in Ht as (e & a & t & Hc & _ & Hw & Hi' & _); [|done].
    split; [done|]. apply (Inv_current_attempt db _ e a Hi) in Hc as [He _].
    destruct Hw as [(_ & _ & ->)|(_ & _ & ->)]; eexists _, _; (split; [done|]); [done|].
    apply lookup_insert_eq.
  - unfold cancel_evaluation. destruct (_ || _); [apply shown_error|].
    apply shown_try. intros payload _. apply shown_try. intros now _. apply shown_tx.
    intros db b db' Hi Ht. apply cancel_Ok in Ht as (e & a & t & Hc & _ & Hw & Hi' & _); [|done].
    split; [done|]. apply (Inv_current_attempt db _ e a Hi) in Hc as [He _].
    destruct Hw as [(_ & _ & ->)|(_ & _ & ->)]; eexists _, _; (split; [done|]); [done|].
    apply lookup_insert_eq.
Qed.

(** ** Operations that answer *)

(** Without fuel to run out of, an operation on its own comes to an answer. *)
Definition op_answers {A : Type} (op : Op A) : Prop :=
  forall draws db, exists r draws' db', run_op op draws db = (Some r, draws', db').

Lemma answers_done {A} (r : result StoreError.t A) : op_answers (Done r).
Proof. intros draws db. by eexists _, _, _. Qed.

Lemma answers_try {A B} (r : result StoreError.t B) (k : B -> Op A) :
  (forall b, r = Ok b -> op_answers (k b)) -> op_answers (op_try r k).
Proof. destruct r as [b|e]; intros Hk; [by apply Hk | apply answers_done]. Qed.

Lemma answers_tx {A B} (m : Sql B) (k : result StoreError.t B -> Op A) :
  (forall r, op_answers (k r)) -> op_answers (tx m k).
Proof. intros Hk draws db. rewrite run_tx. destruct (m db) as [[b db1]|e]; apply Hk. Qed.

Lemma answers_then {A B} (op : Op A) (k : result StoreError.t A -> Op B) :
  op_answers op -> (forall r, op_answers (k r)) -> op_answers (op_then op k).
Proof.
  intros Hop Hk draws db. rewrite run_op_then. destruct (Hop draws db) as (r & ds & db1 & ->). apply Hk.
Qed.

Lemma status_answers `{Collation, RequestCodec} id : op_answers (evaluation_status id).
Proof. apply answers_tx. intros r. apply answers_done. Qed.

Lemma create_answers `{Collation, RequestCodec} c : op_answers (create_evaluation c).
Proof.
  apply answers_try. intros payload _. apply answers_tx. intros r. apply answers_try.
  intros [eid|] _; [|apply status_answers]. apply answers_try. intros id _. apply status_answers.
Qed.

(** Only an evaluation that is there has a status. *)
Lemma status_valid `{Collation, RequestCodecLaws} id draws db s ds db' :
  Inv db -> run_op (evaluation_status id) draws db = (Some (Ok s), ds, db') -> valid id.
Proof.
  intros Hi. unfold evaluation_status. rewrite run_tx. unfold status_query, sql_bind, sql_get, sql_lift.
  destruct (current_attempt db (id_str id)) as [[e a]|] eqn:Hc; [|done].
  apply (Inv_current_attempt db _ e a Hi) in Hc as [He _]. intros _.
  apply (Inv_eid_valid db _ e Hi) in He. by destruct id.
Qed.
