(* ===== verification/ControlPlane.v ===== *)
(** * The control-plane service

    Models [crates/openoj-judge-protocol/src/lib.rs] and
    [apps/openoj-control-plane/src/lib.rs]: the messages of Judge Control, the
    checks at its boundary, the four handlers over the evaluation store and the
    preconditions of its socket; from [main.rs], the node policy and the
    configuration values. The transport (tonic, prost) is not modelled: a handler
    gets the decoded message and answers a message or a status. *)

From S2P Require Import Prelude Value Control Evaluation EvalResult Codec Policy Schema Store Lease Text Firecracker.

Definition CLIENT_PROTOCOL_VERSION : string := "openoj.judge.control/v0alpha1".
Definition MAX_DECLARED_CAPABILITIES : Z := 64.
Definition MAX_EVALUATION_REQUEST_SIZE : Z := 262144.
Definition NO_TASK_BACKOFF_MS : Z := 500.

(** ** Boundary checks *)

Inductive ProtocolContractError : Type :=
  | UnsupportedProtocolVersion
  | InvalidDeclaredCapabilities
  | ControlMessageTooLarge
  | InvalidCanonicalPayload.

#[export] Instance ProtocolContractError_eq_dec : EqDecision ProtocolContractError.
Proof. solve_decision. Defined.

Definition validate_protocol_version (version : string) : result ProtocolContractError unit :=
  if String.eqb version CLIENT_PROTOCOL_VERSION then Ok tt else Err UnsupportedProtocolVersion.

Definition validate_declared_capabilities (capabilities : list string)
    : result ProtocolContractError (list Capability) :=
  if (MAX_DECLARED_CAPABILITIES <? len capabilities)%Z then Err InvalidDeclaredCapabilities
  else
    let* parsed := map_err (fun _ => InvalidDeclaredCapabilities)
                     (traverse Capability_parse capabilities) in
    let unique : gset Capability := list_to_set parsed in
    if negb (set_len unique =? len parsed)%Z then Err InvalidDeclaredCapabilities
    else Ok parsed.

(** ** Messages *)

Module Code.
Inductive t : Type :=
  | NotFound | AlreadyExists | FailedPrecondition | PermissionDenied | Unavailable
  | DeadlineExceeded | InvalidArgument | Internal | Other.

#[global] Instance eq_dec : EqDecision t.
Proof. solve_decision. Defined.
End Code.

Record Status : Type := MkStatus { st_code : Code.t; st_message : string }.

Record NegotiateRequest : Type := MkNegotiateRequest {
  nr_version : string;
  nr_node_id : string;
  nr_capabilities : list string
}.

Record NegotiateResponse : Type := MkNegotiateResponse {
  ns_accepted_version : string;
  ns_allowed_capabilities : list string;
  ns_lease_duration_ms : Z;
  ns_renew_after_ms : Z;
  ns_no_task_backoff_ms : Z
}.

Record ClaimRequest : Type := MkClaimRequest {
  cr_version : string;
  cr_node_id : string;
  cr_claim_operation_id : string;
  cr_capabilities : list string
}.

Record LeasedTask : Type := MkLeasedTask {
  lt_evaluation_id : string;
  lt_attempt_id : string;
  lt_attempt_number : Z;
  lt_lease_token : string;
  lt_lease_expires_at_unix_ms : Z;
  lt_canonical_request : bytes
}.

(** The [oneof] of [ClaimResponse], which may be absent. *)
Inductive ClaimOutcome : Type :=
  | Leased (task : LeasedTask)
  | NoTask (retry_after_ms : Z).

Record RenewLeaseRequest : Type := MkRenewLeaseRequest {
  rr_version : string;
  rr_node_id : string;
  rr_evaluation_id : string;
  rr_attempt_id : string;
  rr_lease_token : string
}.

Inductive RenewDirective : Type :=
  | ContinueLease (lease_expires_at_unix_ms renew_after_ms : Z)
  | CancelLease.

Record SubmitResultRequest : Type := MkSubmitResultRequest {
  sq_version : string;
  sq_node_id : string;
  sq_evaluation_id : string;
  sq_attempt_id : string;
  sq_lease_token : string;
  sq_result_operation_id : string;
  sq_canonical_result : bytes
}.

Record WireSnapshot : Type := MkWireSnapshot {
  ws_evaluation_id : string;
  ws_state : string;
  ws_current_attempt_number : Z
}.

(** ** Errors *)

Definition map_node_policy_error (error : NodePolicyError.t) : Status :=
  match error with
  | NodePolicyError.IdentityDenied => MkStatus Code.PermissionDenied "identity_denied"
  | NodePolicyError.CapabilityDenied => MkStatus Code.PermissionDenied "capability_denied"
  | NodePolicyError.InvalidRenewSchedule | NodePolicyError.DuplicateNode
  | NodePolicyError.InvalidCapabilities => MkStatus Code.Internal "invalid_configuration"
  end.

Definition map_store_error (error : StoreError.t) : Status :=
  match error with
  | StoreError.NotFound => MkStatus Code.NotFound "evaluation_not_found"
  | StoreError.NoTaskAvailable => MkStatus Code.Unavailable "no_task_available"
  | StoreError.IdempotencyConflict | StoreError.TerminalConflict =>
      MkStatus Code.AlreadyExists "operation_conflict"
  | StoreError.IdentityConflict | StoreError.LeaseConflict | StoreError.StaleLease =>
      MkStatus Code.FailedPrecondition "lease_rejected"
  | StoreError.InvalidTime | StoreError.InvalidTransition
  | StoreError.IncompatibleSchema | StoreError.CorruptData =>
      MkStatus Code.FailedPrecondition "state_rejected"
  | StoreError.Unavailable => MkStatus Code.Unavailable "storage_unavailable"
  | StoreError.ImmutableReferenceConflict => MkStatus Code.Internal "storage_error"
  end.

Definition invalid_message {E A : Type} (r : result E A) : result Status A :=
  map_err (fun _ => MkStatus Code.InvalidArgument "invalid_message") r.

(** ** The service *)

(** [JudgeControlService]; the store itself is the database the operations run
    on, so only its presence is kept. *)
Record JudgeControlService : Type := MkService {
  svc_store : bool;
  svc_node_policy : NodePolicy;
  svc_lease_policy : LeasePolicy
}.

Definition JudgeControlService_new (node_policy : NodePolicy) (lease_policy : LeasePolicy)
    : JudgeControlService := MkService false node_policy lease_policy.

Definition with_store (service : JudgeControlService) : JudgeControlService :=
  MkService true (svc_node_policy service) (svc_lease_policy service).

Definition service_store (service : JudgeControlService) : result Status unit :=
  if svc_store service then Ok tt
  else Err (MkStatus Code.Unavailable "control_plane_unavailable").

Record NodeSession : Type := MkNodeSession {
  session_node_id : NodeId;
  session_capabilities : list Capability
}.

Definition check_version (version : string) : result Status unit :=
  map_err (fun _ => MkStatus Code.FailedPrecondition "unsupported_version")
    (validate_protocol_version version).

Definition negotiate_request (service : JudgeControlService) (request : NegotiateRequest)
    : result Status NodeSession :=
  try* check_version (nr_version request) in
  let* node_id := invalid_message (id_parse (nr_node_id request)) in
  let* capabilities := map_err (fun _ => MkStatus Code.InvalidArgument "capability_denied")
                         (validate_declared_capabilities (nr_capabilities request)) in
  try* map_err map_node_policy_error
         (NodePolicy_authorize (svc_node_policy service) node_id capabilities) in
  Ok (MkNodeSession node_id capabilities).

Definition policy_millis (duration : LeaseDuration) : result Status Z :=
  u32_try_from (MkStatus Code.Internal "invalid_configuration") (ld_value duration).

Definition lease_duration_ms (service : JudgeControlService) : result Status Z :=
  policy_millis (lp_lease_duration (svc_lease_policy service)).

Definition renew_after_ms (service : JudgeControlService) : result Status Z :=
  policy_millis (lp_renew_after (svc_lease_policy service)).

Definition parse_and_authorize_node (node_policy : NodePolicy) (value : string)
    : result Status NodeId :=
  let* node_id := invalid_message (id_parse value) in
  try* map_err map_node_policy_error (NodePolicy_authorize_identity node_policy node_id) in
  Ok node_id.

(** [SystemControlSource::now] from the milliseconds since the epoch, absent
    when the clock is before it. *)
Definition source_now (elapsed : option Z) : result Status UnixMillis :=
  let unavailable := MkStatus Code.Unavailable "clock_unavailable" in
  let* elapsed := ok_or unavailable elapsed in
  let* milliseconds := ok_or unavailable (if in_range 0 u64_max elapsed then Some elapsed else None) in
  map_err (fun _ => unavailable) (UnixMillis_new milliseconds).

(** [SystemControlSource::lease_token] from the hexadecimal form of 24 random
    bytes. *)
Definition source_lease_token (draw : option string) : result Status LeaseToken :=
  let* encoded := ok_or (MkStatus Code.Unavailable "random_unavailable") draw in
  map_err (fun _ => MkStatus Code.Internal "lease_token_invalid") (id_parse ("lease_" +:+ encoded)).

(** A handler: an operation on the store that answers a message or a status. *)
Definition Rpc (A : Type) : Type := Op (result Status A).

Definition rpc_done {A : Type} (r : result Status A) : Rpc A := Done (Ok r).

Definition rpc_try {A B : Type} (r : result Status B) (k : B -> Rpc A) : Rpc A :=
  match r with Ok b => k b | Err status => rpc_done (Err status) end.

(** [decode_evaluation_result_domain] of [openoj-protocol]. *)
Class ResultCodec := { decode_result_domain : bytes -> result ProtocolError EvaluationResult }.

Section Service.
Context `{Collation, RequestCodec, ResultCodec}.


Variable service : JudgeControlService.

Definition negotiate (request : NegotiateRequest) : result Status NegotiateResponse :=
  let* session := negotiate_request service request in
  let* lease_duration := lease_duration_ms service in
  let* renew_after := renew_after_ms service in
  Ok {| ns_accepted_version := CLIENT_PROTOCOL_VERSION;
        ns_allowed_capabilities := map cap_str (session_capabilities session);
        ns_lease_duration_ms := lease_duration;
        ns_renew_after_ms := renew_after;
        ns_no_task_backoff_ms := NO_TASK_BACKOFF_MS |}.

Definition validate_canonical_request (input : bytes) : result ProtocolContractError unit :=
  if (MAX_EVALUATION_REQUEST_SIZE <? str_len input)%Z then Err ControlMessageTooLarge
  else map_err (fun _ => InvalidCanonicalPayload) (rmap (fun _ => tt) (decode_evaluation_request input)).

Definition leased_task (lease : TaskLease) (canonical_request : bytes) : LeasedTask :=
  {| lt_evaluation_id := id_str (er_evaluation_id (tl_request lease));
     lt_attempt_id := id_str (er_attempt_id (tl_request lease));
     lt_attempt_number := er_attempt_number (tl_request lease);
     lt_lease_token := id_str (tl_lease_token lease);
     lt_lease_expires_at_unix_ms := um_value (tl_expires_at lease);
     lt_canonical_request := canonical_request |}.

(** What [claim] answers to the store's answer. *)
Definition claim_response (claimed : result StoreError.t TaskLease)
    : result Status (option ClaimOutcome) :=
  match claimed with
  | Ok lease =>
      let* canonical_request :=
        map_err (fun _ => MkStatus Code.Internal "stored_request_invalid")
          (encode_evaluation_request (tl_request lease)) in
      Ok (Some (Leased (leased_task lease canonical_request)))
  | Err StoreError.NoTaskAvailable => Ok (Some (NoTask NO_TASK_BACKOFF_MS))
  | Err error => Err (map_store_error error)
  end.

(** [elapsed] is what the clock shows when the handler reads it. *)
Definition claim (elapsed : option Z) (request : ClaimRequest) : Rpc (option ClaimOutcome) :=
  rpc_try (negotiate_request service
             (MkNegotiateRequest (cr_version request) (cr_node_id request) (cr_capabilities request)))
    (fun session =>
  rpc_try (invalid_message (id_parse (cr_claim_operation_id request))) (fun operation_id =>
  rpc_try (service_store service) (fun _ =>
  Draw (fun draw =>
  rpc_try (source_lease_token draw) (fun lease_token =>
  rpc_try (source_now elapsed) (fun now =>
  op_then (judge_claim_task {|
      jc_node_id := session_node_id session;
      jc_declared_capabilities := session_capabilities session;
      jc_operation_id := operation_id;
      jc_lease_token := lease_token;
      jc_now := now;
      jc_lease_policy := svc_lease_policy service |})
    (fun claimed => rpc_done (claim_response claimed)))))))).

Definition renew_response (renewed : result StoreError.t JudgeRenewDirective)
    : result Status (option RenewDirective) :=
  let* directive := map_err map_store_error renewed in
  match directive with
  | Continue expires_at =>
      let* renew_after := renew_after_ms service in
      Ok (Some (ContinueLease (um_value expires_at) renew_after))
  | Cancel => Ok (Some CancelLease)
  end.

Definition renew_lease (elapsed : option Z) (request : RenewLeaseRequest)
    : Rpc (option RenewDirective) :=
  rpc_try (check_version (rr_version request)) (fun _ =>
  rpc_try (parse_and_authorize_node (svc_node_policy service) (rr_node_id request)) (fun node_id =>
  rpc_try (service_store service) (fun _ =>
  rpc_try (invalid_message (id_parse (rr_evaluation_id request))) (fun evaluation_id =>
  rpc_try (invalid_message (id_parse (rr_attempt_id request))) (fun attempt_id =>
  rpc_try (invalid_message (id_parse (rr_lease_token request))) (fun lease_token =>
  rpc_try (source_now elapsed) (fun now =>
  op_then (judge_renew_lease {|
      jr_node_id := node_id;
      jr_evaluation_id := evaluation_id;
      jr_attempt_id := attempt_id;
      jr_lease_token := lease_token;
      jr_now := now;
      jr_lease_policy := svc_lease_policy service |})
    (fun renewed => rpc_done (renew_response renewed))))))))).

Definition submit_response (submitted : result StoreError.t EvaluationSnapshot)
    : result Status (option WireSnapshot) :=
  let* snapshot := map_err map_store_error submitted in
  Ok (Some {| ws_evaluation_id := id_str (es_evaluation_id snapshot);
              ws_state := EvaluationState.as_str (es_state snapshot);
              ws_current_attempt_number := es_attempt_number snapshot |}).

Definition submit (elapsed : option Z) (request : SubmitResultRequest)
    : Rpc (option WireSnapshot) :=
  rpc_try (check_version (sq_version request)) (fun _ =>
  rpc_try (parse_and_authorize_node (svc_node_policy service) (sq_node_id request)) (fun node_id =>
  rpc_try (invalid_message (id_parse (sq_evaluation_id request))) (fun evaluation_id =>
  rpc_try (invalid_message (id_parse (sq_attempt_id request))) (fun attempt_id =>
  rpc_try (map_err (fun _ => MkStatus Code.InvalidArgument "invalid_canonical_result")
             (decode_result_domain (sq_canonical_result request))) (fun result_ =>
  if negb (bool_decide (ei_evaluation_id (res_identity result_) = evaluation_id))
     || negb (bool_decide (ei_attempt_id (res_identity result_) = attempt_id))
  then rpc_done (Err (MkStatus Code.InvalidArgument "result_identity_mismatch"))
  else
    rpc_try (service_store service) (fun _ =>
    rpc_try (invalid_message (id_parse (sq_result_operation_id request))) (fun operation_id =>
    rpc_try (invalid_message (id_parse (sq_lease_token request))) (fun lease_token =>
    rpc_try (source_now elapsed) (fun now =>
    op_then (judge_submit_result {|
        js_node_id := node_id;
        js_operation_id := operation_id;
        js_lease_token := lease_token;
        js_result := result_;
        js_now := now |})
      (fun submitted => rpc_done (submit_response submitted))))))))))).
End Service.

(** ** The socket *)

Inductive SocketPathError : Type :=
  | RelativePath | InvalidParent | InsecureParent | ExistingPath | CreateFailed.

#[export] Instance SocketPathError_eq_dec : EqDecision SocketPathError.
Proof. solve_decision. Defined.

Record Metadata : Type := MkMetadata { md_is_symlink : bool; md_is_dir : bool; md_mode : Z }.

(** The file system under the listener. *)
Class SocketFs := {
  symlink_metadata : string -> option Metadata;
  path_exists : string -> bool;
  unix_bind : string -> bool;
  set_permissions : string -> Z -> bool
}.

Section Socket.
Context `{SocketFs}.

Definition validate_socket_path (path : string) : result SocketPathError unit :=
  if negb (is_absolute path) then Err RelativePath
  else
    let* parent := ok_or InvalidParent (path_parent path) in
    let* metadata := ok_or InvalidParent (symlink_metadata parent) in
    if md_is_symlink metadata || negb (md_is_dir metadata) then Err InvalidParent
    else if negb (Z.land (md_mode metadata) 63 =? 0)%Z then Err InsecureParent
    else Ok tt.

Definition bind_socket (path : string) : result SocketPathError unit :=
  try* validate_socket_path path in
  if path_exists path then Err ExistingPath
  else if negb (unix_bind path) then Err CreateFailed
  else if negb (set_permissions path 384) then Err CreateFailed
  else Ok tt.
End Socket.

(** ** Configuration *)

(** [split_once]. *)
Fixpoint split_once (separator : Ascii.ascii) (s : string) : option (string * string) :=
  match s with
  | EmptyString => None
  | String c s' =>
      if Ascii.eqb c separator then Some (EmptyString, s')
      else
        match split_once separator s' with
        | Some (before, after) => Some (String c before, after)
        | None => None
        end
  end.

Definition parse_node_entry (entry : string) : result string (NodeId * list Capability) :=
  let* (node, capabilities) := ok_or "node policy invalid" (split_once ":" entry) in
  let* node := map_err (fun _ => "node policy invalid") (id_parse node) in
  let* capabilities := traverse (fun capability =>
    map_err (fun _ => "node policy invalid") (Capability_parse capability))
    (split_on "," capabilities) in
  Ok (node, capabilities).

Definition parse_node_policy (value : string) : result string NodePolicy :=
  let* nodes := traverse parse_node_entry (split_on ";" value) in
  map_err (fun _ => "node policy invalid") (NodePolicy_new nodes).

Definition env_u64 (value : option string) (default_ : Z) : result string Z :=
  match value with
  | Some value => ok_or "configuration value invalid" (parse_unsigned u64_max value)
  | None => Ok default_
  end.

(** The lease policy [run] assembles from the two environment values. *)
Definition configured_lease_policy (lease_duration renew_after : option string)
    : result string LeasePolicy :=
  let* lease_duration := env_u64 lease_duration 30000 in
  let* lease_duration := map_err (fun _ => "lease configuration invalid")
                           (LeaseDuration_new lease_duration) in
  let* renew_after := env_u64 renew_after 10000 in
  let* renew_after := map_err (fun _ => "lease configuration invalid")
                        (LeaseDuration_new renew_after) in
  map_err (fun _ => "lease configuration invalid") (LeasePolicy_new lease_duration renew_after).

(** ** The recovery sweeper *)

Definition now_millis (elapsed : option Z) : result string UnixMillis :=
  let* elapsed := ok_or "clock unavailable" elapsed in
  let* milliseconds := ok_or "clock unavailable"
                         (if in_range 0 u64_max elapsed then Some elapsed else None) in
  map_err (fun _ => "clock unavailable") (UnixMillis_new milliseconds).

(** One tick of the sweeper's loop and the line it reports, if any. *)
Definition sweep_tick `{Collation, RequestCodec} (fuel : nat) (elapsed : option Z) : Op (option string) :=
  match now_millis elapsed with
  | Err _ => Done (Ok None)
  | Ok now =>
      op_then (recover_expired fuel now) (fun recovered =>
        Done (Ok (match recovered with
                  | Ok count =>
                      if (0 <? count)%Z
                      then Some ("recovered " +:+ decimal count +:+ " expired evaluation lease(s)")
                      else None
                  | Err _ => Some "expired-lease recovery failed"
                  end)))
  end.
