(* ===== verification/Startup.v ===== *)
(** * The control-plane process

    Models [run] of [apps/openoj-control-plane/src/main.rs]: the configuration,
    the steps before the service listens, in their order, and the sweeper task
    beside it. A run records the steps it attempts; what the operating system and
    the database answer to them is the class [PlaneEnvironment]. *)

From S2P Require Import Prelude Value Control Evaluation EvalResult Codec Policy Schema Store Lease StoreLemmas StoreInv Migration StoreSteps StoreWrites StoreSystem StoreRuns StoreRecover StorePort Text Effects ControlPlane.

(** ** Configuration *)

Record StartupConfig : Type := MkStartupConfig {
  sc_database_url : string;
  sc_socket_path : string;
  sc_node_policy : NodePolicy;
  sc_recovery_interval_ms : Z;
  sc_lease_policy : LeasePolicy;
  sc_pool_size : Z
}.

Definition env_required (message : string) (value : option string) : result string string :=
  ok_or message value.

Definition startup_config (env : string -> option string) : result string StartupConfig :=
  let* database_url := env_required "database configuration missing" (env "OPENOJ_DATABASE_URL") in
  let* socket_path := env_required "socket configuration missing" (env "OPENOJ_JUDGE_CONTROL_SOCKET") in
  let* nodes := env_required "node policy configuration missing" (env "OPENOJ_JUDGE_NODES") in
  let* node_policy := parse_node_policy nodes in
  let* lease_duration := env_u64 (env "OPENOJ_LEASE_DURATION_MS") 30000 in
  let* lease_duration := map_err (fun _ => "lease configuration invalid")
                           (LeaseDuration_new lease_duration) in
  let* renew_after := env_u64 (env "OPENOJ_RENEW_AFTER_MS") 10000 in
  let* renew_after := map_err (fun _ => "lease configuration invalid") (LeaseDuration_new renew_after) in
  let* recovery_interval_ms := env_u64 (env "OPENOJ_RECOVERY_INTERVAL_MS") 5000 in
  let* lease_policy := map_err (fun _ => "lease configuration invalid")
                         (LeasePolicy_new lease_duration renew_after) in
  let* pool_size := ok_or "database pool configuration invalid" (DatabasePoolSize_new 4) in
  Ok {| sc_database_url := database_url; sc_socket_path := socket_path;
        sc_node_policy := node_policy; sc_recovery_interval_ms := recovery_interval_ms;
        sc_lease_policy := lease_policy; sc_pool_size := pool_size |}.

(** ** The steps of a start *)

Inductive StartupStep : Type :=
  | ConnectDatabase (url : string) (max_connections : Z)
  | MigrateDatabase
  | CheckSchema
  | BindSocket (path : string)
  | SpawnSweeper (period : Z)
  | Serve (service : JudgeControlService)
  | AbortSweeper.

Class PlaneEnvironment := {
  env_var : string -> option string;
  database_reachable : string -> bool;
  migrations_applied : bool;
  version_after_migration : option (option Z);
  version_at_check : option (option Z);
  server_ends : bool
}.

(** A step that is attempted, and ends the start with its message when it
    fails. *)
Definition attempt {E A : Type} (s : StartupStep) (message : string) (r : result E A)
    : Eff (list StartupStep) string A :=
  run* eff_modify (fun steps => steps ++ [s]) in
  eff_lift (map_err (fun _ => message) r).

(** The database as a start sees it: by its answers. *)
Definition startup_schema `{PlaneEnvironment} : SchemaStore unit :=
  {| migrator_run := fun _ d => (migrations_applied, d); schema_version := fun _ => version_after_migration |}.

Section Startup.
Context `{PlaneEnvironment, SocketFs}.

Definition open_store (config : StartupConfig) : Eff (list StartupStep) string PostgresEvaluationStore :=
  io* store := attempt (ConnectDatabase (sc_database_url config) (sc_pool_size config))
    "database unavailable"
    (PostgresEvaluationStore_connect (database_reachable (sc_database_url config)) (sc_pool_size config)) in
  run* attempt MigrateDatabase "database migration failed"
         (fst (store_migrate (H := startup_schema) tt)) in
  run* attempt CheckSchema "database schema incompatible" (store_check_compatibility version_at_check) in
  eff_ret store.

(** The end of the server is awaited before the sweeper is aborted, and its
    result returned after it. *)
Definition control_plane_run : Eff (list StartupStep) string unit :=
  io* config := eff_lift (startup_config env_var) in
  io* _ := open_store config in
  run* attempt (BindSocket (sc_socket_path config)) "socket setup failed"
         (bind_socket (sc_socket_path config)) in
  let service := with_store (JudgeControlService_new (sc_node_policy config) (sc_lease_policy config)) in
  run* eff_modify (fun steps => steps ++ [SpawnSweeper (sc_recovery_interval_ms config)]) in
  eff_then (attempt (Serve service) "UDS service failed" (if server_ends then Ok tt else Err tt))
    (fun result_ =>
       run* eff_modify (fun steps => steps ++ [AbortSweeper]) in
       eff_lift result_).
End Startup.

(** ** The sweeper task *)

(** [tokio::time::interval] panics on a period of zero, which ends the spawned
    task and nothing else; otherwise the loop sweeps at each of its ticks, here
    with the readings of the clock it takes. *)
Definition interval_ticks {A : Type} (period : Z) (readings : list A) : list A :=
  if (period =? 0)%Z then [] else readings.

Definition reported (printed : result StoreError.t (option string)) : list string :=
  match printed with Ok (Some line) => [line] | _ => [] end.

Fixpoint sweep_loop `{Collation, RequestCodec} (fuel : nat) (readings : list (option Z))
    : Op (list string) :=
  match readings with
  | [] => Done (Ok [])
  | elapsed :: readings =>
      op_then (sweep_tick fuel elapsed) (fun line =>
      op_then (sweep_loop fuel readings) (fun lines =>
        Done (rmap (app (reported line)) lines)))
  end.

Definition sweeper `{Collation, RequestCodec} (fuel : nat) (period : Z) (readings : list (option Z))
    : Op (list string) := sweep_loop fuel (interval_ticks period readings).
