(* ===== verification/Worker.v ===== *)
(** * The worker

    Models [crates/openoj-judge-core/src/lib.rs]: one iteration of a judge node
    over an arbitrary control client and an arbitrary executor, which are type
    classes over their own states, and the deterministic development executor. *)

From S2P Require Import Prelude Value Control Evaluation EvalResult Application Pipeline Policy Effects.

(** The [JudgeExecutor] trait. *)
Class JudgeExecutor (E : Type) := {
  je_execute : EvaluationRequest -> Eff E ApplicationError EvaluationResult
}.

Inductive WorkerClaim : Type :=
  | ClaimedLease (lease : TaskLease)
  | ClaimedNoTask.

(** [AsyncJudgeControlClient]; [JudgeControlClient] is the same without
    [renew]. *)
Class JudgeControlClient (C : Type) := {
  jcc_claim : ClaimOperationId -> Eff C StoreError.t WorkerClaim;
  jcc_renew : TaskLease -> Eff C StoreError.t JudgeRenewDirective;
  jcc_submit : TaskLease -> ResultOperationId -> EvaluationResult -> Eff C StoreError.t unit
}.

Inductive WorkerOutcome : Type := Submitted | NoTaskLeft | WorkerCancelled.

#[export] Instance WorkerOutcome_eq_dec : EqDecision WorkerOutcome.
Proof. solve_decision. Defined.

Module WorkerError.
Inductive t : Type :=
  | Store (error : StoreError.t)
  | Application (error : ApplicationError).
End WorkerError.

Section Worker.
Context {E C : Type} `{JudgeExecutor E, JudgeControlClient C}.

(** A call of the client and one of the executor, with [From] applied. *)
Definition via_client {A} (m : Eff C StoreError.t A) : Eff (E * C) WorkerError.t A := fun '(e, c) =>
  let '(r, c') := m c in (map_err WorkerError.Store r, (e, c')).

Definition via_executor {A} (m : Eff E ApplicationError A) : Eff (E * C) WorkerError.t A :=
  fun '(e, c) => let '(r, e') := m e in (map_err WorkerError.Application r, (e', c)).

Definition run_once (claim_operation_id : ClaimOperationId)
    (result_operation_id : ResultOperationId) : Eff (E * C) WorkerError.t WorkerOutcome :=
  io* claimed := via_client (jcc_claim claim_operation_id) in
  match claimed with
  | ClaimedNoTask => eff_ret NoTaskLeft
  | ClaimedLease lease =>
      io* result_ := via_executor (je_execute (tl_request lease)) in
      run* via_client (jcc_submit lease result_operation_id result_) in
      eff_ret Submitted
  end.

Definition run_once_async (claim_operation_id : ClaimOperationId)
    (result_operation_id : ResultOperationId) : Eff (E * C) WorkerError.t WorkerOutcome :=
  io* claimed := via_client (jcc_claim claim_operation_id) in
  match claimed with
  | ClaimedNoTask => eff_ret NoTaskLeft
  | ClaimedLease lease =>
      io* directive := via_client (jcc_renew lease) in
      match directive with
      | Cancel => eff_ret WorkerCancelled
      | Continue _ =>
          io* result_ := via_executor (je_execute (tl_request lease)) in
          run* via_client (jcc_submit lease result_operation_id result_) in
          eff_ret Submitted
      end
  end.

(** [run_loop] of the judge node: iterations until one fails; the operation
    identifiers are generated anew for each, and the loop sleeps after an iteration
    that found no task. *)
Fixpoint run_loop (sleep : C -> C)
    (operations : list (result string (ClaimOperationId * ResultOperationId)))
    (s : E * C) : option string * (E * C) :=
  match operations with
  | [] => (None, s)
  | Err message :: _ => (Some message, s)
  | Ok (claim_operation_id, result_operation_id) :: rest =>
      match run_once_async claim_operation_id result_operation_id s with
      | (Ok outcome, (e, c)) =>
          run_loop sleep rest (e, if bool_decide (outcome = NoTaskLeft) then sleep c else c)
      | (Err _, s') => (Some "judge worker iteration failed", s')
      end
  end.

(** ** What an iteration does *)

(** The client calls and the execution of one iteration that submitted. *)
Lemma run_once_async_submitted claim_operation_id result_operation_id e c s' :
  run_once_async claim_operation_id result_operation_id (e, c) = (Ok Submitted, s') <->
  exists lease c1 expires_at c2 r e' c3,
    jcc_claim claim_operation_id c = (Ok (ClaimedLease lease), c1) /\
    jcc_renew lease c1 = (Ok (Continue expires_at), c2) /\
    je_execute (tl_request lease) e = (Ok r, e') /\
    jcc_submit lease result_operation_id r c2 = (Ok tt, c3) /\ s' = (e', c3).
Proof.
  unfold run_once_async, eff_bind, via_client, via_executor. split.
  - destruct (jcc_claim claim_operation_id c) as [[[lease|]|x] c1]; simpl; try done.
    destruct (jcc_renew lease c1) as [[[expires_at|]|x] c2] eqn:Hr; simpl; try done.
    destruct (je_execute (tl_request lease) e) as [[r|x] e'] eqn:He; simpl; [|done].
    destruct (jcc_submit lease result_operation_id r c2) as [[[]|x] c3] eqn:Hs; simpl; [|done].
    intros [= <-]. eauto 15.
  - intros (lease & c1 & expires_at & c2 & r & e' & c3 & Hc & Hr & He & Hs & ->).
    rewrite Hc. simpl. rewrite Hr. simpl. rewrite He. simpl. by rewrite Hs.
Qed.

(** A cancelled lease, a refused renewal and an empty queue are not executed. *)
Lemma run_once_async_idle claim_operation_id result_operation_id e c :
  (forall lease c1 expires_at c2,
     jcc_claim claim_operation_id c = (Ok (ClaimedLease lease), c1) ->
     jcc_renew lease c1 <> (Ok (Continue expires_at), c2)) ->
  fst (snd (run_once_async claim_operation_id result_operation_id (e, c))) = e.
Proof.
  intros Hn. unfold run_once_async, eff_bind, via_client, via_executor.
  destruct (jcc_claim claim_operation_id c) as [[[lease|]|x] c1]; simpl; try done.
  specialize (Hn lease c1). destruct (jcc_renew lease c1) as [[[expires_at|]|x] c2]; simpl; try done.
  by destruct (Hn expires_at c2 eq_refl).
Qed.

(** A relation every client call keeps is kept by an iteration. *)
Lemma run_once_async_keeps (R : C -> C -> Prop) :
  (forall c1 c2 c3, R c1 c2 -> R c2 c3 -> R c1 c3) ->
  (forall o c, R c (snd (jcc_claim o c))) -> (forall l c, R c (snd (jcc_renew l c))) ->
  (forall l o r c, R c (snd (jcc_submit l o r c))) ->
  forall co ro e c, R c (snd (snd (run_once_async co ro (e, c)))).
Proof.
  intros Htrans Hclaim Hrenew Hsubmit co ro e c. unfold run_once_async, eff_bind, via_client, via_executor.
  specialize (Hclaim co c). destruct (jcc_claim co c) as [[[lease|]|x] c1]; simpl in *; try done.
  specialize (Hrenew lease c1). destruct (jcc_renew lease c1) as [[[expires_at|]|x] c2]; simpl in *; eauto.
  destruct (je_execute (tl_request lease) e) as [[r|x] e']; simpl; eauto.
  specialize (Hsubmit lease ro r c2). destruct (jcc_submit lease ro r c2) as [[]]; simpl in *; eauto.
Qed.
End Worker.

(** ** The development executor *)

Record DevelopmentMockExecutor : Type := MkDevelopmentMock { dm_node_id : NodeId }.

Definition mock_execute (context : StageContext) : StageExecution :=
  let decision :=
    match Score_new 1 1 with
    | Ok score => match Decision_new Verdict.Accepted score with Ok d => Some d | Err _ => None end
    | Err _ => None
    end in
  ExSucceeded ResourceUsage_default [] []
    (if bool_decide (sc_stage context = StageKind.Check) then decision else None).

#[export] Instance mock_stages : StageExecutor DevelopmentMockExecutor := {
  se_kind := fun _ => ExecutorKind.DevelopmentMock;
  se_production_eligible := fun _ => false;
  se_node_id := fun executor => Some (dm_node_id executor);
  se_supports := fun _ capability => String.eqb (cap_str capability) "algorithm.batch";
  se_execute := fun context executor => (mock_execute context, executor)
}.

#[export] Instance mock_judge : JudgeExecutor DevelopmentMockExecutor := {
  je_execute := fun request => evaluate request
}.
