(* ===== verification/JudgeNode.v ===== *)
(** * The judge node's control client

    Models [apps/openoj-judge-node/src/lib.rs] and the assembly in [main.rs]:
    negotiation, the three client operations over the stub of the service, the
    mapping of statuses back to store errors, and the configuration of the
    Firecracker executor. The generated stub is the record [Stub]; over the
    modelled service it is [served], whose calls may be lost on the way. *)

From S2P Require Import Prelude Value Control Evaluation EvalResult Application Json Codec Policy Schema Store Lease Text Firecracker Host Executor ControlPlane Worker.

(** ** The stub *)

(** [JudgeControlClient<Channel>]: what the server answers, or the status of the
    transport. *)
Record Stub : Type := MkStub {
  stub_claim : ClaimRequest -> Rpc (option ClaimOutcome);
  stub_renew : RenewLeaseRequest -> Rpc (option RenewDirective);
  stub_submit : SubmitResultRequest -> Rpc (option WireSnapshot)
}.

(** A call reaches the server and its answer comes back, or one of the two is
    lost and the transport answers a status of its own. *)
Inductive Delivery : Type :=
  | Delivered
  | LostRequest (status : Status)
  | LostReply (status : Status).

Definition deliver {A : Type} (delivery : Delivery) (rpc : Rpc A) : Rpc A :=
  match delivery with
  | Delivered => rpc
  | LostRequest status => rpc_done (Err status)
  | LostReply status => op_then rpc (fun _ => rpc_done (Err status))
  end.

Definition served `{Collation, RequestCodec, ResultCodec} (service : JudgeControlService)
    (elapsed : option Z) (delivery : Delivery) : Stub := {|
  stub_claim := fun request => deliver delivery (claim service elapsed request);
  stub_renew := fun request => deliver delivery (renew_lease service elapsed request);
  stub_submit := fun request => deliver delivery (submit service elapsed request)
|}.

(** ** Errors *)

Module JudgeNodeError.
Inductive t : Type := InvalidConfiguration | IncompatibleServer | Unavailable.

#[global] Instance eq_dec : EqDecision t.
Proof. solve_decision. Defined.
End JudgeNodeError.

Definition map_status (status : Status) : StoreError.t :=
  match st_code status with
  | Code.NotFound => StoreError.NotFound
  | Code.AlreadyExists => StoreError.IdempotencyConflict
  | Code.FailedPrecondition | Code.PermissionDenied => StoreError.StaleLease
  | Code.Unavailable | Code.DeadlineExceeded => StoreError.Unavailable
  | _ => StoreError.CorruptData
  end.

(** [.await.map_err(map_status)?]. *)
Definition server_answer {A : Type} (r : result StoreError.t (result Status A))
    : result StoreError.t A :=
  let* answer := r in map_err map_status answer.

(** ** Negotiation *)

Record UdsJudgeControlClient : Type := MkClient {
  uc_node_id : NodeId;
  uc_capabilities : list Capability;
  uc_lease_duration : LeaseDuration;
  uc_no_task_backoff : Z
}.

(** [connect]: [connected] tells whether the endpoint could be built and
    reached. *)
Definition connect (connected : bool) (stub_negotiate : NegotiateRequest -> result Status NegotiateResponse)
    (socket_path : string) (node_id : NodeId) (capabilities : list Capability)
    : result JudgeNodeError.t UdsJudgeControlClient :=
  if negb (is_absolute socket_path) || bool_decide (capabilities = [])
  then Err JudgeNodeError.InvalidConfiguration
  else if negb connected then Err JudgeNodeError.Unavailable
  else
    let* response := map_err (fun _ => JudgeNodeError.IncompatibleServer)
      (stub_negotiate {| nr_version := CLIENT_PROTOCOL_VERSION;
                         nr_node_id := id_str node_id;
                         nr_capabilities := map cap_str capabilities |}) in
    if negb (String.eqb (ns_accepted_version response) CLIENT_PROTOCOL_VERSION)
       || negb (len (ns_allowed_capabilities response) =? len capabilities)%Z
       || (ns_lease_duration_ms response =? 0)%Z
       || (ns_renew_after_ms response =? 0)%Z
       || (ns_lease_duration_ms response / 2 <? ns_renew_after_ms response)%Z
       || (ns_no_task_backoff_ms response =? 0)%Z
    then Err JudgeNodeError.IncompatibleServer
    else if negb (forallb (fun capability =>
                   existsb (fun allowed => String.eqb allowed (cap_str capability))
                     (ns_allowed_capabilities response)) capabilities)
    then Err JudgeNodeError.IncompatibleServer
    else
      let* lease_duration := map_err (fun _ => JudgeNodeError.IncompatibleServer)
                               (LeaseDuration_new (ns_lease_duration_ms response)) in
      Ok (MkClient node_id capabilities lease_duration (ns_no_task_backoff_ms response)).

(** ** Operations *)

Section Client.
Context `{RequestCodec}.
Variable stub : Stub.

Definition claim_request (client : UdsJudgeControlClient) (operation_id : ClaimOperationId)
    : ClaimRequest :=
  {| cr_version := CLIENT_PROTOCOL_VERSION;
     cr_node_id := id_str (uc_node_id client);
     cr_claim_operation_id := id_str operation_id;
     cr_capabilities := map cap_str (uc_capabilities client) |}.

Definition claim_answer (client : UdsJudgeControlClient) (outcome : option ClaimOutcome)
    : result StoreError.t WorkerClaim :=
  match outcome with
  | Some (NoTask _) => Ok ClaimedNoTask
  | Some (Leased leased) =>
      let* request := corrupt (decode_evaluation_request (lt_canonical_request leased)) in
      if negb (String.eqb (id_str (er_evaluation_id request)) (lt_evaluation_id leased))
         || negb (String.eqb (id_str (er_attempt_id request)) (lt_attempt_id leased))
         || negb (er_attempt_number request =? lt_attempt_number leased)%Z
      then Err StoreError.IdentityConflict
      else
        let* lease_token := corrupt (id_parse (lt_lease_token leased)) in
        let* expires_at := corrupt (UnixMillis_new (lt_lease_expires_at_unix_ms leased)) in
        Ok (ClaimedLease {| tl_request := request;
                            tl_node_id := uc_node_id client;
                            tl_lease_token := lease_token;
                            tl_expires_at := expires_at |})
  | None => Err StoreError.CorruptData
  end.

Definition client_claim (client : UdsJudgeControlClient) (operation_id : ClaimOperationId)
    : Op WorkerClaim :=
  op_then (stub_claim stub (claim_request client operation_id)) (fun r =>
    Done (let* outcome := server_answer r in claim_answer client outcome)).

Definition renew_request (client : UdsJudgeControlClient) (lease : TaskLease) : RenewLeaseRequest :=
  {| rr_version := CLIENT_PROTOCOL_VERSION;
     rr_node_id := id_str (uc_node_id client);
     rr_evaluation_id := id_str (er_evaluation_id (tl_request lease));
     rr_attempt_id := id_str (er_attempt_id (tl_request lease));
     rr_lease_token := id_str (tl_lease_token lease) |}.

Definition renew_answer (directive : option RenewDirective)
    : result StoreError.t JudgeRenewDirective :=
  match directive with
  | Some (ContinueLease expires _) =>
      let* expires_at := corrupt (UnixMillis_new expires) in Ok (Continue expires_at)
  | Some CancelLease => Ok Cancel
  | None => Err StoreError.CorruptData
  end.

Definition client_renew (client : UdsJudgeControlClient) (lease : TaskLease)
    : Op JudgeRenewDirective :=
  op_then (stub_renew stub (renew_request client lease)) (fun r =>
    Done (let* directive := server_answer r in renew_answer directive)).

Definition submit_request (client : UdsJudgeControlClient) (lease : TaskLease)
    (operation_id : ResultOperationId) (canonical_result : bytes) : SubmitResultRequest :=
  {| sq_version := CLIENT_PROTOCOL_VERSION;
     sq_node_id := id_str (uc_node_id client);
     sq_evaluation_id := id_str (er_evaluation_id (tl_request lease));
     sq_attempt_id := id_str (er_attempt_id (tl_request lease));
     sq_lease_token := id_str (tl_lease_token lease);
     sq_result_operation_id := id_str operation_id;
     sq_canonical_result := canonical_result |}.

Definition submit_answer (lease : TaskLease) (evaluation : option WireSnapshot)
    : result StoreError.t unit :=
  let* snapshot := ok_or StoreError.CorruptData evaluation in
  if negb (String.eqb (ws_evaluation_id snapshot) (id_str (er_evaluation_id (tl_request lease))))
  then Err StoreError.IdentityConflict
  else Ok tt.

Definition client_submit (client : UdsJudgeControlClient) (lease : TaskLease)
    (operation_id : ResultOperationId) (result_ : EvaluationResult) : Op unit :=
  op_try (corrupt (encode_evaluation_result result_)) (fun canonical_result =>
  op_then (stub_submit stub (submit_request client lease operation_id canonical_result)) (fun r =>
    Done (let* evaluation := server_answer r in submit_answer lease evaluation))).
End Client.

(** ** Assembly *)

Definition required (message : string) (value : option string) : result string string :=
  ok_or message value.

(** [worker_firecracker]: the executor the environment describes. *)
Definition worker_firecracker (env : string -> option string) (node_id : NodeId)
    : result string (FirecrackerExecutorConfig * FirecrackerExecutor) :=
  let* firecracker_path := required "firecracker binary missing" (env "OPENOJ_FC_FIRECRACKER") in
  let* api_socket := required "api socket missing" (env "OPENOJ_FC_API_SOCKET") in
  let* kernel := required "kernel missing" (env "OPENOJ_FC_KERNEL") in
  let* rootfs := required "rootfs missing" (env "OPENOJ_FC_ROOTFS") in
  let* vsock_socket := required "vsock socket missing" (env "OPENOJ_FC_VSOCK_SOCKET") in
  let production := bool_decide (env "OPENOJ_FC_PRODUCTION" = Some "1") in
  let jailer_path := env "OPENOJ_FC_JAILER" in
  let* kernel_digest := required "kernel digest missing" (env "OPENOJ_FC_KERNEL_DIGEST") in
  let* rootfs_digest := required "rootfs digest missing" (env "OPENOJ_FC_ROOTFS_DIGEST") in
  let* machine := map_err (fun _ => "machine config invalid") (MachineConfig_new 1 128) in
  let* vsock := map_err (fun _ => "vsock config invalid") (VsockConfig_new 3 8266) in
  let* vm_config := map_err (fun _ => "firecracker config invalid") (FirecrackerConfig_from_parts {|
    fc_kernel_path := kernel;
    fc_kernel_digest := kernel_digest;
    fc_rootfs_path := rootfs;
    fc_rootfs_digest := rootfs_digest;
    fc_boot_args := "console=ttyS0 reboot=k panic=1 pci=off";
    fc_machine := machine;
    fc_limits := MkResourceLimits None None None None;
    fc_vsock := vsock;
    fc_vsock_uds_path := vsock_socket;
    fc_jailer_path := jailer_path |}) in
  let config := {|
    xc_node_id := node_id;
    xc_firecracker_path := firecracker_path;
    xc_api_socket := api_socket;
    xc_vm_config := vm_config;
    xc_production := production |} in
  let* executor := map_err (fun _ => "firecracker executor failed to start")
                     (FirecrackerExecutor_try_new config) in
  Ok (config, executor).

(** [operation_id] from the hexadecimal form of 24 random bytes. *)
Definition operation_id {k : IdKind} (prefix : string) (draw : option string)
    : result string (OpaqueId k) :=
  let* encoded := ok_or "operation random source unavailable" draw in
  map_err (fun _ => prefix +:+ " operation generation failed")
    (id_parse (prefix +:+ "_" +:+ encoded)).

(** The identifiers of one iteration of [run_loop]. *)
Definition next_operations (claim_draw result_draw : option string)
    : result string (ClaimOperationId * ResultOperationId) :=
  let* claim_operation_id := operation_id "claim" claim_draw in
  let* result_operation_id := operation_id "result" result_draw in
  Ok (claim_operation_id, result_operation_id).

(** The Firecracker executor as the worker's executor. *)
Definition firecracker_judge {W} `{HostOs W, TokioRuntime W, SerdeJson, UnicodeText}
    (config : FirecrackerExecutorConfig) : JudgeExecutor (FirecrackerExecutor * W) := {|
  je_execute := execute_attempt config
|}.

(** The executor a node runs its loop with. *)
Inductive NodeExecutor : Type :=
  | DevelopmentMock (executor : DevelopmentMockExecutor)
  | Firecracker (executor : FirecrackerExecutorConfig * FirecrackerExecutor).

(** [run] up to its loop: the environment is read and the client negotiated
    before the executor is chosen. *)
Definition node_run (env : string -> option string) (connected : bool)
    (stub_negotiate : NegotiateRequest -> result Status NegotiateResponse)
    : result string (UdsJudgeControlClient * NodeExecutor) :=
  let* executor_mode := required "executor configuration missing" (env "OPENOJ_JUDGE_EXECUTOR") in
  let* socket_path := required "socket configuration missing" (env "OPENOJ_JUDGE_CONTROL_SOCKET") in
  let* node_id := required "node identity configuration missing" (env "OPENOJ_JUDGE_NODE_ID") in
  let* node_id := map_err (fun _ => "node identity configuration invalid") (id_parse node_id) in
  let* capability := map_err (fun _ => "capability invalid") (Capability_parse "algorithm.batch") in
  let* client := map_err (fun _ => "Judge Control negotiation failed")
                   (connect connected stub_negotiate socket_path node_id [capability]) in
  if String.eqb executor_mode "development_mock" then
    Ok (client, DevelopmentMock (MkDevelopmentMock node_id))
  else if String.eqb executor_mode "firecracker" then
    let* executor := worker_firecracker env node_id in Ok (client, Firecracker executor)
  else Err "executor must be development_mock or firecracker".

(** Requesting the production profile never starts a worker. *)
Lemma production_refused env node_id :
  env "OPENOJ_FC_PRODUCTION" = Some "1" ->
  match worker_firecracker env node_id with Ok _ => False | Err _ => True end.
Proof.
  intros He. destruct (worker_firecracker env node_id) as [x|e] eqn:Hw; [|done].
  unfold worker_firecracker in Hw. inv_ok.
  rewrite bool_decide_eq_true_2 in * by done. discriminate.
Qed.
