(* ===== verification/Cli.v ===== *)
(** * The command line

    Models [apps/openoj-cli/src/lib.rs] and the composition of [main.rs]: the
    argument parser, the bounded reader of the request file and the execution of
    a command over the store's operations and its migrations. The process
    environment, the file and the database as it is found are arbitrary. *)

From S2P Require Import Prelude Value Control Evaluation EvalResult Codec Protocol Policy Schema Store Lease StoreLemmas StoreInv Migration StoreSteps StoreWrites StoreSystem StoreRuns StoreDisturbed StorePort Text.

(** An argument of the process: [into_string] succeeds on those that are
    Unicode. *)
Inductive OsString : Type :=
  | Unicode (s : string)
  | NonUnicode (raw : bytes).

Inductive CliCommand : Type :=
  | Migrate
  | Submit (path : OsString)
  | CliStatus (evaluation_id : EvaluationId).

Module CliError.
Inductive t : Type :=
  | Usage
  | InvalidEvaluationId
  | InputTooLarge
  | Io
  | MissingDatabaseUrl
  | InvalidDatabasePoolSize
  | InvalidRequest
  | Storage
  | Clock.

Definition text (error : t) : string :=
  match error with
  | Usage => "usage: openoj-cli migrate | submit <request.json> | status <evaluation-id>"
  | InvalidEvaluationId => "evaluation ID is invalid"
  | InputTooLarge => "input exceeds the evaluation request byte limit"
  | Io => "input could not be read"
  | MissingDatabaseUrl => "OPENOJ_DATABASE_URL is required"
  | InvalidDatabasePoolSize => "OPENOJ_DATABASE_MAX_CONNECTIONS must be in 1..=64"
  | InvalidRequest => "input is not a valid canonical evaluation request"
  | Storage => "storage operation failed"
  | Clock => "system clock is outside the supported range"
  end.
End CliError.

Definition parse_database_pool_size (value : option string) : result CliError.t Z :=
  let* value := ok_or CliError.InvalidDatabasePoolSize
                  (parse_unsigned u32_max (default "4" value)) in
  ok_or CliError.InvalidDatabasePoolSize (DatabasePoolSize_new value).

Definition into_string (argument : OsString) (error : CliError.t) : result CliError.t string :=
  match argument with
  | Unicode s => Ok s
  | NonUnicode _ => Err error
  end.

Definition parse_args (arguments : list OsString) : result CliError.t CliCommand :=
  match arguments with
  | [] => Err CliError.Usage
  | command :: arguments =>
      let* command := into_string command CliError.Usage in
      if String.eqb command "migrate" && bool_decide (length arguments = 0) then Ok Migrate
      else if String.eqb command "submit" then
        match arguments with
        | [] => Err CliError.Usage
        | [path] => Ok (Submit path)
        | _ => Err CliError.Usage
        end
      else if String.eqb command "status" then
        match arguments with
        | [] => Err CliError.Usage
        | value :: arguments =>
            let* value := into_string value CliError.InvalidEvaluationId in
            if negb (bool_decide (length arguments = 0)) then Err CliError.Usage
            else
              let* evaluation_id := map_err (fun _ => CliError.InvalidEvaluationId) (id_parse value) in
              Ok (CliStatus evaluation_id)
        end
      else Err CliError.Usage
  end.

(** An open file: its length when its metadata was read, and what a reader then
    finds in it, which may have grown meanwhile. *)
Record OpenFile : Type := MkOpenFile { of_len : option Z; of_contents : option bytes }.

Definition usize_max : Z := u64_max.

(** [Read::take]. *)
Definition take_bytes (limit : Z) (contents : bytes) : bytes :=
  String.substring 0 (Z.to_nat (Z.min limit (str_len contents))) contents.

Definition read_bounded (file : option OpenFile) (maximum : Z) : result CliError.t bytes :=
  let* file := ok_or CliError.Io file in
  let* metadata := ok_or CliError.Io (of_len file) in
  if (maximum <? metadata)%Z then Err CliError.InputTooLarge
  else
    let* read_limit := ok_or CliError.InputTooLarge
                         (if (maximum + 1 <=? usize_max)%Z then Some (maximum + 1)%Z else None) in
    let* bytes := ok_or CliError.Io (option_map (take_bytes read_limit) (of_contents file)) in
    if (maximum <? str_len bytes)%Z then Err CliError.InputTooLarge else Ok bytes.

Definition bool_text (b : bool) : string := if b then "true" else "false".

Definition format_snapshot (snapshot : EvaluationSnapshot) : string :=
  "evaluation=" +:+ id_str (es_evaluation_id snapshot)
  +:+ " attempt=" +:+ id_str (es_current_attempt_id snapshot)
  +:+ " attempt_number=" +:+ decimal (es_attempt_number snapshot)
  +:+ " state=" +:+ EvaluationState.as_str (es_state snapshot)
  +:+ " terminal_result=" +:+ bool_text (es_terminal_result snapshot).

(** A store error is not shown to the operator. *)
Definition storage {A : Type} (r : result StoreError.t A) : result CliError.t A :=
  map_err (fun _ => CliError.Storage) r.

(** [system_now]. *)
Definition system_now (elapsed : option Z) : result CliError.t UnixMillis :=
  let* elapsed := ok_or CliError.Clock elapsed in
  let* millis := ok_or CliError.Clock (if in_range 0 u64_max elapsed then Some elapsed else None) in
  map_err (fun _ => CliError.Clock) (UnixMillis_new millis).

(** A command is an operation on the store that prints a line or an error. Before
    it starts the command may have migrated the database. *)
Definition CliOp : Type := Op (result CliError.t string).
Definition CliRun (D : Type) : Type := D -> CliOp * D.

(** What ends without a transaction. *)
Definition cli_answer {D : Type} (printed : result CliError.t string) : CliRun D := fun d =>
  (Done (Ok printed), d).

Definition cli_try {D A : Type} (r : result CliError.t A) (k : A -> CliRun D) : CliRun D :=
  match r with Ok a => k a | Err e => cli_answer (Err e) end.

(** The answer of a store operation, printed. *)
Definition printed_snapshot (answer : result StoreError.t EvaluationSnapshot)
    : result StoreError.t (result CliError.t string) := Ok (storage (rmap format_snapshot answer)).

Definition print_snapshot {D : Type} (op : Op EvaluationSnapshot) : CliRun D := fun d =>
  (answering op printed_snapshot, d).

Section Cli.
Context `{Collation, RequestCodec} {D : Type} `{SchemaStore D}.

(** The file system. *)
Variable open_file : OsString -> option OpenFile.

Definition execute_with_store (command : CliCommand) (store : PostgresEvaluationStore)
    (now : UnixMillis) : CliRun D := fun d =>
  match command with
  | Migrate =>
      let '(migrated, d') := store_migrate d in
      cli_try (storage migrated) (fun _ =>
      cli_answer (Ok ("migrated schema " +:+ decimal SUPPORTED_SCHEMA_VERSION))) d'
  | Submit path =>
      cli_try (storage (store_check_compatibility (schema_version d))) (fun _ =>
      cli_try (read_bounded (open_file path) MAX_EVALUATION_REQUEST_BYTES) (fun bytes =>
      cli_try (map_err (fun _ => CliError.InvalidRequest) (decode_evaluation_request bytes)) (fun request =>
      print_snapshot (control_create_evaluation (ControlPlane_new store)
        {| ce_request := request; ce_created_at := now |})))) d
  | CliStatus evaluation_id =>
      cli_try (storage (store_check_compatibility (schema_version d))) (fun _ =>
      print_snapshot (control_evaluation_status (ControlPlane_new store) evaluation_id)) d
  end.

(** [execute], given whether the database can be reached. *)
Definition execute (reachable : bool) (command : CliCommand) (pool_size : Z) (now : UnixMillis)
    : CliRun D :=
  cli_try (storage (PostgresEvaluationStore_connect reachable pool_size))
    (fun store => execute_with_store command store now).

(** [run] of [main.rs]: every error of the arguments and of the environment
    comes before the connection. *)
Definition cli_run (arguments : list OsString) (database_url : option OsString)
    (pool_value : option string) (elapsed : option Z) (reachable : bool) : CliRun D :=
  cli_try (parse_args arguments) (fun command =>
  cli_try (match database_url with
           | Some database_url => into_string database_url CliError.MissingDatabaseUrl
           | None => Err CliError.MissingDatabaseUrl
           end) (fun _ =>
  cli_try (parse_database_pool_size pool_value) (fun pool_size =>
  cli_try (system_now elapsed) (fun now => execute reachable command pool_size now)))).
End Cli.

(** ** What the command line promises *)

(** The pool size is an integer from 1 to 64, four by default. *)
Lemma pool_size_iff value n :
  parse_database_pool_size value = Ok n <->
  parse_unsigned u32_max (default "4" value) = Some n /\ (1 <= n <= MAX_DATABASE_POOL_SIZE)%Z.
Proof.
  unfold parse_database_pool_size, DatabasePoolSize_new.
  destruct (parse_unsigned u32_max (default "4" value)) as [m|]; simpl; [|by split; [|intros [? _]]].
  destruct (in_range 1 MAX_DATABASE_POOL_SIZE m) eqn:Hr; simpl.
  - apply in_range_true in Hr. split; [intros [= ->]; done | by intros [[= ->] _]].
  - split; [done|]. intros [[= ->] Hn]. apply in_range_true in Hn. congruence.
Qed.

Lemma take_bytes_short limit contents :
  (str_len (take_bytes limit contents) < limit)%Z -> take_bytes limit contents = contents.
Proof.
  pose proof (str_len_nonneg contents) as Hn. unfold take_bytes, str_len in *. intros Hl.
  destruct (Z.le_gt_cases limit (Z.of_nat (String.length contents))) as [Hle|Hgt].
  - rewrite Z.min_l in Hl by lia. rewrite length_substring in Hl by lia.
    destruct (Z.le_gt_cases 0 limit); [lia|]. pose proof (Nat2Z.is_nonneg (Z.to_nat limit)). lia.
  - rewrite Z.min_r by lia. rewrite Nat2Z.id. rewrite <- (append_nil_r contents) at 2.
    apply substring_app.
Qed.

(** A file is read in whole or refused: one that grows past the bound after its
    metadata was read is noticed. *)
Lemma read_bounded_iff file maximum contents :
  (0 <= maximum < usize_max)%Z ->
  (read_bounded file maximum = Ok contents <->
   exists len, file = Some (MkOpenFile (Some len) (Some contents)) /\ (len <= maximum)%Z /\
     (str_len contents <= maximum)%Z).
Proof.
  intros Hm. unfold read_bounded. split.
  - intros Hr. destruct file as [[[len|] [held|]]|]; try discriminate Hr; cbn in Hr;
      destruct (Z.ltb_spec maximum len); try discriminate Hr;
      destruct (Z.leb_spec (maximum + 1) usize_max); try discriminate Hr; try lia.
    cbn in Hr. destruct (Z.ltb_spec maximum (str_len (take_bytes (maximum + 1) held))) as [|Hl];
      [discriminate Hr|].
    injection Hr as <-. assert (Ht : take_bytes (maximum + 1) held = held) by (apply take_bytes_short; lia).
    exists len. rewrite Ht in *. done.
  - intros (len & -> & Hlen & Hc). cbn. rewrite (proj2 (Z.ltb_ge _ _)) by lia.
    rewrite (proj2 (Z.leb_le _ _)) by lia. cbn.
    assert (Ht : take_bytes (maximum + 1) contents = contents).
    { apply take_bytes_short. unfold take_bytes. rewrite Z.min_r by lia.
      unfold str_len in *. rewrite Nat2Z.id, length_substring by lia. lia. }
    rewrite Ht. by rewrite (proj2 (Z.ltb_ge _ _)).
Qed.

Lemma parse_args_status id : valid id -> parse_args [Unicode "status"; Unicode (id_str id)] = Ok (CliStatus id).
Proof.
  intros Hv. unfold parse_args. simpl.
  by rewrite (proj2 (id_parse_iff _ id)) by (split; [by destruct id|done]).
Qed.

Lemma parse_args_valid arguments id : parse_args arguments = Ok (CliStatus id) -> valid id.
Proof.
  unfold parse_args. intros Hp. destruct arguments as [|command arguments]; [done|].
  destruct command as [command|]; [|done]. simpl in Hp.
  destruct (String.eqb command "migrate" && _); [done|].
  destruct (String.eqb command "submit"); [by destruct arguments as [|? [|? ?]]|].
  destruct (String.eqb command "status"); [|done].
  destruct arguments as [|[value|] arguments]; [done| |done]. simpl in Hp.
  destruct (negb _); [done|]. inv_ok. by apply id_parse_iff in H as [_ ?].
Qed.

Section CliLaws.
Context `{Collation, RequestCodecLaws, CapabilityExtraction, SchemaStore Deployed, !SchemaStoreLaws}.
Variable open_file : OsString -> option OpenFile.

(** The environment and the database let a command through to the store. *)
Definition cli_admitted (database_url : option OsString) (pool_value : option string) (elapsed : option Z)
    (up : bool) (d : Deployed) (now : UnixMillis) : Prop :=
  (exists url, database_url = Some (Unicode url)) /\
  (exists n, parse_database_pool_size pool_value = Ok n) /\ system_now elapsed = Ok now /\ up = true /\
  schema_version d = Some (Some SUPPORTED_SCHEMA_VERSION).

(** The request in the file of a submission. *)
Definition submits (path : OsString) (request : EvaluationRequest) : Prop :=
  exists len contents, open_file path = Some (MkOpenFile (Some len) (Some contents)) /\
    (len <= MAX_EVALUATION_REQUEST_BYTES)%Z /\ (str_len contents <= MAX_EVALUATION_REQUEST_BYTES)%Z /\
    decode_evaluation_request contents = Ok request.

Section Environment.
Context (database_url : option OsString) (pool_value : option string) (elapsed : option Z) (up : bool).
Context (d : Deployed) (now : UnixMillis).
Hypothesis Henv : cli_admitted database_url pool_value elapsed up d now.

Lemma admitted_run arguments command :
  parse_args arguments = Ok command ->
  exists n, cli_run open_file arguments database_url pool_value elapsed up d =
    execute_with_store open_file command (PostgresEvaluationStore_from_pool n) now d.
Proof.
  destruct Henv as ((url & ->) & (n & Hn) & Hnow & -> & _). intros Hp. exists n.
  unfold cli_run. rewrite Hp. cbn [cli_try into_string]. rewrite Hn. cbn [cli_try]. by rewrite Hnow.
Qed.

Lemma admitted_submit arguments path request :
  parse_args arguments = Ok (Submit path) -> submits path request ->
  cli_run open_file arguments database_url pool_value elapsed up d =
    (answering (create_evaluation {| ce_request := request; ce_created_at := now |}) printed_snapshot, d).
Proof.
  intros Hp (len & contents & Hf & Hlen & Hsize & Hd). destruct (admitted_run _ _ Hp) as [n ->].
  destruct Henv as (_ & _ & _ & _ & Hv). cbn [execute_with_store].
  rewrite (proj2 (store_check_iff _)) by done. cbn [storage map_err cli_try].
  assert (Hr : read_bounded (open_file path) MAX_EVALUATION_REQUEST_BYTES = Ok contents)
    by (apply read_bounded_iff; [by split | eauto]).
  rewrite Hr. cbn [cli_try]. by rewrite Hd.
Qed.

Lemma admitted_status arguments id :
  parse_args arguments = Ok (CliStatus id) ->
  cli_run open_file arguments database_url pool_value elapsed up d =
    (answering (evaluation_status id) printed_snapshot, d).
Proof.
  intros Hp. destruct (admitted_run _ _ Hp) as [n ->].
  destruct Henv as (_ & _ & _ & _ & Hv). cbn [execute_with_store].
  by rewrite (proj2 (store_check_iff _) Hv).
Qed.
End Environment.

Lemma submitted_valid path request : submits path request -> valid request.
Proof. intros (len & contents & _ & _ & _ & Hd). by eapply codec_decoded_valid. Qed.

(** Another reading of the clock. *)
Lemma admitted_clock database_url pool_value elapsed up d now elapsed' now' :
  cli_admitted database_url pool_value elapsed up d now -> system_now elapsed' = Ok now' ->
  cli_admitted database_url pool_value elapsed' up d now'.
Proof. intros (? & ? & _ & ? & ?) ?. by split_and!. Qed.

(** The ways a command goes: it is refused before any transaction, it migrates,
    or it is one operation over the tables of this schema. *)
Inductive goes (arguments : list OsString) (database_url : option OsString) (pool_value : option string)
    (elapsed : option Z) (up : bool) (d : Deployed) : CliOp -> Deployed -> Prop :=
  | goes_refused e : goes arguments database_url pool_value elapsed up d (Done (Ok (Err e))) d
  | goes_migrate r d' :
      parse_args arguments = Ok Migrate -> store_migrate d = (r, d') ->
      goes arguments database_url pool_value elapsed up d
        (Done (Ok (rmap (fun _ => "migrated schema " +:+ decimal SUPPORTED_SCHEMA_VERSION) (storage r)))) d'
  | goes_submit path request now db :
      parse_args arguments = Ok (Submit path) -> submits path request ->
      cli_admitted database_url pool_value elapsed up d now -> dp_tables d = P0cTables db ->
      goes arguments database_url pool_value elapsed up d
        (answering (create_evaluation {| ce_request := request; ce_created_at := now |}) printed_snapshot) d
  | goes_status id now db :
      parse_args arguments = Ok (CliStatus id) ->
      cli_admitted database_url pool_value elapsed up d now -> dp_tables d = P0cTables db ->
      goes arguments database_url pool_value elapsed up d
        (answering (evaluation_status id) printed_snapshot) d.

Lemma cli_goes arguments database_url pool_value elapsed up d :
  let '(op, d') := cli_run open_file arguments database_url pool_value elapsed up d in
  goes arguments database_url pool_value elapsed up d op d'.
Proof.
  unfold cli_run. destruct (parse_args arguments) as [command|e] eqn:Hp; cbn [cli_try]; [|constructor].
  destruct database_url as [[url|]|]; cbn [into_string cli_try]; [|constructor..].
  destruct (parse_database_pool_size pool_value) as [n|] eqn:Hn; cbn [cli_try]; [|constructor].
  destruct (system_now elapsed) as [now|e] eqn:Hnow; cbn [cli_try]; [|constructor].
  unfold execute. destruct up; cbn [PostgresEvaluationStore_connect storage map_err cli_try]; [|constructor].
  assert (Hadm : schema_version d = Some (Some SUPPORTED_SCHEMA_VERSION) ->
            cli_admitted (Some (Unicode url)) pool_value elapsed true d now) by (intros Hv; split; [eauto|]; split; [eauto|]; by split).
  unfold execute_with_store. destruct command as [|path|id].
  { destruct (store_migrate d) as [r d'] eqn:Hm.
    pose proof (goes_migrate arguments (Some (Unicode url)) pool_value elapsed true d r d' Hp Hm) as Hg.
    by destruct r as [[]|]. }
  all: destruct (store_check_compatibility (schema_version d)) as [[]|e] eqn:Hc; [|constructor].
  all: destruct (compatible_tables d Hc) as [db Hdb]; apply store_check_iff, Hadm in Hc.
  - cbn [storage map_err cli_try].
    destruct (read_bounded (open_file path) MAX_EVALUATION_REQUEST_BYTES) as [contents|e] eqn:Hr;
      cbn [cli_try]; [|constructor].
    apply read_bounded_iff in Hr as (len & Hf & Hlen & Hsize); [|done].
    destruct (decode_evaluation_request contents) as [request|e] eqn:Hd; cbn [map_err cli_try]; [|constructor].
    eapply goes_submit; [done| |done|done]. by exists len, contents.
  - by eapply goes_status.
Qed.

(** ** An undisturbed command *)

(** An operation on its own ends: after an error the tables are as before, and a
    line is printed again by the status of the evaluation it names. *)
Definition line_stands (op : CliOp) (db : Db) : Prop :=
  forall draws, exists printed draws' db',
    run_op op draws db = (Some (Ok printed), draws', db') /\
    match printed with
    | Err _ => db' = db
    | Ok line => exists s, line = format_snapshot s /\ valid (es_evaluation_id s) /\
        forall ds, run_op (answering (evaluation_status (es_evaluation_id s)) printed_snapshot) ds db' =
                   (Some (Ok (Ok line)), ds, db')
    end.

Lemma answering_stands op db :
  op_answers op -> op_safe op -> answers_shown evaluation_status op -> Inv db ->
  line_stands (answering op printed_snapshot) db.
Proof.
  intros Hans Hsafe Hop Hi draws. unfold answering at 1.
  destruct (Hans draws db) as (a & ds & db1 & Hrun). specialize (Hop draws db a ds db1 Hi Hrun).
  destruct (run_op_safe _ _ _ _ _ _ Hsafe Hi Hrun) as [Hi1 _].
  exists (storage (rmap format_snapshot a)), ds, db1. split; [by rewrite run_op_then, Hrun|].
  destruct a as [s|e]; [|exact Hop]. exists s. split; [done|].
  split; [by eapply (status_valid _ ds)|]. intros draws'. unfold answering. by rewrite run_op_then, Hop.
Qed.

Lemma create_stands c db :
  valid (ce_request c) -> Inv db -> line_stands (answering (create_evaluation c) printed_snapshot) db.
Proof.
  intros Hv. apply answering_stands; [apply create_answers | by apply create_safe|].
  exact (port_create_shown (S := PostgresEvaluationStore) (PostgresEvaluationStore_from_pool 1) c Hv).
Qed.

Lemma status_stands id db :
  valid id -> Inv db -> line_stands (answering (evaluation_status id) printed_snapshot) db.
Proof.
  intros Hv. apply answering_stands; [apply status_answers | apply status_safe|].
  exact (port_status_shown (S := PostgresEvaluationStore) (PostgresEvaluationStore_from_pool 1) id Hv).
Qed.

(** ** A command among other callers *)

(** What a submission may have written, and what it may answer, whatever happens
    between its transactions and wherever its connection is lost; once it is
    recorded, the same line answers it, at any later time. *)
Definition submission_stands (c : CreateEvaluation) (payload : bytes) (op : CliOp) (db : Db) : Prop :=
  forall writes printed db', disturbed op db writes (Done (Ok printed)) db' ->
  (writes = [] \/ exists db0 db1, writes = [(db0, db1)] /\ creates c payload db0 db1 /\
     recorded (ce_request c) payload (er_evaluation_id (ce_request c)) db') /\
  match printed with
  | Ok line => exists s db0, line = format_snapshot s /\
      recorded (ce_request c) payload (es_evaluation_id s) db' /\
      later db0 db' /\ status_query (es_evaluation_id s) db0 = Ok (s, db0)
  | Err e => e = CliError.Storage
  end.

Lemma submission_outcome c payload db :
  valid (ce_request c) -> encode_evaluation_request (ce_request c) = Ok payload -> Inv db ->
  submission_stands c payload (answering (create_evaluation c) printed_snapshot) db.
Proof.
  intros Hv Henc Hi writes printed db' Hd.
  destruct (disturbed_create c payload _ _ _ _ _ Hv Henc Hd Hi) as (Hw & _ & r & Hr & Hs).
  split; [exact Hw|]. injection Hr as ->. destruct r as [s|e]; [|done].
  destruct (Hs s eq_refl) as (Hrec & db0 & Hl & Hq). by exists s, db0.
Qed.

(** A submission whose request cannot be encoded again writes nothing. *)
Lemma unencodable_outcome c e db writes printed db' :
  encode_evaluation_request (ce_request c) = Err e -> Inv db ->
  disturbed (answering (create_evaluation c) printed_snapshot) db writes (Done (Ok printed)) db' ->
  writes = [] /\ printed = Err CliError.Storage.
Proof.
  intros Henc Hi Hd. unfold answering, create_evaluation in Hd. rewrite Henc in Hd.
  cbn [corrupt map_err op_try op_then] in Hd. apply disturbed_done in Hd as (-> & [= ->] & _); done.
Qed.

(** A status writes nothing. *)
Lemma status_outcome id db writes printed db' :
  Inv db -> disturbed (answering (evaluation_status id) printed_snapshot) db writes (Done (Ok printed)) db' ->
  writes = [] /\
  match printed with
  | Ok line => exists s db0, line = format_snapshot s /\ es_evaluation_id s = id /\
      later db db0 /\ later db0 db' /\ status_query id db0 = Ok (s, db0)
  | Err e => e = CliError.Storage
  end.
Proof.
  intros Hi Hd. apply disturbed_status in Hd as (-> & _ & r & [= ->] & Hs); [|done]. split; [done|].
  destruct r as [s|e]; [|done]. destruct (Hs s eq_refl) as (db0 & Hl0 & Hl1 & Hq).
  exists s, db0. split; [done|]. split; [by eapply status_query_inv; [apply Hl0|]|done].
Qed.
End CliLaws.
