(* ===== verification/Messages.v ===== *)
(** * The texts of errors

    The [Display] of every error type whose text reaches a log, a terminal or
    another error, and what they disclose: the parsers of external text name the
    field, a fixed reason and at most the length of what they refused, never the
    text itself. *)

From S2P Require Import Prelude Value Application Codec Policy Text Firecracker Agent ControlPlane Worker JudgeNode.

(** ** Domain and pipeline *)

Definition DomainError_text (error : DomainError) : string :=
  match error with
  | Empty field => field +:+ " must not be empty"
  | TooLong field maximum actual =>
      field +:+ " exceeds its length limit (" +:+ decimal actual +:+ " > " +:+ decimal maximum +:+ ")"
  | InvalidFormat field reason => field +:+ " has an invalid format: " +:+ reason
  | OutOfRange field minimum maximum actual =>
      field +:+ " is outside the allowed range (" +:+ decimal actual +:+ " not in "
      +:+ decimal minimum +:+ "..=" +:+ decimal maximum +:+ ")"
  | TooManyItems field maximum actual =>
      field +:+ " contains too many items (" +:+ decimal actual +:+ " > " +:+ decimal maximum +:+ ")"
  | DuplicateItem field => field +:+ " contains a duplicate item"
  | InvalidPlan => "evaluation plan is invalid"
  | InvalidScore => "score is invalid"
  | InvalidResult reason => "evaluation result is invalid: " +:+ reason
  | InvalidProvenance reason => "execution provenance is invalid: " +:+ reason
  | InvalidTransition entity from to =>
      "invalid " +:+ entity +:+ " state transition from " +:+ from +:+ " to " +:+ to
  end.

Definition ApplicationError_text (error : ApplicationError) : string :=
  match error with
  | UnsupportedCapability => "executor does not support a required capability"
  | InvalidExecutorOutput reason => "executor returned an invalid outcome: " +:+ reason
  | Domain error => "domain invariant rejected the result: " +:+ DomainError_text error
  end.

Definition ApplicationError_source (error : ApplicationError) : option DomainError :=
  match error with
  | Domain error => Some error
  | UnsupportedCapability | InvalidExecutorOutput _ => None
  end.

Definition ProtocolError_text (error : ProtocolError) : string :=
  match error with
  | MessageTooLarge maximum actual =>
      "message exceeds its byte limit (" +:+ decimal actual +:+ " > " +:+ decimal maximum +:+ ")"
  | MalformedDocument => "message is not valid typed JSON"
  | SchemaUnavailable => "canonical schema could not be initialized"
  | SchemaViolation => "message does not satisfy the canonical schema"
  | SemanticViolation => "message violates canonical cross-field semantics"
  | ProtocolDomain error => "message violates a domain invariant: " +:+ DomainError_text error
  | EncodingFailed => "message could not be encoded"
  end.

Definition ProtocolError_source (error : ProtocolError) : option DomainError :=
  match error with
  | ProtocolDomain error => Some error
  | MessageTooLarge _ _ | MalformedDocument | SchemaUnavailable | SchemaViolation
  | SemanticViolation | EncodingFailed => None
  end.

(** ** Control plane *)

Definition NodePolicyError_text (error : NodePolicyError.t) : string :=
  match error with
  | NodePolicyError.InvalidRenewSchedule => "renew schedule exceeds half of the lease duration"
  | NodePolicyError.DuplicateNode => "node policy contains a duplicate node"
  | NodePolicyError.InvalidCapabilities => "node policy contains an invalid capability set"
  | NodePolicyError.IdentityDenied => "judge node is not allowed by deployment policy"
  | NodePolicyError.CapabilityDenied => "judge node declared a capability outside its allowlist"
  end.

Definition StoreError_text (error : StoreError.t) : string :=
  match error with
  | StoreError.InvalidTime => "time value is invalid"
  | StoreError.IdempotencyConflict => "idempotency key conflicts with existing input"
  | StoreError.IdentityConflict => "domain identity conflicts with an existing object"
  | StoreError.ImmutableReferenceConflict => "immutable reference conflicts with existing metadata"
  | StoreError.NotFound => "evaluation was not found"
  | StoreError.NoTaskAvailable => "no evaluation task is available"
  | StoreError.LeaseConflict => "evaluation task lease conflicts with current ownership"
  | StoreError.StaleLease => "evaluation task lease is stale"
  | StoreError.InvalidTransition => "stored state transition is invalid"
  | StoreError.TerminalConflict => "evaluation already has a different terminal result"
  | StoreError.IncompatibleSchema => "database schema is incompatible"
  | StoreError.Unavailable => "storage is unavailable"
  | StoreError.CorruptData => "stored evaluation data is invalid"
  end.

Definition ProtocolContractError_text (error : ProtocolContractError) : string :=
  match error with
  | UnsupportedProtocolVersion => "unsupported Judge Control version"
  | InvalidDeclaredCapabilities => "invalid Judge Control capabilities"
  | ControlMessageTooLarge => "Judge Control message exceeds its limit"
  | InvalidCanonicalPayload => "invalid canonical evaluation payload"
  end.

Definition SocketPathError_text (error : SocketPathError) : string :=
  match error with
  | RelativePath => "Judge Control socket path must be absolute"
  | InvalidParent => "Judge Control socket parent must be an existing directory"
  | InsecureParent => "Judge Control socket parent must not be accessible by group or other users"
  | ExistingPath => "Judge Control socket path must not already exist"
  | CreateFailed => "Judge Control socket could not be created"
  end.

(** ** Node and guest *)

Definition WorkerError_text (error : WorkerError.t) : string :=
  match error with
  | WorkerError.Store error => "judge control operation failed: " +:+ StoreError_text error
  | WorkerError.Application error => "judge execution failed: " +:+ ApplicationError_text error
  end.

Definition JudgeNodeError_text (error : JudgeNodeError.t) : string :=
  match error with
  | JudgeNodeError.InvalidConfiguration => "judge node configuration is invalid"
  | JudgeNodeError.IncompatibleServer => "Judge Control server negotiation was rejected"
  | JudgeNodeError.Unavailable => "Judge Control UDS is unavailable"
  end.

Definition AgentError_text (error : AgentError.t) : string :=
  match error with
  | AgentError.Io message => "guest agent I/O error: " +:+ message
  | AgentError.EmptyArgv => "command argument vector is empty"
  | AgentError.UnsafeName name => "unsafe input name: " +:+ name
  | AgentError.UnexpectedMessage message_type => "unexpected message type: " +:+ message_type
  end.

(** ** What the texts tell apart *)

#[export] Instance StoreError_text_inj : Inj (=) (=) StoreError_text.
Proof. intros a b. destruct a, b; first [done | discriminate]. Qed.

#[export] Instance NodePolicyError_text_inj : Inj (=) (=) NodePolicyError_text.
Proof. intros a b. destruct a, b; first [done | discriminate]. Qed.

#[export] Instance SocketPathError_text_inj : Inj (=) (=) SocketPathError_text.
Proof. intros a b. destruct a, b; first [done | discriminate]. Qed.

(** ** What the texts disclose *)

(** An error about a text that tells of it nothing but its length. *)
Definition declassified (field : string) (value : string) (error : DomainError) : Prop :=
  match error with
  | Empty f => f = field
  | TooLong f _ actual => f = field /\ actual = str_len value
  | InvalidFormat f reason => f = field /\
      reason ∈ ["use ASCII letters, digits, dot, underscore, colon, or hyphen";
                "only lowercase sha256 digests are accepted";
                "expected sha256 followed by 64 lowercase hexadecimal characters";
                "separators must occur between lowercase alphanumeric segments";
                "the first segment must start with a lowercase letter";
                "use lowercase ASCII letters, digits, and bounded separators";
                "the value must not end with a separator";
                "use uppercase ASCII letters, digits, and underscore"; "expected type/subtype";
                "type and subtype must be bounded ASCII tokens"]
  | _ => False
  end.

Definition silent {A : Type} (field : string) (parse : string -> result DomainError A) : Prop :=
  forall value error, parse value = Err error -> declassified field value error.

Ltac refuse :=
  repeat match goal with
  | |- context [if ?b then _ else _] => destruct b
  end; try discriminate; intros [= <-]; simpl; (done || (split; [done|set_solver])).

Lemma opaque_silent field maximum : silent field (fun value => validate_opaque value field maximum).
Proof. intros value e. unfold validate_opaque. destruct value; refuse. Qed.

Lemma lower_loop_silent field first value : forall start rest e,
  lower_token_loop field first start rest = Err e -> declassified field value e.
Proof.
  intros start rest. revert start. induction rest as [|c rest IH]; intros start e; simpl; [done|].
  destruct (separator_byte c); [destruct start; [refuse|apply IH]|].
  destruct (lower_or_digit c); [|refuse]. destruct (_ && _ && _); [refuse|apply IH].
Qed.

Lemma lower_token_silent field maximum :
  silent field (fun value => validate_lower_token value field maximum).
Proof.
  intros value e. unfold validate_lower_token.
  destruct (is_empty value); [refuse|]. destruct (_ <? _)%Z; [refuse|].
  destruct (lower_token_loop _ _ _ _) as [[|]|x] eqn:Hl; simpl; [refuse|done|].
  intros [= <-]. by eapply lower_loop_silent.
Qed.

Lemma silent_try {A} field (check : string -> result DomainError unit) (make : string -> A) :
  silent field check -> silent field (fun value => try* check value in Ok (make value)).
Proof. intros Hc value e. specialize (Hc value). destruct (check value); simpl; [done|]. intros [= <-]. by apply Hc. Qed.

(** No parser of external text repeats it in its error. *)
Lemma parsers_silent :
  (forall k, silent (id_field k) (@id_parse k)) /\
  silent "idempotency_key" IdempotencyKey_parse /\ silent "content_digest" ContentDigest_parse /\
  silent "capability" Capability_parse /\ silent "evidence_kind" EvidenceKind_parse /\
  silent "diagnostic_code" DiagnosticCode_parse /\ silent "media_type" MediaType_parse.
Proof.
  split_and!; intros.
  - apply silent_try, opaque_silent.
  - apply silent_try, opaque_silent.
  - intros value e. unfold ContentDigest_parse. destruct (strip_prefix _ value); refuse.
  - apply silent_try, lower_token_silent.
  - apply silent_try, lower_token_silent.
  - intros value e. unfold DiagnosticCode_parse. destruct value; refuse.
  - intros value e. unfold MediaType_parse.
    destruct (_ <? _)%Z; [refuse|]. destruct (Value.split_once _ value) as [[? ?]|]; refuse.
Qed.
