(* ===== verification/PlaneLaws.v ===== *)
(** * The control plane end to end

    The client of the judge node over the service over the store: negotiation
    agrees on the deployment's policy, the three operations give the node what
    the store answers, up to the statuses errors travel as, and a worker that
    reports a submission has its result stored. *)

From S2P Require Import Prelude Value Control Evaluation EvalResult Application Codec Policy Schema Store Lease StoreLemmas StoreInv StoreSteps StoreWrites StoreSystem StoreRuns StoreProgress Text Firecracker Executor Effects ControlPlane Worker JudgeNode.

Class ResultCodecLaws `{RequestCodec, ResultCodec} := {
  result_codec_roundtrip : forall r p,
    valid r -> encode_evaluation_result r = Ok p -> decode_result_domain p = Ok r
}.

(** The error a node sees for an error of the store. *)
Definition wire_error (error : StoreError.t) : StoreError.t := map_status (map_store_error error).

Lemma run_rpc_try {A B} (r : result Status B) (k : B -> Rpc A) draws db :
  run_op (rpc_try r k) draws db =
  match r with Ok b => run_op (k b) draws db | Err status => (Some (Ok (Err status)), draws, db) end.
Proof. by destruct r. Qed.

(** ** Configuration *)

Lemma parse_known {k} (i : OpaqueId k) : valid i -> invalid_message (id_parse (id_str i)) = Ok i.
Proof.
  intros Hi. unfold invalid_message. rewrite (proj2 (id_parse_iff _ i)); [done|].
  split; [by destruct i | exact Hi].
Qed.

Lemma capabilities_parse caps :
  Forall valid caps -> traverse Capability_parse (map cap_str caps) = Ok caps.
Proof.
  induction 1 as [|c caps Hc _ IH]; [done|]. cbn [map traverse].
  rewrite (proj2 (Capability_parse_iff _ c)) by (split; [by destruct c|done]). simpl. by rewrite IH.
Qed.

Lemma declared_capabilities_iff caps :
  Forall valid caps ->
  (validate_declared_capabilities (map cap_str caps) = Ok caps <->
   (len caps <= MAX_DECLARED_CAPABILITIES)%Z /\ NoDup caps).
Proof.
  intros Hc. unfold validate_declared_capabilities. rewrite capabilities_parse by done.
  cbn [map_err rbind]. unfold len at 1. rewrite length_map. fold (len caps).
  destruct (Z.ltb_spec MAX_DECLARED_CAPABILITIES (len caps)); [split; [done|lia]|].
  rewrite <- set_len_NoDup. destruct (set_len _ =? _)%Z; simpl; naive_solver.
Qed.

Lemma policy_millis_valid d : valid d -> policy_millis d = Ok (ld_value d).
Proof.
  intros [Hlo Hhi]. unfold policy_millis, u32_try_from. unfold MAX_LEASE_DURATION_MS in Hhi.
  rewrite (proj2 (Z.leb_le _ _)) by lia. by rewrite (proj2 (Z.leb_le _ _)) by (unfold u32_max; lia).
Qed.

Section Plane.
Context `{Collation, RequestCodecLaws, !ResultCodec, !ResultCodecLaws}.
Variable service : JudgeControlService.

(** The session the service keeps agreeing to. *)
Definition accepted (node_id : NodeId) (capabilities : list Capability) : Prop :=
  negotiate_request service
    (MkNegotiateRequest CLIENT_PROTOCOL_VERSION (id_str node_id) (map cap_str capabilities))
  = Ok (MkNodeSession node_id capabilities).

(** What the deployment admits. *)
Definition admitted (node_id : NodeId) (capabilities : list Capability) : Prop :=
  (len capabilities <= MAX_DECLARED_CAPABILITIES)%Z /\
  exists allowed, np_allowed (svc_node_policy service) !! node_id = Some allowed /\
    capabilities <> [] /\ NoDup capabilities /\ forall c, c ∈ capabilities -> c ∈ allowed.

Lemma accepted_iff node_id capabilities :
  valid node_id -> Forall valid capabilities ->
  (accepted node_id capabilities <-> admitted node_id capabilities).
Proof.
  intros Hn Hc. unfold accepted, admitted, negotiate_request. cbn [nr_version nr_node_id nr_capabilities].
  change (check_version CLIENT_PROTOCOL_VERSION) with (@Ok Status _ tt). cbn [rbind].
  rewrite parse_known by done. cbn [rbind]. split.
  - intros Ha. apply rbind_Ok_inv in Ha as (caps & Hcaps & Ha). apply map_err_Ok_inv in Hcaps.
    apply rbind_Ok_inv in Ha as ([] & Hauth & [= ->]). apply map_err_Ok_inv in Hauth.
    apply declared_capabilities_iff in Hcaps as [Hl _]; [|done].
    split; [done|]. by apply NodePolicy_authorize_iff.
  - intros [Hl Hauth]. pose proof Hauth as (_ & _ & _ & Hnd & _).
    rewrite (proj2 (declared_capabilities_iff capabilities Hc) (conj Hl Hnd)). cbn [map_err rbind].
    by rewrite (proj2 (NodePolicy_authorize_iff _ _ _) Hauth).
Qed.

(** Negotiation succeeds exactly for the admitted nodes and capabilities, and
    the client then runs on the deployment's lease schedule. *)
Lemma connect_iff socket_path node_id capabilities client :
  valid node_id -> Forall valid capabilities -> valid (svc_lease_policy service) ->
  is_absolute socket_path = true ->
  (connect true (negotiate service) socket_path node_id capabilities = Ok client <->
   admitted node_id capabilities /\
   client = MkClient node_id capabilities (lp_lease_duration (svc_lease_policy service))
              NO_TASK_BACKOFF_MS).
Proof.
  intros Hn Hc (Hd & Hr & Hhalf) Hpath. rewrite <- accepted_iff by done. unfold connect. rewrite Hpath. cbn [negb orb].
  destruct (bool_decide (capabilities = [])) eqn:Hnil.
  { split; [done|]. intros [Ha _]. apply accepted_iff in Ha; [|done..].
    apply bool_decide_eq_true in Hnil. by destruct Ha as (_ & ? & _ & ? & _). }
  clear Hnil. unfold negotiate, accepted.
  destruct (negotiate_request service _) as [session|e] eqn:Hs; cbn [rbind map_err].
  2: { split; [done | by intros [? _]]. }
  unfold lease_duration_ms, renew_after_ms. rewrite !policy_millis_valid by done. cbn [rbind map_err].
  assert (Hsession : session = MkNodeSession node_id capabilities).
  { unfold negotiate_request in Hs. cbn [nr_version nr_node_id nr_capabilities] in Hs.
    rewrite parse_known in Hs by done. inv_ok.
    match goal with Hv : validate_declared_capabilities _ = Ok ?caps |- _ =>
      unfold validate_declared_capabilities in Hv; rewrite capabilities_parse in Hv by done end.
    by inv_ok. }
  subst session. cbn [ns_accepted_version ns_allowed_capabilities ns_lease_duration_ms
    ns_renew_after_ms ns_no_task_backoff_ms session_capabilities].
  rewrite String.eqb_refl. unfold len at 1. rewrite length_map, Z.eqb_refl. cbn [negb orb].
  destruct Hd as [Hd1 Hd2], Hr as [Hr1 Hr2].
  rewrite (proj2 (Z.eqb_neq _ 0)) by lia. rewrite (proj2 (Z.eqb_neq (ld_value (lp_renew_after _)) 0)) by lia.
  rewrite (proj2 (Z.ltb_ge _ _)) by (apply Z.div_le_lower_bound; lia). cbn [orb].
  change (NO_TASK_BACKOFF_MS =? 0)%Z with false. cbn [orb].
  assert (Hall : forallb (fun capability => existsb (fun allowed => String.eqb allowed (cap_str capability))
                   (map cap_str capabilities)) capabilities = true).
  { apply forallb_forall. intros c Hin. apply existsb_exists. exists (cap_str c).
    split; [by apply in_map | apply String.eqb_refl]. }
  rewrite Hall. cbn [negb].
  rewrite (proj2 (LeaseDuration_new_iff _ (lp_lease_duration (svc_lease_policy service)))).
  2: { split; [by destruct (lp_lease_duration _) | done]. }
  cbn [map_err rbind]. split; [by intros [= <-] | by intros [_ ->]].
Qed.

(** ** Claims *)

Lemma UnixMillis_new_known t : valid t -> corrupt (UnixMillis_new (um_value t)) = Ok t.
Proof.
  intros [Hlo Hhi]. unfold corrupt, UnixMillis_new. rewrite (proj2 (Z.ltb_ge _ _)) by done. by destruct t.
Qed.

Definition lease_valid (node_id : NodeId) (l : TaskLease) : Prop :=
  valid (tl_request l) /\ valid (tl_lease_token l) /\ valid (tl_expires_at l) /\ tl_node_id l = node_id.

Lemma checked_add_valid t d u : valid t -> valid d -> UnixMillis_checked_add t d = Ok u -> valid u.
Proof.
  intros Ht Hd Hu. unfold UnixMillis_checked_add in Hu. rewrite lease_add_exact in Hu by done. inv_ok.
  split_bools. destruct Ht, Hd. unfold valid, valid_millis. simpl. lia.
Qed.

Lemma stored_millis_Ok z t : stored_millis z = Ok t -> valid t.
Proof.
  unfold stored_millis, UnixMillis_new, corrupt. intros Hz. inv_ok. split_bools.
  unfold valid, valid_millis. simpl. lia.
Qed.

(** Every lease the store hands out can be sent. *)
Lemma judge_claim_valid c draws db l ds db' :
  valid (jc_now c) -> valid (jc_lease_policy c) -> valid (jc_lease_token c) ->
  run_op (judge_claim_task c) draws db = (Some (Ok l), ds, db') -> lease_valid (jc_node_id c) l.
Proof.
  intros Hnow (Hd & _ & _) Htok. unfold judge_claim_task. rewrite run_tx.
  destruct (claim_replay_query c db) as [[[lease|] db1]|e] eqn:Hq; cbn [op_try run_op]; [| |done].
  - intros [= <- _ _]. unfold claim_replay_query in Hq. inv_sql.
    destruct (select_first _ _) as [[aid a]|]; inv_sql; [|done]. injection Hq as <- _.
    split; [by eapply codec_decoded_valid|]. split; [|split; [by eapply stored_millis_Ok | done]].
    match goal with Hp : id_parse _ = Ok _ |- _ => by apply id_parse_iff in Hp as [_ ?] end.
  - clear Hq. unfold claim_task_with_capabilities. cbn [ct_now ct_lease_duration].
    destruct (UnixMillis_checked_add _ _) as [expires_at|e] eqn:Hadd; cbn [invalid_time map_err op_try run_op]; [|done].
    apply checked_add_valid in Hadd; [|done..].
    destruct (i64_try_from _ (um_value (jc_now c))) as [now|e]; cbn [op_try run_op]; [|done].
    destruct (i64_try_from _ (um_value expires_at)) as [expiry|e]; cbn [op_try run_op]; [|done].
    destruct (claim_transaction _ _ _ _ _ _ db1) as [[request db2]|e] eqn:Hc; cbn [op_try run_op]; [|done].
    intros [= <- _ _]. split; [|by split_and!]. cbn [tl_request].
    unfold claim_transaction in Hc. inv_sql. destruct x as [[aid t] a]. inv_sql.
    by eapply codec_decoded_valid.
Qed.

(** What the node makes of the store's answer to a claim. *)
Definition claim_view (r : result StoreError.t TaskLease) : result StoreError.t WorkerClaim :=
  match r with
  | Ok lease =>
      if is_ok (encode_evaluation_request (tl_request lease)) then Ok (ClaimedLease lease)
      else Err StoreError.CorruptData
  | Err StoreError.NoTaskAvailable => Ok ClaimedNoTask
  | Err e => Err (wire_error e)
  end.

Lemma claim_answer_view client r :
  match r with Ok l => lease_valid (uc_node_id client) l | Err _ => True end ->
  (let* outcome := server_answer (Ok (claim_response r)) in claim_answer client outcome) = claim_view r.
Proof.
  intros Hr. destruct r as [l|e]; [|by destruct e].
  destruct Hr as (Hreq & Htok & Hexp & Hnode). unfold claim_response, claim_view, server_answer.
  destruct (encode_evaluation_request (tl_request l)) as [p|x] eqn:Hp; [|done].
  cbn [map_err rbind claim_answer leased_task lt_canonical_request lt_evaluation_id lt_attempt_id
       lt_attempt_number lt_lease_token lt_lease_expires_at_unix_ms is_ok].
  rewrite (codec_roundtrip _ _ Hreq Hp). cbn [corrupt map_err rbind].
  rewrite !String.eqb_refl, Z.eqb_refl. cbn [negb orb].
  rewrite (proj2 (id_parse_iff _ (tl_lease_token l))) by (split; [by destruct (tl_lease_token l)|done]).
  cbn [map_err rbind]. change (map_err _ (UnixMillis_new ?z)) with (corrupt (UnixMillis_new z)).
  rewrite UnixMillis_new_known by done. cbn [rbind]. rewrite <- Hnode. by destruct l.
Qed.

Lemma source_now_known now : valid now -> source_now (Some (um_value now)) = Ok now.
Proof.
  intros [Hlo Hhi]. unfold source_now. cbn [ok_or rbind].
  rewrite (proj2 (in_range_true 0 u64_max _)) by (unfold MAX_UNIX_MILLIS, u64_max in *; lia).
  cbn [ok_or rbind]. unfold UnixMillis_new. rewrite (proj2 (Z.ltb_ge _ _)) by done. by destruct now.
Qed.

(** The node, its client and the policy of one deployment. *)
Definition deployed (client : UdsJudgeControlClient) : Prop :=
  svc_store service = true /\ valid (uc_node_id client) /\ valid (svc_lease_policy service) /\
  accepted (uc_node_id client) (uc_capabilities client).

Definition claim_command (client : UdsJudgeControlClient) (operation_id : ClaimOperationId)
    (token : LeaseToken) (now : UnixMillis) : JudgeClaim :=
  {| jc_node_id := uc_node_id client;
     jc_declared_capabilities := uc_capabilities client;
     jc_operation_id := operation_id;
     jc_lease_token := token;
     jc_now := now;
     jc_lease_policy := svc_lease_policy service |}.

(** A claim through client and service is the store's claim. *)
Lemma rpc_claim client operation_id draw token now draws db :
  deployed client -> valid operation_id -> valid now -> source_lease_token (Some draw) = Ok token ->
  run_op (client_claim (served service (Some (um_value now)) Delivered) client operation_id)
    (Some draw :: draws) db =
  let '(r, ds, db') := run_op (judge_claim_task (claim_command client operation_id token now)) draws db in
  (option_map claim_view r, ds, db').
Proof.
  intros (Hstore & Hnode & Hpolicy & Hacc) Hop Hnow Htok. unfold client_claim. rewrite run_op_then.
  cbn [served stub_claim deliver]. unfold claim, claim_request.
  cbn [cr_version cr_node_id cr_capabilities cr_claim_operation_id].
  rewrite run_rpc_try. unfold accepted in Hacc. rewrite Hacc. cbn [session_node_id session_capabilities].
  rewrite run_rpc_try, parse_known by done. rewrite run_rpc_try. unfold service_store. rewrite Hstore.
  cbn [run_op]. rewrite run_rpc_try, Htok, run_rpc_try, source_now_known by done.
  rewrite run_op_then. fold (claim_command client operation_id token now).
  destruct (run_op (judge_claim_task (claim_command client operation_id token now)) draws db)
    as [[[r|] ds] db'] eqn:Hrun; [|done].
  cbn [run_op rpc_done option_map].
  rewrite (claim_answer_view client r); [done|]. destruct r as [l|e]; [|done].
  apply (judge_claim_valid (claim_command client operation_id token now)) in Hrun; [done|done|done|].
  unfold source_lease_token in Htok. inv_ok.
  match goal with Hp : id_parse _ = Ok _ |- _ => by apply id_parse_iff in Hp as [_ ?] end.
Qed.

(** ** Renewals *)

Definition renew_command (client : UdsJudgeControlClient) (lease : TaskLease) (now : UnixMillis)
    : JudgeRenew :=
  {| jr_node_id := uc_node_id client;
     jr_evaluation_id := er_evaluation_id (tl_request lease);
     jr_attempt_id := er_attempt_id (tl_request lease);
     jr_lease_token := tl_lease_token lease;
     jr_now := now;
     jr_lease_policy := svc_lease_policy service |}.

Lemma authorized_node node_id capabilities :
  valid node_id -> accepted node_id capabilities ->
  parse_and_authorize_node (svc_node_policy service) (id_str node_id) = Ok node_id.
Proof.
  intros Hn Hacc. unfold accepted, negotiate_request in Hacc. cbn [nr_version nr_node_id nr_capabilities] in Hacc.
  rewrite parse_known in Hacc by done. inv_ok.
  match goal with Hu : NodePolicy_authorize _ _ _ = Ok ?x |- _ =>
    destruct x; apply NodePolicy_authorize_iff in Hu as (allowed & Hl & _) end.
  unfold parse_and_authorize_node. rewrite parse_known by done. cbn [rbind].
  unfold NodePolicy_authorize_identity. by rewrite Hl.
Qed.

Lemma request_ids_valid (r : EvaluationRequest) :
  valid r -> valid (er_evaluation_id r) /\ valid (er_attempt_id r).
Proof. by intros ((_ & _ & ? & ?) & _). Qed.

Lemma judge_renew_expiry c draws db t ds db' :
  valid (jr_now c) -> valid (jr_lease_policy c) ->
  run_op (judge_renew_lease c) draws db = (Some (Ok (Continue t)), ds, db') -> valid t.
Proof.
  intros Hnow (Hd & _ & _). unfold judge_renew_lease.
  destruct (UnixMillis_checked_add _ _) as [expires_at|e] eqn:Hadd; cbn [invalid_time map_err op_try run_op]; [|done].
  apply checked_add_valid in Hadd; [|done..].
  destruct (i64_try_from _ (um_value (jr_now c))) as [now|e]; cbn [op_try run_op]; [|done].
  destruct (i64_try_from _ (um_value expires_at)) as [expiry|e]; cbn [op_try run_op]; [|done].
  rewrite run_tx. destruct (renew_transaction _ _ _ _ db) as [[d db1]|e] eqn:Hr; [|done].
  intros [= -> _ _]. unfold renew_transaction in Hr. inv_sql. destruct x as [e a]. inv_sql; try done.
  injection Hr as <- _. done.
Qed.

(** A renewal through client and service is the store's renewal. *)
Lemma rpc_renew client lease now draws db :
  deployed client -> lease_valid (uc_node_id client) lease -> valid now ->
  run_op (client_renew (served service (Some (um_value now)) Delivered) client lease) draws db =
  let '(r, ds, db') := run_op (judge_renew_lease (renew_command client lease now)) draws db in
  (option_map (map_err wire_error) r, ds, db').
Proof.
  intros (Hstore & Hnode & Hpolicy & Hacc) (Hreq & Htok & _ & _) Hnow. unfold client_renew.
  rewrite run_op_then. cbn [served stub_renew deliver]. unfold renew_lease, renew_request.
  cbn [rr_version rr_node_id rr_evaluation_id rr_attempt_id rr_lease_token].
  rewrite run_rpc_try. change (check_version CLIENT_PROTOCOL_VERSION) with (@Ok Status _ tt). cbn iota.
  destruct (request_ids_valid _ Hreq) as [Heid Haid].
  rewrite run_rpc_try, (authorized_node _ _ Hnode Hacc), run_rpc_try. unfold service_store.
  rewrite Hstore. do 2 rewrite run_rpc_try, parse_known by done.
  rewrite run_rpc_try, parse_known by done. rewrite run_rpc_try, source_now_known by done.
  rewrite run_op_then. fold (renew_command client lease now).
  destruct (run_op (judge_renew_lease (renew_command client lease now)) draws db)
    as [[[r|] ds] db'] eqn:Hrun; [|done].
  cbn [run_op rpc_done option_map]. do 3 f_equal. unfold renew_response, server_answer.
  destruct r as [[t|]|e]; cbn [map_err rbind]; [|done|done].
  apply judge_renew_expiry in Hrun; [|done|exact Hpolicy].
  unfold renew_after_ms. rewrite policy_millis_valid by apply Hpolicy. cbn [rbind map_err renew_answer].
  by rewrite UnixMillis_new_known.
Qed.

(** ** Submissions *)

Definition submit_command (client : UdsJudgeControlClient) (lease : TaskLease)
    (operation_id : ResultOperationId) (result_ : EvaluationResult) (now : UnixMillis)
    : JudgeSubmitResult :=
  {| js_node_id := uc_node_id client;
     js_operation_id := operation_id;
     js_lease_token := tl_lease_token lease;
     js_result := result_;
     js_now := now |}.

Lemma status_snapshot_id id draws db s ds db' :
  run_op (evaluation_status id) draws db = (Some (Ok s), ds, db') -> es_evaluation_id s = id.
Proof.
  unfold evaluation_status, tx. cbn [run_op].
  destruct (status_query id db) as [[s' db1]|e] eqn:Hq; [|done]. intros [= -> _ _].
  unfold status_query in Hq. inv_sql. destruct x as [e a]. inv_sql.
  unfold snapshot, corrupt in Hq. inv_ok. simpl.
  match goal with Hp : id_parse (id_str id) = Ok _ |- _ => apply id_parse_iff in Hp as [-> _] end.
  by destruct id.
Qed.

(** A successful submission reached the submission transaction and ends in the
    status of its evaluation. *)
Lemma judge_submit_inv c draws db s ds db' :
  run_op (judge_submit_result c) draws db = (Some (Ok s), ds, db') ->
  exists payload now,
    encode_evaluation_result (js_result c) = Ok payload /\
    submit_transaction (MkSubmitResult (MkKey (id_str (js_operation_id c))) (js_lease_token c)
      (js_result c) (js_now c)) payload now db = Ok (tt, db') /\
    es_evaluation_id s = ei_evaluation_id (res_identity (js_result c)).
Proof.
  unfold judge_submit_result. destruct (negb (bool_decide _)); [done|]. rewrite run_tx.
  destruct (owner_query _ db) as [[owner db1]|e] eqn:Howner; cbn [op_try run_op]; [|done].
  apply owner_read_only in Howner as ->.
  destruct (negb (bool_decide _)); [done|].
  destruct (corrupt (IdempotencyKey_parse _)) as [key|e] eqn:Hkey; cbn [op_try run_op]; [|done].
  apply map_err_Ok_inv, IdempotencyKey_parse_iff in Hkey as [-> _].
  unfold submit_result. cbn [sr_result sr_now].
  destruct (encode_evaluation_result (js_result c)) as [payload|e] eqn:Henc; cbn [corrupt map_err op_try run_op]; [|done].
  destruct (i64_try_from _ _) as [now|e]; cbn [op_try run_op]; [|done]. rewrite run_tx.
  destruct (submit_transaction _ payload now db) as [[[] db2]|e] eqn:Hs; cbn [op_try run_op]; [|done].
  intros Hrun. exists payload, now. split; [done|].
  assert (Hdb : db' = db2).
  { unfold evaluation_status, tx in Hrun. cbn [run_op] in Hrun.
    destruct (status_query _ db2) as [[s' db3]|e] eqn:Hq; [|done].
    apply status_read_only in Hq as ->. by injection Hrun. }
  subst db2. split; [done|]. by apply status_snapshot_id in Hrun.
Qed.

(** A submission through client and service is the store's submission. *)
Lemma rpc_submit client lease operation_id result_ now draws db p :
  deployed client -> lease_valid (uc_node_id client) lease -> valid operation_id -> valid now ->
  valid result_ -> encode_evaluation_result result_ = Ok p ->
  ei_evaluation_id (res_identity result_) = er_evaluation_id (tl_request lease) ->
  ei_attempt_id (res_identity result_) = er_attempt_id (tl_request lease) ->
  run_op (client_submit (served service (Some (um_value now)) Delivered) client lease operation_id result_)
    draws db =
  let '(r, ds, db') :=
    run_op (judge_submit_result (submit_command client lease operation_id result_ now)) draws db in
  (option_map (fun r => rmap (fun _ => tt) (map_err wire_error r)) r, ds, db').
Proof.
  intros (Hstore & Hnode & Hpolicy & Hacc) (Hreq & Htok & _ & _) Hop Hnow Hres Hp He Ha.
  destruct (request_ids_valid _ Hreq) as [Heid Haid].
  unfold client_submit. rewrite Hp. cbn [corrupt map_err op_try]. rewrite run_op_then.
  cbn [served stub_submit deliver]. unfold submit, submit_request.
  cbn [sq_version sq_node_id sq_evaluation_id sq_attempt_id sq_lease_token sq_result_operation_id sq_canonical_result].
  rewrite run_rpc_try. change (check_version CLIENT_PROTOCOL_VERSION) with (@Ok Status _ tt). cbn iota.
  rewrite run_rpc_try, (authorized_node _ _ Hnode Hacc).
  rewrite run_rpc_try, parse_known by done. rewrite run_rpc_try, parse_known by done.
  rewrite run_rpc_try, (result_codec_roundtrip _ _ Hres Hp). cbn [map_err].
  rewrite He, Ha, !bool_decide_eq_true_2 by done. cbn [negb orb].
  rewrite run_rpc_try. unfold service_store. rewrite Hstore.
  rewrite run_rpc_try, parse_known by done. rewrite run_rpc_try, parse_known by done.
  rewrite run_rpc_try, source_now_known by done. rewrite run_op_then.
  fold (submit_command client lease operation_id result_ now).
  destruct (run_op (judge_submit_result (submit_command client lease operation_id result_ now)) draws db)
    as [[[r|] ds] db'] eqn:Hrun; [|done].
  cbn [run_op rpc_done option_map]. do 3 f_equal. unfold submit_response, server_answer.
  destruct r as [s|e]; cbn [map_err rbind rmap ok_or submit_answer ws_evaluation_id]; [|done].
  apply judge_submit_inv in Hrun as (? & ? & _ & _ & Hid). unfold submit_answer.
  cbn [ok_or rbind ws_evaluation_id]. rewrite Hid. cbn [submit_command js_result]. by rewrite He, String.eqb_refl.
Qed.
End Plane.
