(* ===== verification/StartupLaws.v ===== *)
(** * What a start and a sweep establish

    The service a start hands to the server, the conditions under which it is
    reached, the node that joins it, and the sweeper over any number of ticks. *)

From S2P Require Import Prelude Value Control Evaluation EvalResult Codec Policy Schema Store Lease StoreLemmas StoreInv Migration StoreSteps StoreWrites StoreSystem StoreRuns StoreRecover StorePort Text Firecracker Effects ControlPlane Startup Worker JudgeNode PlaneLaws.

(** ** The start *)

Definition configured_service (config : StartupConfig) : JudgeControlService :=
  with_store (JudgeControlService_new (sc_node_policy config) (sc_lease_policy config)).

(** The steps of a start that reaches the end of its server. *)
Definition full_start (config : StartupConfig) : list StartupStep :=
  [ConnectDatabase (sc_database_url config) (sc_pool_size config); MigrateDatabase; CheckSchema;
   BindSocket (sc_socket_path config); SpawnSweeper (sc_recovery_interval_ms config);
   Serve (configured_service config); AbortSweeper].

(** The socket is new, in a directory of its owner alone, and only the owner may
    connect. *)
Definition private_socket `{SocketFs} (path : string) : Prop :=
  is_absolute path = true /\
  (exists parent md, path_parent path = Some parent /\ symlink_metadata parent = Some md /\
     md_is_symlink md = false /\ md_is_dir md = true /\ Z.land (md_mode md) 63 = 0%Z) /\
  path_exists path = false /\ unix_bind path = true /\ set_permissions path 384 = true.

Lemma bind_socket_iff `{SocketFs} path : bind_socket path = Ok tt <-> private_socket path.
Proof.
  unfold bind_socket, validate_socket_path, private_socket.
  destruct (is_absolute path); simpl; [|by split; [|intros [? _]]].
  destruct (path_parent path) as [parent|]; simpl; [|by split; [|intros (_ & (? & ? & ? & _) & _)]].
  destruct (symlink_metadata parent) as [md|] eqn:Hmd; simpl.
  2: { split; [done|]. intros (_ & (? & ? & [= <-] & Hx & _) & _). by rewrite Hmd in Hx. }
  split.
  - intros Hb.
    destruct (md_is_symlink md) eqn:Hl; [done|]. destruct (md_is_dir md) eqn:Hd; [|done].
    destruct (Z.eqb_spec (Z.land (md_mode md) 63) 0) as [Hm|]; [|done]. simpl in Hb.
    destruct (path_exists path); [done|]. destruct (unix_bind path); [|done].
    destruct (set_permissions path 384); [|done]. split; [done|]. split; [|done]. by exists parent, md.
  - intros (_ & (p & m & [= <-] & Hx & Hl & Hd & Hm) & He & Hu & Hs).
    assert (m = md) as -> by congruence. by rewrite Hl, Hd, Hm, He, Hu, Hs.
Qed.

(** The database answers and has the schema of this binary. *)
Definition database_ready `{PlaneEnvironment} (config : StartupConfig) : Prop :=
  database_reachable (sc_database_url config) = true /\ migrations_applied = true /\
  version_after_migration = Some (Some SUPPORTED_SCHEMA_VERSION) /\
  version_at_check = Some (Some SUPPORTED_SCHEMA_VERSION).

Lemma open_store_run `{PlaneEnvironment} config :
  let '(r, steps) := open_store config [] in
  (is_ok r = true <-> database_ready config) /\
  if is_ok r
  then steps = [ConnectDatabase (sc_database_url config) (sc_pool_size config); MigrateDatabase; CheckSchema]
  else steps `prefix_of`
    [ConnectDatabase (sc_database_url config) (sc_pool_size config); MigrateDatabase; CheckSchema].
Proof.
  assert (Hready : database_ready config <-> database_reachable (sc_database_url config) = true /\
    migrations_applied = true /\ store_check_compatibility version_after_migration = Ok tt /\
    store_check_compatibility version_at_check = Ok tt)
    by (unfold database_ready; by rewrite !store_check_iff).
  unfold open_store, attempt, eff_bind, eff_modify, eff_lift, eff_ret,
    PostgresEvaluationStore_connect, store_migrate. simpl. revert Hready.
  destruct (database_reachable _); simpl.
  2: { intros ->. split; [by split; [|intros [? _]]|]. by eexists. }
  destruct migrations_applied; simpl.
  2: { intros ->. split; [by split; [|intros (_ & ? & _)]|]. by eexists. }
  destruct (store_check_compatibility version_after_migration) as [[]|e]; simpl.
  2: { intros ->. split; [by split; [|intros (_ & _ & ? & _)]|]. by eexists. }
  destruct (store_check_compatibility version_at_check) as [[]|e]; simpl; intros ->; [done|].
  split; [by split; [|intros (_ & _ & _ & ?)]|]. by exists [].
Qed.

(** A start listens exactly when its configuration is sound, its database ready
    and its socket private; it takes its steps in order and stops at the first
    that fails. *)
Lemma startup_run `{PlaneEnvironment, SocketFs} config :
  startup_config env_var = Ok config ->
  let '(r, steps) := control_plane_run [] in
  steps `prefix_of` full_start config /\
  (BindSocket (sc_socket_path config) ∈ steps <-> database_ready config) /\
  (Serve (configured_service config) ∈ steps <->
   database_ready config /\ private_socket (sc_socket_path config)) /\
  (r = Ok tt <-> Serve (configured_service config) ∈ steps /\ server_ends = true) /\
  (Serve (configured_service config) ∈ steps -> steps = full_start config).
Proof.
  intros Hc. unfold control_plane_run. unfold eff_bind at 1, eff_lift at 1. rewrite Hc.
  unfold eff_bind at 1. pose proof (open_store_run config) as Ho.
  destruct (open_store config []) as [[store|m] steps]; simpl in Ho; destruct Ho as [Hr Hs].
  2: { assert (Hn : ~ database_ready config) by (by intros ?%Hr).
    assert (Hin : forall s, s ∈ steps -> s ∈ [ConnectDatabase (sc_database_url config) (sc_pool_size config);
      MigrateDatabase; CheckSchema]) by (intros s Hs'; by eapply elem_of_prefix).
    assert (forall p, BindSocket p ∉ steps) by (intros p Hp%Hin; set_solver).
    assert (forall sv, Serve sv ∉ steps) by (intros p Hp%Hin; set_solver).
    split; [|naive_solver]. etrans; [exact Hs|]. by eexists [_; _; _; _]. }
  subst steps. assert (Hd : database_ready config) by (by apply Hr).
  unfold attempt, eff_then, eff_bind, eff_modify, eff_lift. simpl.
  fold (configured_service config).
  destruct (bind_socket (sc_socket_path config)) as [[]|e] eqn:Hb; simpl.
  - apply bind_socket_iff in Hb.
    split; [by destruct server_ends; exists []|].
    split; [split; [done|set_solver]|]. split; [split; [done|set_solver]|].
    split; [|done]. destruct server_ends; simpl; split; try done; [intros _; split; [set_solver|done]|].
    by intros [_ ?].
  - assert (Hnb : ~ private_socket (sc_socket_path config)) by (intros ?%bind_socket_iff; congruence).
    split; [by eexists [_; _; _]|]. split; [split; [done|set_solver]|].
    assert (Hns : Serve (configured_service config) ∉
      [ConnectDatabase (sc_database_url config) (sc_pool_size config); MigrateDatabase; CheckSchema;
       BindSocket (sc_socket_path config)]) by set_solver.
    split; [naive_solver|]. split; [naive_solver | done].
Qed.

(** The configuration a start accepts. *)
Lemma startup_config_Ok env config :
  startup_config env = Ok config ->
  (exists nodes entries, env "OPENOJ_JUDGE_NODES" = Some nodes /\
     traverse parse_node_entry (split_on ";" nodes) = Ok entries /\
     NodePolicy_new entries = Ok (sc_node_policy config)) /\
  configured_lease_policy (env "OPENOJ_LEASE_DURATION_MS") (env "OPENOJ_RENEW_AFTER_MS")
    = Ok (sc_lease_policy config) /\
  env_u64 (env "OPENOJ_RECOVERY_INTERVAL_MS") 5000 = Ok (sc_recovery_interval_ms config) /\
  sc_pool_size config = 4%Z /\ valid (sc_lease_policy config).
Proof.
  unfold startup_config, env_required, configured_lease_policy, parse_node_policy. intros Hc.
  repeat (apply rbind_Ok_inv in Hc as (? & ? & Hc)). injection Hc as <-. simpl.
  repeat match goal with
  | Hx : ok_or _ _ = Ok _ |- _ => apply ok_or_Ok_inv in Hx
  | Hx : map_err _ _ = Ok _ |- _ => apply map_err_Ok_inv in Hx
  end.
  match goal with Hx : rbind (traverse _ _) _ = Ok _ |- _ =>
    apply rbind_Ok_inv in Hx as (entries & Hen & Hnew%map_err_Ok_inv) end.
  match goal with Hx : LeasePolicy_new ?d ?r = Ok ?p |- _ =>
    assert (valid p) by (eapply (LeasePolicy_new_iff d r); [| |exact Hx]; by eapply LeaseDuration_new_iff) end.
  split; [by eexists _, entries|].
  repeat match goal with Hx : _ = Ok _ |- context [_] => rewrite Hx; cbn [rbind map_err] end.
  split; [done|]. split; [done|]. split; [|done].
  match goal with Hx : DatabasePoolSize_new 4 = Some _ |- _ => by injection Hx as <- end.
Qed.

(** ** A node joins *)

Definition batch_profile : Capability := MkCapability "algorithm.batch".

Lemma batch_profile_valid : Forall valid [batch_profile].
Proof.
  apply Forall_singleton. apply (Capability_parse_iff "algorithm.batch"). by vm_compute.
Qed.

(** What [main.rs] of the node needs of its environment to come to the
    negotiation: the development executor, an absolute socket path, its name. *)
Definition development_node (env : string -> option string) (node : NodeId) : Prop :=
  env "OPENOJ_JUDGE_EXECUTOR" = Some "development_mock" /\
  (exists socket, env "OPENOJ_JUDGE_CONTROL_SOCKET" = Some socket /\ is_absolute socket = true) /\
  env "OPENOJ_JUDGE_NODE_ID" = Some (id_str node) /\ valid node.

(** A node the deployment lists for the batch profile is admitted with it. *)
Lemma listed_admitted config entries node :
  NodePolicy_new entries = Ok (sc_node_policy config) ->
  (admitted (configured_service config) node [batch_profile] <->
   exists capabilities, (node, capabilities) ∈ entries /\ batch_profile ∈ capabilities).
Proof.
  intros (Hnd & _ & Hallowed)%NodePolicy_new_iff. unfold admitted. cbn [configured_service with_store
    JudgeControlService_new svc_node_policy]. rewrite Hallowed.
  set (rows := map _ entries).
  assert (Hrows : NoDup (rows.*1)) by (unfold rows; change (NoDup (map fst (map
    (fun nc : NodeId * list Capability => (fst nc, list_to_set (snd nc) : gset Capability)) entries)));
    by rewrite map_map).
  setoid_rewrite <- (elem_of_list_to_map rows); [|done..].
  assert (Hin : forall allowed, (node, allowed) ∈ rows <->
    exists capabilities, allowed = list_to_set capabilities /\ (node, capabilities) ∈ entries).
  { intros allowed. unfold rows. rewrite list_elem_of_fmap. split.
    - intros ([n caps] & [= -> ->] & Hin). by exists caps.
    - intros (caps & -> & Hin). by exists (node, caps). }
  setoid_rewrite Hin. split.
  - intros (_ & allowed & (caps & -> & Hc) & _ & _ & Hsub). exists caps. split; [done|].
    apply (elem_of_list_to_set (C := gset Capability)), Hsub. by left.
  - intros (caps & Hc & Hb). split; [done|]. exists (list_to_set caps). split; [by exists caps|].
    split; [done|]. split; [apply NoDup_singleton|]. intros c ->%list_elem_of_singleton.
    by apply elem_of_list_to_set.
Qed.

(** Its start is its negotiation. *)
Lemma development_start env node stub :
  development_node env node ->
  exists socket, is_absolute socket = true /\
    node_run env true stub =
    rmap (fun client => (client, DevelopmentMock (MkDevelopmentMock node)))
      (map_err (fun _ => "Judge Control negotiation failed")
         (connect true stub socket node [batch_profile])).
Proof.
  intros (Hx & (socket & Hsock & Habs) & Hid & Hv). exists socket. split; [done|].
  unfold node_run, required. rewrite Hx, Hsock, Hid. cbn [ok_or rbind].
  rewrite (proj2 (id_parse_iff _ node)) by (split; [by destruct node|done]). cbn [map_err rbind].
  change (Capability_parse "algorithm.batch") with (Ok (E := DomainError) batch_profile).
  cbn [map_err rbind]. by destruct (connect true stub socket node [batch_profile]).
Qed.

(** It succeeds exactly for a node the deployment admits, which then works under
    the deployment: the premise of every theorem about node and service. *)
Lemma node_joins env config node client executor :
  development_node env node -> valid (sc_lease_policy config) ->
  (node_run env true (negotiate (configured_service config)) = Ok (client, executor) <->
   admitted (configured_service config) node [batch_profile] /\
   client = MkClient node [batch_profile] (lp_lease_duration (sc_lease_policy config)) NO_TASK_BACKOFF_MS /\
   executor = DevelopmentMock (MkDevelopmentMock node)).
Proof.
  intros Hdev Hp. destruct (development_start env node (negotiate (configured_service config)) Hdev)
    as (socket & Habs & ->). destruct Hdev as (_ & _ & _ & Hv).
  pose proof batch_profile_valid as Hb.
  split.
  - intros (c & Hc%map_err_Ok_inv & [= -> ->])%rmap_Ok_inv.
    by apply (connect_iff (configured_service config)) in Hc as [? ->].
  - intros (Ha & -> & ->).
    by rewrite (proj2 (connect_iff (configured_service config) _ _ _ _ Hv Hb Hp Habs) (conj Ha eq_refl)).
Qed.

Lemma joined_deployed config node :
  valid node -> valid (sc_lease_policy config) ->
  admitted (configured_service config) node [batch_profile] ->
  deployed (configured_service config)
    (MkClient node [batch_profile] (lp_lease_duration (sc_lease_policy config)) NO_TASK_BACKOFF_MS).
Proof.
  intros Hv Hp Ha. split; [done|]. split; [done|]. split; [done|].
  apply accepted_iff; [done|apply batch_profile_valid|done].
Qed.

(** ** The sweeper *)

Section Sweeper.
Context `{Collation, RequestCodecLaws}.

Lemma now_millis_valid elapsed now : now_millis elapsed = Ok now -> valid now.
Proof.
  unfold now_millis. intros Hn. inv_ok. destruct (in_range 0 u64_max _) eqn:Hr; [|done].
  injection H3 as ->. apply in_range_true in Hr. by apply UnixMillis_new_iff in Hn as [_ ?].
Qed.

Lemma sweepable_weaken db ds n m db' rest :
  sweepable db ds n db' rest -> (n <= m)%nat -> sweepable db ds m db' rest.
Proof. intros (? & ? & ? & ? & ?) Hm. split_and!; [done..|lia|done]. Qed.

Lemma sweepable_refl db ds : Inv db -> fresh_draws db ds -> sweepable db ds 0 db ds.
Proof. intros Hi Hf. split_and!; [done|apply rtc_refl|done|lia|done]. Qed.

Definition recovery_failed : string := "expired-lease recovery failed".

(** A tick with fuel and entropy for every evaluation ends; with a clock it
    leaves no expired lease or reports its failure. *)
Lemma sweep_tick_run fuel elapsed ds db :
  Inv db -> fresh_draws db ds -> (size (evaluations db) < fuel)%nat ->
  (2 * size (evaluations db) <= length ds)%nat ->
  exists line rest db',
    run_op (sweep_tick fuel elapsed) (map Some ds) db = (Some (Ok line), map Some rest, db') /\
    sweepable db ds (size (evaluations db)) db' rest /\
    forall now, now_millis elapsed = Ok now ->
      expired_leases (um_value now) db' = [] \/ line = Some recovery_failed.
Proof.
  intros Hi Hf Hfuel Hds. unfold sweep_tick. destruct (now_millis elapsed) as [now|e] eqn:Hn.
  2: { exists None, ds, db. split; [done|]. split; [|done].
    eapply sweepable_weaken; [by apply sweepable_refl|lia]. }
  pose proof (now_millis_valid _ _ Hn) as Hv.
  pose proof (expired_leases_bound (um_value now) db) as Hb.
  destruct (recover_loop_run _ fuel ds db 0 now Hi Hv eq_refl ltac:(lia) Hf ltac:(lia)
    ltac:(unfold u32_max; lia)) as (r & rest & db' & Hrun & Hsw & Hans).
  rewrite run_op_then. unfold recover_expired. rewrite i64_millis by done. cbn [op_try].
  rewrite Hrun. cbn [run_op]. eexists _, rest, db'. split; [done|].
  split; [by eapply sweepable_weaken|]. intros now' [= <-].
  destruct r as [m|x]; [left; apply Hans | by right].
Qed.

(** The sweeper over any readings of the clock, the last of them good. *)
Lemma sweep_loop_run fuel elapsed now earlier : forall ds db,
  Inv db -> fresh_draws db ds -> (size (evaluations db) < fuel)%nat ->
  (2 * (size (evaluations db) * S (length earlier)) <= length ds)%nat ->
  now_millis elapsed = Ok now ->
  exists lines rest db',
    run_op (sweep_loop fuel (earlier ++ [elapsed])) (map Some ds) db
      = (Some (Ok lines), map Some rest, db') /\
    Inv db' /\ rtc Evolves db db' /\
    (expired_leases (um_value now) db' = [] \/ last lines = Some recovery_failed).
Proof.
  induction earlier as [|x earlier IH]; intros ds db Hi Hf Hfuel Hds Hn; simpl length in Hds;
    cbn [app sweep_loop]; rewrite run_op_then.
  - destruct (sweep_tick_run fuel elapsed ds db Hi Hf Hfuel ltac:(lia))
      as (line & rest & db' & -> & (Hi' & Hev & _) & Hans).
    cbn [op_then run_op rmap]. eexists _, rest, db'. split; [done|]. split; [done|]. split; [done|].
    destruct (Hans now Hn) as [?| ->]; [by left | by right].
  - destruct (sweep_tick_run fuel x ds db Hi Hf Hfuel ltac:(lia))
      as (line & rest & db1 & -> & (Hi1 & Hev & Hf1 & Hl1 & Hs1) & _).
    destruct (IH rest db1) as (lines & rest' & db' & Hrun & Hi' & Hev' & Hans); try done; [lia|nia|].
    rewrite run_op_then, Hrun. cbn [run_op rmap]. eexists _, rest', db'. split; [done|].
    split; [done|]. split; [by etrans|]. destruct Hans as [?|Hl]; [by left | right].
    by rewrite last_app, Hl.
Qed.

(** A period of zero ends the task before its first tick. *)
Lemma sweeper_stopped fuel readings draws db :
  run_op (sweeper fuel 0 readings) draws db = (Some (Ok []), draws, db).
Proof. done. Qed.

(** The sweeper keeps the invariant between the steps of any other caller. *)
Lemma sweeper_safe fuel period readings : op_safe (sweeper fuel period readings).
Proof.
  unfold sweeper. induction (interval_ticks period readings) as [|x xs IH]; [done|].
  cbn [sweep_loop]. apply op_then_safe.
  - unfold sweep_tick. destruct (now_millis x); [|done]. by apply op_then_safe; [apply recover_safe|].
  - intros line. by apply op_then_safe.
Qed.
End Sweeper.
