(* ===== verification/PlaneSystem.v ===== *)
(** * Workers of a deployment

    A worker's client calls over the service, with other callers at work between
    them and calls lost on the way: every iteration keeps the store's invariant,
    and a reported submission is stored. *)

From S2P Require Import Prelude Value Control Evaluation EvalResult Application Codec Policy Schema Store Lease StoreLemmas StoreInv StoreSteps StoreWrites StoreSystem StoreRuns StoreProgress Effects ControlPlane Worker JudgeNode PlaneLaws.
From stdpp Require Import relations.

(** One call of the client: what others did to the store since the last one,
    what the service's clock shows, and the fate of the call. *)
Record PlaneCall : Type := MkPlaneCall {
  pc_others : Db -> Db;
  pc_elapsed : option Z;
  pc_delivery : Delivery
}.

Record Plane : Type := MkPlane {
  pl_db : Db;
  pl_draws : list (option string);
  pl_calls : list PlaneCall
}.

Section Plane.
Context `{Collation, RequestCodecLaws, !ResultCodec, !ResultCodecLaws}.
Variable service : JudgeControlService.
Variable client : UdsJudgeControlClient.

(** Others keep the invariant and only move rows forward, as every caller of the
    store does. *)
Definition fair_call (call : PlaneCall) : Prop :=
  forall db, Inv db -> Inv (pc_others call db) /\ rtc Evolves db (pc_others call db).

(** The next call; a script that is over is a lost connection. *)
Definition plane_call {A} (op : Stub -> Op A) : Eff Plane StoreError.t A := fun plane =>
  match pl_calls plane with
  | [] => (Err StoreError.Unavailable, plane)
  | call :: calls =>
      let '(r, draws, db) :=
        run_op (op (served service (pc_elapsed call) (pc_delivery call))) (pl_draws plane)
          (pc_others call (pl_db plane)) in
      (default (Err StoreError.Unavailable) r, MkPlane db draws calls)
  end.

#[export] Instance plane_client : JudgeControlClient Plane := {
  jcc_claim := fun operation_id => plane_call (fun stub => client_claim stub client operation_id);
  jcc_renew := fun lease => plane_call (fun stub => client_renew stub client lease);
  jcc_submit := fun lease operation_id result_ =>
    plane_call (fun stub => client_submit stub client lease operation_id result_)
}.

(** ** Safety *)

Lemma rpc_try_safe {A B} (r : result Status B) (k : B -> Rpc A) :
  (forall b, r = Ok b -> op_safe (k b)) -> op_safe (rpc_try r k).
Proof. intros Hk. destruct r; simpl; auto. Qed.

Lemma deliver_safe {A} delivery (rpc : Rpc A) : op_safe rpc -> op_safe (deliver delivery rpc).
Proof. intros Hs. destruct delivery; simpl; [done|done|]. by apply op_then_safe. Qed.

Lemma source_now_valid elapsed now : source_now elapsed = Ok now -> valid now.
Proof.
  unfold source_now. intros Hn. inv_ok. destruct (in_range 0 u64_max x) eqn:Hr; simplify_eq.
  apply in_range_true in Hr. by apply UnixMillis_new_iff in Hn as [_ ?].
Qed.

Lemma claim_safe elapsed request :
  valid (svc_lease_policy service) -> op_safe (claim service elapsed request).
Proof.
  intros Hp. unfold claim. do 3 (apply rpc_try_safe; intros ? _). intros draw.
  apply rpc_try_safe; intros token _. apply rpc_try_safe; intros now Hn.
  apply op_then_safe; [|done]. apply judge_claim_safe; [|done]. by eapply source_now_valid.
Qed.

Lemma renew_lease_safe elapsed request :
  valid (svc_lease_policy service) -> op_safe (renew_lease service elapsed request).
Proof.
  intros Hp. unfold renew_lease. do 6 (apply rpc_try_safe; intros ? _).
  apply rpc_try_safe; intros now Hn. apply op_then_safe; [|done].
  apply renew_safe; [|done]. by eapply source_now_valid.
Qed.

Lemma service_submit_safe elapsed request : op_safe (submit service elapsed request).
Proof.
  unfold submit. do 5 (apply rpc_try_safe; intros ? _). destruct (_ || _); [done|].
  do 4 (apply rpc_try_safe; intros ? _). apply op_then_safe; [|done]. apply judge_submit_safe.
Qed.

Definition forward (plane plane' : Plane) : Prop :=
  Inv (pl_db plane) -> Forall fair_call (pl_calls plane) ->
  Inv (pl_db plane') /\ rtc Evolves (pl_db plane) (pl_db plane') /\ Forall fair_call (pl_calls plane').

Lemma plane_call_forward {A} (op : Stub -> Op A) plane :
  (forall elapsed delivery, op_safe (op (served service elapsed delivery))) ->
  forward plane (snd (plane_call op plane)).
Proof.
  intros Hop Hi Hfair. unfold plane_call. destruct (pl_calls plane) as [|call calls] eqn:Hc.
  { simpl. rewrite Hc. done. }
  apply Forall_cons in Hfair as [Hcall Hcalls]. destruct (Hcall _ Hi) as [Hi1 Hev1].
  destruct (run_op _ _ _) as [[r draws] db] eqn:Hrun.
  apply run_op_safe in Hrun as [Hi2 Hev2]; [|done|done]. simpl. split; [done|].
  split; [by etrans | done].
Qed.

Lemma forward_trans p1 p2 p3 : forward p1 p2 -> forward p2 p3 -> forward p1 p3.
Proof.
  intros H12 H23 Hi Hf. destruct (H12 Hi Hf) as (Hi2 & Hev2 & Hf2).
  destruct (H23 Hi2 Hf2) as (Hi3 & Hev3 & Hf3). split; [done|]. split; [by etrans | done].
Qed.

Lemma plane_claim_forward operation_id plane :
  valid (svc_lease_policy service) -> forward plane (snd (jcc_claim operation_id plane)).
Proof.
  intros Hp. apply plane_call_forward. intros. apply op_then_safe; [|done].
  by apply deliver_safe, claim_safe.
Qed.

Lemma plane_renew_forward lease plane :
  valid (svc_lease_policy service) -> forward plane (snd (jcc_renew lease plane)).
Proof.
  intros Hp. apply plane_call_forward. intros. apply op_then_safe; [|done].
  by apply deliver_safe, renew_lease_safe.
Qed.

Lemma plane_submit_forward lease operation_id result_ plane :
  forward plane (snd (jcc_submit lease operation_id result_ plane)).
Proof.
  apply plane_call_forward. intros. apply op_try_safe. intros p _. apply op_then_safe; [|done].
  by apply deliver_safe, service_submit_safe.
Qed.

(** A worker iteration, whatever its executor answers, is one more caller of the
    store. *)
Lemma worker_forward {E} `{JudgeExecutor E} co ro (e : E) plane :
  valid (svc_lease_policy service) ->
  forward plane (snd (snd (run_once_async co ro (e, plane)))).
Proof.
  intros Hp. apply (run_once_async_keeps forward).
  - apply forward_trans.
  - intros. by apply plane_claim_forward.
  - intros. by apply plane_renew_forward.
  - intros. apply plane_submit_forward.
Qed.

(** ** Submissions are stored *)

(** The row of an evaluation with a result document under a key. *)
Definition stored (db : Db) (evaluation_id : EvaluationId) (key : string) (payload : bytes) : Prop :=
  exists e, evaluations db !! id_str evaluation_id = Some e /\
    e_terminal_result e = Some payload /\ e_result_key e = Some key.

Lemma submit_transaction_stored c payload now db db' :
  Inv db -> submit_transaction c payload now db = Ok (tt, db') ->
  stored db' (ei_evaluation_id (res_identity (sr_result c))) (key_str (sr_idempotency_key c)) payload.
Proof.
  intros Hi Hs. apply submit_Ok in Hs as (e & a & t & Hcur & Ht & [(Hterm & Hkey & ->)|(_ & _ & ->)] & _);
    [|eexists; split; [apply lookup_insert_eq | done] | done].
  exists e. split; [|done]. by apply (Inv_current_attempt db) in Hcur as [He _].
Qed.

(** A submission the service acknowledges went through the store. *)
Lemma submit_acknowledged elapsed request draws db answer ds db' :
  Inv db -> run_op (submit service elapsed request) draws db = (Some (Ok (Ok answer)), ds, db') ->
  exists result_ payload,
    decode_result_domain (sq_canonical_result request) = Ok result_ /\
    encode_evaluation_result result_ = Ok payload /\
    id_str (ei_evaluation_id (res_identity result_)) = sq_evaluation_id request /\
    stored db' (ei_evaluation_id (res_identity result_)) (sq_result_operation_id request) payload.
Proof.
  intros Hi. unfold submit.
  rewrite run_rpc_try. destruct (check_version _) as [[]|e]; [|done].
  rewrite run_rpc_try. destruct (parse_and_authorize_node _ _) as [node|e]; [|done].
  rewrite run_rpc_try. destruct (invalid_message (id_parse (sq_evaluation_id request))) as [eid|e] eqn:Heid; [|done].
  rewrite run_rpc_try. destruct (invalid_message (id_parse (sq_attempt_id request))) as [aid|e]; [|done].
  rewrite run_rpc_try. destruct (decode_result_domain _) as [result_|e] eqn:Hdec; cbn [map_err]; [|done].
  destruct (negb (bool_decide (ei_evaluation_id _ = eid)) || _) eqn:Hid; [done|].
  rewrite run_rpc_try. destruct (service_store service) as [[]|e]; [|done].
  rewrite run_rpc_try. destruct (invalid_message (id_parse (sq_result_operation_id request))) as [op|e] eqn:Hop; [|done].
  rewrite run_rpc_try. destruct (invalid_message (id_parse (sq_lease_token request))) as [token|e]; [|done].
  rewrite run_rpc_try. destruct (source_now elapsed) as [now|e]; [|done].
  rewrite run_op_then. set (c := MkJudgeSubmitResult node op token result_ now).
  destruct (run_op (judge_submit_result c) draws db) as [[[[s|e]|] ds1] db1] eqn:Hrun;
    cbn [run_op rpc_done submit_response map_err rbind]; [|discriminate|discriminate].
  intros [= _ _ <-]. apply judge_submit_inv in Hrun as (payload & n & Henc & Hs & _).
  apply submit_transaction_stored in Hs; [|done]. exists result_, payload.
  split; [done|]. split; [done|]. apply orb_false_iff in Hid as [Hid _].
  apply negb_false_iff, bool_decide_eq_true in Hid.
  apply map_err_Ok_inv, id_parse_iff in Heid as [-> _]. apply map_err_Ok_inv, id_parse_iff in Hop as [-> _].
  split; [by rewrite Hid | exact Hs].
Qed.

Lemma delivered {A} delivery (rpc : Rpc A) draws db answer ds db' :
  run_op (deliver delivery rpc) draws db = (Some (Ok (Ok answer)), ds, db') ->
  run_op rpc draws db = (Some (Ok (Ok answer)), ds, db').
Proof.
  destruct delivery; simpl; [done|done|]. rewrite run_op_then.
  by destruct (run_op rpc draws db) as [[[r|] ds1] db1].
Qed.

(** What the worker reports as submitted is the terminal result of the
    evaluation it leased. *)
Lemma client_submit_stored lease operation_id result_ plane plane' :
  valid result_ -> Inv (pl_db plane) -> Forall fair_call (pl_calls plane) ->
  jcc_submit lease operation_id result_ plane = (Ok tt, plane') ->
  exists payload, encode_evaluation_result result_ = Ok payload /\
    ei_evaluation_id (res_identity result_) = er_evaluation_id (tl_request lease) /\
    stored (pl_db plane') (er_evaluation_id (tl_request lease)) (id_str operation_id) payload.
Proof.
  intros Hv Hi Hfair. cbn [jcc_submit plane_client]. unfold plane_call.
  destruct (pl_calls plane) as [|call calls]; [done|].
  apply Forall_cons in Hfair as [Hcall _]. destruct (Hcall _ Hi) as [Hi1 _].
  generalize dependent (pc_others call (pl_db plane)). intros db Hi1. unfold client_submit.
  destruct (encode_evaluation_result result_) as [payload|e] eqn:Henc; cbn [corrupt map_err op_try]; [|intros [=]].
  rewrite run_op_then. cbn [served stub_submit].
  destruct (run_op (deliver _ _) (pl_draws plane) db) as [[[r|] ds] db1] eqn:Hrun; [|intros [=]].
  cbn [run_op default]. intros [= Hr <-]. apply rbind_Ok_inv in Hr as (answer & Hans & _).
  unfold server_answer in Hans. apply rbind_Ok_inv in Hans as (r' & -> & Hr'). apply map_err_Ok_inv in Hr' as ->.
  apply delivered, submit_acknowledged in Hrun as (res' & payload' & Hdec & Henc' & Hid & Hst); [|done].
  cbn [submit_request sq_canonical_result sq_evaluation_id sq_result_operation_id] in *.
  rewrite (result_codec_roundtrip _ _ Hv Henc) in Hdec. injection Hdec as <-.
  rewrite Henc in Henc'. injection Henc' as <-.
  assert (Heq : ei_evaluation_id (res_identity result_) = er_evaluation_id (tl_request lease)).
  { destruct (ei_evaluation_id _), (er_evaluation_id _). simpl in Hid. by subst. }
  rewrite Heq in Hst. eauto.
Qed.

(** A lease the client accepts carries a valid request. *)
Lemma client_claim_valid operation_id plane lease plane' :
  jcc_claim operation_id plane = (Ok (ClaimedLease lease), plane') -> valid (tl_request lease).
Proof.
  cbn [jcc_claim plane_client]. unfold plane_call. destruct (pl_calls plane) as [|call calls]; [done|].
  unfold client_claim. rewrite run_op_then. destruct (run_op _ _ _) as [[[r|] ds] db1]; [|intros [=]].
  cbn [run_op default]. intros [= Hr _]. apply rbind_Ok_inv in Hr as (answer & _ & Hc).
  destruct answer as [[leased|]|]; try done. cbn [claim_answer] in Hc.
  apply rbind_Ok_inv in Hc as (request & Hd & Hc). inv_ok.
  apply map_err_Ok_inv in Hd. by eapply codec_decoded_valid.
Qed.

(** One iteration that reports a submission: it executed the request of a lease
    and the store holds exactly that result, under the operation's key. *)
Lemma worker_submitted {E} `{JudgeExecutor E} co ro (e : E) plane s' :
  valid (svc_lease_policy service) ->
  (forall request e r e', valid request -> je_execute request e = (Ok r, e') -> valid r) ->
  Inv (pl_db plane) -> Forall fair_call (pl_calls plane) ->
  run_once_async co ro (e, plane) = (Ok Submitted, s') ->
  exists request r payload,
    je_execute request e = (Ok r, fst s') /\ encode_evaluation_result r = Ok payload /\
    ei_evaluation_id (res_identity r) = er_evaluation_id request /\
    stored (pl_db (snd s')) (er_evaluation_id request) (id_str ro) payload.
Proof.
  intros Hp Hexec Hi Hfair Hrun.
  apply run_once_async_submitted in Hrun as (lease & p1 & t & p2 & r & e' & p3 & Hc & Hr & He & Hs & ->).
  pose proof (plane_claim_forward co plane Hp Hi Hfair) as (Hi1 & _ & Hf1). rewrite Hc in Hi1, Hf1.
  pose proof (plane_renew_forward lease p1 Hp Hi1 Hf1) as (Hi2 & _ & Hf2). rewrite Hr in Hi2, Hf2.
  apply client_claim_valid in Hc.
  apply client_submit_stored in Hs as (payload & Henc & Hid & Hst); [|by eapply Hexec|done|done].
  by exists (tl_request lease), r, payload.
Qed.
End Plane.
