(* ===== verification/PlaneProgress.v ===== *)
(** * Progress of a deployment

    From a submission to its verdict: a task that is first in a node's queue is
    claimed, kept, executed and submitted by one iteration of the node's worker
    when its three calls are delivered, and afterwards the evaluation shows the
    executor's result. *)

From S2P Require Import Prelude Value Control Evaluation EvalResult Application Codec Policy Schema Store Lease StoreLemmas StoreInv StoreSteps StoreWrites StoreSystem StoreRuns StoreRecover StoreProgress Effects ControlPlane Worker JudgeNode PlaneLaws PlaneSystem.

Section Progress.
Context `{Collation, RequestCodecLaws, !ResultCodec, !ResultCodecLaws}.

(** ** The store's operations on one evaluation *)

(** No attempt was leased by this claim operation before. *)
Definition operation_fresh (db : Db) (op : string) : Prop :=
  forall aid a, attempts db !! aid = Some a -> a_claim_operation a <> Some op.

Definition claim_of (c : JudgeClaim) : ClaimTask :=
  {| ct_node_id := jc_node_id c; ct_lease_token := jc_lease_token c; ct_now := jc_now c;
     ct_lease_duration := lp_lease_duration (jc_lease_policy c) |}.

Definition lease_of (c : JudgeClaim) (r : EvaluationRequest) (expires_at : UnixMillis) : TaskLease :=
  {| tl_request := r; tl_node_id := jc_node_id c; tl_lease_token := jc_lease_token c;
     tl_expires_at := expires_at |}.

(** A lease ends its duration after it was granted. *)
Lemma lease_end now d :
  valid now -> valid d -> (um_value now + ld_value d <= MAX_UNIX_MILLIS)%Z ->
  UnixMillis_checked_add now d = Ok (MkMillis (um_value now + ld_value d)) /\
  valid (MkMillis (um_value now + ld_value d)).
Proof.
  intros Hn Hd Hb. unfold UnixMillis_checked_add. rewrite lease_add_exact by done.
  rewrite (proj2 (Z.ltb_ge _ _)) by done. split; [done|]. destruct Hn, Hd.
  unfold valid, valid_millis. simpl. lia.
Qed.

Lemma judge_claim_fresh_run c db aid t a draws :
  Inv db -> valid (jc_now c) -> valid (jc_lease_policy c) -> valid (jc_node_id c) ->
  valid (jc_lease_token c) -> valid (jc_operation_id c) ->
  let expiry := (um_value (jc_now c) + ld_value (lp_lease_duration (jc_lease_policy c)))%Z in
  (expiry <= MAX_UNIX_MILLIS)%Z -> (a_created_at a <= um_value (jc_now c))%Z ->
  first_by queue_key (claimable ∅ (Some (map cap_str (jc_declared_capabilities c))) db)
    = Some (aid, t, a) ->
  operation_fresh db (id_str (jc_operation_id c)) ->
  exists r e, decode_evaluation_request (a_payload a) = Ok r /\
    evaluations db !! a_evaluation_id a = Some e /\
    run_op (judge_claim_task c) draws db =
      (Some (Ok (lease_of c r (MkMillis expiry))), draws,
       claimed_db (claim_of c) (Some (id_str (jc_operation_id c))) (um_value (jc_now c)) expiry db
         (a_evaluation_id a) e a t).
Proof.
  intros Hi Hnow Hp Hnode Htok Hop expiry Hexp Hcr Hf Hfresh. pose proof Hp as (Hd & _).
  destruct (lease_end _ _ Hnow Hd Hexp) as [Hadd Hve].
  destruct (claim_fresh_run (claim_of c) (Some (id_str (jc_operation_id c)))
    (Some (map cap_str (jc_declared_capabilities c))) (MkMillis expiry) (um_value (jc_now c)) expiry
    db aid t a draws) as (r & e & Hr & He & Hrun); try done.
  - by apply i64_millis.
  - by apply (i64_millis (MkMillis expiry)).
  - by apply (opaque_id_column 64).
  - intros j x o [= <-] Hj Hk. apply (Hfresh j x Hj). unfold claim_key in Hk.
    destruct (a_node_id x), (a_claim_operation x); simpl in Hk; congruence.
  - destruct Hd. subst expiry. simpl. lia.
  - exists r, e. split; [done|]. split; [done|]. unfold judge_claim_task. rewrite run_tx.
    assert (Hq : claim_replay_query c db = Ok (None, db)).
    { unfold claim_replay_query, sql_bind, sql_get. rewrite (proj2 (select_first_None _ _)); [done|].
      intros j x Hj. apply bool_decide_eq_false. by eapply Hfresh. }
    rewrite Hq. cbn [op_try]. exact Hrun.
Qed.

(** The rows of an evaluation whose attempt a node holds until [expiry]. *)
Record Held (db : Db) (r : EvaluationRequest) (node : NodeId) (token : LeaseToken)
    (expiry created : Z) (e : EvaluationRow) (a : AttemptRow) : Prop := {
  held_rows : current_attempt db (id_str (er_evaluation_id r)) = Some (e, a);
  held_evaluation : e_state e = "leased" /\ e_terminal_result e = None /\
    e_current_attempt e = id_str (er_attempt_id r);
  held_attempt : a_state a = "leased" /\ a_node_id a = Some (id_str node) /\
    a_lease_token a = Some (id_str token) /\ a_lease_expires_at a = Some expiry /\
    a_created_at a = created;
  held_request : decode_evaluation_request (a_payload a) = Ok r
}.

(** An operation on one evaluation: only its row and those of its current attempt
    are written. *)
Record touches (eid aid : string) (db db' : Db) : Prop := {
  tc_evaluations : forall j, j <> eid -> evaluations db' !! j = evaluations db !! j;
  tc_attempts : forall j, j <> aid -> attempts db' !! j = attempts db !! j;
  tc_tasks : forall j, j <> aid -> tasks db' !! j = tasks db !! j
}.

Lemma touches_trans eid aid db1 db2 db3 :
  touches eid aid db1 db2 -> touches eid aid db2 db3 -> touches eid aid db1 db3.
Proof.
  intros [He Ha Ht] [He' Ha' Ht'].
  split; intros j Hj; [rewrite He', He | rewrite Ha', Ha | rewrite Ht', Ht]; done.
Qed.

Lemma touches_bundle db eid e aid a t : touches eid aid db (put_bundle db eid e aid a t).
Proof. by split; intros j Hj; simpl; rewrite lookup_insert_ne by done. Qed.

Lemma touches_keys eid aid db db' key :
  touches eid aid db db' -> result_key_fresh db eid key -> result_key_fresh db' eid key.
Proof. intros [He _ _] Hk j x Hj Hne. rewrite He in Hj by done. by eapply Hk. Qed.

(** The operation an attempt was claimed by. *)
Definition claimed_by (db : Db) (aid : string) (op : option string) : Prop :=
  exists a, attempts db !! aid = Some a /\ a_claim_operation a = op.

(** What a claim leaves is held by the node, and no result key was touched. *)
Lemma claimed_held c db aid t a r e expiry :
  Inv db -> first_by queue_key (claimable ∅ (Some (map cap_str (jc_declared_capabilities c))) db)
    = Some (aid, t, a) ->
  decode_evaluation_request (a_payload a) = Ok r -> evaluations db !! a_evaluation_id a = Some e ->
  let db1 := claimed_db (claim_of c) (Some (id_str (jc_operation_id c))) (um_value (jc_now c)) expiry db
               (a_evaluation_id a) e a t in
  (exists e1 a1, Held db1 r (jc_node_id c) (jc_lease_token c) expiry (a_created_at a) e1 a1) /\
  id_str (er_attempt_id r) = aid /\
  touches (id_str (er_evaluation_id r)) (id_str (er_attempt_id r)) db db1 /\
  claimed_by db1 (id_str (er_attempt_id r)) (Some (id_str (jc_operation_id c))).
Proof.
  intros Hi Hf Hr He db1. apply first_by_Some in Hf as [Hin _]. apply claimable_spec in Hin as
    (Ht & Ha & _ & Has & (eid & e' & He' & Hcur & Hes) & _ & _).
  assert (a_evaluation_id a = eid) as Heid by by eapply Inv_current_inj.
  subst eid. assert (e' = e) as -> by congruence. destruct Hcur.
  destruct (Inv_bundle db _ e Hi He) as (a0 & t0 & Ha0 & Ht0 & Hec & _ & Hp).
  assert (a0 = a) as -> by congruence.
  destruct Hp as (r' & Hr' & _ & Hra & Hre & _). assert (r' = r) as -> by congruence.
  split; [|split; [done|]].
  - eexists _, _. split.
    + unfold db1, claimed_db, current_attempt. rewrite Hre. simpl. rewrite lookup_insert_eq. simpl.
      by rewrite lookup_insert_eq.
    + split; [done|]. split; [|done]. by apply (open_no_result (a_evaluation_id a) e a Hec); left.
    + by split_and!.
    + exact Hr.
  - rewrite Hre, Hra. split; [apply touches_bundle|].
    eexists. split; [apply lookup_insert_eq | done].
Qed.

(** The holder renews; the lease then ends its duration later. *)
Lemma renew_held c db r expiry created e a draws :
  Inv db -> valid (jr_now c) -> valid (jr_lease_policy c) ->
  jr_evaluation_id c = er_evaluation_id r -> jr_attempt_id c = er_attempt_id r ->
  Held db r (jr_node_id c) (jr_lease_token c) expiry created e a ->
  let end_ := (um_value (jr_now c) + ld_value (lp_lease_duration (jr_lease_policy c)))%Z in
  (created <= um_value (jr_now c))%Z -> (end_ <= MAX_UNIX_MILLIS)%Z ->
  exists db' a', run_op (judge_renew_lease c) draws db = (Some (Ok (Continue (MkMillis end_))), draws, db') /\
    touches (id_str (er_evaluation_id r)) (id_str (er_attempt_id r)) db db' /\
    evaluations db' = evaluations db /\
    (forall op, claimed_by db (id_str (er_attempt_id r)) op ->
                claimed_by db' (id_str (er_attempt_id r)) op) /\
    Held db' r (jr_node_id c) (jr_lease_token c) end_ created e a'.
Proof.
  intros Hi Hnow (Hd & _) Heid Haid [Hrows (Hes & Hnone & Hcur) (Has & Hn & Htok & Hx & Hc) Hr] end_ Hcr Hmax.
  destruct (lease_end _ _ Hnow Hd Hmax) as [Hadd Hve].
  rewrite <- Heid in Hrows.
  pose proof (renew_leased_run c (MkMillis end_) (um_value (jr_now c)) end_ db e a draws Hi Hadd
    (i64_millis _ Hnow) (i64_millis _ Hve) Hrows Hes) as Hrun.
  rewrite Hc in Hrun. destruct Hd as [Hd1 Hd2]. specialize (Hrun ltac:(subst end_; lia) Hmax).
  rewrite bool_decide_eq_true_2 in Hrun by (split_and!; congruence).
  eexists _, (renew_attempt end_ (um_value (jr_now c)) a). split; [exact Hrun|].
  destruct (Inv_current_attempt db _ e a Hi Hrows) as (He & Ha & _). rewrite Heid in He.
  split. { split; intros j Hj; simpl; try done. by rewrite lookup_insert_ne by congruence. }
  split; [done|]. split.
  { intros op (x & Hxa & Hop). exists (renew_attempt end_ (um_value (jr_now c)) a). simpl. rewrite Hcur.
    split; [apply lookup_insert_eq|]. rewrite <- Hcur in Hxa. simpl. congruence. }
  split; [|by split_and!..|done].
  unfold current_attempt. simpl. rewrite He. by rewrite lookup_insert_eq.
Qed.

(** What an evaluation shows once a result is stored. *)
Definition concluded (db : Db) (r : EvaluationRequest) (result_ : EvaluationResult) (payload key : string) : Prop :=
  (exists e, evaluations db !! id_str (er_evaluation_id r) = Some e /\
     e_terminal_result e = Some payload /\ e_result_key e = Some key) /\
  forall draws, exists s,
    run_op (evaluation_status (er_evaluation_id r)) draws db = (Some (Ok s), draws, db) /\
    EvaluationState.as_str (es_state s) = EvaluationStatus.as_str (res_status result_) /\
    es_terminal_result s = true /\ id_str (es_current_attempt_id s) = id_str (er_attempt_id r).

(** The holder submits its result in time. *)
Lemma submit_held c db r expiry created e a payload draws :
  Inv db -> valid (js_now c) -> valid (js_operation_id c) ->
  encode_evaluation_result (js_result c) = Ok payload ->
  res_identity (js_result c) = EvaluationIdentity_from_request r ->
  pr_node_id (res_provenance (js_result c)) = Some (js_node_id c) ->
  Held db r (js_node_id c) (js_lease_token c) expiry created e a ->
  (created <= um_value (js_now c) <= expiry)%Z ->
  result_key_fresh db (id_str (er_evaluation_id r)) (id_str (js_operation_id c)) ->
  exists s db', run_op (judge_submit_result c) draws db = (Some (Ok s), draws, db') /\
    touches (id_str (er_evaluation_id r)) (id_str (er_attempt_id r)) db db' /\
    (forall op, claimed_by db (id_str (er_attempt_id r)) op ->
                claimed_by db' (id_str (er_attempt_id r)) op) /\
    concluded db' r (js_result c) payload (id_str (js_operation_id c)).
Proof.
  intros Hi Hnow Hop Henc Hid Hnode [Hrows (Hes & Hnone & Hcur) (Has & Hn & Htok & Hx & Hc) Hr] Htime Hfresh.
  assert (Hkey : IdempotencyKey_parse (id_str (js_operation_id c)) = Ok (MkKey (id_str (js_operation_id c)))).
  { apply IdempotencyKey_parse_iff. split; [done|]. by apply (opaque_ok_weaken 64 128). }
  set (sc := MkSubmitResult (MkKey (id_str (js_operation_id c))) (js_lease_token c) (js_result c) (js_now c)).
  assert (Heid : ei_evaluation_id (res_identity (sr_result sc)) = er_evaluation_id r) by (simpl; by rewrite Hid).
  assert (Haid : ei_attempt_id (res_identity (sr_result sc)) = er_attempt_id r) by (simpl; by rewrite Hid).
  destruct (Inv_current_attempt db _ e a Hi Hrows) as (He & Ha & _ & t & Ht & _).
  destruct (submit_fresh_run sc payload (um_value (js_now c)) db e a t draws) as (s & Hrun & _); try done.
  - by apply i64_millis.
  - by apply (opaque_ok_weaken 64 128).
  - by rewrite Heid.
  - split; [done|]. split; [done|]. rewrite Haid. split; [done|]. split; [done|].
    split; [exists expiry; split; [done|lia] | by exists r].
  - by rewrite Heid.
  - destruct Hnow. lia.
  - exists s, (terminal_db (submit_write sc payload (um_value (js_now c))) db e a t). split.
    + unfold judge_submit_result. rewrite bool_decide_eq_true_2 by done. cbn [negb]. rewrite run_tx.
      assert (Hq : owner_query (ei_evaluation_id (res_identity (js_result c))) db = Ok (Some (id_str (js_node_id c)), db)).
      { unfold owner_query, sql_bind, sql_get. change (js_result c) with (sr_result sc).
        rewrite Heid, Hrows. by rewrite Hn. }
      rewrite Hq. cbn [op_try]. rewrite bool_decide_eq_true_2 by done. cbn [negb].
      rewrite Hkey. cbn [corrupt map_err op_try]. exact Hrun.
    + split.
      { unfold terminal_db. simpl. change (js_result c) with (sr_result sc). rewrite Heid, Haid.
        apply touches_bundle. }
      split.
      { intros op (x & Hxa & Hcl). eexists. unfold terminal_db. simpl.
        change (js_result c) with (sr_result sc). rewrite Haid. split; [apply lookup_insert_eq|].
        simpl. rewrite Hcur in Ha. congruence. }
      assert (Hi' : Inv (terminal_db (submit_write sc payload (um_value (js_now c))) db e a t)).
      { destruct (run_op_safe _ _ _ _ _ _ (submit_safe sc) Hi Hrun) as [? _]. done. }
      assert (He' : evaluations (terminal_db (submit_write sc payload (um_value (js_now c))) db e a t)
                      !! id_str (er_evaluation_id r) = Some (finish_evaluation (submit_write sc payload (um_value (js_now c))) e)).
      { unfold terminal_db. simpl. change (js_result c) with (sr_result sc). rewrite Heid. apply lookup_insert_eq. }
      split; [by eexists|]. intros ds.
      destruct (run_status_row _ (er_evaluation_id r) _ ds Hi' He') as (s' & a' & Hs & _ & (_ & Hst & Hca & _ & _ & Hterm)).
      exists s'. split; [exact Hs|]. split; [exact Hst|]. split; [by apply Hterm|]. rewrite Hca. exact Hcur.
Qed.

(** ** One iteration of the worker *)

Variable service : JudgeControlService.
Variable client : UdsJudgeControlClient.
Hypothesis Hdeployed : deployed service client.

(** A delivered call that nobody else's precedes. *)
Definition served_call (now : UnixMillis) : PlaneCall :=
  MkPlaneCall (fun db => db) (Some (um_value now)) Delivered.

Definition duration : Z := ld_value (lp_lease_duration (svc_lease_policy service)).

Notation plane_of := (plane_client service client).

Lemma token_valid draw token : source_lease_token (Some draw) = Ok token -> valid token.
Proof.
  unfold source_lease_token. intros Ht. inv_ok.
  match goal with Hp : id_parse _ = Ok _ |- _ => by apply id_parse_iff in Hp as [_ ?] end.
Qed.

(** What a call of the node on one request does to the tables. *)
Record steps_on (r : EvaluationRequest) (db db' : Db) : Prop := {
  so_inv : Inv db';
  so_evolves : rtc Evolves db db';
  so_touches : touches (id_str (er_evaluation_id r)) (id_str (er_attempt_id r)) db db'
}.

Lemma steps_on_trans r db1 db2 db3 : steps_on r db1 db2 -> steps_on r db2 db3 -> steps_on r db1 db3.
Proof.
  intros [_ He Ht] [Hi He' Ht']. split; [done|by etrans|]. by eapply touches_trans.
Qed.

Definition keeps_claim (r : EvaluationRequest) (db db' : Db) : Prop :=
  forall op, claimed_by db (id_str (er_attempt_id r)) op -> claimed_by db' (id_str (er_attempt_id r)) op.

Lemma claim_step co draw token now db aid t a r ds calls :
  Inv db -> valid co -> valid now -> source_lease_token (Some draw) = Ok token ->
  (a_created_at a <= um_value now)%Z -> (um_value now + duration <= MAX_UNIX_MILLIS)%Z ->
  first_by queue_key (claimable ∅ (Some (map cap_str (uc_capabilities client))) db) = Some (aid, t, a) ->
  operation_fresh db (id_str co) -> decode_evaluation_request (a_payload a) = Ok r ->
  is_ok (encode_evaluation_request r) = true ->
  exists lease db1 e1 a1,
    jcc_claim (JudgeControlClient := plane_of) co (MkPlane db (Some draw :: ds) (served_call now :: calls))
      = (Ok (ClaimedLease lease), MkPlane db1 ds calls) /\
    tl_request lease = r /\ tl_lease_token lease = token /\ lease_valid (uc_node_id client) lease /\
    steps_on r db db1 /\ claimed_by db1 (id_str (er_attempt_id r)) (Some (id_str co)) /\
    Held db1 r (uc_node_id client) token (um_value now + duration) (a_created_at a) e1 a1.
Proof.
  intros Hi Hco Hnow Htok Hcr Hmax Hf Hfresh Hr Henc. pose proof (token_valid _ _ Htok) as Hvt.
  pose proof Hdeployed as (_ & Hnode & Hpolicy & _). pose proof Hpolicy as (Hd & _).
  set (c := claim_command service client co token now).
  destruct (judge_claim_fresh_run c db aid t a ds) as (r' & e & Hr' & He & Hrun); try done.
  assert (r' = r) as -> by congruence.
  destruct (claimed_held c db aid t a r e (um_value now + duration) Hi Hf Hr He) as ((e1 & a1 & Hheld) & _ & Htouch & Hclaimed).
  assert (Hsafe : op_safe (judge_claim_task c)) by (by apply judge_claim_safe).
  destruct (run_op_safe _ _ _ _ _ _ Hsafe Hi Hrun) as [Hi1 Hev1].
  eexists _, _, e1, a1. split; [|split; [|split; [|split; [|split; [exact (Build_steps_on _ _ _ Hi1 Hev1 Htouch)|]]]]].
  - cbn [jcc_claim plane_client]. unfold plane_call.
    cbn [pl_calls pl_draws pl_db served_call pc_elapsed pc_delivery pc_others].
    rewrite (rpc_claim service client co draw token now ds db) by done. fold c. rewrite Hrun.
    cbn [option_map default claim_view lease_of tl_request]. by rewrite Henc.
  - done.
  - done.
  - split; [by eapply codec_decoded_valid|]. split; [done|]. split; [|done].
    by apply (lease_end now (lp_lease_duration (svc_lease_policy service))).
  - split; [exact Hclaimed | exact Hheld].
Qed.

Lemma renew_step lease now db r expiry created e a ds calls :
  Inv db -> valid now -> tl_request lease = r -> lease_valid (uc_node_id client) lease ->
  Held db r (uc_node_id client) (tl_lease_token lease) expiry created e a ->
  (created <= um_value now)%Z -> (um_value now + duration <= MAX_UNIX_MILLIS)%Z ->
  exists db1 a1,
    jcc_renew (JudgeControlClient := plane_of) lease (MkPlane db ds (served_call now :: calls))
      = (Ok (Continue (MkMillis (um_value now + duration))), MkPlane db1 ds calls) /\
    steps_on r db db1 /\ keeps_claim r db db1 /\
    Held db1 r (uc_node_id client) (tl_lease_token lease) (um_value now + duration) created e a1.
Proof.
  intros Hi Hnow Hreq Hl Hheld Hcr Hmax. pose proof Hdeployed as (_ & _ & Hpolicy & _).
  set (c := renew_command service client lease now).
  destruct (renew_held c db r expiry created e a ds) as (db1 & a1 & Hrun & Ht & _ & Hk & Hheld1); try done.
  { simpl. by rewrite Hreq. }
  { simpl. by rewrite Hreq. }
  assert (Hsafe : op_safe (judge_renew_lease c)) by (by apply renew_safe).
  destruct (run_op_safe _ _ _ _ _ _ Hsafe Hi Hrun) as [Hi1 Hev1].
  exists db1, a1. split; [|split; [done|split; [exact Hk | exact Hheld1]]].
  cbn [jcc_renew plane_client]. unfold plane_call.
  cbn [pl_calls pl_draws pl_db served_call pc_elapsed pc_delivery pc_others].
  rewrite (rpc_renew service client lease now ds db) by done. fold c. by rewrite Hrun.
Qed.

Lemma submit_step lease ro x p now db r expiry created e a ds calls :
  Inv db -> valid now -> valid ro -> tl_request lease = r -> lease_valid (uc_node_id client) lease ->
  valid x -> encode_evaluation_result x = Ok p -> res_identity x = EvaluationIdentity_from_request r ->
  pr_node_id (res_provenance x) = Some (uc_node_id client) ->
  Held db r (uc_node_id client) (tl_lease_token lease) expiry created e a ->
  (created <= um_value now <= expiry)%Z -> result_key_fresh db (id_str (er_evaluation_id r)) (id_str ro) ->
  exists db1,
    jcc_submit (JudgeControlClient := plane_of) lease ro x (MkPlane db ds (served_call now :: calls))
      = (Ok tt, MkPlane db1 ds calls) /\ steps_on r db db1 /\ keeps_claim r db db1 /\
    concluded db1 r x p (id_str ro).
Proof.
  intros Hi Hnow Hro Hreq Hl Hx Hp Hid Hprov Hheld Htime Hfresh.
  set (c := submit_command client lease ro x now).
  destruct (submit_held c db r expiry created e a p ds) as (s & db1 & Hrun & Ht & Hk & Hdone);
    try done.
  destruct (run_op_safe _ _ _ _ _ _ (judge_submit_safe c) Hi Hrun) as [Hi1 Hev1].
  exists db1. split; [|split; [done|split; [exact Hk | exact Hdone]]]. cbn [jcc_submit plane_client]. unfold plane_call.
  cbn [pl_calls pl_draws pl_db served_call pc_elapsed pc_delivery pc_others].
  rewrite (rpc_submit service client lease ro x now ds db p) by (done || by rewrite Hid, Hreq).
  fold c. by rewrite Hrun.
Qed.

(** An executor's answer to [r] that the node can send. *)
Record Judges {E : Type} `{JudgeExecutor E} (r : EvaluationRequest) (e : E) (x : EvaluationResult)
    (p : string) (e' : E) : Prop := {
  judges_execute : je_execute r e = (Ok x, e');
  judges_valid : valid x;
  judges_encoded : encode_evaluation_result x = Ok p;
  judges_identity : res_identity x = EvaluationIdentity_from_request r;
  judges_node : pr_node_id (res_provenance x) = Some (uc_node_id client)
}.

(** The clock of the three calls keeps within the lease. *)
Definition in_time (created : Z) (now1 now2 now3 : UnixMillis) : Prop :=
  (valid now1 /\ valid now2 /\ valid now3) /\
  (created <= um_value now1)%Z /\ (created <= um_value now2)%Z /\
  (created <= um_value now3 <= um_value now2 + duration)%Z /\
  (um_value now1 + duration <= MAX_UNIX_MILLIS)%Z /\ (um_value now2 + duration <= MAX_UNIX_MILLIS)%Z.

(** The first task of the queue is judged by one iteration. *)
Lemma worker_judges {E} `{JudgeExecutor E} co ro draw token ds now1 now2 now3 calls db aid t a r (e : E) x p e' :
  Inv db -> valid co -> valid ro -> source_lease_token (Some draw) = Ok token ->
  first_by queue_key (claimable ∅ (Some (map cap_str (uc_capabilities client))) db) = Some (aid, t, a) ->
  operation_fresh db (id_str co) -> decode_evaluation_request (a_payload a) = Ok r ->
  is_ok (encode_evaluation_request r) = true ->
  result_key_fresh db (id_str (er_evaluation_id r)) (id_str ro) ->
  Judges r e x p e' -> in_time (a_created_at a) now1 now2 now3 ->
  exists db', run_once_async (H0 := plane_of) co ro
      (e, MkPlane db (Some draw :: ds) (served_call now1 :: served_call now2 :: served_call now3 :: calls))
      = (Ok Submitted, (e', MkPlane db' ds calls)) /\
    steps_on r db db' /\ claimed_by db' (id_str (er_attempt_id r)) (Some (id_str co)) /\
    concluded db' r x p (id_str ro).
Proof.
  intros Hi Hco Hro Htok Hf Hop Hr Henc Hkey [Hx Hv Hp Hid Hprov]
    ((Hn1 & Hn2 & Hn3) & Hc1 & Hc2 & Hc3 & Hm1 & Hm2).
  destruct (claim_step co draw token now1 db aid t a r ds (served_call now2 :: served_call now3 :: calls))
    as (lease & db1 & e1 & a1 & Hclaim & Hreq & Hlt & Hl & Hs1 & Hcl1 & Hheld); try done.
  subst token. pose proof (so_inv _ _ _ Hs1) as Hi1.
  destruct (renew_step lease now2 db1 r (um_value now1 + duration) (a_created_at a) e1 a1 ds
    (served_call now3 :: calls)) as (db2 & a2 & Hrenew & Hs2 & Hk2 & Hheld2); try done.
  pose proof (so_inv _ _ _ Hs2) as Hi2.
  destruct (submit_step lease ro x p now3 db2 r (um_value now2 + duration) (a_created_at a) e1 a2 ds calls)
    as (db3 & Hsubmit & Hs3 & Hk3 & Hdone); try done.
  { eapply touches_keys; [apply Hs2|]. eapply touches_keys; [apply Hs1 | done]. }
  exists db3. split; [|split; [|split; [by apply Hk3, Hk2 | exact Hdone]]].
  - apply run_once_async_submitted. rewrite <- Hreq in Hx.
    by exists lease, (MkPlane db1 ds (served_call now2 :: served_call now3 :: calls)),
      (MkMillis (um_value now2 + duration)), (MkPlane db2 ds (served_call now3 :: calls)), x, e',
      (MkPlane db3 ds calls).
  - eapply steps_on_trans; [exact Hs1|]. by eapply steps_on_trans.
Qed.

(** ** From a submission to its verdict *)

(** A task that is claimable and has no rival is first in the queue. *)
Lemma only_claimable caps db aid t a :
  (aid, t, a) ∈ claimable ∅ caps db ->
  (forall x, x ∈ claimable ∅ caps db -> fst (fst x) = aid) ->
  first_by queue_key (claimable ∅ caps db) = Some (aid, t, a).
Proof.
  intros Hnew Honly.
  destruct (first_by queue_key (claimable ∅ caps db)) as [[[aid' t'] a']|] eqn:Hf.
  2: { apply first_by_None in Hf. rewrite Hf in Hnew. by apply not_elem_of_nil in Hnew. }
  apply first_by_Some in Hf as [Hin _]. specialize (Honly _ Hin). simpl in Honly. subst aid'.
  apply claimable_spec in Hin as (Ht & Ha & _). apply claimable_spec in Hnew as (Ht' & Ha' & _).
  by simplify_eq.
Qed.

Notation capabilities := (Some (map cap_str (uc_capabilities client))).

(** The node is able to take the request. *)
Definition capable (r : EvaluationRequest) : Prop :=
  forall c, c ∈ er_required_capabilities r -> c ∈ uc_capabilities client.

Lemma capable_declared r now :
  capable r -> forall declared, capabilities = Some declared ->
  Forall (fun c => c ∈ declared) (t_capabilities (ready_task r now)).
Proof.
  intros Hcap declared [= <-]. apply Forall_forall. intros c Hc. simpl in Hc.
  apply list_elem_of_fmap in Hc as (cap & -> & Hc). apply list_elem_of_fmap. eauto.
Qed.

Lemma created_first r payload now db :
  claimable ∅ capabilities db = [] -> capable r ->
  first_by queue_key (claimable ∅ capabilities (created_db r payload now (registered r db)))
  = Some (id_str (er_attempt_id r), ready_task r now, queued_attempt r payload (er_attempt_number r) now).
Proof.
  intros Hnone Hcap. set (aid := id_str (er_attempt_id r)).
  set (db' := created_db r payload now (registered r db)). apply only_claimable.
  - apply claimable_spec. unfold db', created_db. simpl. fold aid. rewrite !lookup_insert_eq.
    do 4 (split; [done|]). split; [|split; [by apply (capable_declared r now)|set_solver]].
    exists (id_str (er_evaluation_id r)), (initial_evaluation r payload now). by rewrite lookup_insert_eq.
  - intros [[aid' t'] a'] Hin. simpl. destruct (decide (aid' = aid)) as [|Hne]; [done|]. exfalso.
    apply claimable_spec in Hin as (Ht & Ha & Hts & Has & (eid & e & He & Hcur & Hes) & Hc & Hl).
    unfold db', created_db in Ht, Ha, He. simpl in Ht, Ha, He. fold aid in Ht, Ha.
    rewrite lookup_insert_ne in Ht by done. rewrite lookup_insert_ne in Ha by done.
    apply (not_elem_of_nil (A := string * TaskRow * AttemptRow) (aid', t', a')). rewrite <- Hnone.
    apply claimable_spec. do 4 (split; [done|]). split; [|done]. insert_cases He; [done|]. by exists eid, e.
Qed.

Lemma retried_first r payload now db e a t :
  claimable ∅ capabilities db = [] -> capable r ->
  evaluations db !! id_str (er_evaluation_id r) = Some e ->
  first_by queue_key (claimable ∅ capabilities (retried_db r payload now db e a t))
  = Some (id_str (er_attempt_id r), ready_task r now, queued_attempt r payload (er_attempt_number r) now).
Proof.
  intros Hnone Hcap He0. set (aid := id_str (er_attempt_id r)).
  set (db' := retried_db r payload now db e a t). apply only_claimable.
  - apply claimable_spec. unfold db', retried_db. simpl. fold aid. rewrite !lookup_insert_eq.
    do 4 (split; [done|]). split; [|split; [by apply (capable_declared r now)|set_solver]].
    exists (id_str (er_evaluation_id r)), (requeue_evaluation aid now e). by rewrite lookup_insert_eq.
  - intros [[aid' t'] a'] Hin. simpl. destruct (decide (aid' = aid)) as [|Hne]; [done|]. exfalso.
    apply claimable_spec in Hin as (Ht & Ha & Hts & Has & (eid & e' & He & Hcur & Hes) & Hc & Hl).
    unfold db', retried_db in Ht, Ha, He. simpl in Ht, Ha, He. fold aid in Ht, Ha, He.
    rewrite lookup_insert_ne in Ht by done. rewrite lookup_insert_ne in Ha by done.
    insert_cases Ht; [done|]. rewrite lookup_insert_ne in Ha by done.
    apply (not_elem_of_nil (A := string * TaskRow * AttemptRow) (aid', t', a')). rewrite <- Hnone.
    apply claimable_spec. do 4 (split; [done|]). split; [|done]. insert_cases He; [done|]. by exists eid, e'.
Qed.

(** A submission that finds the deployment idle: its identities and operations
    are new, its references agree with what is registered, the node declares the
    capabilities it needs, and nothing else waits for the node. *)
Record Submittable (db : Db) (command : CreateEvaluation) (payload : string)
    (co : ClaimOperationId) (ro : ResultOperationId) : Prop := {
  sub_inv : Inv db;
  sub_request : valid (ce_request command) /\ valid (ce_created_at command);
  sub_payload : encode_evaluation_request (ce_request command) = Ok payload;
  sub_fresh : creation_fresh (ce_request command) db /\ references_compatible (ce_request command) db;
  sub_capabilities :
    valid_required_capabilities (map cap_str (er_required_capabilities (ce_request command))) = true /\
    capable (ce_request command);
  sub_idle : claimable ∅ (Some (map cap_str (uc_capabilities client))) db = [];
  sub_operations : valid co /\ valid ro /\ operation_fresh db (id_str co) /\
    forall j e, evaluations db !! j = Some e -> e_result_key e <> Some (id_str ro)
}.

(** It is created, and the node's next iteration ends with its result stored and
    shown. *)
Lemma submission_concludes {E} `{JudgeExecutor E} command co ro draw token draws ds now1 now2 now3 db payload
    (e : E) x p e' :
  Submittable db command payload co ro -> source_lease_token (Some draw) = Ok token ->
  Judges (ce_request command) e x p e' -> in_time (um_value (ce_created_at command)) now1 now2 now3 ->
  exists s db1 plane',
    run_op (create_evaluation command) draws db = (Some (Ok s), draws, db1) /\
    run_once_async (H0 := plane_of) co ro
      (e, MkPlane db1 (Some draw :: ds) [served_call now1; served_call now2; served_call now3])
      = (Ok Submitted, (e', plane')) /\
    concluded (pl_db plane') (ce_request command) x p (id_str ro).
Proof.
  intros [Hi [Hv Hcreated] Henc [Hfresh Hrefs] [Hcaps Hsub] Hidle (Hco & Hro & Hop & Hkey)] Htok Hj Htime.
  pose proof (create_fresh_run command payload db draws Hi Hv Hcreated Henc Hfresh Hrefs) as Hcreate.
  set (r := ce_request command) in *. rewrite Hcaps in Hcreate. destruct Hcreate as (s & Hrun & _).
  set (db1 := created_db r payload (um_value (ce_created_at command)) (registered r db)) in *.
  destruct (run_op_safe _ _ _ _ _ _ (create_safe command Hv) Hi Hrun) as [Hi1 _].
  destruct (worker_judges co ro draw token ds now1 now2 now3 [] db1 (id_str (er_attempt_id r))
    (ready_task r (um_value (ce_created_at command)))
    (queued_attempt r payload (er_attempt_number r) (um_value (ce_created_at command))) r e x p e')
    as (db2 & Hw & _ & _ & Hdone); try done.
  - by apply created_first.
  - intros j y Hy. unfold db1, created_db in Hy. simpl in Hy. insert_cases Hy; [done|]. by eapply Hop.
  - by apply codec_roundtrip.
  - by rewrite Henc.
  - intros j y Hy Hne. unfold db1, created_db in Hy. simpl in Hy. insert_cases Hy; [done|]. by eapply Hkey.
  - by exists s, db1, (MkPlane db2 ds []).
Qed.

(** ** After a crash *)

(** An attempt whose node is gone: its lease is the only expired one, the node of
    [client] is able to take the next attempt and has nothing else to do. *)
Record Abandoned (db : Db) (now : UnixMillis) (r : EvaluationRequest) (d1 d2 : string)
    (payload : string) (co : ClaimOperationId) (ro : ResultOperationId) : Prop := {
  aba_inv : Inv db /\ valid now;
  aba_expired : exists aid a, expired_leases (um_value now) db = [(aid, a)] /\
    decode_evaluation_request (a_payload a) = Ok r;
  aba_attempts : (er_attempt_number r < u32_max)%Z;
  aba_entropy : fresh_draws db [d1; d2];
  aba_payload : encode_evaluation_request
    (next_attempt_of r (MkId ("attempt_" +:+ d1)) (MkKey ("idem_retry_" +:+ d2))) = Ok payload;
  aba_capable : capable r;
  aba_idle : claimable ∅ capabilities db = [];
  aba_operations : valid co /\ valid ro /\ operation_fresh db (id_str co) /\
    forall j e, evaluations db !! j = Some e -> e_result_key e <> Some (id_str ro)
}.

Lemma abandoned_concludes {E} `{JudgeExecutor E} db now r d1 d2 payload co ro fuel draw token ds
    now1 now2 now3 (e : E) x p e' :
  let next := next_attempt_of r (MkId ("attempt_" +:+ d1)) (MkKey ("idem_retry_" +:+ d2)) in
  Abandoned db now r d1 d2 payload co ro -> (1 < fuel)%nat -> source_lease_token (Some draw) = Ok token ->
  Judges next e x p e' -> in_time (um_value now) now1 now2 now3 ->
  exists db1 plane',
    run_op (recover_expired fuel now) [Some d1; Some d2] db = (Some (Ok 1%Z), [], db1) /\
    run_once_async (H0 := plane_of) co ro
      (e, MkPlane db1 (Some draw :: ds) [served_call now1; served_call now2; served_call now3])
      = (Ok Submitted, (e', plane')) /\
    concluded (pl_db plane') next x p (id_str ro).
Proof.
  intros next [[Hi Hnow] (aid & a & Hexp & Hr) Hlt Hdraws Henc Hcap Hidle (Hco & Hro & Hop & Hkey)]
    Hfuel Htok Hj Htime.
  destruct (recover_single_run fuel now db aid a d1 d2 r payload) as (e0 & t & db1 & (He & Hcur & Ha & Ht & ->) & Hrun & Hi1);
    try done; [rewrite Hexp; by left | by rewrite Hexp|].
  fold next in Hrun, Hi1, Henc. set (db1 := retried_db next payload (um_value now) db e0 a t) in *.
  destruct (worker_judges co ro draw token ds now1 now2 now3 [] db1 (id_str (er_attempt_id next))
    (ready_task next (um_value now)) (queued_attempt next payload (er_attempt_number next) (um_value now))
    next e x p e') as (db2 & Hw & _ & _ & Hdone); try done.
  - by apply retried_first.
  - intros j y Hy. unfold db1, retried_db in Hy. simpl in Hy. insert_cases Hy; [done|].
    insert_cases Hy; [|by eapply Hop]. simpl. by eapply (Hop aid a).
  - apply codec_roundtrip; [|done]. apply next_attempt_valid; try done.
    + by eapply codec_decoded_valid.
    + apply next_attempt_id_Ok. by destruct Hdraws as [_ [(_ & _ & ? & _) _]%Forall_cons].
    + apply next_key_Ok. by destruct Hdraws as [_ [_ [(_ & _ & _ & ?) _]%Forall_cons]%Forall_cons].
  - by rewrite Henc.
  - intros j y Hy Hne. unfold db1, retried_db in Hy. simpl in Hy. insert_cases Hy; [done|]. by eapply Hkey.
  - by exists db1, (MkPlane db2 ds []).
Qed.
End Progress.
