(* ===== verification/PlaneQueue.v ===== *)
(** * The queue of a node

    What a node makes of the tasks that wait for it: an iteration of its worker
    takes the oldest one out and leaves the others as they are, so the loop judges
    the whole queue, each task once, in the order of their creation. *)

From Stdlib Require Import Sorted.
From S2P Require Import Prelude Value Control Evaluation EvalResult Application Codec Policy Schema Store Lease StoreLemmas StoreInv StoreSteps StoreWrites StoreSystem StoreRuns StoreRecover StoreProgress Effects ControlPlane Worker JudgeNode PlaneLaws PlaneSystem PlaneProgress.

Section Queue.
Context `{Collation, RequestCodecLaws, !ResultCodec, !ResultCodecLaws}.
Variable service : JudgeControlService.
Variable client : UdsJudgeControlClient.
Hypothesis Hdeployed : deployed service client.

Notation plane_of := (plane_client service client).
Notation capabilities := (Some (map cap_str (uc_capabilities client))).
Notation item := (string * TaskRow * AttemptRow)%type.

(** ** Tasks that wait *)

Definition waiting (db : Db) : list item := claimable ∅ capabilities db.

(** The claim query's order. *)
Definition before (x y : item) : Prop := order_leb (queue_key x) (queue_key y) = true.

Lemma waiting_NoDup db : NoDup (waiting db).
Proof.
  unfold waiting, claimable. pose proof (NoDup_fst_map_to_list (tasks db)) as Hnd.
  induction (map_to_list (tasks db)) as [|[k t] l IH]; simpl in *; [constructor|].
  apply NoDup_cons in Hnd as [Hk Hnd]. specialize (IH Hnd).
  destruct (attempts db !! k) as [a|]; [|exact IH].
  destruct (_ && _); [|exact IH]. apply NoDup_cons. split; [|exact IH].
  intros ([k' t'] & Hin & Hx)%list_elem_of_omap. apply Hk, list_elem_of_fmap. exists (k', t').
  split; [|done]. simpl. destruct (attempts db !! k'); [|done]. destruct (_ && _); [|done].
  congruence.
Qed.

(** What the invariant says of a waiting task. *)
Lemma waiting_request db aid t a r :
  Inv db -> (aid, t, a) ∈ waiting db -> decode_evaluation_request (a_payload a) = Ok r ->
  id_str (er_attempt_id r) = aid /\
  exists e, evaluations db !! id_str (er_evaluation_id r) = Some e /\
    e_current_attempt e = aid /\ e_state e = "queued".
Proof.
  intros Hi Hin Hr. apply claimable_spec in Hin as
    (_ & Ha & _ & _ & (eid & e & He & <- & Hes) & _).
  destruct (Inv_bundle db eid e Hi He) as (a0 & t0 & Ha0 & _ & (Hid & _) & _ & Hp).
  assert (a0 = a) as -> by congruence.
  destruct Hp as (r' & Hr' & _ & Hra & Hre & _). assert (r' = r) as -> by congruence.
  split; [done|]. exists e. by rewrite Hre, Hid.
Qed.

Lemma waiting_decodes db aid t a :
  Inv db -> (aid, t, a) ∈ waiting db ->
  exists r, decode_evaluation_request (a_payload a) = Ok r.
Proof.
  intros Hi (_ & Ha & _)%claimable_spec.
  destruct (inv_attempt db Hi aid a Ha) as (_ & _ & _ & _ & _ & (r & Hr & _) & _). eauto.
Qed.

(** ** Concluded evaluations *)

Lemma concluded_row db r x p key :
  Inv db -> concluded db r x p key ->
  exists e, evaluations db !! id_str (er_evaluation_id r) = Some e /\
    e_terminal_result e = Some p /\ e_result_key e = Some key /\
    e_current_attempt e = id_str (er_attempt_id r) /\
    e_state e = EvaluationStatus.as_str (res_status x).
Proof.
  intros Hi [(e & He & Hp & Hk) Hs]. exists e. do 3 (split; [done|]).
  destruct (Hs []) as (s & Hrun & Hst & _ & Hcur).
  destruct (run_status_row db (er_evaluation_id r) e [] Hi He)
    as (s' & a & Hrun' & _ & (_ & Hst' & Hcur' & _)).
  assert (s' = s) as -> by congruence. split; congruence.
Qed.

Lemma row_concluded db r x p key e :
  Inv db -> evaluations db !! id_str (er_evaluation_id r) = Some e ->
  e_terminal_result e = Some p -> e_result_key e = Some key ->
  e_current_attempt e = id_str (er_attempt_id r) ->
  e_state e = EvaluationStatus.as_str (res_status x) -> concluded db r x p key.
Proof.
  intros Hi He Hp Hk Hcur Hst. split; [by exists e|]. intros ds.
  destruct (run_status_row db (er_evaluation_id r) e ds Hi He)
    as (s & a & Hrun & _ & (_ & Hst' & Hcur' & _ & _ & Ht)).
  exists s. split; [done|]. split; [congruence|]. split; [apply Ht; congruence | congruence].
Qed.

(** A stored result stays. *)
Lemma concluded_evolves db db' r x p key :
  Inv db -> Inv db' -> rtc Evolves db db' -> concluded db r x p key -> concluded db' r x p key.
Proof.
  intros Hi Hi' Hev Hc. destruct (concluded_row _ _ _ _ _ Hi Hc) as (e & He & Hp & Hk & Hcur & Hst).
  eapply row_concluded; try done. eapply evolves_terminal; [done..|congruence].
Qed.

(** ** The queue after an iteration *)

Section Iteration.
Context (db db' : Db) (r : EvaluationRequest) (x : EvaluationResult) (p key : string).
Context (aid : string) (t : TaskRow) (a : AttemptRow).
Hypothesis Hi : Inv db.
Hypothesis Hin : (aid, t, a) ∈ waiting db.
Hypothesis Hr : decode_evaluation_request (a_payload a) = Ok r.
Hypothesis Hs : steps_on r db db'.
Hypothesis Hc : concluded db' r x p key.

Lemma iteration_evaluation j e e' :
  evaluations db !! j = Some e -> evaluations db' !! j = Some e' ->
  j = id_str (er_evaluation_id r) \/ e' = e.
Proof.
  intros He He'. destruct (decide (j = id_str (er_evaluation_id r))) as [|Hne]; [by left|right].
  rewrite (tc_evaluations _ _ _ _ (so_touches _ _ _ Hs)) in He' by done. congruence.
Qed.

(** The others wait as before. *)
Lemma still_waiting aid' t' a' :
  aid' <> aid -> (aid', t', a') ∈ waiting db <-> (aid', t', a') ∈ waiting db'.
Proof.
  intros Hne. destruct (waiting_request db aid t a r Hi Hin Hr) as (Haid & e0 & He0 & Hcur0 & _).
  destruct (concluded_row _ _ _ _ _ (so_inv _ _ _ Hs) Hc) as (e1 & He1 & _ & _ & Hcur1 & _).
  pose proof (so_touches _ _ _ Hs) as [Hte Hta Htt]. unfold waiting. rewrite !claimable_spec, Hta, Htt by congruence.
  apply and_iff_compat_l, and_iff_compat_l, and_iff_compat_l, and_iff_compat_l, and_iff_compat_r.
  split; intros (j & e & He & Hcur & Hst); exists j, e; split; try done.
  - rewrite Hte; [done|]. intros ->. congruence.
  - rewrite <- Hte; [done|]. intros ->. congruence.
Qed.

(** The judged one is out. *)
Lemma judged_out t' a' : (aid, t', a') ∉ waiting db'.
Proof.
  intros Hin'. pose proof (so_inv _ _ _ Hs) as Hi'.
  destruct (waiting_request db aid t a r Hi Hin Hr) as (Haid & _).
  destruct (concluded_row _ _ _ _ _ Hi' Hc) as (e1 & He1 & Hp & _ & Hcur1 & _).
  apply claimable_spec in Hin' as (_ & Ha' & _ & _ & (j & e & He & Hcur & Hst) & _).
  assert (a_evaluation_id a' = j) as Hj by by eapply Inv_current_inj.
  assert (a_evaluation_id a' = id_str (er_evaluation_id r)) as Hj'
    by (eapply Inv_current_inj; [exact Hi'|exact Ha'|exact He1|congruence]).
  assert (e = e1) as -> by congruence.
  destruct (inv_current db' Hi' _ _ He1) as (c & _ & Hec).
  pose proof (open_no_result _ _ _ Hec (or_introl Hst)). congruence.
Qed.

Lemma iteration_queue : waiting db ≡ₚ (aid, t, a) :: waiting db'.
Proof.
  apply NoDup_Permutation; [apply waiting_NoDup| |].
  - apply NoDup_cons. split; [apply judged_out | apply waiting_NoDup].
  - intros [[aid' t'] a']. rewrite elem_of_cons. destruct (decide (aid' = aid)) as [->|Hne].
    + split; [|intros [[= -> ->]|[]%judged_out]; done]. intros Hin'. left.
      apply claimable_spec in Hin' as (Ht' & Ha' & _).
      pose proof Hin as (Ht & Ha & _)%claimable_spec. by simplify_eq.
    + rewrite still_waiting by done. split; [by right|]. by intros [[= ]|].
Qed.
End Iteration.

(** ** Turns *)

(** What an iteration draws and when its calls arrive. *)
Record Turn := MkTurn {
  tn_claim : ClaimOperationId; tn_result : ResultOperationId; tn_draw : string;
  tn_claim_at : UnixMillis; tn_renew_at : UnixMillis; tn_submit_at : UnixMillis
}.

Definition turn_operations (tn : Turn) : result string (ClaimOperationId * ResultOperationId) :=
  Ok (tn_claim tn, tn_result tn).

Definition turn_calls (tn : Turn) : list PlaneCall :=
  [served_call (tn_claim_at tn); served_call (tn_renew_at tn); served_call (tn_submit_at tn)].

(** The plane the loop meets: one draw and three calls for each turn. *)
Definition plane_at (db : Db) (turns : list Turn) : Plane :=
  MkPlane db (map (fun tn => Some (tn_draw tn)) turns) (concat (map turn_calls turns)).

(** The identifiers are new to the tables. *)
Definition unused (db : Db) (tn : Turn) : Prop :=
  operation_fresh db (id_str (tn_claim tn)) /\
  forall j e, evaluations db !! j = Some e -> e_result_key e <> Some (id_str (tn_result tn)).

(** The identifiers are well formed and the calls keep within the lease. *)
Definition punctual (latest : Z) (tn : Turn) : Prop :=
  valid (tn_claim tn) /\ valid (tn_result tn) /\
  (exists token, source_lease_token (Some (tn_draw tn)) = Ok token) /\
  in_time service latest (tn_claim_at tn) (tn_renew_at tn) (tn_submit_at tn).

Record Turns (db : Db) (latest : Z) (turns : list Turn) : Prop := {
  turns_unused : Forall (unused db) turns;
  turns_punctual : Forall (punctual latest) turns;
  turns_claims : NoDup (map (fun tn => id_str (tn_claim tn)) turns);
  turns_results : NoDup (map (fun tn => id_str (tn_result tn)) turns)
}.

Lemma in_time_earlier latest created n1 n2 n3 :
  (created <= latest)%Z -> in_time service latest n1 n2 n3 -> in_time service created n1 n2 n3.
Proof. intros Hle (Hv & ? & ? & ? & ? & ?). split; [done|]. lia. Qed.

(** The operations of one turn leave the others' identifiers unused. *)
Lemma unused_after db db' r x p (tn tn' : Turn) :
  steps_on r db db' -> claimed_by db' (id_str (er_attempt_id r)) (Some (id_str (tn_claim tn))) ->
  concluded db' r x p (id_str (tn_result tn)) ->
  id_str (tn_claim tn') <> id_str (tn_claim tn) -> id_str (tn_result tn') <> id_str (tn_result tn) ->
  unused db tn' -> unused db' tn'.
Proof.
  intros [Hi _ [Hte Hta _]] (a & Ha & Hop) Hc Hne1 Hne2 [Hf Hk]. split.
  - intros j y Hy. destruct (decide (j = id_str (er_attempt_id r))) as [->|Hj].
    + assert (y = a) as -> by congruence. congruence.
    + rewrite Hta in Hy by done. by eapply Hf.
  - intros j e He. destruct (decide (j = id_str (er_evaluation_id r))) as [->|Hj].
    + destruct (concluded_row _ _ _ _ _ Hi Hc) as (e1 & He1 & _ & Hk1 & _). congruence.
    + rewrite Hte in He by done. by eapply Hk.
Qed.

Lemma turns_after db db' latest r x p tn turns :
  steps_on r db db' -> claimed_by db' (id_str (er_attempt_id r)) (Some (id_str (tn_claim tn))) ->
  concluded db' r x p (id_str (tn_result tn)) ->
  Turns db latest (tn :: turns) -> Turns db' latest turns.
Proof.
  intros Hs Hcl Hc [Hu%Forall_cons Hp%Forall_cons [Hn1 Hc1]%NoDup_cons [Hn2 Hc2]%NoDup_cons].
  destruct Hu as [_ Hu], Hp as [_ Hp]. split; try done.
  apply Forall_forall. intros tn' Htn. rewrite Forall_forall in Hu. eapply unused_after; eauto.
  - intros Heq. apply Hn1, list_elem_of_fmap. by exists tn'.
  - intros Heq. apply Hn2, list_elem_of_fmap. by exists tn'.
Qed.

(** ** The loop *)

Context {E : Type} `{JudgeExecutor E}.

(** The executor answers the request from every state in [P], and stays there. *)
Definition serves (P : E -> Prop) (r : EvaluationRequest) : Prop :=
  is_ok (encode_evaluation_request r) = true /\
  forall e, P e -> exists x p e', Judges client r e x p e' /\ P e'.

(** Each task was executed once, in this order, and its evaluation shows the
    result in [db]. *)
Inductive Judged (db : Db) : list item -> list Turn -> E -> E -> Prop :=
  | judged_none e : Judged db [] [] e e
  | judged_next aid t a r x p tn queue turns e1 e2 e3 :
      decode_evaluation_request (a_payload a) = Ok r -> Judges client r e1 x p e2 ->
      concluded db r x p (id_str (tn_result tn)) -> Judged db queue turns e2 e3 ->
      Judged db ((aid, t, a) :: queue) (tn :: turns) e1 e3.

(** All that waits can be judged: created by [latest], and for [P]'s executor. *)
Definition servable (P : E -> Prop) (db : Db) (latest : Z) : Prop :=
  forall aid t a r, (aid, t, a) ∈ waiting db -> decode_evaluation_request (a_payload a) = Ok r ->
    (a_created_at a <= latest)%Z /\ serves P r.

(** One turn judges the first of the queue. *)
Lemma turn_judges P db latest tn turns e :
  Inv db -> waiting db <> [] -> Turns db latest (tn :: turns) -> servable P db latest -> P e ->
  exists aid t a r x p e' db',
    waiting db ≡ₚ (aid, t, a) :: waiting db' /\ Forall (before (aid, t, a)) (waiting db) /\
    decode_evaluation_request (a_payload a) = Ok r /\ Judges client r e x p e' /\ P e' /\
    run_once_async (H0 := plane_of) (tn_claim tn) (tn_result tn) (e, plane_at db (tn :: turns))
      = (Ok Submitted, (e', plane_at db' turns)) /\
    Inv db' /\ rtc Evolves db db' /\ Turns db' latest turns /\
    concluded db' r x p (id_str (tn_result tn)).
Proof.
  intros Hi Hne Hturns Hserv HP.
  destruct (first_by queue_key (waiting db)) as [[[aid t] a]|] eqn:Hf; [|by apply first_by_None in Hf].
  pose proof Hf as [Hin Hmin]%first_by_Some.
  destruct (waiting_decodes db aid t a Hi Hin) as [r Hr].
  destruct (Hserv aid t a r Hin Hr) as (Hcr & Henc & Hx). destruct (Hx e HP) as (x & p & e' & Hj & HP').
  pose proof Hturns as [[[Hop Hkey] _]%Forall_cons [(Hco & Hro & [token Htok] & Htime) _]%Forall_cons _ _].
  destruct (worker_judges service client Hdeployed (tn_claim tn) (tn_result tn) (tn_draw tn) token
    (map (fun tn => Some (tn_draw tn)) turns) (tn_claim_at tn) (tn_renew_at tn) (tn_submit_at tn)
    (concat (map turn_calls turns)) db aid t a r e x p e')
    as (db' & Hrun & Hs & Hcl & Hc); try done.
  { intros j y Hy _. by eapply Hkey. }
  { by eapply in_time_earlier. }
  exists aid, t, a, r, x, p, e', db'. split; [by eapply iteration_queue|].
  split; [by apply Forall_forall|]. do 3 (split; [done|]). split; [exact Hrun|].
  split; [apply Hs|]. split; [apply Hs|]. split; [by eapply turns_after | done].
Qed.

Lemma queue_judged P sleep latest turns : forall db e,
  Inv db -> length turns = length (waiting db) -> Turns db latest turns ->
  servable P db latest -> P e ->
  exists queue db' e', queue ≡ₚ waiting db /\ StronglySorted before queue /\
    run_loop (H0 := plane_of) sleep (map turn_operations turns) (e, plane_at db turns)
      = (None, (e', plane_at db' [])) /\
    waiting db' = [] /\ Judged db' queue turns e e' /\ rtc Evolves db db' /\ Inv db' /\ P e'.
Proof.
  induction turns as [|tn turns IH]; intros db e Hi Hlen Hturns Hserv HP.
  { destruct (waiting db) eqn:Hw; [|done]. exists [], db, e. rewrite Hw. split_and!; try done; constructor. }
  destruct (turn_judges P db latest tn turns e) as
    (aid & t & a & r & x & p & e1 & db1 & Hq & Hmin & Hr & Hj & HP1 & Hrun & Hi1 & Hev1 & Ht1 & Hc); try done.
  { by destruct (waiting db). }
  destruct (IH db1 e1) as (queue & db2 & e2 & Hq2 & Hsort & Hloop & Hnone & Hjudged & Hev2 & Hi2 & HP2); try done.
  { rewrite Hq in Hlen. simpl in Hlen. lia. }
  { intros aid' t' a' r' Hin. apply (Hserv aid' t'). rewrite Hq. by right. }
  exists ((aid, t, a) :: queue), db2, e2. split; [by rewrite Hq, Hq2|]. split.
  { constructor; [done|]. rewrite Hq2. rewrite Hq in Hmin. by apply Forall_cons in Hmin as [_ ?]. }
  split. { cbn [map turn_operations run_loop]. rewrite Hrun. exact Hloop. }
  split; [done|]. split; [|split; [by etrans | done]].
  eapply judged_next; try done. by eapply (concluded_evolves db1 db2).
Qed.
End Queue.
