(* ===== verification/PlaneRecovery.v ===== *)
(** * After a crash

    A node that is gone leaves attempts whose leases run out. The sweeper of the
    control plane puts the next attempt of each in the queue, and the queue of any
    node that can take them is drained: no submission is lost. *)

From Stdlib Require Import Sorted.
From S2P Require Import Prelude Value Control Evaluation EvalResult Application Codec Policy Schema Store Lease StoreLemmas StoreInv StoreSteps StoreWrites StoreSystem StoreRuns StoreRecover StoreRequeue StoreProgress Effects ControlPlane Startup Worker JudgeNode PlaneLaws StartupLaws PlaneSystem PlaneProgress PlaneQueue.

Section Recovery.
Context `{Collation, RequestCodecLaws, !ResultCodec, !ResultCodecLaws}.
Variable service : JudgeControlService.
Variable client : UdsJudgeControlClient.
Hypothesis Hdeployed : deployed service client.

Notation declared := (map cap_str (uc_capabilities client)).

(** ** The queue in terms of the evaluations *)

Lemma capable_declares r :
  capable client r <-> Forall (fun c => c ∈ declared) (map cap_str (er_required_capabilities r)).
Proof.
  unfold capable. rewrite Forall_map, Forall_forall.
  split; intros Hc c Hin; specialize (Hc c Hin); [by apply list_elem_of_fmap_2|].
  apply list_elem_of_fmap in Hc as (c' & Heq & Hc'). destruct c, c'. simpl in Heq. by subst.
Qed.

Lemma waiting_bundle db aid t a :
  Inv db -> (aid, t, a) ∈ waiting client db <->
  exists eid e, bundle db eid = Some (e, a, t) /\ e_current_attempt e = aid /\ e_state e = "queued" /\
    Forall (fun c => c ∈ declared) (t_capabilities t).
Proof.
  intros Hi. unfold waiting. rewrite claimable_spec. split.
  - intros (Ht & Ha & _ & _ & (eid & e & He & Hcur & Hs) & Hc & _). exists eid, e.
    rewrite bundle_Some, Hcur. do 3 (split; [done|]). by apply Hc.
  - intros (eid & e & (He & Ha & Ht)%bundle_Some & <- & Hs & Hc). split; [done|]. split; [done|].
    destruct (Inv_bundle db eid e Hi He) as (a' & t' & Ha' & Ht' & (_ & Has & _) & (Hts & _) & _).
    assert (a' = a) as -> by congruence. assert (t' = t) as -> by congruence. rewrite Has, Hs in Hts.
    split; [done|]. split; [congruence|]. split; [by exists eid, e|]. split; [by intros ? [= <-]|].
    set_solver.
Qed.

(** ** What the sweep leaves *)

Context {E : Type} `{JudgeExecutor E}.

(** Everything that waits or will wait after a sweep at [now] can be judged by an
    executor in [P]. *)
Record Recoverable (P : E -> Prop) (db : Db) (now : Z) (ds : list string) (latest : Z) : Prop := {
  rc_retriable : retriable now ds db;
  rc_waiting : servable client P db latest;
  rc_expired : forall aid a r d1 d2, (aid, a) ∈ expired_leases now db ->
    decode_evaluation_request (a_payload a) = Ok r -> capable client r -> d1 ∈ ds -> d2 ∈ ds ->
    serves client P (next_with r d1 d2);
  rc_latest : (now <= latest)%Z
}.

(** The attempts that [ds] makes are valid requests. *)
Lemma next_with_valid db ds r d1 d2 :
  fresh_draws db ds -> valid r -> (er_attempt_number r < u32_max)%Z -> d1 ∈ ds -> d2 ∈ ds ->
  valid (next_with r d1 d2).
Proof.
  intros [_ Hf] Hr Hlt Hd1 Hd2. rewrite Forall_forall in Hf.
  apply next_attempt_valid; [done| | |done].
  - apply next_attempt_id_Ok, (Hf d1 Hd1).
  - apply next_key_Ok, (Hf d2 Hd2).
Qed.

Section Swept.
Context (P : E -> Prop) (db db1 : Db) (now latest : Z) (ds : list string).
Hypothesis Hi : Inv db.
Hypothesis Hi1 : Inv db1.
Hypothesis Hfresh : fresh_draws db ds.
Hypothesis Hrec : Recoverable P db now ds latest.
Hypothesis Hq : Requeued now ds db db1.

(** The rows of an evaluation after the sweep: its own, or those of its next
    attempt. *)
Lemma swept_rows j e a t :
  bundle db j = Some (e, a, t) ->
  (ran_out now e a = false /\ bundle db1 j = Some (e, a, t)) \/
  exists r d1 d2 payload, ran_out now e a = true /\ decode_evaluation_request (a_payload a) = Ok r /\
    d1 ∈ ds /\ d2 ∈ ds /\ id_str (er_evaluation_id r) = j /\
    (e_current_attempt e, a) ∈ expired_leases now db /\
    decode_evaluation_request payload = Ok (next_with r d1 d2) /\
    bundle db1 j = Some (requeued_rows (next_with r d1 d2) payload now e).
Proof.
  intros Hb. pose proof (rq_bundle _ _ _ _ Hq j e a t Hb) as Hx.
  destruct (ran_out now e a) eqn:Hout; [right|by left].
  destruct Hx as (r & d1 & d2 & payload & Hr & Hd1 & Hd2 & Henc & Hb1).
  assert (Hin : (e_current_attempt e, a) ∈ expired_leases now db).
  { apply expired_leases_bundle; [done|]. by exists j, e, t. }
  destruct (bundle_request db j e a t Hi Hb) as (r' & Hr' & Hv & Hj & _).
  assert (r' = r) as -> by congruence.
  exists r, d1, d2, payload. do 6 (split; [done|]). split; [|done].
  apply codec_roundtrip; [|done]. eapply next_with_valid; try done.
  by apply (rc_retriable _ _ _ _ _ Hrec _ a r Hin Hr).
Qed.

Lemma swept_servable : servable client P db1 latest.
Proof.
  intros aid t a r Hin Hr. apply waiting_bundle in Hin as (j & e & Hb1 & Hcur & Hs & Hc); [|done].
  pose proof Hb1 as (He & _)%bundle_Some.
  destruct (rq_evaluations _ _ _ _ Hq j e He) as (e0 & He0 & _).
  destruct (bundle_total db j e0 Hi He0) as (a0 & t0 & Hb).
  destruct (swept_rows j e0 a0 t0 Hb) as
    [[_ Hsame]|(r0 & d1 & d2 & payload & _ & Hr0 & Hd1 & Hd2 & _ & Hin & Hdec & Hnext)].
  - assert ((e0, a0, t0) = (e, a, t)) as [= -> -> ->] by congruence.
    apply (rc_waiting _ _ _ _ _ Hrec aid t a r); [|done]. apply waiting_bundle; [done|]. by exists j, e.
  - rewrite Hnext in Hb1. injection Hb1 as <- <- <-. simpl in Hr. assert (r = next_with r0 d1 d2) as -> by congruence.
    split; [apply (rc_latest _ _ _ _ _ Hrec)|]. eapply (rc_expired _ _ _ _ _ Hrec); try done.
    by apply capable_declares.
Qed.

Lemma swept_turns turns : Turns service db latest turns -> Turns service db1 latest turns.
Proof.
  intros [Hu Hp Hn1 Hn2]. split; try done. eapply Forall_impl; [exact Hu|]. intros tn [Hop Hkey]. split.
  - intros aid a Ha. destruct (rq_attempts _ _ _ _ Hq aid a Ha) as [-> |(a0 & Ha0 & ->)]; [done|]. by eapply Hop.
  - intros j e He. destruct (rq_evaluations _ _ _ _ Hq j e He) as (e0 & He0 & ->). by eapply Hkey.
Qed.

(** What the node owes an answer: a request it can take whose attempt waits or was
    given up. *)
Definition due (db : Db) (now : Z) (j : string) (r : EvaluationRequest) : Prop :=
  exists e a t, bundle db j = Some (e, a, t) /\ decode_evaluation_request (a_payload a) = Ok r /\
    capable client r /\ (e_state e = "queued" \/ ran_out now e a = true).

Lemma due_waits j r :
  due db now j r ->
  exists aid t a r', (aid, t, a) ∈ waiting client db1 /\ decode_evaluation_request (a_payload a) = Ok r' /\
    id_str (er_evaluation_id r') = j /\ same_evaluation_semantics r r' = true.
Proof.
  intros (e & a & t & Hb & Hr & Hcap & Hs).
  destruct (swept_rows j e a t Hb) as
    [[Hout Hsame]|(r0 & d1 & d2 & payload & _ & Hr0 & Hd1 & Hd2 & Hj & _ & Hdec & Hnext)].
  - destruct (bundle_request db j e a t Hi Hb) as (r' & Hr' & _ & Hj & _ & Hc).
    assert (r' = r) as -> by congruence.
    exists (e_current_attempt e), t, a, r. split; [|split; [done|split; [done|]]].
    + apply waiting_bundle; [done|]. exists j, e. do 2 (split; [done|]).
      split; [destruct Hs; congruence|]. rewrite Hc. by apply capable_declares.
    + unfold same_evaluation_semantics. by rewrite !bool_decide_true.
  - assert (r0 = r) as -> by congruence.
    eexists _, (ready_task (next_with r d1 d2) now),
      (queued_attempt (next_with r d1 d2) payload (er_attempt_number (next_with r d1 d2)) now), (next_with r d1 d2).
    split; [|split; [exact Hdec|split; [exact Hj|apply same_semantics_next]]].
    apply waiting_bundle; [done|]. exists j, (requeue_evaluation (id_str (er_attempt_id (next_with r d1 d2))) now e).
    split; [exact Hnext|]. do 2 (split; [done|]). by apply capable_declares.
Qed.
End Swept.

(** ** The sweep and the queue *)

Lemma judged_concluded db queue turns e e' aid t a r :
  Judged client db queue turns e e' -> (aid, t, a) ∈ queue -> decode_evaluation_request (a_payload a) = Ok r ->
  exists x p key, concluded db r x p key.
Proof.
  intros Hj. induction Hj as [|aid' t' a' r' x p tn queue turns e1 e2 e3 Hr' _ Hc _ IH]; intros Hin Hr.
  { by apply not_elem_of_nil in Hin. }
  apply elem_of_cons in Hin as [[= -> -> ->]|Hin]; [|by apply IH].
  assert (r' = r) as -> by congruence. eauto.
Qed.

Lemma sweep_tick_requeues fuel now ds db :
  Inv db -> valid now -> fresh_draws db ds ->
  (length (expired_leases (um_value now) db) < fuel)%nat ->
  (2 * length (expired_leases (um_value now) db) <= length ds)%nat -> retriable (um_value now) ds db ->
  exists line rest db1,
    run_op (sweep_tick fuel (Some (um_value now))) (map Some ds) db = (Some (Ok line), map Some rest, db1) /\
    Inv db1 /\ rtc Evolves db db1 /\ expired_leases (um_value now) db1 = [] /\
    Requeued (um_value now) ds db db1.
Proof.
  intros Hi Hnow Hf Hfuel Hds Hall.
  destruct (recover_requeues _ fuel ds db 0 now Hi Hnow eq_refl Hfuel Hf Hds ltac:(unfold u32_max; lia) Hall)
    as (rest & db1 & Hrun & Hrest).
  unfold sweep_tick, now_millis, ok_or. cbn [rbind].
  assert (Hu : in_range 0 u64_max (um_value now) = true).
  { apply in_range_true. unfold valid, valid_millis, MAX_UNIX_MILLIS, u64_max in *. lia. }
  rewrite Hu. cbn [rbind]. rewrite (proj2 (UnixMillis_new_iff (um_value now) now (proj1 (in_range_true _ _ _) Hu)))
    by (by destruct now).
  cbn [map_err]. rewrite run_op_then. unfold recover_expired. rewrite i64_millis by done. cbn [op_try].
  rewrite Hrun. cbn [run_op]. by eexists _, rest, db1.
Qed.

Lemma crash_drained P fuel now latest ds db :
  Inv db -> valid now -> fresh_draws db ds ->
  (length (expired_leases (um_value now) db) < fuel)%nat ->
  (2 * length (expired_leases (um_value now) db) <= length ds)%nat ->
  Recoverable P db (um_value now) ds latest ->
  exists line rest db1,
    run_op (sweep_tick fuel (Some (um_value now))) (map Some ds) db = (Some (Ok line), map Some rest, db1) /\
    expired_leases (um_value now) db1 = [] /\
    forall sleep turns e, P e -> Turns service db latest turns -> length turns = length (waiting client db1) ->
    exists queue db' e',
      run_loop (H0 := plane_client service client) sleep (map turn_operations turns) (e, plane_at db1 turns)
        = (None, (e', plane_at db' [])) /\
      waiting client db' = [] /\ Judged client db' queue turns e e' /\ rtc Evolves db db' /\ P e' /\
      forall j r, due db (um_value now) j r ->
        exists r' x p key, id_str (er_evaluation_id r') = j /\ same_evaluation_semantics r r' = true /\
          concluded db' r' x p key.
Proof.
  intros Hi Hnow Hf Hfuel Hds Hrec.
  destruct (sweep_tick_requeues fuel now ds db) as (line & rest & db1 & Hrun & Hi1 & Hev & Hnil & Hq);
    [done..|apply Hrec|].
  exists line, rest, db1. split; [done|]. split; [done|]. intros sleep turns e HP Hturns Hlen.
  destruct (queue_judged service client Hdeployed P sleep latest turns db1 e) as
    (queue & db' & e' & Hperm & _ & Hloop & Hnone & Hj & Hev' & _ & HP'); try done.
  { eapply swept_turns; [exact Hq | done]. }
  { eapply swept_servable; [exact Hi|exact Hi1|exact Hf|exact Hrec|exact Hq]. }
  exists queue, db', e'. do 3 (split; [done|]). split; [by etrans|]. split; [exact HP'|]. intros j r Hdue.
  destruct (due_waits P db db1 (um_value now) latest ds Hi Hi1 Hf Hrec Hq j r Hdue)
    as (aid & t & a & r' & Hin & Hr' & Hj' & Hsem).
  rewrite <- Hperm in Hin. destruct (judged_concluded _ _ _ _ _ _ _ _ _ Hj Hin Hr') as (x & p & key & Hc).
  by exists r', x, p, key.
Qed.
End Recovery.
