(* ===== verification/PlaneFixtures.v ===== *)
(** * Concrete instances of the node's environment

    A host whose processes and sockets answer from a script, a guest likewise,
    and a deployment of the sample store: the closed worlds the witnesses of the
    control-plane and runtime theorems evaluate in. *)

From Stdlib Require Import Sorted.
From S2P Require Import Prelude Value Control Evaluation EvalResult Application Pipeline Json Codec Protocol ProtocolLaws Policy Schema Store Lease StoreLemmas StoreInv Migration StoreSystem StoreRuns StoreRecover StoreRequeue Fixtures Text Guest GuestLaws Evaluator Effects Firecracker HttpApi Host Machine MachineLaws Executor ExecutorLaws Agent AgentLaws Session ControlPlane Worker JudgeNode PlaneLaws PlaneSystem PlaneProgress PlaneQueue PlaneRecovery.

#[export] Instance sample_serde : SerdeJson := binary_serde.
#[export] Instance sample_serde_laws : SerdeJsonLaws := binary_serde_laws.
#[export] Instance sample_text : UnicodeText := ascii_text.
#[export] Instance sample_text_laws : UnicodeTextLaws := ascii_text_laws.

(** ** A scripted host *)

(** A process that is only signalled lives on until it is waited for. *)
Record Toy : Type := MkToy {
  toy_now : Z;
  toy_running : gset Z;
  toy_killed : gset Z;
  toy_inbox : string
}.

Definition toy_take (n : nat) (w : Toy) : string * Toy :=
  (String.substring 0 n (toy_inbox w),
   MkToy (toy_now w) (toy_running w) (toy_killed w)
     (String.substring n (String.length (toy_inbox w) - n) (toy_inbox w))).

Definition no_content : Stream :=
  MkStream ("HTTP/1.1 204 No Content" +:+ CRLF +:+ "Content-Length: 0" +:+ CRLF +:+ CRLF) true.

#[export] Instance toy_os : HostOs Toy := {|
  os_spawn := fun _ _ w => (Ok 7%Z, MkToy (toy_now w) ({[7%Z]} ∪ toy_running w) (toy_killed w) (toy_inbox w));
  os_try_wait := fun _ w => (false, w);
  os_kill_wait := fun pid w =>
    MkToy (toy_now w) (toy_running w ∖ {[pid]}) (toy_killed w) (toy_inbox w);
  os_start_kill := fun pid w =>
    (Ok tt, MkToy (toy_now w) (toy_running w) ({[pid]} ∪ toy_killed w) (toy_inbox w));
  os_try_exists := fun _ w => (Ok true, w);
  os_remove_file := fun _ w => w;
  os_now := toy_now;
  os_sleep := fun d w => MkToy (toy_now w + Z.max 0 d) (toy_running w) (toy_killed w) (toy_inbox w);
  os_exchange := fun _ _ w => (Ok no_content, w);
  os_connect := fun _ w => (Ok 1%Z, w);
  os_set_timeouts := fun _ _ w => (Ok tt, w);
  os_write_all := fun _ _ w => (Ok tt, w);
  os_read := fun _ w =>
    match toy_inbox w with
    | EmptyString => (Ok None, w)
    | String c s => (Ok (Some c), MkToy (toy_now w) (toy_running w) (toy_killed w) s)
    end;
  os_read_exact := fun _ n w =>
    if Nat.leb n (String.length (toy_inbox w)) then let '(s, w') := toy_take n w in (Ok s, w')
    else (Err "unexpected end of file", w);
  os_running := toy_running;
  os_killed := toy_killed;
  os_backlog := fun _ w => String.length (toy_inbox w)
|}.

Lemma toy_quiet_same (w w' : Toy) :
  toy_running w' = toy_running w -> toy_killed w' = toy_killed w -> toy_now w' = toy_now w ->
  quiet w w'.
Proof.
  intros Hr Hk Hn. unfold quiet, signals_kept. simpl. rewrite Hr, Hk, Hn.
  split; [done|]. split; [set_solver | lia].
Qed.

#[export] Instance toy_laws : HostOsLaws Toy.
Proof.
  split; intros; try (by apply toy_quiet_same); simpl.
  - unfold signals_kept. simpl. split; [set_solver|]. split; [lia | set_solver].
  - split; [unfold quiet, signals_kept; simpl; split_and!; [set_solver|set_solver|lia] | set_solver].
  - split; [unfold quiet, signals_kept; simpl; split_and!; [set_solver|set_solver|lia] | set_solver].
  - split; [unfold quiet, signals_kept; simpl; split_and!; [set_solver|set_solver|lia] | lia].
  - destruct (toy_inbox w) eqn:Hi; simpl; [by split; [apply toy_quiet_same|]|].
    split; [by apply toy_quiet_same | lia].
  - by destruct (Nat.leb size (String.length (toy_inbox w))); apply toy_quiet_same.
Qed.

#[export] Instance toy_runtime : TokioRuntime Toy := {| tokio_context := fun _ => InMultiThread |}.

Definition sample_vm_config : FirecrackerConfig := {|
  fc_kernel_path := "/k"; fc_kernel_digest := "sha256:k";
  fc_rootfs_path := "/r"; fc_rootfs_digest := "sha256:r"; fc_boot_args := "console=ttyS0";
  fc_machine := MkMachineConfig 1 128; fc_limits := MkResourceLimits None None None None;
  fc_vsock := MkVsockConfig 3 8266; fc_vsock_uds_path := "/v.sock"; fc_jailer_path := None |}.

Definition sample_executor : FirecrackerExecutorConfig :=
  MkExecutorConfig (MkId "node-1") "/usr/bin/firecracker" "/fc.sock" sample_vm_config false.

(** ** A guest that boots *)

(** A host whose guest accepts connections from the 120th millisecond on. *)
Record Late : Type := MkLate { late_now : Z; late_inbox : string }.

#[export] Instance late_os : HostOs Late := {|
  os_spawn := fun _ _ w => (Ok 7%Z, w);
  os_try_wait := fun _ w => (false, w);
  os_kill_wait := fun _ w => w;
  os_start_kill := fun _ w => (Ok tt, w);
  os_try_exists := fun _ w => (Ok true, w);
  os_remove_file := fun _ w => w;
  os_now := late_now;
  os_sleep := fun d w => MkLate (late_now w + Z.max 0 d) (late_inbox w);
  os_exchange := fun _ _ w => (Ok no_content, w);
  os_connect := fun _ w =>
    if (late_now w <? 120)%Z then (Err "connection refused", w)
    else (Ok 1%Z, MkLate (late_now w) ("OK 1024" +:+ String LF EmptyString));
  os_set_timeouts := fun _ _ w => (Ok tt, w);
  os_write_all := fun _ _ w => (Ok tt, w);
  os_read := fun _ w =>
    match late_inbox w with
    | EmptyString => (Ok None, w)
    | String c s => (Ok (Some c), MkLate (late_now w) s)
    end;
  os_read_exact := fun _ _ w => (Err "unexpected end of file", w);
  os_running := fun _ => ∅;
  os_killed := fun _ => ∅;
  os_backlog := fun _ w => String.length (late_inbox w)
|}.

Lemma late_quiet (w w' : Late) : (late_now w <= late_now w')%Z -> quiet w w'.
Proof. intros Hn. unfold quiet, signals_kept. simpl. split; [done|]. split; [set_solver | lia]. Qed.

#[export] Instance late_laws : HostOsLaws Late.
Proof.
  split; intros; try (by apply late_quiet; simpl; lia); simpl;
    try (split; [apply late_quiet; simpl; lia | first [set_solver | lia]]).
  - apply late_quiet. destruct (late_now w <? 120)%Z; simpl; lia.
  - destruct (late_inbox w) eqn:Hi; simpl; (split; [apply late_quiet; simpl; lia|]); [done | lia].
Qed.

Definition started_vm : FirecrackerVm :=
  MkFirecrackerVm sample_vm_config (set_phase VmPhase.Started Lifecycle_new) "/usr/bin/firecracker"
    "/fc.sock" (Some 7%Z).

Lemma late_connect_up port (w : Late) :
  (120 <= os_now w)%Z ->
  fst (Machine.connect "/v.sock" port DEFAULT_READ_TIMEOUT w)
    = Ok (MkGuestChannel 1 DEFAULT_READ_TIMEOUT).
Proof.
  intros Hw. unfold Machine.connect, eff_bind at 1, io_call at 1, eff_map_err. cbn [os_connect late_os].
  change (os_now w) with (late_now w) in Hw. by rewrite (proj2 (Z.ltb_ge _ _) Hw).
Qed.

Lemma late_connect_down port (w : Late) :
  (os_now w < 120)%Z -> snd (Machine.connect "/v.sock" port DEFAULT_READ_TIMEOUT w) = w.
Proof.
  intros Hw. unfold Machine.connect, eff_bind at 1, io_call at 1, eff_map_err. cbn [os_connect late_os].
  change (os_now w) with (late_now w) in Hw. by rewrite (proj2 (Z.ltb_lt _ _) Hw).
Qed.

(** ** A guest that accepts *)

Definition sample_hex : string := "0123456789abcdef0123456789abcdef0123456789abcdef0123456789abcdef".

Definition stage_reply (stage : Stage.t) (exit_code : Z) : Message :=
  StageOutput stage exit_code sample_hex 2 (MkGuestUsage 5 5 0 2) [].

Definition frame_of (m : Message) : string :=
  match encode m with Ok frame => frame | Err _ => EmptyString end.

(** What the guest will send: the line of the vsock proxy and three frames. *)
Definition session_bytes (run_exit : Z) : string :=
  "OK 1024" +:+ String LF EmptyString +:+ frame_of (Negotiated true)
  +:+ frame_of (stage_reply Stage.Build 0) +:+ frame_of (stage_reply Stage.Run run_exit).

Definition toy_world (run_exit : Z) : Toy := MkToy 0 {[3%Z]} ∅ (session_bytes run_exit).

Definition batch : Capability := MkCapability "algorithm.batch".

Definition batch_request : EvaluationRequest :=
  sample_request "evaluation-2" "attempt-2" "create-2" [batch].

Lemma batch_request_valid : valid batch_request.
Proof.
  apply sample_request_valid; try by vm_compute.
  - constructor; [|constructor]. apply (Capability_parse_iff "algorithm.batch"). by vm_compute.
  - apply NoDup_singleton.
Qed.

Definition attempt_verdict (run_exit : Z) : option Verdict.t :=
  match fst (execute_attempt sample_executor batch_request (fresh_executor, toy_world run_exit)) with
  | Ok r => Some (res_verdict r)
  | Err _ => None
  end.

Example accepted_attempt : attempt_verdict 0 = Some Verdict.Accepted.
Proof. by vm_compute. Qed.

Example timed_out_attempt : attempt_verdict 124 = Some Verdict.TimeLimitExceeded.
Proof. by vm_compute. Qed.

(** ** A scripted guest *)

Record ToyGuest : Type := MkToyGuest {
  tg_now : Z;
  tg_exits_at : Z;
  tg_stderr : string;
  tg_inbox : string;
  tg_files : gmap string string
}.

#[export] Instance toy_guest : GuestOs ToyGuest := {|
  gs_spawn := fun _ _ w => (Ok 9%Z, w);
  gs_try_wait := fun _ w =>
    (Ok (if (tg_exits_at w <=? tg_now w)%Z then Some (Some 0%Z) else None), w);
  gs_kill_wait := fun _ w => w;
  gs_read_pipe := fun _ pipe w =>
    match pipe with
    | Stdout => Some (Ok EmptyString, w)
    | Stderr =>
        Some (Ok (tg_stderr w),
              MkToyGuest (tg_now w) (tg_exits_at w) EmptyString (tg_inbox w) (tg_files w))
    end;
  gs_create_dir_all := fun _ w => (Ok tt, w);
  gs_write_file := fun path contents w =>
    (Ok tt, MkToyGuest (tg_now w) (tg_exits_at w) (tg_stderr w) (tg_inbox w)
              (<[path := contents]> (tg_files w)));
  gs_now := tg_now;
  gs_sleep := fun d w =>
    MkToyGuest (tg_now w + d) (tg_exits_at w) (tg_stderr w) (tg_inbox w) (tg_files w);
  gs_read := fun n w =>
    (Ok (String.substring 0 n (tg_inbox w)),
     MkToyGuest (tg_now w) (tg_exits_at w) (tg_stderr w)
       (String.substring n (String.length (tg_inbox w) - n) (tg_inbox w)) (tg_files w));
  gs_read_exact := fun n w =>
    if Nat.leb n (String.length (tg_inbox w)) then
      (Ok (String.substring 0 n (tg_inbox w)),
       MkToyGuest (tg_now w) (tg_exits_at w) (tg_stderr w)
         (String.substring n (String.length (tg_inbox w) - n) (tg_inbox w)) (tg_files w))
    else (Err "unexpected end of file", w);
  gs_send := fun _ w => (Ok tt, w)
|}.

#[export] Instance toy_guest_laws : GuestOsLaws ToyGuest.
Proof.
  split; intros; simpl; [|lia]. split; [lia|]. by destruct (tg_exits_at w <=? tg_now w)%Z.
Qed.

(** A guest whose commands never exit. *)
Record Hung : Type := MkHung { hung_now : Z }.

#[export] Instance hung_guest : GuestOs Hung := {|
  gs_spawn := fun _ _ w => (Ok 9%Z, w);
  gs_try_wait := fun _ w => (Ok None, w);
  gs_kill_wait := fun _ w => w;
  gs_read_pipe := fun _ _ w => Some (Ok EmptyString, w);
  gs_create_dir_all := fun _ w => (Ok tt, w);
  gs_write_file := fun _ _ w => (Ok tt, w);
  gs_now := hung_now;
  gs_sleep := fun d w => MkHung (hung_now w + d);
  gs_read := fun _ w => (Ok EmptyString, w);
  gs_read_exact := fun _ w => (Err "unexpected end of file", w);
  gs_send := fun _ w => (Ok tt, w)
|}.

#[export] Instance hung_laws : GuestOsLaws Hung.
Proof. split; intros; simpl; lia. Qed.

(** A guest whose command exits at once and leaves a process behind that holds its
    pipes open. *)
Record HeldPipe : Type := MkHeldPipe { held_now : Z }.

#[export] Instance held_guest : GuestOs HeldPipe := {|
  gs_spawn := fun _ _ w => (Ok 9%Z, w);
  gs_try_wait := fun _ w => (Ok (Some (Some 0%Z)), w);
  gs_kill_wait := fun _ w => w;
  gs_read_pipe := fun _ _ _ => None;
  gs_create_dir_all := fun _ w => (Ok tt, w);
  gs_write_file := fun _ _ w => (Ok tt, w);
  gs_now := held_now;
  gs_sleep := fun d w => MkHeldPipe (held_now w + d);
  gs_read := fun _ w => (Ok EmptyString, w);
  gs_read_exact := fun _ w => (Err "unexpected end of file", w);
  gs_send := fun _ w => (Ok tt, w)
|}.

#[export] Instance held_laws : GuestOsLaws HeldPipe.
Proof. split; intros; simpl; [by split; [lia|] | lia]. Qed.

Definition is_reply (r : result AgentHalt.t (option Message)) : bool :=
  match r with
  | Ok (Some _) => true
  | _ => false
  end.

(** A digest function with outputs of the right length. *)
#[export] Instance sample_sha : Sha256 := {| sha256 := fun _ => String.substring 0 32 sample_hex |}.

#[export] Instance sample_sha_laws : Sha256Laws.
Proof. split. intros s. by vm_compute. Qed.

(** ** Host and guest together *)

(** The toy host, whose proxy accepts the connection, and a guest whose machine
    has yet to be started. *)
Definition joint_world {G} (guest : G) : Joint Toy G :=
  MkJoint (MkToy 0 {[3%Z]} ∅ ("OK 1024" +:+ String LF EmptyString))
    (MkPiped guest EmptyString EmptyString) Exited Dead 0.

(** ** A deployment *)

#[export] Instance sample_result_codec : ResultCodec :=
  {| decode_result_domain := decode_evaluation_result_domain |}.

#[export] Instance sample_result_codec_laws : ResultCodecLaws.
Proof. split. intros r p. apply decode_encode_result. Qed.

Definition sample_node_policy : NodePolicy := MkNodePolicy {[ MkId "node-1" := {[ cpp ]} ]}.

Definition sample_service : JudgeControlService :=
  with_store (JudgeControlService_new sample_node_policy lease_10s).

Definition sample_client : UdsJudgeControlClient :=
  MkClient (MkId "node-1") [cpp] (MkDuration 10000) NO_TASK_BACKOFF_MS.

Lemma sample_deployed : deployed sample_service sample_client.
Proof. split; [done|]. split; [by vm_compute|]. split; [by vm_compute|]. by vm_compute. Qed.

(** The bench as the executor of a whole attempt. *)
#[export] Instance bench_judge : JudgeExecutor Bench := {| je_execute := evaluate |}.

Definition quiet_call (elapsed : Z) : PlaneCall := MkPlaneCall (fun db => db) (Some elapsed) Delivered.

Definition sample_plane : Plane :=
  MkPlane db_created [Some "aa"] [quiet_call 2000; quiet_call 2500; quiet_call 3000].

(** Every submission to empty tables that the schema and the node allow. *)
Lemma submittable_empty (client : UdsJudgeControlClient) command payload co ro :
  valid (ce_request command) -> valid (ce_created_at command) ->
  encode_evaluation_request (ce_request command) = Ok payload ->
  valid_required_capabilities (map cap_str (er_required_capabilities (ce_request command))) = true ->
  (forall c, c ∈ er_required_capabilities (ce_request command) -> c ∈ uc_capabilities client) ->
  valid co -> valid ro -> Submittable client empty_db command payload co ro.
Proof.
  intros Hv Hn Hp Hcaps Hsub Hco Hro. split; [apply Inv_empty|done|done| |done|done|].
  - split; [apply creation_fresh_empty | apply references_empty].
  - split; [done|]. split; [done|].
    split; intros ? ? Hl; cbn in Hl; by rewrite lookup_empty in Hl.
Qed.

(** A deployment for the batch capability. *)
Definition batch_service : JudgeControlService :=
  with_store (JudgeControlService_new (MkNodePolicy {[ MkId "node-1" := {[ batch ]} ]}) lease_10s).

Definition batch_client : UdsJudgeControlClient :=
  MkClient (MkId "node-1") [batch] (MkDuration 10000) NO_TASK_BACKOFF_MS.

Lemma batch_deployed : deployed batch_service batch_client.
Proof. split; [done|]. split; [by vm_compute|]. split; [by vm_compute|]. by vm_compute. Qed.

(** Evaluation 1, leased and then given up by its node. *)
Lemma leased_abandoned payload :
  Inv db_leased ->
  encode_evaluation_request (next_attempt_of request_1 (MkId "attempt_aa") (MkKey "idem_retry_bb")) = Ok payload ->
  Abandoned sample_client db_leased late request_1 "aa" "bb" payload (MkId "claim-op-2") (MkId "result-op-2").
Proof.
  intros Hi Hp. split; [by split| | | |exact Hp| | |].
  - assert (Hone : match expired_leases 20000 db_leased with
                   | [(_, a)] => match decode_evaluation_request (a_payload a) with
                                 | Ok r => bool_decide (r = request_1) | Err _ => false end
                   | _ => false end = true) by (vm_compute; reflexivity).
    change (um_value late) with 20000%Z.
    destruct (expired_leases 20000 db_leased) as [|[aid a] [|? ?]]; try discriminate Hone.
    exists aid, a. split; [done|]. destruct (decode_evaluation_request (a_payload a)) as [r|]; [|discriminate Hone].
    by apply bool_decide_eq_true in Hone as ->.
  - done.
  - apply fresh_draws_with; [apply (bool_decide_unpack _); by vm_compute | vm_compute; reflexivity].
  - intros c Hc. exact Hc.
  - vm_compute. reflexivity.
  - split; [by vm_compute|]. split; [by vm_compute|]. split.
    + intros aid a Ha. apply (table_with (attempts db_leased)
        (fun _ a => negb (bool_decide (a_claim_operation a = Some "claim-op-2")))) in Ha; [|vm_compute; reflexivity].
      by apply negb_true_iff, bool_decide_eq_false in Ha.
    + intros j e He. apply (table_with (evaluations db_leased)
        (fun _ e => negb (bool_decide (e_result_key e = Some "result-op-2")))) in He; [|vm_compute; reflexivity].
      by apply negb_true_iff, bool_decide_eq_false in He.
Qed.

(** ** Tables in which everything can be judged *)

(** The bench answers the request, and the answer can be sent. *)
Definition bench_ready (r : EvaluationRequest) : bool :=
  is_ok (encode_evaluation_request r) &&
  match evaluate r Accepting with
  | (Ok x, Accepting) =>
      bool_decide (res_identity x = EvaluationIdentity_from_request r) &&
      bool_decide (pr_node_id (res_provenance x) = Some (MkId "node-1")) &&
      is_ok (encode_evaluation_result x)
  | _ => false
  end.

Definition accepting (b : Bench) : Prop := b = Accepting.

Lemma bench_serves r : valid r -> bench_ready r = true -> serves sample_client accepting r.
Proof.
  intros Hv [Henc Hx]%andb_true_iff. split; [exact Henc|]. intros e ->.
  destruct (evaluate r Accepting) as [[x|err] [| | | |]] eqn:He; try discriminate Hx.
  apply andb_true_iff in Hx as [[Hid Hnode]%andb_true_iff Hp].
  apply bool_decide_eq_true in Hid. apply bool_decide_eq_true in Hnode.
  destruct (encode_evaluation_result x) as [p|err] eqn:Hpx; [|discriminate Hp].
  exists x, p, Accepting. split; [|done]. split; [exact He| |exact Hpx|exact Hid|exact Hnode].
  by eapply evaluate_result_is_valid.
Qed.

Lemma servable_with db latest :
  forallb (fun '(_, _, a) => (a_created_at a <=? latest)%Z &&
    match decode_evaluation_request (a_payload a) with Ok r => bench_ready r | Err _ => false end)
    (waiting sample_client db) = true ->
  servable sample_client accepting db latest.
Proof.
  intros Hall aid t a r Hin Hr. rewrite forallb_forall in Hall.
  apply list_elem_of_In, Hall in Hin. rewrite Hr in Hin. apply andb_true_iff in Hin as [Hle%Z.leb_le Hb].
  split; [exact Hle|]. apply bench_serves; [by eapply codec_decoded_valid | exact Hb].
Qed.

Lemma recoverable_with db now ds latest :
  fresh_draws db ds -> (now <= latest)%Z -> servable sample_client accepting db latest ->
  forallb (fun '(_, a) => match decode_evaluation_request (a_payload a) with
      | Ok r => (er_attempt_number r <? u32_max)%Z &&
          forallb (fun d1 => forallb (fun d2 => bench_ready (next_with r d1 d2)) ds) ds
      | Err _ => false
      end) (expired_leases now db) = true ->
  Recoverable sample_client accepting db now ds latest.
Proof.
  intros Hf Hle Hserv Hall. rewrite forallb_forall in Hall.
  assert (Hnext : forall aid a r, (aid, a) ∈ expired_leases now db ->
    decode_evaluation_request (a_payload a) = Ok r ->
    (er_attempt_number r < u32_max)%Z /\
    forall d1 d2, d1 ∈ ds -> d2 ∈ ds -> bench_ready (next_with r d1 d2) = true).
  { intros aid a r Hin%list_elem_of_In%Hall Hr. rewrite Hr in Hin.
    apply andb_true_iff in Hin as [Hlt%Z.ltb_lt Hb]. split; [exact Hlt|].
    intros d1 d2 Hd1%list_elem_of_In Hd2%list_elem_of_In. rewrite forallb_forall in Hb.
    specialize (Hb d1 Hd1). rewrite forallb_forall in Hb. by apply Hb. }
  split; [|exact Hserv| |exact Hle].
  - intros aid a r Hin Hr. destruct (Hnext aid a r Hin Hr) as [Hlt Hb]. split; [exact Hlt|].
    intros d1 d2 Hd1 Hd2. specialize (Hb d1 d2 Hd1 Hd2). by apply andb_true_iff in Hb as [? _].
  - intros aid a r d1 d2 Hin Hr _ Hd1 Hd2. destruct (Hnext aid a r Hin Hr) as [Hlt Hb].
    apply bench_serves; [|by apply Hb]. eapply next_with_valid; [exact Hf| |exact Hlt|exact Hd1|exact Hd2].
    by eapply codec_decoded_valid.
Qed.

(** The bench's node owes evaluation [j] an answer. *)
Lemma due_with db now j :
  match bundle db j with
  | Some (e, a, _) =>
      match decode_evaluation_request (a_payload a) with
      | Ok r => forallb (fun c => bool_decide (c ∈ uc_capabilities sample_client)) (er_required_capabilities r)
      | Err _ => false
      end && (String.eqb (e_state e) "queued" || ran_out now e a)
  | None => false
  end = true ->
  exists r, due sample_client db now j r.
Proof.
  destruct (bundle db j) as [[[e a] t]|] eqn:Hb; [|done]. intros [Hr Hs]%andb_true_iff.
  destruct (decode_evaluation_request (a_payload a)) as [r|] eqn:Hd; [|done].
  exists r, e, a, t. split; [done|]. split; [done|]. split.
  - intros c Hc. rewrite forallb_forall in Hr. apply list_elem_of_In, Hr in Hc. by apply bool_decide_eq_true in Hc.
  - apply orb_true_iff in Hs as [Hs%String.eqb_eq|Hs]; [by left | by right].
Qed.

(** Identifiers that are new to the tables, by evaluation. *)
Definition unused_in (db : Db) (tn : Turn) : bool :=
  forallb (fun '(_, a) => negb (bool_decide (a_claim_operation a = Some (id_str (tn_claim tn)))))
    (map_to_list (attempts db)) &&
  forallb (fun '(_, e) => negb (bool_decide (e_result_key e = Some (id_str (tn_result tn)))))
    (map_to_list (evaluations db)).

Lemma unused_with db tn : unused_in db tn = true -> unused db tn.
Proof.
  intros [Ha He]%andb_true_iff. rewrite forallb_forall in Ha, He. split.
  - intros aid a Hx. apply elem_of_map_to_list, list_elem_of_In, Ha in Hx.
    by apply negb_true_iff, bool_decide_eq_false in Hx.
  - intros j e Hx. apply elem_of_map_to_list, list_elem_of_In, He in Hx.
    by apply negb_true_iff, bool_decide_eq_false in Hx.
Qed.

(** ** Two tasks that wait *)

(** The one created second bears the earlier time. *)
Definition request_0 : EvaluationRequest := sample_request "evaluation-0" "attempt-0" "create-0" [cpp].

Lemma request_0_valid : valid request_0.
Proof.
  apply sample_request_valid; try by vm_compute.
  - constructor; [apply cpp_valid|constructor].
  - apply NoDup_singleton.
Qed.

Definition create_0 : CreateEvaluation := MkCreateEvaluation request_0 (MkMillis 900).

(** Evaluation 0 is created in the tables [db]. *)
Definition with_second (db : Db) : Db := after (create_evaluation create_0) [] db.

Lemma with_second_Inv db :
  (exists ops, reachable ops db) -> answered (run_op (create_evaluation create_0) [] db) = true ->
  Inv (with_second db).
Proof.
  intros [ops Hr] Ha. destruct (reachable_run (create_evaluation create_0) [] ops db Hr) as [ops' Hr'].
  - constructor. apply request_0_valid.
  - exact Ha.
  - by eapply reachable_Inv.
Qed.

Definition db_two : Db := with_second db_created.

(** Two turns from a time on. *)
Definition two_turns (from : Z) : list Turn := [
  MkTurn (MkId "claim-op-8") (MkId "result-op-8") "aa" (MkMillis (from + 100)) (MkMillis (from + 200)) (MkMillis (from + 300));
  MkTurn (MkId "claim-op-9") (MkId "result-op-9") "bb" (MkMillis (from + 400)) (MkMillis (from + 500)) (MkMillis (from + 600))].

Lemma two_turns_ready db from latest :
  (0 <= latest <= from)%Z -> (from <= 100000)%Z -> forallb (unused_in db) (two_turns from) = true ->
  Turns sample_service db latest (two_turns from).
Proof.
  intros Hl Hmax Hu. rewrite forallb_forall in Hu. split.
  - apply Forall_forall. intros tn Htn. by apply unused_with, Hu, list_elem_of_In.
  - assert (Htime : forall n1 n2 n3, (latest <= n1)%Z -> (latest <= n2)%Z -> (latest <= n3 <= n2 + 10000)%Z ->
      (n1 <= 200000)%Z -> (n2 <= 200000)%Z ->
      in_time sample_service latest (MkMillis n1) (MkMillis n2) (MkMillis n3)).
    { intros n1 n2 n3. unfold in_time, duration, valid, valid_millis, MAX_UNIX_MILLIS. simpl. lia. }
    unfold two_turns. rewrite Forall_cons, Forall_singleton.
    split; (split; [by vm_compute|]; split; [by vm_compute|]; split; [by eexists; vm_compute|]);
      apply Htime; simpl; lia.
  - apply (bool_decide_unpack _). by vm_compute.
  - apply (bool_decide_unpack _). by vm_compute.
Qed.

(** The order in which they are judged. *)
Lemma two_order queue :
  queue ≡ₚ waiting sample_client db_two -> StronglySorted before queue ->
  map (fun x => fst (fst x)) queue = ["attempt-0"; "attempt-1"].
Proof.
  set (later := fun x y => bool_decide (fst (fst x) = "attempt-1") && bool_decide (fst (fst y) = "attempt-0") &&
                           negb (order_leb (queue_key x) (queue_key y))).
  assert (Htwo : match waiting sample_client db_two with
                 | [x; y] => later x y || later y x | _ => false end = true) by (vm_compute; reflexivity).
  destruct (waiting sample_client db_two) as [|x [|y [|? ?]]]; try discriminate Htwo.
  assert (Hlater : forall x y, later x y = true ->
    fst (fst x) = "attempt-1" /\ fst (fst y) = "attempt-0" /\ ~ before x y).
  { unfold later, before. intros u v. rewrite !andb_true_iff, negb_true_iff.
    intros [[Hu%bool_decide_eq_true Hv%bool_decide_eq_true] Hb]. rewrite Hb. done. }
  intros Hq Hs. symmetry in Hq.
  apply orb_true_iff in Htwo as [(Hx & Hy & Hn)%Hlater|(Hy & Hx & Hn)%Hlater];
    apply Permutation_length_2_inv in Hq as [-> | ->]; simpl; rewrite ?Hx, ?Hy; try done;
    apply StronglySorted_inv in Hs as [_ [Hb _]%Forall_cons]; done.
Qed.

(** ** A database that is migrated *)

#[export] Instance sample_extraction : CapabilityExtraction := {| extract_required_capabilities := fun payload =>
  match decode_evaluation_request payload with
  | Ok request => Some (map cap_str (er_required_capabilities request))
  | Err _ => None
  end |}.

(** A migrator whose connection holds. *)
Fixpoint apply_migrations (ms : list Migration) (d : Deployed) : bool * Deployed :=
  match ms with
  | [] => (true, d)
  | m :: ms =>
      if bool_decide (mg_version m ∈ dp_applied d) then apply_migrations ms d
      else
        match script_up (mg_script m) (dp_tables d) with
        | Some t => apply_migrations ms (MkDeployed (dp_applied d ++ [mg_version m]) t)
        | None => (false, d)
        end
  end.

#[export] Instance sample_schema : SchemaStore Deployed :=
  {| migrator_run := apply_migrations; schema_version := fun d => option_map Some (tables_version (dp_tables d)) |}.

#[export] Instance sample_schema_laws : SchemaStoreLaws.
Proof.
  split.
  - intros ms. induction ms as [|m ms IH]; intros d; simpl; [constructor|].
    destruct (bool_decide (mg_version m ∈ dp_applied d)) eqn:Hd.
    + apply bool_decide_eq_true in Hd. specialize (IH d). cbn in IH.
      destruct (apply_migrations ms d) as [ok d']. by apply migrates_recorded.
    + apply bool_decide_eq_false in Hd. destruct (script_up (mg_script m) (dp_tables d)) as [t|] eqn:Ht;
        [|constructor]. specialize (IH (MkDeployed (dp_applied d ++ [mg_version m]) t)). cbn in IH.
      destruct (apply_migrations ms _) as [ok d']. by eapply migrates_apply.
  - intros d. simpl. destruct (tables_version (dp_tables d)) as [v|]; [right; by exists v | by left].
Qed.

Definition migrated_db : Deployed := MkDeployed [202608170001%Z; 202608170002%Z] (P0cTables empty_db).
