(* ===== verification/PropPlane.v ===== *)
(** * Properties of the execution plane

    The theorems of the judge node, its microVM, the guest protocol, the guest
    agent and the control plane, each with a witness in the closed worlds of
    [PlaneFixtures]. *)

From S2P Require Import Prelude Value Control Evaluation EvalResult Application Pipeline Json Codec Protocol ProtocolLaws Policy Schema Store Lease StoreLemmas StoreInv StoreSystem StoreRuns Fixtures Text Guest GuestLaws Evaluator Effects Firecracker HttpApi Host Machine MachineLaws Executor ExecutorLaws Agent AgentLaws Session ControlPlane Worker JudgeNode PlaneLaws PlaneSystem PlaneFixtures.
From stdpp Require Import relations.

(** ** The control plane *)

(** C9: a worker iteration is a safe caller of the store whatever other callers
    do between its calls, whatever calls are lost and whatever its executor
    answers; and when it reports a submission, the executor was run on a leased
    request and the store holds exactly its result under the operation's key. *)
Theorem worker_submission_stored `{Collation, RequestCodecLaws, !ResultCodec, !ResultCodecLaws}
    {E} `{JudgeExecutor E} (service : JudgeControlService) (client : UdsJudgeControlClient)
    (co : ClaimOperationId) (ro : ResultOperationId) (e : E) (plane : Plane) outcome s' :
  valid (svc_lease_policy service) ->
  (forall request e r e', valid request -> je_execute request e = (Ok r, e') -> valid r) ->
  Inv (pl_db plane) -> Forall fair_call (pl_calls plane) ->
  run_once_async (H0 := plane_client service client) co ro (e, plane) = (outcome, s') ->
  Inv (pl_db (snd s')) /\ rtc Evolves (pl_db plane) (pl_db (snd s')) /\
  (outcome = Ok Submitted ->
   exists request r payload,
     je_execute request e = (Ok r, fst s') /\ encode_evaluation_result r = Ok payload /\
     ei_evaluation_id (res_identity r) = er_evaluation_id request /\
     stored (pl_db (snd s')) (er_evaluation_id request) (id_str ro) payload).
Proof.
  intros Hp Hexec Hi Hfair Hrun.
  destruct (worker_forward service client co ro e plane Hp Hi Hfair) as (Hi' & Hev & _).
  rewrite Hrun in Hi', Hev. split; [done|]. split; [done|]. intros ->.
  by apply (worker_submitted service client co ro e plane).
Qed.

Lemma worker_submission_stored_witness :
  exists s' request r payload,
    run_once_async (H0 := plane_client sample_service sample_client)
      (MkId "claim-op-1") (MkId "result-op-1") (Accepting, sample_plane) = (Ok Submitted, s') /\
    evaluate request Accepting = (Ok r, fst s') /\
    stored (pl_db (snd s')) (er_evaluation_id request) "result-op-1" payload.
Proof.
  destruct db_created_reachable as [ops Hr]. pose proof (reachable_Inv ops _ Hr) as Hi. clear Hr.
  assert (Hquiet : forall z, fair_call (quiet_call z)).
  { intros z db Hdb. split; [exact Hdb | apply rtc_refl]. }
  assert (Hfair : Forall fair_call (pl_calls sample_plane)).
  { do 3 (apply Forall_cons; split; [apply Hquiet|]). apply Forall_nil_2. }
  assert (Hexec : forall request (e : Bench) r e', valid request ->
            je_execute request e = (Ok r, e') -> valid r).
  { intros request b r b'. apply evaluate_result_is_valid. }
  pose proof (fun outcome s' => worker_submission_stored sample_service sample_client
    (MkId "claim-op-1") (MkId "result-op-1") Accepting sample_plane outcome s' lease_10s_valid Hexec
    Hi Hfair) as Hthm.
  assert (Hsub : fst (run_once_async (H0 := plane_client sample_service sample_client)
      (MkId "claim-op-1") (MkId "result-op-1") (Accepting, sample_plane)) = Ok Submitted)
    by (vm_compute; reflexivity).
  revert Hthm Hsub. generalize (run_once_async (H0 := plane_client sample_service sample_client)
      (MkId "claim-op-1") (MkId "result-op-1") (Accepting, sample_plane)).
  intros [outcome s'] Hthm Hsub. destruct (Hthm outcome s' eq_refl) as (_ & _ & Hstored).
  destruct (Hstored Hsub) as (request & r & payload & He & _ & _ & Hst).
  exists s', request, r, payload. simpl in Hsub. rewrite Hsub. split; [reflexivity|].
  split; [exact He | exact Hst].
Defined.

(** C11: the control plane refines the store: for an admitted node, a claim,
    a renewal and a submission that are delivered do on the store exactly what
    the store operations do, and the node is answered their answer, up to the
    error a status can carry. *)
Theorem plane_refines_store `{Collation, RequestCodecLaws, !ResultCodec, !ResultCodecLaws}
    (service : JudgeControlService) (client : UdsJudgeControlClient) (lease : TaskLease)
    (co : ClaimOperationId) (ro : ResultOperationId) (r : EvaluationResult) (p : bytes)
    (draw : string) (token : LeaseToken) (now : UnixMillis) (draws : list (option string)) (db : Db) :
  deployed service client -> lease_valid (uc_node_id client) lease -> valid co -> valid ro ->
  valid now -> source_lease_token (Some draw) = Ok token ->
  valid r -> encode_evaluation_result r = Ok p ->
  ei_evaluation_id (res_identity r) = er_evaluation_id (tl_request lease) ->
  ei_attempt_id (res_identity r) = er_attempt_id (tl_request lease) ->
  let stub := served service (Some (um_value now)) Delivered in
  (run_op (client_claim stub client co) (Some draw :: draws) db =
   let '(x, ds, db') := run_op (judge_claim_task (claim_command service client co token now)) draws db in
   (option_map claim_view x, ds, db')) /\
  (run_op (client_renew stub client lease) draws db =
   let '(x, ds, db') := run_op (judge_renew_lease (renew_command service client lease now)) draws db in
   (option_map (map_err wire_error) x, ds, db')) /\
  (run_op (client_submit stub client lease ro r) draws db =
   let '(x, ds, db') := run_op (judge_submit_result (submit_command client lease ro r now)) draws db in
   (option_map (fun x => rmap (fun _ => tt) (map_err wire_error x)) x, ds, db')).
Proof.
  intros Hd Hl Hco Hro Hnow Htok Hr Hp He Ha stub.
  split; [by apply rpc_claim|]. split; [by apply rpc_renew|]. by apply (rpc_submit _ _ _ _ _ _ _ _ p).
Qed.

Lemma plane_refines_store_witness :
  exists db', run_op (client_submit (served sample_service (Some 3000%Z) Delivered) sample_client
      (MkTaskLease request_1 (MkId "node-1") (MkId "token-1") (MkMillis 12000)) (MkId "result-op-1")
      (result_of request_1 Accepting)) [] db_leased = (Some (Ok tt), [], db').
Proof.
  assert (Hv : valid (result_of request_1 Accepting)).
  { eapply evaluate_result_is_valid; [exact request_1_valid|].
    apply (result_1_evaluated Accepting). discriminate. }
  destruct (ok_with (encode_evaluation_result (result_of request_1 Accepting)) (fun _ => true))
    as (p & Hp & _); [vm_compute; reflexivity|].
  assert (Hid : res_identity (result_of request_1 Accepting) = EvaluationIdentity_from_request request_1)
    by (vm_compute; reflexivity).
  destruct (plane_refines_store sample_service sample_client
    (MkTaskLease request_1 (MkId "node-1") (MkId "token-1") (MkMillis 12000)) (MkId "claim-op-1")
    (MkId "result-op-1") (result_of request_1 Accepting) p "aa" (MkId "lease_aa") (MkMillis 3000) []
    db_leased) as (_ & _ & Hs).
  - exact sample_deployed.
  - split; [exact request_1_valid|]. split; [vm_compute; reflexivity|].
    split; [split; vm_compute; discriminate | reflexivity].
  - vm_compute; reflexivity.
  - vm_compute; reflexivity.
  - split; vm_compute; discriminate.
  - vm_compute; reflexivity.
  - exact Hv.
  - exact Hp.
  - rewrite Hid. reflexivity.
  - rewrite Hid. reflexivity.
  - cbn [um_value] in Hs. rewrite Hs.
    assert (Hrun : match run_op (judge_submit_result (submit_command sample_client
              (MkTaskLease request_1 (MkId "node-1") (MkId "token-1") (MkMillis 12000))
              (MkId "result-op-1") (result_of request_1 Accepting) (MkMillis 3000))) [] db_leased with
            | (Some (Ok _), [], _) => true | _ => false end = true) by (vm_compute; reflexivity).
    destruct (run_op (judge_submit_result _) [] db_leased) as [[[[s|e]|] [|d ds]] db']; try discriminate Hrun.
    exists db'. reflexivity.
Defined.

(** Negotiation fails closed and agrees: a node connects exactly when the
    deployment lists it with the capabilities it declares, without repetition and
    within the bound, and it then works to the deployment's lease schedule. *)
Theorem negotiation_exact (service : JudgeControlService) (socket_path : string) (node_id : NodeId)
    (capabilities : list Capability) (client : UdsJudgeControlClient) :
  valid node_id -> Forall valid capabilities -> valid (svc_lease_policy service) ->
  is_absolute socket_path = true ->
  (connect true (negotiate service) socket_path node_id capabilities = Ok client <->
   admitted service node_id capabilities /\
   client = MkClient node_id capabilities (lp_lease_duration (svc_lease_policy service))
              NO_TASK_BACKOFF_MS).
Proof. apply connect_iff. Qed.

Lemma negotiation_exact_witness :
  connect true (negotiate sample_service) "/run/openoj.sock" (MkId "node-1") [cpp] = Ok sample_client.
Proof.
  apply (negotiation_exact sample_service "/run/openoj.sock" (MkId "node-1") [cpp] sample_client).
  - vm_compute; reflexivity.
  - apply Forall_singleton, cpp_valid.
  - exact lease_10s_valid.
  - reflexivity.
  - split; [|reflexivity]. apply (accepted_iff sample_service).
    + vm_compute; reflexivity.
    + apply Forall_singleton, cpp_valid.
    + apply sample_deployed.
Defined.

(** ** The Firecracker executor *)

(** C10: attempts are isolated: an executor that finished earlier attempts, whatever
    happened in them, answers the next one as a new executor would; and when the
    attempt is over, on every outcome, it holds neither a machine nor a session and
    no process it started is alive, when the thread's runtime is the same at every
    call, as it is on the judge node; if it is not, a teardown may be refused, and
    a process that is then still alive has been sent a kill. *)
Theorem attempt_isolated {W : Type} `{HostOsLaws W, TokioRuntime W, SerdeJson, UnicodeText}
    (config : FirecrackerExecutorConfig) (request : EvaluationRequest) (fx : FirecrackerExecutor)
    (w : W) r fx' w' :
  idle fx -> execute_attempt config request (fx, w) = (r, (fx', w')) ->
  execute_attempt config request (fresh_executor, w) = (r, (fx', w')) /\
  idle fx' /\ (steady (W := W) -> os_running w' ⊆ os_running w) /\
  os_running w' ⊆ os_running w ∪ os_killed w'.
Proof.
  intros Hidle Hrun.
  assert (Hkilled : os_running w' ⊆ os_running w ∪ os_killed w' /\
            execute_attempt config request (fresh_executor, w) = (r, (fx', w')) /\ idle fx').
  { pose proof (attempt_isolation config (fun w1 => os_running w ∪ os_killed w1)
      ltac:(left; intros w1; set_solver) request fx w Hidle ltac:(set_solver)) as Hk.
    rewrite Hrun in Hk. by destruct Hk as (? & ? & ?). }
  destruct Hkilled as (Hkilled & Hfresh & Hidle'). split_and!; [done|done| |done]. intros Hsteady.
  pose proof (attempt_isolation config (fun _ => os_running w) (or_intror Hsteady)
                request fx w Hidle (reflexivity _)) as Hex.
  rewrite Hrun in Hex. apply Hex.
Qed.

Lemma attempt_isolated_witness :
  exists r fx' w', execute_attempt sample_executor batch_request (fresh_executor, toy_world 124)
      = (r, (fx', w')) /\ idle fx' /\ os_running w' ⊆ ({[3%Z]} : gset Z).
Proof.
  pose proof (attempt_isolated sample_executor batch_request fresh_executor (toy_world 124)) as Hthm.
  revert Hthm. generalize (execute_attempt sample_executor batch_request (fresh_executor, toy_world 124)).
  intros [r [fx' w']] Hthm. exists r, fx', w'. split; [reflexivity|].
  destruct (Hthm r fx' w') as (_ & Hi & Hr & _).
  - split; [reflexivity|]. split; [reflexivity|]. right. reflexivity.
  - reflexivity.
  - split; [exact Hi | apply Hr; intros w1 w2; reflexivity].
Defined.

(** C12: what an attempt answers, whatever the guest reports: for a request of the
    batch capability a result exactly when the reported usage adds up within its
    bounds, and an error otherwise; and a result satisfies the canonical contract,
    names the node and the runtime, and either accepts with the full score after
    all five stages or rejects with one of four verdicts, of which a wrong answer
    is none. *)
Theorem attempt_verdicts {W : Type} `{HostOs W, TokioRuntime W, SerdeJson, UnicodeText}
    (config : FirecrackerExecutorConfig) (request : EvaluationRequest) (fx : FirecrackerExecutor)
    (w : W) :
  valid request -> valid (xc_node_id config) ->
  (batch_only request ->
   exists os s', Executes (H := firecracker_stages config) request ALGORITHM_BATCH_STAGES
                   (begin_attempt fx, w) os s' /\
     ((exists r, fst (execute_attempt config request (fx, w)) = Ok r) <->
      valid (trace_usage ResourceUsage_default os))) /\
  (forall r, fst (execute_attempt config request (fx, w)) = Ok r ->
   batch_only request /\ valid r /\
   res_provenance r = attempt_provenance config request /\
   (res_verdict r ∈ [Verdict.CompileError; Verdict.RuntimeError; Verdict.TimeLimitExceeded;
                     Verdict.SystemError] \/
    (res_verdict r = Verdict.Accepted /\ res_score r = MkScore 1 1 /\
     map sr_status (res_stages r) = replicate 5 StageStatus.Succeeded))).
Proof.
  intros Hreq Hnode. split.
  - intros Hb. destruct (Executes_total (H := firecracker_stages config) request
      ALGORITHM_BATCH_STAGES (begin_attempt fx, w)) as (os & s' & He).
    exists os, s'. split; [done|]. split.
    + intros [r Hr]. apply attempt_characterised in Hr as (_ & os' & s2 & t & He' & Hu & _); [|done..].
      by destruct (Executes_unique _ _ _ _ _ _ _ He He') as [-> _].
    + intros Hu. destruct (executor_conforms _ _ _ _ _ _ He) as [Hv Hc].
      pose proof (firecracker_laws config Hnode) as Hlaws.
      destruct (trace_row _ _ _ _ He Hc) as (t & Ht & _).
      eexists. apply attempt_characterised; [done..|]. split; [done|]. by exists os, s', t.
  - intros r Hr. pose proof (attempt_result_valid config request fx w r Hreq Hnode Hr) as Hv.
    apply attempt_characterised in Hr as (Hb & os & s' & t & He & Hu & Ht & ->); [|done..].
    split; [done|]. split; [done|]. split; [done|].
    destruct (executor_verdicts _ _ _ _ _ _ He Ht) as [?|[-> _]]; [by left|]. right.
    split; [done|]. split; [done|].
    destruct Hv as (_ & _ & _ & _ & _ & _ & _ & [[_ Hrow _] _ _ _]). exact Hrow.
Qed.

Lemma attempt_verdicts_witness :
  exists r, fst (execute_attempt sample_executor batch_request (fresh_executor, toy_world 124)) = Ok r /\
    valid r /\ res_provenance r = attempt_provenance sample_executor batch_request /\
    res_verdict r = Verdict.TimeLimitExceeded.
Proof.
  assert (Hv : attempt_verdict 124 = Some Verdict.TimeLimitExceeded) by (vm_compute; reflexivity).
  destruct (attempt_verdicts sample_executor batch_request fresh_executor (toy_world 124)
    batch_request_valid) as [_ Hok]; [vm_compute; reflexivity|].
  unfold attempt_verdict in Hv. revert Hv Hok.
  generalize (execute_attempt sample_executor batch_request (fresh_executor, toy_world 124)).
  intros [[r|e] s] Hv Hok; [|discriminate Hv]. injection Hv as Hv. exists r.
  destruct (Hok r eq_refl) as (_ & Hval & Hp & _). split; [reflexivity|]. split; [exact Hval|].
  split; [exact Hp | exact Hv].
Defined.

(** C16: a machine is reclaimed whatever happens to it: its bootstrap ends, with
    a started machine or an error, and from the state it leaves [terminate]
    succeeds, the phase is final and no process of the handle's making is alive.
    Dropping the handle instead does not wait: a process of its making that is
    still alive then has been sent a kill. *)
Theorem vm_reclaimed {W : Type} `{HostOsLaws W, SerdeJson, UnicodeText}
    (config : FirecrackerConfig) (firecracker_path api_socket : string) (production : bool)
    (w : W) r vm w1 :
  bootstrap production (FirecrackerVm_new config firecracker_path api_socket, w) = (r, (vm, w1)) ->
  r <> Err OutOfFuel /\ (r = Ok tt -> vm_phase vm = VmPhase.Started) /\
  (exists vm' w', terminate (vm, w1) = (Ok tt, (vm', w')) /\
     vm_phase vm' = VmPhase.Terminated /\ vm_child vm' = None /\ os_running w' ⊆ os_running w) /\
  os_running (vm_drop vm w1) ⊆ os_running w ∪ os_killed (vm_drop vm w1).
Proof.
  set (vm0 := FirecrackerVm_new config firecracker_path api_socket). intros Hrun.
  pose proof (bootstrap_never_stuck production (vm0, w)) as Hends.
  assert (Ht : forall others, Baseline others -> os_running w ⊆ others w -> tracked others (vm, w1)).
  { intros others Hb Hw. pose proof (bootstrap_keeps others production (vm0, w)
      (tracked_new _ config firecracker_path api_socket w Hw)) as Ht. by rewrite Hrun in Ht. }
  rewrite Hrun in Hends. split; [done|]. split.
  { intros ->. by apply bootstrap_started in Hrun as [_ ?]. }
  split.
  - apply (terminate_reclaims (fun _ => os_running w)). by apply Ht; [apply _|].
  - apply (drop_signals (fun w2 => os_running w ∪ os_killed w2)); [set_solver|].
    apply Ht; [apply _ | set_solver].
Qed.

Lemma vm_reclaimed_witness :
  exists r vm w1, bootstrap false (FirecrackerVm_new sample_vm_config "/usr/bin/firecracker" "/fc.sock",
                                   toy_world 0) = (r, (vm, w1)) /\
    (exists vm' w', terminate (vm, w1) = (Ok tt, (vm', w')) /\ os_running w' ⊆ ({[3%Z]} : gset Z)) /\
    os_running (vm_drop vm w1) ⊆ ({[3%Z]} : gset Z) ∪ os_killed (vm_drop vm w1) /\
    bool_decide (7%Z ∈ os_running (vm_drop vm w1)) = true.
Proof.
  pose proof (vm_reclaimed sample_vm_config "/usr/bin/firecracker" "/fc.sock" false (toy_world 0)) as Hthm.
  assert (Halive : bool_decide (7%Z ∈ os_running (let '(vm, w1) := snd (bootstrap false
            (FirecrackerVm_new sample_vm_config "/usr/bin/firecracker" "/fc.sock", toy_world 0))
          in vm_drop vm w1)) = true) by (vm_compute; reflexivity).
  revert Hthm Halive. generalize (bootstrap false (FirecrackerVm_new sample_vm_config
    "/usr/bin/firecracker" "/fc.sock", toy_world 0)).
  intros [r [vm w1]] Hthm Halive. exists r, vm, w1. split; [reflexivity|].
  destruct (Hthm r vm w1 eq_refl) as (_ & _ & (vm' & w' & Ht & _ & _ & Hr) & Hdrop).
  split; [exists vm', w'; split; [exact Ht | exact Hr]|]. split; [exact Hdrop | exact Halive].
Defined.

(** The guest channel opens: when a started machine's guest accepts
    connections from some moment on and the tries before that moment end within
    the waiting time, the channel is opened. *)
Theorem guest_channel_opens {W : Type} `{HostOsLaws W, SerdeJson, UnicodeText}
    (vm : FirecrackerVm) (w : W) (ready : Z) :
  let attempt := Machine.connect (W := W) (fc_vsock_uds_path (vm_config vm))
                   (vc_port (fc_vsock (vm_config vm))) DEFAULT_READ_TIMEOUT in
  VmPhase.can_communicate (vm_phase vm) = true ->
  (forall w1, (ready <= os_now w1)%Z -> exists channel, fst (attempt w1) = Ok channel) ->
  (forall w1, (os_now w1 < ready)%Z ->
     (os_now (snd (attempt w1)) < os_now w + DEFAULT_CONNECT_WAIT)%Z) ->
  exists channel, fst (open_guest_channel vm w) = Ok channel.
Proof. apply open_guest_channel_reaches. Qed.

Lemma guest_channel_opens_witness :
  exists channel, fst (open_guest_channel started_vm (MkLate 0 EmptyString)) = Ok channel.
Proof.
  apply (guest_channel_opens started_vm (MkLate 0 EmptyString) 120).
  - vm_compute; reflexivity.
  - intros w Hw. exists (MkGuestChannel 1 DEFAULT_READ_TIMEOUT). apply late_connect_up. exact Hw.
  - intros w Hw. rewrite late_connect_down by exact Hw. simpl. unfold DEFAULT_CONNECT_WAIT.
    change (os_now w) with (late_now w) in Hw. lia.
Defined.

(** ** The guest protocol and the guest agent *)

(** C21: frames round-trip: whatever follows it on the stream, the frame of a
    message decodes to that message exactly when the message respects the bounds
    the decoder checks, and it is within the size bound; conversely everything the
    decoder accepts is well-formed and bounded. *)
Theorem frame_roundtrip `{SerdeJsonLaws} (m : Message) (frame rest : bytes) :
  valid m -> encode m = Ok frame ->
  (str_len frame <= MAX_FRAME_BYTES)%Z /\
  (decode (frame +:+ rest) = Ok m <-> message_bounded m) /\
  (forall frame' m', decode frame' = Ok m' -> valid m' /\ message_bounded m').
Proof.
  intros Hv He. split; [by eapply encode_len|]. split; [by apply decode_encode|].
  intros frame' m'. apply decode_bounded.
Qed.

Lemma frame_roundtrip_witness :
  decode (frame_of (stage_reply Stage.Run 124) +:+ "next") = Ok (stage_reply Stage.Run 124).
Proof.
  destruct (ok_with (encode (stage_reply Stage.Run 124)) (fun _ => true)) as (frame & He & _);
    [vm_compute; reflexivity|].
  assert (Hv : valid (stage_reply Stage.Run 124)) by (repeat split; vm_compute; discriminate || constructor).
  assert (Hb : message_bounded (stage_reply Stage.Run 124))
    by (split; [vm_compute; discriminate | split; [vm_compute; discriminate | constructor]]).
  destruct (frame_roundtrip (stage_reply Stage.Run 124) frame "next" Hv He) as (_ & Hd & _).
  unfold frame_of. rewrite He. apply Hd. exact Hb.
Defined.

(** C19: the agent and the evaluator agree on reports: what the agent sends for a
    command, the host decodes; and if the command took at most a day, the host
    turns the report into the execution it stands for exactly when every line of
    stderr the report quotes is short enough to be a diagnostic. *)
Theorem agent_report_admitted {W : Type} `{GuestOsLaws W, Sha256Laws, SerdeJsonLaws, UnicodeTextLaws}
    (stage : Stage.t) (argv : list string) (work : string) (budget : Z) (w : W) m w' :
  stage_output stage argv work budget w = (Ok m, w') ->
  exists exit_code digest output_bytes usage diagnostics,
    m = StageOutput stage exit_code digest output_bytes usage diagnostics /\
    (forall frame rest, encode m = Ok frame -> decode (frame +:+ rest) = Ok m) /\
    ((gu_wall_time_ms usage <= MAX_WALL_TIME_MS)%Z ->
     forall x, execution_for_stage_output (host_stage stage) exit_code digest output_bytes usage
                 diagnostics = Ok x <->
       Forall short_message diagnostics /\
       x = host_execution (host_stage stage) exit_code digest output_bytes usage diagnostics).
Proof.
  intros Hrun. destruct (stage_output_bounded _ _ _ _ _ _ _ Hrun) as [Hv Hb].
  destruct (stage_output_admissible _ _ _ _ _ _ _ Hrun) as (code & digest & size & usage & ds & -> & Ha).
  exists code, digest, size, usage, ds. split; [done|]. split.
  { intros frame rest He. by apply decode_encode. }
  intros Hwall x. by rewrite execution_iff, (Ha Hwall).
Qed.

Definition short_build : ToyGuest := MkToyGuest 0 20 "warning: unused" EmptyString ∅.

Lemma agent_report_admitted_witness :
  exists m w' exit_code digest output_bytes usage diagnostics,
    stage_output Stage.Build ["cc"; "main.c"] "/work" 1000 short_build = (Ok m, w') /\
    m = StageOutput Stage.Build exit_code digest output_bytes usage diagnostics /\
    (Forall short_message diagnostics <->
     exists x, execution_for_stage_output StageKind.Build exit_code digest output_bytes usage
                 diagnostics = Ok x).
Proof.
  assert (Hwall : match fst (stage_output Stage.Build ["cc"; "main.c"] "/work" 1000 short_build) with
            | Ok (StageOutput _ _ _ _ usage _) => (gu_wall_time_ms usage <=? MAX_WALL_TIME_MS)%Z
            | _ => false
            end = true) by (vm_compute; reflexivity).
  pose proof (agent_report_admitted Stage.Build ["cc"; "main.c"] "/work" 1000 short_build) as Hthm.
  revert Hwall Hthm. generalize (stage_output Stage.Build ["cc"; "main.c"] "/work" 1000 short_build).
  intros [[m|e] w'] Hwall Hthm; [|discriminate Hwall].
  destruct (Hthm m w' eq_refl) as (code & digest & size & usage & ds & Hm & _ & Hx). subst m.
  do 7 eexists. split; [reflexivity|]. split; [reflexivity|]. simpl in Hwall. apply Z.leb_le in Hwall.
  specialize (Hx Hwall). split.
  - intros Hs. eexists. apply Hx. split; [exact Hs | reflexivity].
  - intros [x He]. apply Hx in He as [Hs _]. exact Hs.
Defined.

(** C39: what becomes of a message of the host: it is answered with the reply it
    asks for, or the agent returns an error, for a name that is not safe, an empty
    command, a message only the guest sends or a call of the operating system that
    fails, or a read of the pipe of a command that has exited never returns;
    nothing else keeps the agent from answering. The wait for a command takes at
    most one poll per ten milliseconds of its budget and two more, and a command
    that never exits is killed, not before its budget is over, and reported with
    the timeout's exit code. A message without an answer ends the session: the
    agent sends nothing and serves no further frame; of those a host can encode,
    none is an empty command or an unsafe name. *)
Theorem agent_commands_end {W : Type} `{GuestOsLaws W, Sha256Laws, SerdeJsonLaws, UnicodeText}
    (message : Message) (work : string) (w : W) :
  valid message ->
  match fst (handle message work w) with
  | Ok (Some reply) => answered_by message reply
  | Ok None => False
  | Err (AgentHalt.Raised e) => unanswered (W := W) message (Some e)
  | Err AgentHalt.Blocked => unanswered (W := W) message None
  | Err AgentHalt.OutOfFuel => False
  end /\
  (forall child budget, (0 <= budget)%Z ->
   (forall rounds, (retry_fuel budget WAIT_POLL <= rounds)%nat ->
      wait_rounds rounds child (gs_now w) budget w = wait_with_timeout child budget w) /\
   ((forall w1, fst (gs_try_wait child w1) = Ok None) ->
    exists w1, (budget <= gs_now w1 - gs_now w)%Z /\
      wait_with_timeout child budget w =
        (Ok (MkCommandOutput TIMEOUT_EXIT_CODE EmptyString "guest stage timed out"),
         gs_kill_wait child w1))) /\
  (forall prefix body w0 w1 frames e,
   message_bounded message -> encode message = Ok (prefix +:+ body) ->
   String.length prefix = 4%nat -> gs_read 4 w0 = (Ok prefix, w1) ->
   gs_read_exact (String.length body) w1 = (Ok body, w) -> fst (handle message work w) = Err e ->
   serve (S frames) work w0 = (Err e, snd (handle message work w)) /\
   e <> AgentHalt.Raised AgentError.EmptyArgv /\
   (forall name, e <> AgentHalt.Raised (AgentError.UnsafeName name))).
Proof.
  intros Hv. pose proof (handle_outcome message work w Hv) as Ho. split; [exact Ho|].
  split; [intros child budget Hb; by apply wait_with_timeout_spec|].
  intros prefix body w0 w1 frames e Hb He Hp Hread Hbody Herr. split.
  - cbn [serve]. unfold eff_bind at 1. rewrite (frame_served work message prefix body w0 w1 w) by done.
    unfold eff_bind. destruct (handle message work w) as [r w2]. simpl in Herr. by rewrite Herr.
  - rewrite Herr in Ho. by apply (carried_answerable message (prefix +:+ body)).
Qed.

Lemma agent_commands_end_witness :
  (exists reply, fst (handle (Run ["sleep"; "infinity"] 100) "/work" (MkHung 0)) = Ok (Some reply) /\
     answered_by (Run ["sleep"; "infinity"] 100) reply) /\
  fst (wait_with_timeout 9 100 (MkHung 0)) =
    Ok (MkCommandOutput 124 EmptyString "guest stage timed out") /\
  fst (handle (Build ["cc"; "main.c"] 1000) "/work" (MkHeldPipe 0)) = Err AgentHalt.Blocked /\
  pipe_blocks (W := HeldPipe).
Proof.
  destruct (agent_commands_end (Run ["sleep"; "infinity"] 100) "/work" (MkHung 0)) as (He & Ht & _).
  { split; vm_compute; discriminate. }
  destruct (agent_commands_end (Build ["cc"; "main.c"] 1000) "/work" (MkHeldPipe 0)) as (Hblocked & _).
  { split; vm_compute; discriminate. }
  assert (Hreply : is_reply (fst (handle (Run ["sleep"; "infinity"] 100) "/work" (MkHung 0))) = true)
    by (vm_compute; reflexivity).
  assert (Hheld : fst (handle (Build ["cc"; "main.c"] 1000) "/work" (MkHeldPipe 0)) = Err AgentHalt.Blocked)
    by (vm_compute; reflexivity).
  rewrite Hheld in Hblocked. revert He Hreply.
  generalize (fst (handle (Run ["sleep"; "infinity"] 100) "/work" (MkHung 0))).
  intros [[reply|]|e] He Hreply; [|discriminate Hreply..].
  split; [exists reply; split; [reflexivity | exact He]|].
  destruct (Ht 9%Z 100%Z) as [_ Hkilled]; [lia|].
  destruct Hkilled as (w1 & _ & Hw); [reflexivity|].
  split; [rewrite Hw; reflexivity|]. split; [exact Hheld | exact (proj2 Hblocked)].
Defined.

(** C22: uploads stay in the input directory: a name that could leave it or
    contents that do not match their digest write nothing, every other upload is
    written to exactly one path, and no name the protocol admits is refused. That
    path is the file of that name directly below the input directory, unless the
    name is a dot, which is not refused: then it is the input directory itself,
    which is not a file. *)
Theorem uploads_confined {W : Type} `{GuestOs W, Sha256} (work name digest : string) (contents : bytes) :
  (unsafe_name name = true ->
   write_input (W := W) work name digest contents =
     eff_fail (AgentHalt.Raised (AgentError.UnsafeName name))) /\
  (unsafe_name name = false -> digest <> hex (sha256 contents) ->
   write_input (W := W) work name digest contents = eff_ret false) /\
  (unsafe_name name = false ->
   exists path, safe_input_path work name = Ok path /\
     write_input (W := W) work name (hex (sha256 contents)) contents =
       (run* match path_parent path with
             | Some parent => agent_io (gs_create_dir_all parent)
             | None => eff_ret tt
             end in
        run* agent_io (gs_write_file path contents) in
        eff_ret true) /\
     (name <> "." -> path_parent path = Some (path_join work INPUT_DIR) /\
                     path_file_name path = Some name) /\
     (name = "." -> path_parent path = path_parent (path_join work INPUT_DIR) /\
                    path_file_name path = Some INPUT_DIR)) /\
  (check_name name = Ok tt -> unsafe_name name = false) /\
  check_name "." = Ok tt.
Proof.
  split; [apply write_input_unsafe|]. split; [apply write_input_refused|].
  split; [apply write_input_stored|]. split; [apply checked_name_safe | done].
Qed.

Lemma uploads_confined_witness :
  exists path, path_parent path = Some "/work/inputs" /\ path_file_name path = Some "main.c" /\
    fst (write_input "/work" "main.c" (hex (sha256 "int main;")) "int main;" short_build) = Ok true.
Proof.
  destruct (uploads_confined (W := ToyGuest) "/work" "main.c" "" "int main;") as (_ & _ & Hs & Hc & _).
  destruct Hs as (path & _ & Hw & Hbelow & _); [apply Hc; vm_compute; reflexivity|].
  destruct Hbelow as [Hp Hf]; [discriminate|].
  exists path. split; [exact Hp|]. split; [exact Hf|]. rewrite Hw, Hp. vm_compute. reflexivity.
Defined.

(** ** The control API of the microVM *)

(** C40: reading an API answer never reads out of bounds and never panics: every
    stream has an outcome, a success has a success status and a bounded body; and
    a complete answer is read exactly, whatever follows it. *)
Theorem api_response_sound `{UnicodeText} (s : Stream) (head body rest : bytes) (closed : bool) :
  (exists r, response_outcome s = Some r /\
     match r with
     | Ok (status, body) => (200 <= status <= 299)%Z /\ (str_len body <= MAX_API_BODY)%Z
     | Err _ => True
     end) /\
  (let full := head +:+ HEAD_END in
   head_end full = Some (String.length head) -> (str_len full <= MAX_HEADER)%Z ->
   content_length (str_lines (from_utf8_lossy full)) = Some (str_len body) ->
   (str_len full + str_len body <= MAX_API_BODY)%Z ->
   response_outcome (MkStream (full +:+ body +:+ rest) closed) =
   Some (if in_range 200 299 (status_of head) then Ok (status_of head, body)
         else Err (FirecrackerError.ControlApi (status_of head) (from_utf8_lossy body)))).
Proof. split; [apply response_sound | apply response_exact]. Qed.

Lemma api_response_sound_witness :
  response_outcome (MkStream ("HTTP/1.1 200 OK" +:+ CRLF +:+ "Content-Length: 2" +:+ HEAD_END +:+ "{}" +:+ "junk")
                      false) = Some (Ok (200%Z, "{}")).
Proof.
  destruct (api_response_sound no_content ("HTTP/1.1 200 OK" +:+ CRLF +:+ "Content-Length: 2") "{}" "junk" false)
    as [_ Hx].
  specialize (Hx ltac:(vm_compute; reflexivity) ltac:(vm_compute; discriminate)
                 ltac:(vm_compute; reflexivity) ltac:(vm_compute; discriminate)).
  exact Hx.
Defined.
