(* ===== verification/PropSystem.v ===== *)
(** * Properties of the whole program

    What the parts promise together: an attempt comes to the verdict its guest's
    commands earned, and a submission to an idle deployment comes to a stored
    verdict. *)

From Stdlib Require Import Sorted.
From S2P Require Import Prelude Value Control Evaluation EvalResult Application Pipeline Json Codec Protocol ProtocolLaws Policy Schema Store Lease StoreLemmas StoreInv StoreSystem StoreRuns StoreRecover StoreRequeue StoreProgress Fixtures Text Guest GuestLaws Evaluator Effects Firecracker HttpApi Host Machine MachineLaws Executor ExecutorLaws Agent AgentLaws Session ControlPlane Worker JudgeNode PlaneLaws StartupLaws PlaneSystem PlaneProgress PlaneQueue PlaneRecovery PlaneFixtures.

(** ** Host and guest *)

(** C6: an attempt is judged by the commands the guest runs: with the agent behind
    the channel, once the session opens and each command reports in time and
    quotes no over-long line, the attempt succeeds with a valid result of the
    request, which is a compile error if the build exits with another code than
    zero, and otherwise accepts, times out or is a runtime error as the run exits
    with zero, the timeout's code or another. *)
Theorem attempt_judges_commands {W G : Type}
    `{HostOs W, TokioRuntime W, GuestOsLaws G, Sha256Laws, SerdeJsonLaws, UnicodeTextLaws}
    (work : string) (config : FirecrackerExecutorConfig) (request : EvaluationRequest)
    (fx : FirecrackerExecutor) (j : Joint W G) (g1 g2 : G) (build_code run_code : Z) :
  valid request -> valid (xc_node_id config) -> batch_only request -> idle fx -> requests_carried ->
  fst (ensure_session (H := joint_host work) config (fresh_executor, j)) = Ok tt ->
  reports work Stage.Build (default_argv "build") BUILD_WALL_MS (pg_guest (jt_agent j)) g1 build_code ->
  (build_code = 0%Z -> reports work Stage.Run (default_argv "run") RUN_WALL_MS g1 g2 run_code) ->
  exists r, fst (execute_attempt (H := joint_host work) config request (fx, j)) = Ok r /\ valid r /\
    res_identity r = EvaluationIdentity_from_request request /\
    res_provenance r = attempt_provenance config request /\
    res_verdict r = judged build_code run_code.
Proof.
  intros Hreq Hnode Hb Hidle Hc Hboot Hbuild Hrun. by eapply attempt_judged.
Qed.

Lemma attempt_judges_commands_witness :
  exists r, fst (execute_attempt (H := joint_host "/work") sample_executor batch_request
                   (fresh_executor, joint_world (MkToyGuest 0 20 "warning: unused" EmptyString ∅))) = Ok r /\
    res_verdict r = Verdict.Accepted.
Proof.
  set (g := MkToyGuest 0 20 "warning: unused" EmptyString ∅).
  destruct (report_of "/work" Stage.Build (default_argv "build") BUILD_WALL_MS g 0) as [g1 [Hg1 Hb]];
    [vm_compute; reflexivity|].
  destruct (report_of "/work" Stage.Run (default_argv "run") RUN_WALL_MS g1 0) as [g2 [_ Hr]];
    [rewrite <- Hg1; vm_compute; reflexivity|].
  destruct (attempt_judges_commands "/work" sample_executor batch_request fresh_executor (joint_world g)
    g1 g2 0 0) as (r & Hr1 & _ & _ & _ & Hv).
  - exact batch_request_valid.
  - vm_compute; reflexivity.
  - apply Forall_singleton. reflexivity.
  - split; [reflexivity|]. split; [reflexivity|]. right. reflexivity.
  - split; [|split; [|split]]; eexists; vm_compute; reflexivity.
  - vm_compute; reflexivity.
  - exact Hb.
  - intros _. exact Hr.
  - exists r. split; [exact Hr1 | exact Hv].
Defined.

(** C23: a build that takes longer than the channel's read timeout, although within
    its own budget, is a system error whatever the guest reports. *)
Theorem slow_build_fails {W G : Type}
    `{HostOs W, TokioRuntime W, GuestOsLaws G, Sha256Laws, SerdeJsonLaws, UnicodeTextLaws}
    (work : string) (config : FirecrackerExecutorConfig) (request : EvaluationRequest)
    (fx : FirecrackerExecutor) (j : Joint W G) :
  valid request -> valid (xc_node_id config) -> batch_only request -> idle fx -> requests_carried ->
  fst (ensure_session (H := joint_host work) config (fresh_executor, j)) = Ok tt ->
  reports_late work Stage.Build (default_argv "build") BUILD_WALL_MS (pg_guest (jt_agent j)) ->
  exists r, fst (execute_attempt (H := joint_host work) config request (fx, j)) = Ok r /\ valid r /\
    res_identity r = EvaluationIdentity_from_request request /\
    res_provenance r = attempt_provenance config request /\ res_verdict r = Verdict.SystemError.
Proof.
  intros Hreq Hnode Hb Hidle Hc Hboot Hlate.
  destruct (ensure_session config (fresh_executor, j)) as [o s1] eqn:He. simpl in Hboot. subst o.
  destruct (late_run work config Hc request _ j s1 eq_refl He Hlate)
    as (os & s' & t & Hex & Hu & Ht & <-).
  by apply (attempt_of_trace work config request fx j os s' t).
Qed.

Lemma slow_build_fails_witness :
  exists r, fst (execute_attempt (H := joint_host "/work") sample_executor batch_request
                   (fresh_executor, joint_world (MkToyGuest 0 20000 EmptyString EmptyString ∅))) = Ok r /\
    res_verdict r = Verdict.SystemError.
Proof.
  set (g := MkToyGuest 0 20000 EmptyString EmptyString ∅).
  destruct (slow_build_fails "/work" sample_executor batch_request fresh_executor (joint_world g))
    as (r & Hr & _ & _ & _ & Hv).
  - exact batch_request_valid.
  - vm_compute; reflexivity.
  - apply Forall_singleton. reflexivity.
  - split; [reflexivity|]. split; [reflexivity|]. right. reflexivity.
  - split; [|split; [|split]]; eexists; vm_compute; reflexivity.
  - vm_compute; reflexivity.
  - apply (late_of _ _ _ _ _ 0). vm_compute. reflexivity.
  - exists r. split; [exact Hr | exact Hv].
Defined.


(** ** From a submission to its verdict *)

(** C1: a submission to an idle deployment is judged: a request that can be stored
    is created, and one iteration of the node's worker, whose three calls are
    delivered in time, claims it, runs the executor on exactly this request and
    reports a submission; afterwards the evaluation's status is that of the
    executor's result, which is stored under the operation's key. *)
Theorem submission_judged `{Collation, RequestCodecLaws, !ResultCodec, !ResultCodecLaws}
    {E} `{JudgeExecutor E} (service : JudgeControlService) (client : UdsJudgeControlClient)
    (command : CreateEvaluation) (co : ClaimOperationId) (ro : ResultOperationId)
    (db : Db) (payload p : string) (draw : string) (token : LeaseToken)
    (now1 now2 now3 : UnixMillis) (e e' : E) (x : EvaluationResult) :
  deployed service client -> Submittable client db command payload co ro ->
  source_lease_token (Some draw) = Ok token -> Judges client (ce_request command) e x p e' ->
  in_time service (um_value (ce_created_at command)) now1 now2 now3 ->
  exists s db1 plane',
    run_op (create_evaluation command) [] db = (Some (Ok s), [], db1) /\
    run_once_async (H0 := plane_client service client) co ro
      (e, MkPlane db1 [Some draw] [served_call now1; served_call now2; served_call now3])
      = (Ok Submitted, (e', plane')) /\
    concluded (pl_db plane') (ce_request command) x p (id_str ro).
Proof. intros. by eapply submission_concludes. Qed.

Lemma submission_judged_witness :
  exists s db1 plane' p,
    run_op (create_evaluation create_1) [] empty_db = (Some (Ok s), [], db1) /\
    run_once_async (H0 := plane_client sample_service sample_client) (MkId "claim-op-1") (MkId "result-op-1")
      (Accepting, MkPlane db1 [Some "aa"] (map served_call [MkMillis 2000; MkMillis 2500; MkMillis 3000]))
      = (Ok Submitted, (Accepting, plane')) /\
    concluded (pl_db plane') request_1 (result_of request_1 Accepting) p "result-op-1".
Proof.
  assert (Hv : valid (result_of request_1 Accepting)).
  { eapply evaluate_result_is_valid; [exact request_1_valid|].
    apply (result_1_evaluated Accepting). discriminate. }
  destruct (ok_with (encode_evaluation_result (result_of request_1 Accepting)) (fun _ => true))
    as (p & Hp & _); [vm_compute; reflexivity|].
  destruct (ok_with (encode_evaluation_request request_1) (fun _ => true))
    as (payload & Hpl & _); [vm_compute; reflexivity|].
  destruct (submission_judged sample_service sample_client create_1 (MkId "claim-op-1") (MkId "result-op-1")
    empty_db payload p "aa" (MkId "lease_aa") (MkMillis 2000) (MkMillis 2500) (MkMillis 3000)
    Accepting Accepting (result_of request_1 Accepting)) as (s & db1 & plane' & Hc & Hw & Hd).
  - exact sample_deployed.
  - apply submittable_empty.
    + exact request_1_valid.
    + vm_compute; split; discriminate.
    + exact Hpl.
    + vm_compute; reflexivity.
    + intros c Hc. exact Hc.
    + vm_compute; reflexivity.
    + vm_compute; reflexivity.
  - vm_compute; reflexivity.
  - split; [|exact Hv|exact Hp|vm_compute; reflexivity|vm_compute; reflexivity].
    apply (result_1_evaluated Accepting). discriminate.
  - split; [|split; [|split; [|split; [|split]]]]; repeat split; vm_compute; discriminate.
  - exists s, db1, plane', p. split; [exact Hc|]. split; [exact Hw | exact Hd].
Defined.

(** C2: a node drains its queue, oldest first: with a turn of fresh identifiers and
    timely calls for each task that waits, and an executor that serves them, the
    worker's loop runs through without an error, whatever it does when it finds
    nothing, and leaves no task of the node waiting. Each task was executed exactly once, in the order of the claim query,
    from the state the one before left, and its evaluation still shows the
    executor's result, stored under its turn's key, when the loop is done. *)
Theorem queue_drained `{Collation, RequestCodecLaws, !ResultCodec, !ResultCodecLaws}
    {E} `{JudgeExecutor E} (service : JudgeControlService) (client : UdsJudgeControlClient)
    (P : E -> Prop) (sleep : Plane -> Plane) (db : Db) (latest : Z) (turns : list Turn) (e : E) :
  deployed service client -> Inv db -> servable client P db latest -> P e ->
  Turns service db latest turns -> length turns = length (waiting client db) ->
  exists queue db' e',
    queue ≡ₚ waiting client db /\ StronglySorted before queue /\
    run_loop (H0 := plane_client service client) sleep (map turn_operations turns) (e, plane_at db turns)
      = (None, (e', plane_at db' [])) /\
    waiting client db' = [] /\ Judged client db' queue turns e e' /\
    rtc Evolves db db' /\ Inv db' /\ P e'.
Proof. intros. by eapply queue_judged. Qed.

Lemma queue_drained_witness :
  exists queue db' e',
    map (fun x => fst (fst x)) queue = ["attempt-0"; "attempt-1"] /\
    run_loop (H0 := plane_client sample_service sample_client) (fun c => c) (map turn_operations (two_turns 1000))
      (Accepting, plane_at db_two (two_turns 1000)) = (None, (e', plane_at db' [])) /\
    waiting sample_client db' = [] /\ Judged sample_client db' queue (two_turns 1000) Accepting e'.
Proof.
  destruct (queue_drained sample_service sample_client accepting (fun c => c) db_two 1000 (two_turns 1000) Accepting)
    as (queue & db' & e' & Hq & Hsort & Hloop & Hnone & Hj & _).
  - exact sample_deployed.
  - apply (with_second_Inv db_created db_created_reachable). vm_compute. reflexivity.
  - apply servable_with. vm_compute. reflexivity.
  - reflexivity.
  - apply two_turns_ready; [lia|lia|vm_compute; reflexivity].
  - vm_compute. reflexivity.
  - exists queue, db', e'. split; [|split; [exact Hloop | split; [exact Hnone | exact Hj]]].
    exact (two_order queue Hq Hsort).
Defined.

(** C3: a submission comes to the verdict its guest's commands earn: with the
    Firecracker executor and the agent in its machine behind the node, the same
    iteration answers, stores and shows the verdict of the build's and the run's
    exit codes. This is for a deployed node with an idle queue, as in
    [submission_judged], whose calls are delivered in time, once the guest session
    opens and as long as each command the guest runs reports within the channel's
    read timeout and quotes no line that is too long for the host ([reports]). *)
Theorem guest_verdict_stored {W G : Type}
    `{HostOs W, TokioRuntime W, GuestOsLaws G, Sha256Laws, SerdeJsonLaws, UnicodeTextLaws,
      Collation, RequestCodecLaws, !ResultCodec, !ResultCodecLaws}
    (service : JudgeControlService) (client : UdsJudgeControlClient) (command : CreateEvaluation)
    (co : ClaimOperationId) (ro : ResultOperationId) (db : Db) (payload : string) (draw : string)
    (token : LeaseToken) (now1 now2 now3 : UnixMillis) (work : string)
    (config : FirecrackerExecutorConfig) (fx : FirecrackerExecutor) (j : Joint W G) (g1 g2 : G)
    (build_code run_code : Z) :
  deployed service client -> uc_node_id client = xc_node_id config ->
  Submittable client db command payload co ro -> batch_only (ce_request command) ->
  source_lease_token (Some draw) = Ok token ->
  in_time service (um_value (ce_created_at command)) now1 now2 now3 ->
  idle fx -> requests_carried ->
  fst (ensure_session (H := joint_host work) config (fresh_executor, j)) = Ok tt ->
  reports work Stage.Build (default_argv "build") BUILD_WALL_MS (pg_guest (jt_agent j)) g1 build_code ->
  (build_code = 0%Z -> reports work Stage.Run (default_argv "run") RUN_WALL_MS g1 g2 run_code) ->
  let executor := firecracker_judge (H := joint_host work) config in
  exists x s', je_execute (JudgeExecutor := executor) (ce_request command) (fx, j) = (Ok x, s') /\
    res_verdict x = judged build_code run_code /\
    forall p, encode_evaluation_result x = Ok p ->
    exists s db1 plane',
      run_op (create_evaluation command) [] db = (Some (Ok s), [], db1) /\
      run_once_async (H := executor) (H0 := plane_client service client) co ro
        ((fx, j), MkPlane db1 [Some draw] [served_call now1; served_call now2; served_call now3])
        = (Ok Submitted, (s', plane')) /\
      concluded (pl_db plane') (ce_request command) x p (id_str ro).
Proof.
  intros Hd Hnode Hsub Hb Htok Htime Hidle Hc Hboot Hbuild Hrun executor.
  pose proof Hsub as [_ [Hreq _] _ _ _ _ _]. pose proof Hd as (_ & Hvn & _). rewrite Hnode in Hvn.
  destruct (attempt_judged work config _ Hc (ce_request command) fx j g1 g2 build_code run_code
    Hreq Hvn Hb Hidle Hboot Hbuild Hrun) as (x & Hx & Hv & Hid & Hprov & Hverdict).
  destruct (execute_attempt config (ce_request command) (fx, j)) as [o s'] eqn:He. simpl in Hx. subst o.
  exists x, s'. split; [exact He|]. split; [done|]. intros p Hp.
  eapply submission_concludes; [done|exact Hsub|exact Htok| |exact Htime].
  split; [exact He|done|done|done|]. rewrite Hprov, Hnode. done.
Qed.

Lemma guest_verdict_stored_witness :
  exists x s' p s db1 plane',
    let g := MkToyGuest 0 20 "warning: unused" EmptyString ∅ in
    let executor := firecracker_judge (H := joint_host "/work") sample_executor in
    res_verdict x = Verdict.Accepted /\
    run_op (create_evaluation (MkCreateEvaluation batch_request t0)) [] empty_db = (Some (Ok s), [], db1) /\
    run_once_async (H := executor) (H0 := plane_client batch_service batch_client)
      (MkId "claim-op-1") (MkId "result-op-1")
      ((fresh_executor, joint_world g),
       MkPlane db1 [Some "aa"] (map served_call [MkMillis 2000; MkMillis 2500; MkMillis 3000]))
      = (Ok Submitted, (s', plane')) /\
    concluded (pl_db plane') batch_request x p "result-op-1".
Proof.
  set (g := MkToyGuest 0 20 "warning: unused" EmptyString ∅).
  destruct (report_of "/work" Stage.Build (default_argv "build") BUILD_WALL_MS g 0) as [g1 [Hg1 Hb]];
    [vm_compute; reflexivity|].
  destruct (report_of "/work" Stage.Run (default_argv "run") RUN_WALL_MS g1 0) as [g2 [_ Hr]];
    [rewrite <- Hg1; vm_compute; reflexivity|].
  destruct (ok_with (encode_evaluation_request batch_request) (fun _ => true))
    as (payload & Hpl & _); [vm_compute; reflexivity|].
  assert (Henc : match fst (execute_attempt (H := joint_host "/work") sample_executor batch_request
                              (fresh_executor, joint_world g)) with
                 | Ok x => is_ok (encode_evaluation_result x) | Err _ => false end = true)
    by (vm_compute; reflexivity).
  destruct (guest_verdict_stored batch_service batch_client (MkCreateEvaluation batch_request t0)
    (MkId "claim-op-1") (MkId "result-op-1") empty_db payload "aa" (MkId "lease_aa")
    (MkMillis 2000) (MkMillis 2500) (MkMillis 3000) "/work" sample_executor fresh_executor (joint_world g)
    g1 g2 0 0) as (x & s' & Hx & Hv & Hstore).
  - exact batch_deployed.
  - vm_compute; reflexivity.
  - apply submittable_empty.
    + exact batch_request_valid.
    + vm_compute; split; discriminate.
    + exact Hpl.
    + vm_compute; reflexivity.
    + intros c Hc. exact Hc.
    + vm_compute; reflexivity.
    + vm_compute; reflexivity.
  - apply Forall_singleton. reflexivity.
  - vm_compute; reflexivity.
  - split; [|split; [|split; [|split; [|split]]]]; repeat split; vm_compute; discriminate.
  - split; [reflexivity|]. split; [reflexivity|]. right. reflexivity.
  - split; [|split; [|split]]; eexists; vm_compute; reflexivity.
  - vm_compute; reflexivity.
  - exact Hb.
  - intros _. exact Hr.
  - change (execute_attempt (H := joint_host "/work") sample_executor batch_request
              (fresh_executor, joint_world g) = (Ok x, s')) in Hx.
    rewrite Hx in Henc. cbn [fst] in Henc.
    destruct (encode_evaluation_result x) as [p|err] eqn:Hp; [|discriminate Henc].
    destruct (Hstore p eq_refl) as (s & db1 & plane' & Hc & Hw & Hd).
    exists x, s', p, s, db1, plane'. split; [exact Hv|]. split; [exact Hc|]. split; [exact Hw | exact Hd].
Defined.

(** ** After a crash *)

(** C8: a crash loses no submission: when the node that holds an attempt is gone
    and its lease has run out, the sweep replaces the attempt, and one iteration
    of another worker judges the next attempt of the same request: its result is
    stored and shown. *)
Theorem crashed_attempt_rejudged `{Collation, RequestCodecLaws, !ResultCodec, !ResultCodecLaws}
    {E} `{JudgeExecutor E} (service : JudgeControlService) (client : UdsJudgeControlClient)
    (db : Db) (now : UnixMillis) (r : EvaluationRequest) (d1 d2 payload : string)
    (co : ClaimOperationId) (ro : ResultOperationId) (fuel : nat) (draw : string) (token : LeaseToken)
    (now1 now2 now3 : UnixMillis) (e e' : E) (x : EvaluationResult) (p : string) :
  let next := next_attempt_of r (MkId ("attempt_" +:+ d1)) (MkKey ("idem_retry_" +:+ d2)) in
  deployed service client -> Abandoned client db now r d1 d2 payload co ro -> (1 < fuel)%nat ->
  source_lease_token (Some draw) = Ok token -> Judges client next e x p e' ->
  in_time service (um_value now) now1 now2 now3 ->
  exists db1 plane',
    run_op (recover_expired fuel now) [Some d1; Some d2] db = (Some (Ok 1%Z), [], db1) /\
    run_once_async (H0 := plane_client service client) co ro
      (e, MkPlane db1 [Some draw] [served_call now1; served_call now2; served_call now3])
      = (Ok Submitted, (e', plane')) /\
    concluded (pl_db plane') next x p (id_str ro).
Proof. intros. by eapply abandoned_concludes. Qed.

Definition retried_request_1 : EvaluationRequest :=
  next_attempt_of request_1 (MkId "attempt_aa") (MkKey "idem_retry_bb").

Lemma crashed_attempt_rejudged_witness :
  exists db1 plane' x p,
    run_op (recover_expired 2 late) [Some "aa"; Some "bb"] db_leased = (Some (Ok 1%Z), [], db1) /\
    run_once_async (H0 := plane_client sample_service sample_client) (MkId "claim-op-2") (MkId "result-op-2")
      (Accepting, MkPlane db1 [Some "aa"] (map served_call [MkMillis 21000; MkMillis 21500; MkMillis 22000]))
      = (Ok Submitted, (Accepting, plane')) /\
    concluded (pl_db plane') retried_request_1 x p "result-op-2".
Proof.
  destruct db_leased_reachable as [ops Hreach]. apply reachable_Inv in Hreach.
  destruct (ok_with (encode_evaluation_request retried_request_1) (fun _ => true))
    as (payload & Hpl & _); [vm_compute; reflexivity|].
  assert (Hv : valid retried_request_1).
  { apply next_attempt_valid; [exact request_1_valid|vm_compute; reflexivity|vm_compute; reflexivity|reflexivity]. }
  destruct (bench_serves retried_request_1 Hv ltac:(vm_compute; reflexivity)) as [_ Hserves].
  destruct (Hserves Accepting eq_refl) as (x & p & e' & Hj & ->).
  destruct (crashed_attempt_rejudged sample_service sample_client db_leased late request_1 "aa" "bb"
    payload (MkId "claim-op-2") (MkId "result-op-2") 2 "aa" (MkId "lease_aa")
    (MkMillis 21000) (MkMillis 21500) (MkMillis 22000) Accepting Accepting x p) as (db1 & plane' & Hr & Hw & Hd).
  - exact sample_deployed.
  - exact (leased_abandoned payload Hreach Hpl).
  - lia.
  - vm_compute; reflexivity.
  - exact Hj.
  - split; [|split; [|split; [|split; [|split]]]]; repeat split; vm_compute; discriminate.
  - exists db1, plane', x, p. split; [exact Hr|]. split; [exact Hw | exact Hd].
Defined.

(** C7: crashes lose no submission: whatever nodes are gone, a tick of the sweeper
    leaves no expired lease, and the node that then drains its queue answers every
    evaluation whose request it can take and which was waiting or given up: the
    loop runs through without an error, no task is left, and each of these
    evaluations shows a stored result of an attempt with the same semantics, be it
    its own or the next one the sweep made. *)
Theorem crashes_lose_nothing `{Collation, RequestCodecLaws, !ResultCodec, !ResultCodecLaws}
    {E} `{JudgeExecutor E} (service : JudgeControlService) (client : UdsJudgeControlClient)
    (P : E -> Prop) (fuel : nat) (now : UnixMillis) (latest : Z) (ds : list string) (db : Db) :
  deployed service client -> Inv db -> valid now -> fresh_draws db ds ->
  (length (expired_leases (um_value now) db) < fuel)%nat ->
  (2 * length (expired_leases (um_value now) db) <= length ds)%nat ->
  Recoverable client P db (um_value now) ds latest ->
  exists line rest db1,
    run_op (sweep_tick fuel (Some (um_value now))) (map Some ds) db = (Some (Ok line), map Some rest, db1) /\
    expired_leases (um_value now) db1 = [] /\
    forall sleep turns e, P e -> Turns service db latest turns -> length turns = length (waiting client db1) ->
    exists queue db' e',
      run_loop (H0 := plane_client service client) sleep (map turn_operations turns) (e, plane_at db1 turns)
        = (None, (e', plane_at db' [])) /\
      waiting client db' = [] /\ Judged client db' queue turns e e' /\ rtc Evolves db db' /\ P e' /\
      forall j r, due client db (um_value now) j r ->
        exists r' x p key, id_str (er_evaluation_id r') = j /\ same_evaluation_semantics r r' = true /\
          concluded db' r' x p key.
Proof. intros. by eapply crash_drained. Qed.

(** Evaluation 1 is given up and evaluation 0 waits. *)
Lemma crashes_lose_nothing_witness :
  exists line rest db1 db',
    run_op (sweep_tick 2 (Some 20000%Z)) [Some "cc"; Some "dd"] (with_second db_leased)
      = (Some (Ok line), map Some rest, db1) /\
    run_loop (H0 := plane_client sample_service sample_client) (fun c => c) (map turn_operations (two_turns 20000))
      (Accepting, plane_at db1 (two_turns 20000)) = (None, (Accepting, plane_at db' [])) /\
    forall j, j = "evaluation-0" \/ j = "evaluation-1" ->
      exists r x p key, id_str (er_evaluation_id r) = j /\ concluded db' r x p key.
Proof.
  set (db := with_second db_leased).
  assert (Hi : Inv db) by (apply (with_second_Inv db_leased db_leased_reachable); vm_compute; reflexivity).
  assert (Hnd : NoDup ["cc"; "dd"]) by (apply (bool_decide_unpack _); vm_compute; exact I).
  assert (Hf : fresh_draws db ["cc"; "dd"]) by (apply (fresh_draws_with _ _ Hnd); vm_compute; reflexivity).
  assert (Hone : length (expired_leases 20000 db) = 1) by (vm_compute; reflexivity).
  destruct (crashes_lose_nothing sample_service sample_client accepting 2 late 20000 ["cc"; "dd"] db)
    as (line & rest & db1 & Hsweep & _ & Hloop).
  - exact sample_deployed.
  - exact Hi.
  - vm_compute. split; discriminate.
  - exact Hf.
  - change (um_value late) with 20000%Z. rewrite Hone. exact (le_n 2).
  - change (um_value late) with 20000%Z. rewrite Hone. exact (le_n 2).
  - apply recoverable_with; [exact Hf|reflexivity| |vm_compute; reflexivity].
    apply servable_with. vm_compute. reflexivity.
  - assert (Hdb1 : db1 = after (sweep_tick 2 (Some 20000%Z)) [Some "cc"; Some "dd"] db)
      by (symmetry; exact (after_run _ _ _ _ _ _ Hsweep)).
    destruct (Hloop (fun c => c) (two_turns 20000) Accepting eq_refl) as (queue & db' & e' & Hrun & _ & _ & _ & HP & Hdue).
    + apply two_turns_ready; [lia|lia|vm_compute; reflexivity].
    + rewrite Hdb1. vm_compute. reflexivity.
    + exists line, rest, db1, db'. split; [exact Hsweep|].
      split; [unfold accepting in HP; subst e'; exact Hrun|]. intros j Hj.
      assert (Hr : exists r, due sample_client db 20000 j r)
        by (apply due_with; destruct Hj as [-> | ->]; vm_compute; reflexivity).
      destruct Hr as [r Hr]. destruct (Hdue j r Hr) as (r' & x & p & key & Hid & _ & Hc).
      exists r', x, p, key. split; [exact Hid | exact Hc].
Defined.
