(* ===== verification/PropProcess.v ===== *)
(** * Properties of the processes

    What the operator of a deployment sees: the control plane's start and its
    sweeper, a node that joins it, and the lines of the command line. *)

From S2P Require Import Prelude Value Control Evaluation EvalResult Codec Protocol ProtocolLaws Policy Schema Store Lease StoreLemmas StoreInv Migration StoreSteps StoreWrites StoreSystem StoreRuns StoreRecover StoreDisturbed Fixtures StorePort Text Firecracker Effects ControlPlane Startup Worker JudgeNode Cli PlaneLaws StartupLaws PlaneFixtures.
From stdpp Require Import relations.

(** ** The control plane *)

(** C24: the control plane fails closed: nothing is touched before the whole
    configuration is sound; the steps are taken in one order up to the first that
    fails; the socket is made only over a database with this binary's schema, the
    service served only on a private socket, with its store attached and with the
    configured policies; and the start succeeds exactly when the server it reached
    ends well. *)
Theorem startup_fails_closed `{PlaneEnvironment, SocketFs} :
  let '(r, steps) := control_plane_run [] in
  match startup_config env_var with
  | Err message => r = Err message /\ steps = []
  | Ok config =>
      steps `prefix_of` full_start config /\
      (BindSocket (sc_socket_path config) ∈ steps <-> database_ready config) /\
      (Serve (configured_service config) ∈ steps <->
       database_ready config /\ private_socket (sc_socket_path config)) /\
      (r = Ok tt <-> Serve (configured_service config) ∈ steps /\ server_ends = true) /\
      svc_store (configured_service config) = true /\
      configured_lease_policy (env_var "OPENOJ_LEASE_DURATION_MS") (env_var "OPENOJ_RENEW_AFTER_MS")
        = Ok (svc_lease_policy (configured_service config)) /\
      valid (svc_lease_policy (configured_service config)) /\ sc_pool_size config = 4%Z
  end.
Proof.
  destruct (startup_config env_var) as [config|m] eqn:Hc.
  - pose proof (startup_run config Hc) as Hr. destruct (control_plane_run []) as [r steps].
    destruct (startup_config_Ok _ _ Hc) as (_ & Hl & _ & Hp & Hv).
    destruct Hr as (Hpre & Hbind & Hserve & Hok & _). by split_and!.
  - unfold control_plane_run, eff_bind at 1, eff_lift at 1. by rewrite Hc.
Qed.

(** C25: the sweeper recovers: whatever its clock showed and its sweeps answered at
    earlier ticks, after a tick with a working clock no lease is expired, unless
    the tick reports its failure; with a recovery interval of zero, which the
    configuration accepts, it never sweeps and expired leases stay. *)
Theorem sweeper_recovers `{Collation, RequestCodecLaws} (ops : list Caller) (db : Db)
    (interval : option string) (period : Z) (earlier : list (option Z)) (elapsed : option Z)
    (now : UnixMillis) (fuel : nat) (ds : list string) :
  reachable ops db -> env_u64 interval 5000 = Ok period -> now_millis elapsed = Ok now ->
  (size (evaluations db) < fuel)%nat -> fresh_draws db ds ->
  (2 * (size (evaluations db) * S (length earlier)) <= length ds)%nat ->
  exists lines ds' db',
    run_op (sweeper fuel period (earlier ++ [elapsed])) (map Some ds) db = (Some (Ok lines), ds', db') /\
    Inv db' /\ rtc Evolves db db' /\
    if (period =? 0)%Z then lines = [] /\ db' = db
    else expired_leases (um_value now) db' = [] \/ last lines = Some recovery_failed.
Proof.
  intros Hr Hp Hn Hfuel Hf Hds. pose proof (reachable_Inv _ _ Hr) as Hi.
  destruct (Z.eqb_spec period 0) as [->|Hne].
  - exists [], (map Some ds), db. by rewrite sweeper_stopped.
  - destruct (sweep_loop_run fuel elapsed now earlier ds db Hi Hf Hfuel Hds Hn)
      as (lines & rest & db' & Hrun & Hi' & Hev & Hans).
    exists lines, (map Some rest), db'. unfold sweeper, interval_ticks.
    by rewrite (proj2 (Z.eqb_neq _ _) Hne).
Qed.

Lemma sweeper_recovers_witness :
  exists lines ds' db',
    run_op (sweeper 3 300 [None; Some 20000%Z]) [Some "aa"; Some "bb"; Some "cc"; Some "dd"] db_leased
      = (Some (Ok lines), ds', db') /\
    (expired_leases 20000 db' = [] \/ last lines = Some recovery_failed) /\
    length (expired_leases 20000 db_leased) = 1.
Proof.
  destruct db_leased_reachable as [ops Hr].
  assert (Hs : size (evaluations db_leased) = 1%nat) by (vm_compute; reflexivity).
  assert (Hnd : NoDup ["aa"; "bb"; "cc"; "dd"]) by (apply (bool_decide_unpack _); by vm_compute).
  assert (Hfresh := fresh_draws_with db_leased ["aa"; "bb"; "cc"; "dd"] Hnd ltac:(vm_compute; reflexivity)).
  destruct (sweeper_recovers ops db_leased (Some "300") 300 [None] (Some 20000%Z) (MkMillis 20000) 3
    ["aa"; "bb"; "cc"; "dd"] Hr) as (lines & ds' & db' & Hrun & _ & _ & Hans).
  - vm_compute; reflexivity.
  - vm_compute; reflexivity.
  - rewrite Hs. lia.
  - exact Hfresh.
  - rewrite Hs. simpl. lia.
  - exists lines, ds', db'. split; [exact Hrun|]. split; [exact Hans|]. vm_compute; reflexivity.
Defined.

(** ** A node joins *)

(** C26: the two processes fit together: a development node started beside a
    configured control plane negotiates exactly when OPENOJ_JUDGE_NODES lists its
    name with the batch profile, and it then holds what every theorem about node
    and service assumes of a deployment. *)
Theorem node_joins_deployment (plane_env node_env : string -> option string) (config : StartupConfig)
    (nodes : string) (entries : list (NodeId * list Capability)) (node : NodeId) :
  startup_config plane_env = Ok config -> plane_env "OPENOJ_JUDGE_NODES" = Some nodes ->
  traverse parse_node_entry (split_on ";" nodes) = Ok entries -> development_node node_env node ->
  let start := node_run node_env true (negotiate (configured_service config)) in
  if bool_decide (Exists (fun entry => fst entry = node /\ batch_profile ∈ snd entry) entries)
  then exists client, start = Ok (client, DevelopmentMock (MkDevelopmentMock node)) /\
    deployed (configured_service config) client /\ uc_node_id client = node /\
    uc_capabilities client = [batch_profile]
  else is_ok start = false.
Proof.
  intros Hc Hn He Hdev. cbv zeta.
  destruct (startup_config_Ok _ _ Hc) as ((nodes' & entries' & Hn' & He' & Hnew) & _ & _ & _ & Hv).
  assert (nodes' = nodes) as -> by congruence. assert (entries' = entries) as -> by congruence.
  pose proof Hdev as (_ & _ & _ & Hnode).
  assert (Hl : admitted (configured_service config) node [batch_profile] <->
    Exists (fun entry => fst entry = node /\ batch_profile ∈ snd entry) entries).
  { rewrite (listed_admitted config entries node Hnew), Exists_exists. split.
    - intros (caps & Hin & Hb). by exists (node, caps).
    - intros ([n caps] & Hin & Heq & Hb). simpl in *. subst n. by exists caps. }
  case_bool_decide as Hx; rewrite <- Hl in Hx.
  - eexists. split; [by apply (node_joins node_env config node _ _ Hdev Hv)|].
    split; [by apply joined_deployed | done].
  - destruct (node_run node_env true _) as [[client ex]|e] eqn:Hs; [|done].
    by apply (node_joins node_env config node _ _ Hdev Hv) in Hs as [? _].
Qed.

(** The environment of a small deployment. *)
Definition plane_vars (name : string) : option string :=
  if String.eqb name "OPENOJ_DATABASE_URL" then Some "postgres://db"
  else if String.eqb name "OPENOJ_JUDGE_CONTROL_SOCKET" then Some "/run/openoj/judge.sock"
  else if String.eqb name "OPENOJ_JUDGE_NODES" then Some "node-1:algorithm.batch;node-2:language.cpp"
  else None.

Definition node_vars (name : string) : option string :=
  if String.eqb name "OPENOJ_JUDGE_EXECUTOR" then Some "development_mock"
  else if String.eqb name "OPENOJ_JUDGE_CONTROL_SOCKET" then Some "/run/openoj/judge.sock"
  else if String.eqb name "OPENOJ_JUDGE_NODE_ID" then Some "node-1"
  else None.

Lemma node_joins_deployment_witness :
  exists config client, startup_config plane_vars = Ok config /\
    node_run node_vars true (negotiate (configured_service config))
      = Ok (client, DevelopmentMock (MkDevelopmentMock (MkId "node-1"))) /\
    deployed (configured_service config) client.
Proof.
  destruct (ok_with (startup_config plane_vars) (fun _ => true)) as (config & Hc & _);
    [vm_compute; reflexivity|].
  destruct (ok_with (traverse parse_node_entry (split_on ";" "node-1:algorithm.batch;node-2:language.cpp"))
    (fun entries => bool_decide (Exists (fun entry => fst entry = MkId "node-1" /\ batch_profile ∈ snd entry)
                                   entries))) as (entries & He & Hx); [vm_compute; reflexivity|].
  pose proof (node_joins_deployment plane_vars node_vars config _ entries (MkId "node-1") Hc eq_refl He)
    as Hthm.
  rewrite Hx in Hthm. destruct Hthm as (client & Hs & Hd & _).
  - split; [reflexivity|]. split; [exists "/run/openoj/judge.sock"; split; vm_compute; reflexivity|].
    split; [reflexivity|]. vm_compute; reflexivity.
  - exists config, client. split; [exact Hc|]. split; [exact Hs | exact Hd].
Defined.

(** ** The command line *)



(** A submission that answers an error may have written its rows. *)
Lemma submission_error_recorded :
  exists db1, disturbed (answering (create_evaluation {| ce_request := request_1; ce_created_at := MkMillis 1000 |})
      printed_snapshot) empty_db [(empty_db, db1)] (Done (Ok (Err CliError.Storage))) db1.
Proof.
  destruct (ok_with (encode_evaluation_request request_1) (fun payload =>
      match create_transaction {| ce_request := request_1; ce_created_at := MkMillis 1000 |} payload empty_db with
      | Ok (None, db1) => negb (bool_decide (evaluations db1 = ∅))
      | _ => false
      end)) as (payload & Henc & Hw); [vm_compute; reflexivity|].
  destruct (create_transaction _ payload empty_db) as [[[id|] db1]|e] eqn:Ht; [discriminate Hw| |discriminate Hw].
  exists db1. apply (created_then_lost _ payload printed_snapshot); [exact Henc | exact Ht|].
  intros ->. by rewrite bool_decide_eq_true_2 in Hw.
Qed.
